(* ===== verification/_CoqProject ===== *)
-Q . S2P
Prelude.v
Types.v
Libs.v
Path.v
EvsQuery.v
EvsFree.v
State.v
Callbacks.v
Sub.v
SubRace.v
Apps.v
ClientSub.v
Raw.v
WebSocket.v
Config.v
Poll.v
Pages.v
Send.v
Quiet.v
Evs.v
Broadcast.v
Buffers.v
Route.v
Receive.v
Http.v
Keep.v
Steady.v
Works.v
Protocols.v
Startup.v
AppLoad.v
ClientTest.v
Answers.v
Loop.v
Handshake.v
Stream.v
Invariant.v
Requests.v
Reading.v
Upkeep.v
Server.v
Skeleton.v
