(* ===== verification/Prelude.v ===== *)
(** * QuickIO

    A model of the QuickIO server (the C files of src/src, and the sample
    application of src/docs/overview) and the theorems that make its parts
    correct. QuickIO lets clients subscribe to events, fires callbacks
    between clients and the applications loaded into the server, and carries
    both over four protocols: raw TCP, WebSocket, HTTP long polling, and flash's
    policy request.

    ** How the program hangs together

    quick-event, the framework below (not in the repository), accepts
    connections and calls qev.c: open, read, tick, close, free. A read goes to
    protocols.c, which finds the client's protocol, shakes hands and then loops
    over the buffer; the protocol cuts out one message and hands its path,
    callback id and JSON to evs.c. evs.c cleans the path, looks it up in the
    tree of evs_query.c, and calls the handler: one of evs_qio.c's or an
    application's. Handlers change what client.c keeps for the client (its
    subscriptions, server callbacks, data), through the tables of
    subscriptions of sub.c, and answer through protocols.c, which frames a
    message for the client's protocol. A tick sends queued broadcasts; a timer
    sends heartbeats and prunes callbacks.

    ** Files

    - Prelude.v: bytes, C strings, decimal and big-endian numbers, notation,
      generic lemmas, the hint database [qio].
    - Types.v: enums and structs; Libs.v: the functions of GLib, OpenSSL and
      quick-event that the sources call, as a class [Libs] with the laws
      [LibsOk] and the instance [libs0] to compute with; Apps.v: the functions of
      applications, as a class of parameters; Config.v: config.c.
    - State.v: [world], the clients, subscriptions and globals of the sources.
    - Path.v, EvsQuery.v, EvsFree.v: evs_clean_path, evs_make_path and
      evs_query.c, with the release of the tree at exit.
    - Callbacks.v, ClientSub.v: client.c. Sub.v: sub.c, one call at a time;
      SubRace.v: the same calls interleaved, one memory access at a time.
    - Raw.v, WebSocket.v: bytes of the protocols, both directions.
    - Poll.v: the surrogates and pollers of protocols_http.c, and its
      responses; Pages.v: the pages among them. Send.v: the sending half of
      protocols.c.
    - Quiet.v: the invariant [evs_ok] of the whole state and the classes of
      steps that keep it; what is asked of applications that only decide
      ([AppsQuiet]).
    - Evs.v: evs.c and evs_qio.c, all definitions, with answering and
      subscribing; Broadcast.v: the broadcast queue; Route.v: routing.
      Buffers.v: the same messages with the buffers that they are built in,
      as Module [Buf], and that nothing else changes.
    - Receive.v, Http.v: the receiving halves of the protocols. Protocols.v: the
      dispatcher of protocols.c, qev.c and periodic.c.
    - Startup.v: quickio.c and the initialisers of all files, the options of
      config.c, and the events that applications register; AppLoad.v: apps.c
      and main.c.
    - Keep.v: frames, relations that say what an operation leaves alone, and that
      every operation stays within them. Loop.v: the reading loop ends.
      Handshake.v: the first bytes of a connection. Stream.v: raw connections
      cut into pieces.
    - Steady.v, Works.v: the frames of what applications may do, and the class
      [AppsSound] of applications that may send, answer, close, subscribe and
      unsubscribe, attach data and make callbacks. ClientTest.v: one of them,
      quickio-clienttest.c.
    - Invariant.v: the invariant [server_ok] of the server, also in the middle of
      a request; Requests.v, Reading.v, Upkeep.v: what reads, and what
      quick-event calls besides, keeps it. Server.v: all calls in any order,
      with what applications hold between them. Skeleton.v: the sample
      application, whose thread holds clients, as steps of Server.v.

    An operation of the sources is a function from a [world] to a [world], with
    its result; it has the name it has in C. Reading through a NULL or freed
    pointer raises [w_fault] and changes nothing else, so "no undefined access"
    is [w_fault w' = w_fault w]. Integers are Z with the wrap-around written
    out where the source has a width. What is written to a connection is kept
    in order in [c_out].

    ** What is shown

    - The whole server: a step relation over everything that quick-event and the
      applications call, and an invariant of all states that it reaches
      (Server.v). Nothing undefined is accessed, every reference is accounted
      for, those of applications too, links, session tables and subscriptions
      agree, and reading and the tick always return.
    - Start-up reaches the state that all of this starts from, for every set of
      applications that load (Startup.v, AppLoad.v); the tree of events is
      released once (EvsFree.v).
    - Applications: the test application is one that the server is sound with,
      up to one handler that is shown to accept a subscription twice
      (ClientTest.v); the sample application refines the server's steps and
      loses no request (Skeleton.v).
    - Buffers: sending, answering and broadcasting put back each buffer that
      they get, once, and say what the model without buffers says (Buffers.v).
    - Data structures against specifications: the event tree is a finite map
      with longest-prefix lookup (EvsQuery.v), a client's subscription is a
      four-state machine (ClientSub.v), callbacks are a finite map with
      eviction whose ids are not reused early (Callbacks.v), path cleaning in
      place is a function (Path.v).
    - Accounting: references to subscriptions, permits, destructors and
      statistics balance over every operation (ClientSub.v, Callbacks.v,
      Sub.v), also when calls race (SubRace.v, with freedom from deadlock).
    - Protocols: decoders agree with the formats on every input, encoders
      produce what the formats read back (Raw.v, WebSocket.v, Poll.v).
    - Long polling: links between surrogates and pollers stay mutual and
      counted; every message goes out once (Poll.v).
    - Events: each request is routed as the table says and answered at most
      once, with the code of its case; subscriptions get each event once and
      only while active; broadcasts reach exactly the active subscribers
      (Evs.v, Route.v, Broadcast.v).
    - Termination: the broadcast tick (Broadcast.v) and the reading loop for
      arbitrary input (Loop.v). The in-place path loop is total too (Path.v).
    - Connections: what the first bytes make of a client (Handshake.v); where a
      raw connection is cut does not matter (Stream.v).

    ** Fuel

    [InPlace.evs_clean_path] is given the length of the string plus one,
    [broadcast_loop] the length of the queue, [route_loop] the length of the
    buffer plus one; theorems show that these are enough. The unmasking loops
    of [_decode] take the payload's length, which their specification covers.

    [Buf.broadcast_loop] has the fuel of [broadcast_loop]. The thread of the
    sample application is given one round for each request in its queue and one
    more for the NULL that ends it.

    ** Assumptions

    The laws of [LibsOk]; of the pool of buffers, that it hands out buffers that
    nobody has; for the pages, that replacing text replaces all of it. For the
    theorems about the whole server, applications are [AppsSound]: each of their
    functions keeps the invariants when the server calls it, as calls of the
    server's own interface do, and unsubscribing handlers only count
    ([OffCalm]). For the exact answers of Evs.v and Route.v they decide and
    leave the server's state alone ([AppsQuiet], [AppsLocal]). [client_closed]
    needs only that unsubscribing handlers do not subscribe ([OffQuiet]);
    reading needs only that applications leave connection buffers alone
    ([AppsKeep]). Reference counts are 32 bits, and the sources do not check
    them; in Server.v they do not overflow while clients, queued broadcasts and
    copies of one subscription are fewer than 2^32 - 16 ([room]). There,
    quick-event reads only from connections that are open, closes a client
    once, after it was told to close, and frees it when no reference is left.
    Applications call about clients that have found a protocol ([addressee]),
    and do not accept a subscription that is active. What they keep beyond a
    call (copies of [evs_on_info], clients) they take right after the message
    that it was part of; that it stays there, and can be sent to, is shown.

    ** Not modelled

    Locks as such: an operation is one step, except in SubRace.v. The threads
    of a broadcast and of the periodic run work on different clients and are
    run in sequence. Memory of GLib, buffers other than those of Buffers.v, the
    reuse of buffers' memory; timers; descriptions of statistics; the release
    of tables at exit, except the tree of events and the responses. Broadcasts
    that an application queues inside a handler: they are steps of their own.
    Tests and benchmarks (src/test, src/bench), which only drive the code
    above, and the programs that clients run. In-place changes of bytes that a
    reader is already past. *)
From Stdlib Require Import ZArith Lia Ascii String.
From stdpp Require Import base list gmap strings.

Open Scope Z_scope.

(** ** Bytes and C strings *)

(** A [gchar] buffer is the list of its unsigned byte values. *)
Abbreviation bytes := (list Z).

Definition byte_ok (b : Z) : Prop := 0 ≤ b < 256.
Abbreviation bytes_ok := (Forall byte_ok).

#[export] Instance byte_ok_dec b : Decision (byte_ok b).
Proof. unfold byte_ok. apply _. Defined.

Fixpoint str (s : string) : bytes :=
  match s with
  | EmptyString => []
  | String a s => Z.of_N (N_of_ascii a) :: str s
  end.

Arguments str _%_string.

(** The characters the sources name by a literal. *)
Definition NUL : Z := 0.
Definition SLASH : Z := 47.
Definition COLON : Z := 58.
Definition EQUALS : Z := 61.
Definition DQUOTE : Z := 34.
Definition LBRACKET : Z := 91.
Definition RBRACE : Z := 125.
Definition NEWLINE : Z := 10.

(** A JSON string token: the characters of [s] between double quotes. *)
Definition quoted (s : bytes) : bytes := [DQUOTE] ++ s ++ [DQUOTE].

(** No byte of the list is the terminator. *)
Definition no_nul (l : bytes) : Prop := Forall (λ b, b ≠ NUL) l.

(** What a [gchar *] to the start of the buffer denotes: the bytes up to the
    terminator. *)
Fixpoint cstr (l : bytes) : bytes :=
  match l with
  | [] => []
  | b :: l => if b =? NUL then [] else b :: cstr l
  end.

(** [strchr]: the parts before and after the first occurrence of [c]. *)
Fixpoint cut (c : Z) (l : bytes) : option (bytes * bytes) :=
  match l with
  | [] => None
  | b :: l => if b =? c then Some ([], l)
              else '(x, y) ← cut c l; Some (b :: x, y)
  end.

(** [g_str_has_prefix]. *)
Definition has_prefix (p l : bytes) : bool := bool_decide (take (length p) l = p).

(** [strstr(l, p)]: [l] from the first occurrence of [p]. *)
Fixpoint strstr (l p : bytes) : option bytes :=
  if has_prefix p l then Some l
  else match l with [] => None | _ :: l => strstr l p end.

(** Read and write one byte of a buffer; a [GString] keeps a terminator one
    past its end, which reads as NUL. *)
Definition rd (buf : bytes) (i : nat) : Z := default NUL (buf !! i).
Definition wr (buf : bytes) (i : nat) (v : Z) : bytes := <[i := v]> buf.

(** ** Machine integers *)

Definition u8 (z : Z) : Z := z mod 2 ^ 8.
Definition u16 (z : Z) : Z := z mod 2 ^ 16.
Definition u32 (z : Z) : Z := z mod 2 ^ 32.
Definition u64 (z : Z) : Z := z mod 2 ^ 64.
Definition u64_max : Z := 2 ^ 64 - 1.

(** ** Byte order *)

(** Big-endian value of a byte string ([GUINT64_FROM_BE] after a load). *)
Definition be_join (l : bytes) : Z := foldl (λ acc b, acc * 256 + b) 0 l.

(** The [n] big-endian bytes of [z] ([GUINT64_TO_BE] before a store). *)
Fixpoint be_split (n : nat) (z : Z) : bytes :=
  match n with
  | O => []
  | S n => be_split n (z / 256) ++ [z mod 256]
  end.

(** Little-endian value and bytes: how a word load or store sees memory. *)
Fixpoint le_join (l : bytes) : Z :=
  match l with
  | [] => 0
  | b :: l => b + 256 * le_join l
  end.

Fixpoint le_split (n : nat) (z : Z) : bytes :=
  match n with
  | O => []
  | S n => z mod 256 :: le_split n (z / 256)
  end.

(** ** Decimal numerals *)

Definition is_digit (c : Z) : bool := (48 <=? c) && (c <=? 57).

Fixpoint dec_fuel (fuel : nat) (z : Z) : bytes :=
  match fuel with
  | O => []
  | S fuel => if z <? 10 then [48 + z]
              else dec_fuel fuel (z / 10) ++ [48 + z mod 10]
  end.

(** The decimal numeral of a non-negative integer; the fuel, one more than the
    number of bits, exceeds the number of digits ([undec_dec]). *)
Definition dec (z : Z) : bytes := dec_fuel (S (Z.to_nat (Z.log2 z))) z.

Definition undec (l : bytes) : Z := foldl (λ acc d, acc * 10 + (d - 48)) 0 l.

(** ** Automation *)

Create HintDb qio.
Create Rewrite HintDb qio.

(** Case analysis on the booleans and options a definition branches on. *)
Ltac branch :=
  match goal with
  | |- context [if ?b then _ else _] => destruct b eqn:?
  | |- context [match ?o with _ => _ end] => destruct o eqn:?
  end.

Ltac bool_to_Prop :=
  repeat match goal with
  | H : (_ && _) = true |- _ => apply andb_true_iff in H; destruct H
  | H : (_ || _) = false |- _ => apply orb_false_iff in H; destruct H
  | H : (_ =? _) = true |- _ => apply Z.eqb_eq in H
  | H : (_ =? _) = false |- _ => apply Z.eqb_neq in H
  | H : (_ <? _) = true |- _ => apply Z.ltb_lt in H
  | H : (_ <? _) = false |- _ => apply Z.ltb_ge in H
  | H : (_ <=? _) = true |- _ => apply Z.leb_le in H
  | H : (_ <=? _) = false |- _ => apply Z.leb_gt in H
  | H : negb _ = true |- _ => apply negb_true_iff in H
  | H : negb _ = false |- _ => apply negb_false_iff in H
  end.

(** ** Lemmas *)

Lemma no_nul_cons b l : no_nul (b :: l) ↔ b ≠ NUL ∧ no_nul l.
Proof. apply Forall_cons_iff. Qed.

Lemma no_nul_app l1 l2 : no_nul (l1 ++ l2) ↔ no_nul l1 ∧ no_nul l2.
Proof. apply Forall_app. Qed.

Lemma cstr_app l rest : no_nul l → cstr (l ++ NUL :: rest) = l.
Proof.
  induction l as [|b l IH]; simpl; [done|].
  rewrite no_nul_cons. intros [Hb Hl].
  destruct (Z.eqb_spec b NUL); [done|]. by rewrite IH.
Qed.

Lemma cstr_id l : no_nul l → cstr l = l.
Proof.
  induction l as [|b l IH]; simpl; [done|].
  rewrite no_nul_cons. intros [Hb Hl].
  destruct (Z.eqb_spec b NUL); [done|]. by rewrite IH.
Qed.

Lemma cstr_no_nul l : no_nul (cstr l).
Proof.
  induction l as [|b l IH]; simpl; [constructor|].
  destruct (Z.eqb_spec b NUL); [constructor|]. by rewrite no_nul_cons.
Qed.

Lemma cut_app c l rest : c ∉ l → cut c (l ++ c :: rest) = Some (l, rest).
Proof.
  induction l as [|b l IH]; simpl; intros Hc.
  - by rewrite Z.eqb_refl.
  - rewrite not_elem_of_cons in Hc. destruct Hc as [Hb Hc].
    destruct (Z.eqb_spec b c); [congruence|]. by rewrite IH.
Qed.

Lemma cut_Some c l x y : cut c l = Some (x, y) ↔ l = x ++ c :: y ∧ c ∉ x.
Proof.
  split.
  - revert x. induction l as [|b l IH]; intros x; simpl; [done|].
    destruct (Z.eqb_spec b c) as [->|Hb].
    + intros [= <- <-]. split; [done|set_solver].
    + destruct (cut c l) as [[x' y']|] eqn:E; simpl; [|done].
      intros [= <- <-]. destruct (IH x' eq_refl) as [-> Hx].
      split; [done|]. rewrite not_elem_of_cons. by split; [congruence|].
  - intros [-> Hx]. by apply cut_app.
Qed.

Lemma cut_None c l : cut c l = None ↔ c ∉ l.
Proof.
  induction l as [|b l IH]; simpl; [set_solver|].
  rewrite not_elem_of_cons, <- IH.
  destruct (Z.eqb_spec b c) as [->|Hb]; [by split; [|intros [[] ?]]|].
  destruct (cut c l) as [[x y]|]; simpl; [by split; [|intros [??]]|].
  by split; [split; [congruence|]|].
Qed.

Lemma str_app s1 s2 : str (s1 ++ s2) = str s1 ++ str s2.
Proof. induction s1 as [|a s1 IH]; simpl; [done|]. by f_equal. Qed.

Lemma has_prefix_spec p l : has_prefix p l = true ↔ p `prefix_of` l.
Proof.
  unfold has_prefix. rewrite bool_decide_eq_true. split.
  - intros <-. apply prefix_take.
  - intros [k ->]. apply take_app_length.
Qed.

Lemma u64_small z : 0 ≤ z < 2 ^ 64 → u64 z = z.
Proof. apply Z.mod_small. Qed.

(** *** Byte order *)

Lemma length_be_split n z : length (be_split n z) = n.
Proof.
  revert z. induction n as [|n IH]; intros z; simpl; [done|].
  rewrite length_app, IH. simpl. lia.
Qed.

Lemma foldl_base_acc (B : Z) (f : Z → Z) a l :
  foldl (λ acc b, acc * B + f b) a l =
  a * B ^ Z.of_nat (length l) + foldl (λ acc b, acc * B + f b) 0 l.
Proof.
  revert a. induction l as [|b l IH]; intros a; cbn [foldl length].
  { change (Z.of_nat 0) with 0. rewrite Z.pow_0_r. ring. }
  rewrite IH, (IH (0 * B + f b)), Nat2Z.inj_succ, Z.pow_succ_r by lia. ring.
Qed.

Lemma be_join_app l1 l2 :
  be_join (l1 ++ l2) = be_join l1 * 256 ^ Z.of_nat (length l2) + be_join l2.
Proof. unfold be_join. rewrite foldl_app. apply (foldl_base_acc 256 id). Qed.

Lemma be_join_bound l : bytes_ok l → 0 ≤ be_join l < 256 ^ Z.of_nat (length l).
Proof.
  induction l as [|b l IH] using rev_ind; intros Hl; [by cbv|].
  rewrite Forall_app, Forall_singleton in Hl. destruct Hl as [Hl Hb].
  rewrite be_join_app, length_app, Nat2Z.inj_add, Z.pow_add_r by lia.
  specialize (IH Hl). unfold byte_ok in Hb.
  change (be_join [b]) with (0 * 256 + b). change (Z.of_nat (length [b])) with 1.
  rewrite Z.pow_1_r. lia.
Qed.

Lemma be_join_split n z : 0 ≤ z < 256 ^ Z.of_nat n → be_join (be_split n z) = z.
Proof.
  revert z. induction n as [|n IH]; intros z Hz; simpl; [change (256 ^ Z.of_nat 0) with 1 in Hz; cbv; lia|].
  rewrite Nat2Z.inj_succ, Z.pow_succ_r in Hz by lia.
  rewrite be_join_app. change (be_join [z mod 256]) with (0 * 256 + z mod 256).
  change (Z.of_nat (length [z mod 256])) with 1. rewrite Z.pow_1_r, IH.
  - pose proof (Z.div_mod z 256). lia.
  - split; [apply Z.div_pos; lia|]. apply Z.div_lt_upper_bound; lia.
Qed.

Lemma be_split_ok n z : bytes_ok (be_split n z).
Proof.
  revert z. induction n as [|n IH]; intros z; simpl; [constructor|].
  rewrite Forall_app, Forall_singleton. split; [apply IH|].
  apply Z.mod_pos_bound. lia.
Qed.

Lemma length_le_split n z : length (le_split n z) = n.
Proof. revert z. induction n as [|n IH]; intros z; simpl; auto. Qed.

Lemma le_split_join l : bytes_ok l → le_split (length l) (le_join l) = l.
Proof.
  induction l as [|b l IH]; simpl; [done|]. intros [Hb Hl]%Forall_cons_iff.
  unfold byte_ok in Hb. f_equal.
  - rewrite (Z.mul_comm 256), Z.mod_add by lia. apply Z.mod_small. lia.
  - rewrite (Z.mul_comm 256), Z.div_add, Z.div_small by lia. by apply IH.
Qed.

Lemma le_split_mod n m z :
  (n ≤ m)%nat → le_split n (z mod 256 ^ Z.of_nat m) = le_split n z.
Proof.
  revert m z. induction n as [|n IH]; intros [|m] z Hm; cbn [le_split]; try done; try lia.
  assert (Hp : 256 ^ Z.of_nat (S m) = 256 * 256 ^ Z.of_nat m)
    by (rewrite Nat2Z.inj_succ, Z.pow_succ_r by lia; lia).
  assert (0 < 256 ^ Z.of_nat m) by (apply Z.pow_pos_nonneg; lia).
  rewrite Hp, Z.rem_mul_r by lia. f_equal.
  - rewrite (Z.mul_comm 256), Z.mod_add by lia. by rewrite Z.mod_mod by lia.
  - rewrite (Z.mul_comm 256 (_ mod _)), Z.div_add by lia.
    rewrite (Z.div_small (z mod 256) 256) by (apply Z.mod_pos_bound; lia).
    rewrite Z.add_0_l. apply IH. lia.
Qed.

Lemma land_lxor_l a b c : Z.land (Z.lxor a b) c = Z.lxor (Z.land a c) (Z.land b c).
Proof.
  apply Z.bits_inj'. intros n Hn. rewrite !Z.land_spec, !Z.lxor_spec, !Z.land_spec.
  by destruct (Z.testbit a n), (Z.testbit b n), (Z.testbit c n).
Qed.

(** Exclusive or acts byte by byte: the word-wide operation on joined bytes is
    the byte-wide operation on each. *)
Lemma lxor_cons a x b y :
  byte_ok a → byte_ok b →
  Z.lxor (a + 256 * x) (b + 256 * y) = Z.lxor a b + 256 * Z.lxor x y.
Proof.
  unfold byte_ok. intros Ha Hb.
  assert (Hlo : ∀ c z, 0 ≤ c < 256 → (c + 256 * z) mod 2 ^ 8 = c).
  { intros c z Hc. change (2 ^ 8) with 256.
    rewrite (Z.mul_comm 256), Z.mod_add by lia. apply Z.mod_small; lia. }
  assert (Hhi : ∀ c z, 0 ≤ c < 256 → Z.shiftr (c + 256 * z) 8 = z).
  { intros c z Hc. rewrite Z.shiftr_div_pow2 by lia. change (2 ^ 8) with 256.
    rewrite (Z.mul_comm 256), Z.div_add by lia. rewrite Z.div_small by lia. lia. }
  rewrite (Z.div_mod (Z.lxor (a + 256 * x) (b + 256 * y)) (2 ^ 8)) by lia.
  rewrite <- Z.shiftr_div_pow2 by lia. rewrite Z.shiftr_lxor, !Hhi by lia.
  rewrite <- Z.land_ones by lia.
  rewrite land_lxor_l.
  rewrite !Z.land_ones, !Hlo by lia. change (2 ^ 8) with 256. lia.
Qed.

Lemma lxor_byte_ok a b : byte_ok a → byte_ok b → byte_ok (Z.lxor a b).
Proof.
  unfold byte_ok. intros Ha Hb. split; [apply Z.lxor_nonneg; lia|].
  destruct (Z.eq_dec (Z.lxor a b) 0) as [->|Hne]; [lia|].
  apply (Z.log2_lt_pow2 _ 8); [pose proof (Z.lxor_nonneg a b); lia|].
  pose proof (Z.log2_lxor a b). 
  assert (Z.log2 a < 8) by (destruct (Z.eq_dec a 0) as [->|]; [done|apply Z.log2_lt_pow2; lia]).
  assert (Z.log2 b < 8) by (destruct (Z.eq_dec b 0) as [->|]; [done|apply Z.log2_lt_pow2; lia]).
  lia.
Qed.

(** *** Decimal numerals *)

Lemma undec_app l d : undec (l ++ [d]) = undec l * 10 + (d - 48).
Proof. unfold undec. by rewrite foldl_app. Qed.

Lemma undec_dec_fuel fuel z : 0 ≤ z < 2 ^ Z.of_nat fuel → undec (dec_fuel fuel z) = z.
Proof.
  revert z. induction fuel as [|fuel IH]; intros z Hz; cbn [dec_fuel].
  { change (2 ^ Z.of_nat 0) with 1 in Hz. cbv. lia. }
  rewrite Nat2Z.inj_succ, Z.pow_succ_r in Hz by lia.
  destruct (Z.ltb_spec z 10); [unfold undec; simpl; lia|].
  pose proof (Z.div_mod z 10). pose proof (Z.mod_pos_bound z 10).
  rewrite undec_app, IH; lia.
Qed.

Lemma dec_fuel_digits fuel z : 0 ≤ z → Forall (λ c, is_digit c = true) (dec_fuel fuel z).
Proof.
  unfold is_digit. revert z. induction fuel as [|fuel IH]; intros z Hz; cbn [dec_fuel]; [constructor|].
  destruct (Z.ltb_spec z 10).
  - rewrite Forall_singleton. lia.
  - pose proof (Z.mod_pos_bound z 10).
    rewrite Forall_app, Forall_singleton. split; [apply IH, Z.div_pos; lia|lia].
Qed.

Lemma undec_dec z : 0 ≤ z → undec (dec z) = z.
Proof.
  intros Hz. apply undec_dec_fuel. split; [done|].
  rewrite Nat2Z.inj_succ, Z2Nat.id by apply Z.log2_nonneg.
  destruct (Z.eq_dec z 0) as [->|]; [done|]. apply Z.log2_spec. lia.
Qed.

Lemma dec_digits z : 0 ≤ z → Forall (λ c, is_digit c = true) (dec z).
Proof. apply dec_fuel_digits. Qed.

Lemma dec_not_nil z : dec z ≠ [].
Proof.
  unfold dec. cbn [dec_fuel]. destruct (z <? 10); [done|].
  by destruct (dec_fuel _ _).
Qed.

Lemma dec_inj z1 z2 : 0 ≤ z1 → 0 ≤ z2 → dec z1 = dec z2 → z1 = z2.
Proof. intros H1 H2 E. rewrite <- (undec_dec z1), <- (undec_dec z2), E; done. Qed.

Lemma digits_not_in c l : is_digit c = false → Forall (λ c, is_digit c = true) l → c ∉ l.
Proof. intros Hc Hl Hin. rewrite Forall_forall in Hl. specialize (Hl c Hin). congruence. Qed.

Lemma digits_no_nul l : Forall (λ c, is_digit c = true) l → no_nul l.
Proof.
  intros H. eapply Forall_impl; [exact H|]. by intros c Hc ->.
Qed.

(** *** Lists kept in the values of a map *)

(** All the items [f] finds in the values of a map. *)
Definition map_items {A B} (f : A → list B) (m : gmap positive A) : list B :=
  map_to_list m ≫= f ∘ snd.

Lemma map_items_insert {A B} (f : A → list B) m k x y :
  m !! k = Some y →
  map_items f (<[k := x]> m) ++ f y ≡ₚ map_items f m ++ f x.
Proof.
  intros Hk. unfold map_items.
  rewrite <- (map_to_list_delete m k y Hk).
  rewrite <- (insert_delete_eq m k x), map_to_list_insert by apply lookup_delete_eq.
  rewrite !bind_cons. simpl. rewrite !(comm (++) _ (f y)), <- !app_assoc.
  apply Permutation_app_head, Permutation_app_comm.
Qed.

Lemma map_items_fresh {A B} (f : A → list B) m k x :
  m !! k = None → map_items f (<[k := x]> m) ≡ₚ f x ++ map_items f m.
Proof. intros Hk. unfold map_items. by rewrite map_to_list_insert. Qed.

Lemma map_items_delete {A B} (f : A → list B) m k x :
  m !! k = Some x → f x ++ map_items f (delete k m) ≡ₚ map_items f m.
Proof. intros Hk. unfold map_items. by rewrite <- (map_to_list_delete m k x Hk). Qed.

Lemma map_items_elem {A B} (f : A → list B) m b :
  b ∈ map_items f m ↔ ∃ k x, m !! k = Some x ∧ b ∈ f x.
Proof.
  unfold map_items. rewrite list_elem_of_bind. split.
  - intros ([k x] & Hb & Hx). apply elem_of_map_to_list in Hx. eauto.
  - intros (k & x & Hk & Hb). exists (k, x). by rewrite elem_of_map_to_list.
Qed.

(** *** Lists of slots *)

(** The contents of the occupied slots. *)
Definition occupied {A} (l : list (option A)) : list A := omap id l.

Lemma occupied_app {A} (l1 l2 : list (option A)) :
  occupied (l1 ++ l2) = occupied l1 ++ occupied l2.
Proof. apply omap_app. Qed.

Lemma occupied_insert {A} (l : list (option A)) i x y :
  l !! i = Some y →
  occupied (<[i := x]> l) ++ option_list y ≡ₚ occupied l ++ option_list x.
Proof.
  intros Hi. rewrite <- (take_drop_middle l i y Hi) at 2.
  rewrite insert_take_drop by eauto using lookup_lt_Some.
  rewrite !occupied_app, <- !app_assoc. apply Permutation_app_head.
  change (occupied (x :: drop (S i) l)) with (occupied ([x] ++ drop (S i) l)).
  change (occupied (y :: drop (S i) l)) with (occupied ([y] ++ drop (S i) l)).
  rewrite !occupied_app. destruct x as [x|], y as [y|]; simpl; rewrite ?app_nil_r;
    solve_Permutation.
Qed.

Lemma occupied_cons {A} (o : option A) l :
  occupied (o :: l) = option_list o ++ occupied l.
Proof. by destruct o. Qed.

Lemma length_occupied {A} (l : list (option A)) : (length (occupied l) ≤ length l)%nat.
Proof. induction l as [|[x|] l IH]; rewrite ?occupied_cons; simpl in *; lia. Qed.

Lemma occupied_full {A} (l : list (option A)) i :
  length (occupied l) = length l → l !! i ≠ Some None.
Proof.
  revert i. induction l as [|[x|] l IH]; intros i; rewrite ?occupied_cons; simpl; [done| |].
  - intros [= H]. destruct i; [done|]. by apply IH.
  - pose proof (length_occupied l). lia.
Qed.

Lemma alter_id_at {A} (f : A → A) (i : nat) (l : list A) : (∀ x, l !! i = Some x → f x = x) → alter f i l = l.
Proof.
  intros Hf. rewrite <- (list_alter_id id l i) at 2 by done. by apply list_alter_ext.
Qed.

(** Altering every position in turn maps the function over the list. *)
Lemma foldl_alter_seq {A} (f : A → A) (l : list A) :
  foldl (λ l i, alter f i l) l (seq 0 (length l)) = f <$> l.
Proof.
  assert (H : ∀ l1 l2, foldl (λ l i, alter f i l) (l1 ++ l2) (seq (length l1) (length l2))
                       = l1 ++ (f <$> l2)).
  { intros l1 l2. revert l1. induction l2 as [|x l2 IH]; intros l1; cbn [length seq foldl].
    { done. }
    rewrite <- (Nat.add_0_r (length l1)) at 1. rewrite alter_app_r. simpl.
    specialize (IH (l1 ++ [f x])). rewrite length_app, Nat.add_1_r, <- !app_assoc in IH.
    exact IH. }
  apply (H [] l).
Qed.

#[export] Hint Resolve be_split_ok dec_digits dec_not_nil lxor_byte_ok cstr_no_nul : qio.
#[export] Hint Rewrite length_be_split length_le_split : qio.
