(* ===== verification/Types.v ===== *)
(** The data of the program that no library appears in: the enumerations and
    structs of src/evs.h, src/client.h, src/protocols.h and the close reasons
    of the protocol headers. Function pointers are names: a constructor for
    each function of the sources that is stored in a table, and a numbered
    constructor for those of the applications. *)
From Stdlib Require Import ZArith Lia.
From stdpp Require Import base list gmap strings.
From S2P Require Import Prelude.

(** Clients are addresses of [struct client]. *)
Abbreviation cid := positive.

(** ** evs.h *)

Definition EVS_NO_CALLBACK : Z := 0.

Inductive evs_status := EVS_STATUS_OK | EVS_STATUS_ERR | EVS_STATUS_HANDLED.

(** [enum evs_code]. The enumerators are non-negative, so the compiler gives
    the type the range of [unsigned int]; a code is kept modulo 2^32. *)
Definition evs_code (z : Z) : Z := u32 z.
Definition CODE_OK : Z := 200.
Definition CODE_ACCEPTED : Z := 202.
Definition CODE_BAD : Z := 400.
Definition CODE_UNAUTH : Z := 401.
Definition CODE_NOT_FOUND : Z := 404.
Definition CODE_ENHANCE_CALM : Z := 420.
Definition CODE_UNKNOWN : Z := 500.

(** Event handlers: the five of evs_qio.c, or an application's. *)
Inductive evs_handler_fn :=
  | qio_callback | qio_hostname | qio_off | qio_on | qio_ping
  | app_handler (n : nat).

(** Subscription handlers: [evs_no_on], or an application's. *)
Inductive evs_on_fn := evs_no_on_ptr | app_on (n : nat).

(** Unsubscription handlers are always an application's. *)
Abbreviation evs_off_fn := nat.

(** Callbacks: [_heartbeat_cb] of protocols_raw.c, or an application's. *)
Inductive evs_cb_fn := raw_heartbeat_cb | app_cb (n : nat).

(** [struct event]. The table [subs], its only field that changes after
    [event_init], is kept in the world under the event's path. *)
Record event := mkEvent {
  ev_path : bytes;
  handler_fn : option evs_handler_fn;
  on_fn : option evs_on_fn;
  off_fn : option evs_off_fn;
  handle_children : bool;
}.

(** ** client.h *)

Inductive client_sub_state :=
  | CLIENT_SUB_PENDING | CLIENT_SUB_TOMBSTONED | CLIENT_SUB_CREATED
  | CLIENT_SUB_ACTIVE | CLIENT_SUB_NULL.

(** [struct client_sub] without [idx], which belongs to the list library. *)
Record client_sub := mkCsub { pending : bool; tombstone : bool }.

(** [struct client_cb]; a data pointer and its destructor may be NULL. *)
Record client_cb := mkCb {
  cb_id : Z;
  cb_fn : evs_cb_fn;
  cb_data : option nat;
  cb_free_fn : option nat;
  cb_created : Z;
}.

(** [G_N_ELEMENTS(client->cbs)]. *)
Definition N_CBS : nat := 4.

(** ** protocols.h *)

Inductive protocol_handles := PROT_YES | PROT_MAYBE | PROT_NO.
Inductive protocol_status := PROT_OK | PROT_AGAIN | PROT_FATAL.

(** The entries of [_protocols], in the order of the table. *)
Inductive protocol := protocol_http | protocol_flash | protocol_raw | protocol_rfc6455.

Record protocol_heartbeat := mkHb {
  hb_timeout : Z; hb_poll : Z; hb_heartbeat : Z; hb_challenge : Z; hb_dead : Z;
}.

(** [struct protocol_frames]: [GString] pointers that may be NULL. *)
Record protocol_frames := mkFrames { fr_def : option bytes; fr_raw : option bytes }.

(** The close reasons of quick-event that the sources name, and those that
    quickio.h and the protocol headers add; the numbers are all distinct. *)
Inductive close_reason :=
  | QEV_CLOSE_HUP | QEV_CLOSE_EXITING | QEV_CLOSE_TIMEOUT | QEV_CLOSE_OUT_OF_MEM
  | QIO_CLOSE_NOT_SUPPORTED | QIO_CLOSE_UNKNOWN_ERROR | QIO_CLOSE_INVALID_HANDSHAKE
  | QIO_CLOSE_MOVED | QIO_CLOSE_DONE
  | RAW_INVALID_EVENT_FORMAT | RAW_HEARTATTACK
  | HTTP_DONE | HTTP_NO_SURROGATE | HTTP_BAD_REQUEST | HTTP_LENGTH_REQUIRED
  | RFC6455_MISSING_UPGRADE | RFC6455_NO_MASK | RFC6455_UNSUPPORTED_OPCODE
  | RFC6455_NOT_UTF8
  | CLOSE_OTHER (n : nat).

(** What a client's connection is told to do. *)
Inductive output :=
  | OWrite (b : bytes)          (** [qev_write] *)
  | OClose (r : close_reason).  (** [qev_close] *)

(** The bytes written, in order. *)
Definition written (o : list output) : list bytes :=
  omap (λ x, match x with OWrite b => Some b | OClose _ => None end) o.

Definition is_close (o : output) : bool :=
  match o with OClose _ => true | OWrite _ => false end.

(** ** Decidable equality *)

#[export] Instance evs_status_eq_dec : EqDecision evs_status.
Proof. solve_decision. Defined.
#[export] Instance evs_handler_fn_eq_dec : EqDecision evs_handler_fn.
Proof. solve_decision. Defined.
#[export] Instance evs_on_fn_eq_dec : EqDecision evs_on_fn.
Proof. solve_decision. Defined.
#[export] Instance evs_cb_fn_eq_dec : EqDecision evs_cb_fn.
Proof. solve_decision. Defined.
#[export] Instance event_eq_dec : EqDecision event.
Proof. solve_decision. Defined.
#[export] Instance client_sub_eq_dec : EqDecision client_sub.
Proof. solve_decision. Defined.
#[export] Instance client_cb_eq_dec : EqDecision client_cb.
Proof. solve_decision. Defined.
#[export] Instance protocol_status_eq_dec : EqDecision protocol_status.
Proof. solve_decision. Defined.
#[export] Instance protocol_eq_dec : EqDecision protocol.
Proof. solve_decision. Defined.
#[export] Instance close_reason_eq_dec : EqDecision close_reason.
Proof. solve_decision. Defined.
