(* ===== verification/Libs.v ===== *)
(** The code QuickIO links against and does not contain: GLib, OpenSSL and the
    quick-event framework (the empty submodule lib/quick-event). Each function
    that the model calls is an operation of the class [Libs]; what the model
    relies on, and only that, is a law of [LibsOk]. [libs0] is one concrete
    implementation that satisfies the laws, used to evaluate the definitions
    on concrete inputs. *)
From Stdlib Require Import ZArith Lia.
From stdpp Require Import base list gmap strings.
From S2P Require Import Prelude Types.

(** [struct qev_http_request], with the status of the parse. *)
Record http_request := mkRequest {
  (** the result of [qev_http_request_parse] *)
  hr_ok : bool;
  (** [errors.headers_incomplete] *)
  hr_incomplete : bool;
  hr_version : Z;
  hr_method : bytes;
  hr_url : bytes;
  (** [qev_http_request_header] *)
  hr_header : string → option bytes;
  (** [body], as an offset from where the request starts *)
  hr_body : nat;
}.

Class Libs := {
  (** [g_ascii_strtoull(p, &end, 10)]: the value, the length of the accepted
      prefix (so [end = p + len]), and whether errno was set to ERANGE. *)
  g_ascii_strtoull : bytes → Z * nat * bool;
  (** the text [qev_buffer_append_uint] appends *)
  qev_uint : Z → bytes;
  (** the text [qev_json_pack(buff, "%s", s)] appends; [s] may be NULL *)
  qev_json_pack_s : option bytes → bytes;
  (** [qev_json_unpack(json, NULL, "[%s,%a]", &s, &a)]: the two pointed-to
      strings when the status is QEV_JSON_OK *)
  qev_json_unpack_sa : bytes → option (bytes * bytes);
  (** [g_utf8_validate(p, len, NULL)] *)
  g_utf8_validate : bytes → bool;
  (** [qev_safe_uadd(a, b, &r)]: the sum when it does not overflow 64 bits *)
  qev_safe_uadd : Z → Z → option Z;
  (** [g_random_int_range(lo, hi)] with the generator's state made explicit *)
  g_random_int_range : Z → Z → Z → Z * Z;
  (** [QEV_SEC_TO_USEC] and [QEV_MS_TO_USEC] *)
  qev_sec_to_usec : Z → Z;
  qev_ms_to_usec : Z → Z;
  (** base64 of the SHA-1 of a string (OpenSSL and GLib) *)
  sha1_base64 : bytes → bytes;
  (** [qev_list_t]: a concurrent bag of items. An item is the address of the
      [idx] field of one [client_sub], so within one subscription's list it is
      named by the client that owns it. *)
  qlist : Type;
  qev_list_new : qlist;
  qev_list_add : qlist → cid → option qlist;
  qev_list_remove : qlist → cid → qlist;
  qev_list_items : qlist → list cid;
  (** [qev_fair_t]: a pool of permits shared fairly between clients *)
  fair : Type;
  qev_fair_use : fair → Z → Z → option fair;
  qev_fair_return : fair → Z → fair;
  qev_fair_used : fair → Z;
  (** [qev_fair_new(name, total, pressure, min)] *)
  qev_fair_new : Z → Z → Z → fair;
  (** [qev_fair_set_total], [qev_fair_set_pressure], [qev_fair_set_min] *)
  qev_fair_set : fair → Z → Z → Z → fair;
  (** [qev_surrogate_new]: the address of the new client, given those in use *)
  qev_surrogate_new : gset positive → option positive;
  (** [qev_surrogate_flush]: what was written to a surrogate since the last
      flush, NULL when nothing was, and what remains recorded *)
  qev_surrogate_flush : list output → option bytes * list output;
  (** [qev_http_request_parse] *)
  qev_http_request_parse : bytes → http_request;
  (** [qev_safe_strtoull] *)
  qev_safe_strtoull : bytes → option Z;
  (** [qev_buffer_replace_str(buff, from, to)] *)
  qev_buffer_replace_str : bytes → bytes → bytes → bytes;
  g_ascii_isxdigit : Z → bool;
  g_ascii_xdigit_value : Z → Z;
}.

(** The lower-case hexadecimal digit of [n]. *)
Definition hex_digit (n : Z) : Z := if n <? 10 then 48 + n else 87 + n.

Class LibsOk (L : Libs) : Prop := {
  (** a numeral followed by something that is not a digit is read whole, and
      saturates with ERANGE above the 64-bit maximum *)
  strtoull_digits ds rest :
    ds ≠ [] → Forall (λ c, is_digit c = true) ds →
    (∀ c, rest !! 0%nat = Some c → is_digit c = false) →
    g_ascii_strtoull (ds ++ rest) =
      (if undec ds <=? u64_max then (undec ds, length ds, false)
       else (u64_max, length ds, true));
  strtoull_range l : 0 ≤ (g_ascii_strtoull l).1.1 ≤ u64_max;
  strtoull_len l : ((g_ascii_strtoull l).1.2 ≤ length l)%nat;
  qev_uint_dec z : 0 ≤ z < 2 ^ 64 → qev_uint z = dec z;
  json_pack_no_nul s : no_nul (qev_json_pack_s s);
  safe_uadd a b : 0 ≤ a < 2 ^ 64 → 0 ≤ b < 2 ^ 64 →
    qev_safe_uadd a b = if a + b <? 2 ^ 64 then Some (a + b) else None;
  random_range s lo hi : lo < hi → lo ≤ (g_random_int_range s lo hi).1 < hi;
  sec_to_usec n : qev_sec_to_usec n = n * 1000000;
  ms_to_usec n : qev_ms_to_usec n = n * 1000;
  list_new : qev_list_items qev_list_new = [];
  list_NoDup q c q' : qev_list_add q c = Some q' →
    NoDup (qev_list_items q) → c ∉ qev_list_items q → NoDup (qev_list_items q');
  list_add q c q' : qev_list_add q c = Some q' →
    ∀ d, d ∈ qev_list_items q' ↔ d = c ∨ d ∈ qev_list_items q;
  list_remove q c d :
    d ∈ qev_list_items (qev_list_remove q c) ↔ d ≠ c ∧ d ∈ qev_list_items q;
  list_remove_NoDup q c :
    NoDup (qev_list_items q) → NoDup (qev_list_items (qev_list_remove q c));
  fair_use f used n f' : qev_fair_use f used n = Some f' →
    qev_fair_used f' = qev_fair_used f + n;
  fair_return f n : qev_fair_used (qev_fair_return f n) = qev_fair_used f - n;
  fair_new t p m : qev_fair_used (qev_fair_new t p m) = 0;
  fair_set_used f t p m : qev_fair_used (qev_fair_set f t p m) = qev_fair_used f;
  surrogate_fresh X c : qev_surrogate_new X = Some c → c ∉ X;
  surrogate_flush o : qev_surrogate_flush o =
    (if decide (written o = []) then None else Some (concat (written o)),
     filter is_close o);
  (** a request that was parsed ends inside the buffer *)
  http_body l : hr_ok (qev_http_request_parse l) = true →
    (0 < hr_body (qev_http_request_parse l) ≤ length l)%nat;
  safe_strtoull l n : qev_safe_strtoull l = Some n → 0 ≤ n < 2 ^ 64;
  json_unpack_bytes l p d : bytes_ok l → qev_json_unpack_sa l = Some (p, d) → bytes_ok p;
  xdigit_hex n : 0 ≤ n < 16 →
    g_ascii_isxdigit (hex_digit n) = true ∧ g_ascii_xdigit_value (hex_digit n) = n;
  xdigit_range c : g_ascii_isxdigit c = true → 0 ≤ g_ascii_xdigit_value c < 16;
  xdigit_nul : g_ascii_isxdigit NUL = false;
}.

#[export] Hint Mode LibsOk + : typeclass_instances.

(** ** A concrete implementation *)

Module Reference.

(** The longest numeral at the start of [l]. *)
Fixpoint digits (l : bytes) : bytes :=
  match l with
  | [] => []
  | c :: l => if is_digit c then c :: digits l else []
  end.

Definition strtoull (l : bytes) : Z * nat * bool :=
  let ds := digits l in
  if undec ds <=? u64_max then (undec ds, length ds, false)
  else (u64_max, length ds, true).

(** JSON text without characters that need an escape. *)
(** Every occurrence of [from], from the left. *)
Fixpoint replace_all (fuel : nat) (l from to : bytes) : bytes :=
  match fuel, strstr l from with
  | S fuel, Some r => take (length l - length r) l ++ to ++ replace_all fuel (drop (length from) r) from to
  | _, _ => l
  end.

Definition json_plain (c : Z) : bool :=
  (32 <=? c) && (c <=? 126) && negb (c =? DQUOTE) && negb (c =? 92).

Definition json_pack_s (s : option bytes) : bytes :=
  match s with
  | None => str "null"
  | Some s => quoted (List.filter json_plain s)
  end.

(** The form [["path",data]] exactly. *)
Definition json_unpack_sa (l : bytes) : option (bytes * bytes) :=
  match l with
  | 91 :: 34 :: l =>
      '(p, rest) ← cut DQUOTE l;
      match rest with
      | 44 :: rest => '(d, _) ← cut 93 rest; Some (p, d)
      | _ => None
      end
  | _ => None
  end.

(** At most [total] permits. *)
Record pool := mkPool { total : Z; in_use : Z }.

Definition pool_use (f : pool) (_ n : Z) : option pool :=
  if in_use f + n <=? total f then Some (mkPool (total f) (in_use f + n)) else None.

(** A request with one space between the parts of its first line and headers
    spelled as the sources spell them. *)
Definition CRLF2 : bytes := [13; 10; 13; 10].
Definition until (c : Z) (l : bytes) : bytes :=
  match cut c l with Some (x, _) => x | None => l end.
Definition http_parse (l : bytes) : http_request :=
  match strstr l CRLF2 with
  | None => mkRequest false true 0 [] [] (λ _, None) 0
  | Some rest =>
      let head := take (length l - length rest) l in
      let line := until 13 head in
      let url := match cut 32 line with Some (_, x) => until 32 x | None => [] end in
      mkRequest (negb (bool_decide (url = []))) false
        (if strstr line (str "HTTP/1.1") then 1 else 0) (until 32 line) url
        (λ k, x ← strstr head ([13; 10] ++ str k ++ str ": ");
              Some (until 13 (drop (length (str k) + 4) x)))
        (length l - length rest + 4)
  end.

Definition xdigit_value (c : Z) : Z :=
  if is_digit c then c - 48
  else if (97 <=? c) && (c <=? 102) then c - 87
  else if (65 <=? c) && (c <=? 70) then c - 55
  else -1.

End Reference.

Definition libs0 : Libs := {|
  g_ascii_strtoull := Reference.strtoull;
  qev_uint := dec;
  qev_json_pack_s := Reference.json_pack_s;
  qev_json_unpack_sa := Reference.json_unpack_sa;
  g_utf8_validate := λ l, forallb (λ c, c <? 128) l;
  qev_safe_uadd := λ a b, if a + b <? 2 ^ 64 then Some (a + b) else None;
  g_random_int_range := λ s lo hi, (lo + s mod (hi - lo), s * 1103515245 + 12345);
  qev_sec_to_usec := λ n, n * 1000000;
  qev_ms_to_usec := λ n, n * 1000;
  sha1_base64 := λ l, l;
  qlist := list cid;
  qev_list_new := [];
  qev_list_add := λ q c, Some (c :: q);
  qev_list_remove := λ q c, filter (λ d, d ≠ c) q;
  qev_list_items := λ q, q;
  fair := Reference.pool;
  qev_fair_use := Reference.pool_use;
  qev_fair_return := λ f n, Reference.mkPool (Reference.total f) (Reference.in_use f - n);
  qev_fair_used := Reference.in_use;
  qev_fair_new := λ t _ _, Reference.mkPool t 0;
  qev_fair_set := λ f t _ _, Reference.mkPool t (Reference.in_use f);
  qev_surrogate_new := λ X, Some (fresh X);
  qev_surrogate_flush := λ o,
    (if decide (written o = []) then None else Some (concat (written o)),
     filter is_close o);
  qev_http_request_parse := Reference.http_parse;
  qev_safe_strtoull := λ l,
    let '(n, len, erange) := Reference.strtoull l in
    if (len =? 0)%nat || negb (len =? length l)%nat || erange then None else Some n;
  qev_buffer_replace_str := λ l from to, Reference.replace_all (length l) l from to;
  g_ascii_isxdigit := λ c, 0 <=? Reference.xdigit_value c;
  g_ascii_xdigit_value := Reference.xdigit_value;
|}.

Lemma reference_digits_app ds rest :
  Forall (λ c, is_digit c = true) ds →
  (∀ c, rest !! 0%nat = Some c → is_digit c = false) →
  Reference.digits (ds ++ rest) = ds.
Proof.
  intros Hds Hrest. induction Hds as [|c ds Hc Hds IH]; simpl.
  - destruct rest as [|c rest]; simpl; [done|]. by rewrite (Hrest c).
  - by rewrite Hc, IH.
Qed.

Lemma undec_nonneg ds : Forall (λ c, is_digit c = true) ds → 0 ≤ undec ds.
Proof.
  induction ds as [|d ds IH] using rev_ind; [done|].
  rewrite Forall_app, Forall_singleton, undec_app. unfold is_digit.
  intros [H1 H2]. specialize (IH H1). lia.
Qed.

Lemma reference_digits_ok l :
  Forall (λ c, is_digit c = true) (Reference.digits l) ∧
  (length (Reference.digits l) ≤ length l)%nat.
Proof.
  induction l as [|c l [IH1 IH2]]; simpl; [by split|].
  destruct (is_digit c) eqn:E; simpl; split; try lia; by constructor.
Qed.

Lemma json_plain_no_nul l : no_nul (List.filter Reference.json_plain l).
Proof.
  induction l as [|c l IH]; simpl; [constructor|].
  destruct (Reference.json_plain c) eqn:E; [|done]. constructor; [|done].
  unfold Reference.json_plain in E. intros ->. done.
Qed.

Lemma strstr_suffix l p x : strstr l p = Some x → x `suffix_of` l ∧ p `prefix_of` x.
Proof.
  induction l as [|c l IH]; cbn [strstr]; destruct (has_prefix p _) eqn:E; intros H;
    simplify_eq; try by (split; [done|]; apply has_prefix_spec).
  apply IH in H as [H ?]. split; [by apply suffix_cons_r|done].
Qed.

Lemma json_unpack_bytes0 l p d :
  bytes_ok l → Reference.json_unpack_sa l = Some (p, d) → bytes_ok p.
Proof.
  intros Hl H.
  unfold Reference.json_unpack_sa in H.
  repeat match type of H with match ?x with _ => _ end = _ => destruct x; try discriminate end.
  match type of H with cut ?q ?x ≫= _ = _ => destruct (cut q x) as [[p' rest]|] eqn:E; [|done] end.
  apply cut_Some in E as [-> _]. simpl in H.
  repeat match type of H with match ?x with _ => _ end = _ => destruct x; try discriminate end.
  match type of H with cut ?q ?x ≫= _ = _ => destruct (cut q x) as [[d' ?]|]; [|done] end.
  injection H as -> ->. do 2 apply Forall_inv_tail in Hl. by apply Forall_app in Hl as [? _].
Qed.

#[export] Instance libs0_ok : LibsOk libs0.
Proof.
  split; cbn.
  - intros ds rest Hne Hds Hrest. unfold Reference.strtoull.
    by rewrite reference_digits_app.
  - intros l. unfold Reference.strtoull.
    destruct (reference_digits_ok l) as [H _]. apply undec_nonneg in H.
    destruct (Z.leb_spec (undec (Reference.digits l)) u64_max); simpl; unfold u64_max in *; lia.
  - intros l. unfold Reference.strtoull. destruct (reference_digits_ok l) as [_ H].
    by destruct (_ <=? _).
  - done.
  - intros [s|]; simpl; [|by repeat constructor].
    unfold quoted. rewrite !no_nul_app.
    split; [by repeat constructor|split; [apply json_plain_no_nul|by repeat constructor]].
  - done.
  - intros s lo hi H. pose proof (Z.mod_pos_bound s (hi - lo)). lia.
  - done.
  - done.
  - done.
  - intros q c q' [= <-] H1 H2. by constructor.
  - intros q c q' [= <-] d. apply elem_of_cons.
  - intros q c d. by rewrite list_elem_of_filter.
  - intros q c. apply NoDup_filter.
  - intros f u n f'. unfold Reference.pool_use. by destruct (_ <=? _); intros [= <-].
  - done.
  - done.
  - done.
  - intros X c [= <-]. apply is_fresh.
  - done.
  - intros l. unfold Reference.http_parse. destruct (strstr l _) as [rest|] eqn:E; simpl; [|done].
    apply strstr_suffix in E as [[x ->] [y ->]]. rewrite !length_app. simpl. lia.
  - intros l n. unfold Reference.strtoull.
    destruct (reference_digits_ok l) as [H _]. apply undec_nonneg in H.
    destruct (Z.leb_spec (undec (Reference.digits l)) u64_max);
      repeat destruct (_ =? _)%nat; simpl; intros [= <-]; unfold u64_max in *; lia.
  - apply json_unpack_bytes0.
  - intros n Hn. unfold Reference.xdigit_value, hex_digit, is_digit. repeat case_match; lia.
  - intros c. unfold Reference.xdigit_value, is_digit. repeat case_match; lia.
  - done.
Qed.
