(* ===== verification/Path.v ===== *)
(** Event paths: [evs_clean_path] and [evs_make_path] of src/evs.c.

    [evs_clean_path] rewrites a C string in place with two cursors. Module
    [InPlace] is that loop over a byte buffer; [clean_path] is the function on
    strings it computes ([evs_clean_path_clean]), which the rest of the
    development uses. *)
From Stdlib Require Import ZArith Lia.
From stdpp Require Import base list gmap strings.
From S2P Require Import Prelude.

(** The table of evs.c, its missing last entries zero as C fills them. *)
Definition _allowed_chars : list Z := [
  0;  0;  0;  0;  0;  0;  0;  0;  0;  0;  0;  0;  0;  0;  0;
  0;  0;  0;  0;  0;  0;  0;  0;  0;  0;  0;  0;  0;  0;  0;
  0;  0;  0;  0;  0;  0;  0;  0;  0;  0;  0;  0;  0;  0;  0;
  1;  0;  1;  1;  1;  1;  1;  1;  1;  1;  1;  1;  1;  0;  0;
  0;  0;  0;  0;  0;  1;  1;  1;  1;  1;  1;  1;  1;  1;  1;
  1;  1;  1;  1;  1;  1;  1;  1;  1;  1;  1;  1;  1;  1;  1;
  1;  0;  0;  0;  0;  1;  0;  1;  1;  1;  1;  1;  1;  1;  1;
  1;  1;  1;  1;  1;  1;  1;  1;  1;  1;  1;  1;  1;  1;  1;
  1;  1;  1] ++ replicate 133 0.

(** [_allowed_chars[(guchar)c]] as a condition. *)
Definition allowed (c : Z) : bool :=
  negb (nth (Z.to_nat (u8 c)) _allowed_chars 0 =? 0).

(** ** The loop of the source *)

Module InPlace.

(** [do { curr++; } while (...)] *)
Fixpoint skip (fuel : nat) (buf : bytes) (curr : nat) : option nat :=
  match fuel with
  | O => None
  | S fuel =>
      let curr := S curr in
      let c := rd buf curr in
      if (c =? SLASH) || (negb (allowed c) && negb (c =? NUL))
      then skip fuel buf curr else Some curr
  end.

(** The outer [while] over [curr]: the buffer and [writing] at the end of the loop. *)
Fixpoint loop (fuel : nat) (buf : bytes) (curr writing : nat) : option (bytes * nat) :=
  match fuel with
  | O => None
  | S fuel =>
      if rd buf curr =? NUL then Some (buf, writing)
      else
        let '(buf, writing) :=
          if allowed (rd buf curr) then (wr buf writing (rd buf curr), S writing)
          else (buf, writing) in
        if rd buf curr =? SLASH
        then curr ← skip fuel buf curr; loop fuel buf curr writing
        else loop fuel buf (S curr) writing
  end.

(** The whole function on the string at the start of [buf]: the buffer it
    leaves and the length it returns, a [guint]. *)
Definition evs_clean_path (fuel : nat) (buf : bytes) : option (bytes * Z) :=
  '(buf, writing) ← loop fuel buf 0 0;
  let writing :=
    if negb (writing =? 0)%nat && (rd buf (writing - 1) =? SLASH)
    then (writing - 1)%nat else writing in
  Some (wr buf writing NUL, u32 (Z.of_nat writing)).

End InPlace.

(** ** The function it computes *)

(** The characters the inner loop skips after a slash. *)
Definition skipped (c : Z) : bool := (c =? SLASH) || negb (allowed c).

Fixpoint skip_path (p : bytes) : bytes :=
  match p with
  | [] => []
  | c :: p' => if skipped c then skip_path p' else p
  end.

(** One pass of the outer loop; [after_slash] says the inner loop is running. *)
Fixpoint squeeze (after_slash : bool) (p : bytes) : bytes :=
  match p with
  | [] => []
  | c :: p =>
      if after_slash && skipped c then squeeze true p
      else if c =? SLASH then SLASH :: squeeze true p
      else if allowed c then c :: squeeze false p
      else squeeze false p
  end.

Definition strip_slash (p : bytes) : bytes :=
  match last p with
  | Some c => if c =? SLASH then take (length p - 1) p else p
  | None => p
  end.

Definition clean_path (p : bytes) : bytes := strip_slash (squeeze false p).

(** [evs_make_path]; NULL arguments are [None]. *)
Definition evs_make_path (ev_prefix ev_path ev_extra : option bytes) : bytes :=
  let p := default [] ev_prefix ++ [SLASH] ++ default [] ev_path ++ [SLASH]
             ++ default [] ev_extra in
  let p := if rd p 0 =? SLASH then p else SLASH :: p in
  clean_path p.

(** Examples of the project's test suite (test/test_evs.c). *)
Example clean_path_ex1 : clean_path (str "///////???qio//////**ping***&^^$#@///////test") = str "/qio/ping/test".
Proof. by vm_compute. Qed.
Example clean_path_ex2 : clean_path (str "qio/ping***&^^$#@:1=null") = str "qio/ping1null".
Proof. by vm_compute. Qed.
Example make_path_ex : evs_make_path (Some (str "")) (Some (str "/b")) (Some (str "/c//////////////")) = str "/b/c".
Proof. by vm_compute. Qed.
Example make_path_ex2 : evs_make_path None None None = [].
Proof. by vm_compute. Qed.
Example in_place_ex : InPlace.evs_clean_path 20 (str "///?a**//b///" ++ [0; 7]) =
  Some (str "/a/b" ++ [0] ++ str "**//b///" ++ [0; 7], 4).
Proof. by vm_compute. Qed.

(** ** The character table *)

Definition path_char (c : Z) : bool :=
  (c =? 45) || (c =? SLASH) || is_digit c || ((65 <=? c) && (c <=? 90))
  || (c =? 95) || ((97 <=? c) && (c <=? 122)).

Lemma forall_bytes (P : Z → bool) :
  forallb (λ n, P (Z.of_nat n)) (seq 0 256) = true → ∀ c, byte_ok c → P c = true.
Proof.
  intros H c [Hlo Hhi]. rewrite forallb_forall in H.
  specialize (H (Z.to_nat c)). rewrite Z2Nat.id in H by lia.
  apply H, in_seq. lia.
Qed.

Lemma allowed_path_char c : byte_ok c → allowed c = path_char c.
Proof.
  intros Hc. apply Bool.eqb_prop. revert c Hc. apply forall_bytes. by vm_compute.
Qed.

Lemma allowed_slash : allowed SLASH = true.
Proof. done. Qed.

Lemma allowed_not_nul c : allowed c = true → c ≠ NUL.
Proof. by intros H ->. Qed.

(** ** The loop computes [squeeze] *)

Lemma squeeze_true p : squeeze true p = squeeze false (skip_path p).
Proof.
  induction p as [|c p IH]; simpl; [done|].
  destruct (skipped c) eqn:E; simpl; [done|].
  unfold skipped in E. by destruct (c =? SLASH).
Qed.

Lemma length_skip_path p : (length (skip_path p) ≤ length p)%nat.
Proof. induction p as [|c p IH]; simpl; [done|]. destruct (skipped c); simpl; lia. Qed.

Lemma skip_path_suffix p : ∃ q, p = q ++ skip_path p.
Proof.
  induction p as [|c p [q IH]]; simpl; [by exists []|].
  destruct (skipped c); [exists (c :: q); simpl; congruence|by exists []].
Qed.

Lemma length_squeeze b p : (length (squeeze b p) ≤ length p)%nat.
Proof.
  revert b. induction p as [|c p IH]; intros b; simpl; [done|].
  pose proof (IH true). pose proof (IH false). repeat branch; simpl; lia.
Qed.

Lemma rd_drop buf i l : drop i buf = l → rd buf i = default NUL (l !! 0%nat).
Proof. intros <-. unfold rd. by rewrite lookup_drop, Nat.add_0_r. Qed.

Lemma drop_tail {A} (l : list A) i x r : drop i l = x :: r → drop (S i) l = r.
Proof. intros H. rewrite <- Nat.add_1_r, <- drop_drop, H. done. Qed.

Lemma skip_spec fuel buf curr rem rest :
  drop (S curr) buf = rem ++ NUL :: rest → no_nul rem → (length rem < fuel)%nat →
  ∃ curr', InPlace.skip fuel buf curr = Some curr' ∧ (curr < curr')%nat ∧
    (curr' + length (skip_path rem) = S curr + length rem)%nat ∧
    drop curr' buf = skip_path rem ++ NUL :: rest.
Proof.
  revert curr rem. induction fuel as [|fuel IH]; intros curr rem Hd Hn Hf; [lia|].
  cbn [InPlace.skip]. rewrite (rd_drop _ _ _ Hd).
  destruct rem as [|c rem]; simpl.
  - exists (S curr). by split_and!; [|lia|..].
  - apply no_nul_cons in Hn as [Hc Hn]. simpl in Hf.
    assert (negb (c =? NUL) = true) as -> by (apply negb_true_iff, Z.eqb_neq; done).
    rewrite andb_true_r. fold (skipped c). destruct (skipped c).
    + destruct (IH (S curr) rem) as (curr' & ? & ? & ? & ?); [|done|lia|].
      { by apply drop_tail in Hd. }
      exists curr'. split_and!; [done|lia|lia|done].
    + exists (S curr). split_and!; [done|lia|simpl; lia|done].
Qed.

Lemma take_wr buf i v :
  (i < length buf)%nat → take (S i) (wr buf i v) = take i buf ++ [v].
Proof.
  intros Hi. unfold wr. erewrite take_S_r by (by apply list_lookup_insert_eq).
  by rewrite take_insert_ge by done.
Qed.

Lemma drop_wr buf i j v : (i < j)%nat → drop j (wr buf i v) = drop j buf.
Proof. intros Hi. apply drop_insert_lt. lia. Qed.

Lemma length_wr buf i v : length (wr buf i v) = length buf.
Proof. apply length_insert. Qed.

Lemma drop_cons_length {A} (l : list A) i x r : drop i l = x :: r → (i < length l)%nat.
Proof.
  intros H. apply (f_equal length) in H. rewrite length_drop in H. simpl in H. lia.
Qed.

(** What one round writes: the current character if it is allowed. *)
Definition kept (c : Z) : bytes := if allowed c then [c] else [].

Lemma write_step buf curr w c :
  rd buf curr = c → (w ≤ curr)%nat → (curr < length buf)%nat →
  ∃ buf1, (if allowed c then (wr buf w c, S w) else (buf, w)) =
            (buf1, w + length (kept c))%nat ∧
    take (w + length (kept c)) buf1 = take w buf ++ kept c ∧
    drop (S curr) buf1 = drop (S curr) buf ∧ rd buf1 curr = c ∧
    length buf1 = length buf.
Proof.
  intros Hc Hw Hl. unfold kept. destruct (allowed c); simpl.
  - exists (wr buf w c). rewrite Nat.add_1_r. split_and!; [done|..].
    + apply take_wr. lia.
    + apply drop_wr. lia.
    + unfold rd, wr. destruct (decide (w = curr)) as [->|].
      * by rewrite list_lookup_insert_eq.
      * by rewrite list_lookup_insert_ne by done.
    + apply length_wr.
  - exists buf. rewrite Nat.add_0_r, app_nil_r. by split_and!.
Qed.

Lemma squeeze_step c p :
  squeeze false (c :: p) =
    kept c ++ squeeze false (if c =? SLASH then skip_path p else p).
Proof.
  unfold kept. simpl. destruct (Z.eqb_spec c SLASH) as [->|].
  - rewrite <- squeeze_true. done.
  - by destruct (allowed c).
Qed.

Lemma loop_spec fuel rem buf curr w rest :
  drop curr buf = rem ++ NUL :: rest → no_nul rem → (length rem < fuel)%nat →
  (w ≤ curr)%nat →
  ∃ buf', InPlace.loop fuel buf curr w =
            Some (buf', w + length (squeeze false rem))%nat ∧
    take (w + length (squeeze false rem)) buf' = take w buf ++ squeeze false rem ∧
    drop (curr + length rem) buf' = NUL :: rest ∧ length buf' = length buf.
Proof.
  revert rem buf curr w. induction fuel as [|fuel IH]; intros rem buf curr w Hd Hn Hf Hw; [lia|].
  cbn [InPlace.loop]. pose proof (rd_drop _ _ _ Hd) as Hrd. destruct rem as [|c rem].
  { rewrite Hrd. exists buf. simpl. rewrite !Nat.add_0_r, app_nil_r. by split_and!. }
  apply no_nul_cons in Hn as [Hc Hn]. simpl in Hf. change (rd buf curr = c) in Hrd.
  rewrite Hrd. destruct (Z.eqb_spec c NUL); [done|].
  pose proof (drop_cons_length _ _ _ _ Hd) as Hl.
  destruct (write_step buf curr w c Hrd Hw Hl) as (buf1 & -> & Ht & Hd1 & Hrd1 & Hl1).
  cbn iota beta. rewrite Hrd1. apply drop_tail in Hd. rewrite Hd in Hd1.
  assert (Hk : (length (kept c) ≤ 1)%nat) by (unfold kept; destruct (allowed c); simpl; lia).
  rewrite squeeze_step, !length_app, !Nat.add_assoc, app_assoc, <- Ht.
  destruct (c =? SLASH).
  - destruct (skip_spec fuel buf1 curr rem rest) as (curr' & -> & ? & ? & Hd2); [done|done|lia|].
    cbn [mbind option_bind].
    destruct (IH (skip_path rem) buf1 curr' (w + length (kept c))%nat) as (buf' & -> & ? & Hr & ?).
    { done. } { destruct (skip_path_suffix rem) as [q Hq]. rewrite Hq in Hn.
      by apply no_nul_app in Hn as [_ ?]. }
    { pose proof (length_skip_path rem). lia. } { lia. }
    exists buf'. split_and!; [done|done| |congruence].
    rewrite <- Hr. f_equal. simpl. lia.
  - destruct (IH rem buf1 (S curr) (w + length (kept c))%nat) as (buf' & -> & ? & Hr & ?);
      [done|done|lia|lia|].
    exists buf'. split_and!; [done|done| |congruence].
    rewrite <- Hr. f_equal. simpl. lia.
Qed.

(** ** The string at the start of the buffer *)

Lemma length_strip_slash p : (length (strip_slash p) ≤ length p)%nat.
Proof.
  unfold strip_slash. destruct (last p); [|done].
  destruct (_ =? _); [rewrite length_take; lia|done].
Qed.

Lemma length_clean_path p : (length (clean_path p) ≤ length p)%nat.
Proof.
  unfold clean_path. pose proof (length_strip_slash (squeeze false p)).
  pose proof (length_squeeze false p). lia.
Qed.

Lemma squeeze_no_nul b p : no_nul p → no_nul (squeeze b p).
Proof.
  revert b. induction p as [|c p IH]; intros b; simpl; [done|].
  rewrite no_nul_cons. intros [Hc Hp]. repeat branch; rewrite ?no_nul_cons; auto.
Qed.

Lemma strip_slash_prefix p : strip_slash p `prefix_of` p.
Proof.
  unfold strip_slash. destruct (last p); [|done].
  destruct (_ =? _); [apply prefix_take|done].
Qed.

Lemma clean_path_no_nul p : no_nul p → no_nul (clean_path p).
Proof.
  intros Hp. destruct (strip_slash_prefix (squeeze false p)) as [k Hk].
  apply (squeeze_no_nul false) in Hp. rewrite Hk in Hp.
  by apply no_nul_app in Hp as [? _].
Qed.

Lemma cstr_take buf l :
  take (length l) buf = l → buf !! length l = Some NUL → no_nul l → cstr buf = l.
Proof.
  intros Ht Hn Hl. rewrite <- (take_drop_middle _ _ _ Hn), Ht. by apply cstr_app.
Qed.

(** The adjustment of [writing] before the terminator is stored is the length
    of the stripped string. *)
Lemma strip_slash_take buf q :
  take (length q) buf = q → (length q ≤ length buf)%nat →
  strip_slash q = take (length (strip_slash q)) buf ∧
  (if negb (length q =? 0)%nat && (rd buf (length q - 1) =? SLASH)
   then (length q - 1)%nat else length q) = length (strip_slash q).
Proof.
  intros Ht Hle. destruct (strip_slash_prefix q) as [k Hk]. split.
  { rewrite Hk in Ht at 2. apply (f_equal (take (length (strip_slash q)))) in Ht.
    rewrite take_take, take_app_length in Ht.
    pose proof (length_strip_slash q). by rewrite Nat.min_l in Ht by lia. }
  unfold strip_slash. rewrite last_lookup, <- Nat.sub_1_r. unfold rd.
  destruct q as [|c q]; [done|]. rewrite <- Ht, lookup_take, Ht by (simpl; lia).
  cbn [length Nat.eqb negb andb]. case_decide; [|simpl in *; lia].
  destruct (buf !! _) as [d|] eqn:E.
  - cbn [default from_option]. unfold id. destruct (d =? SLASH); [|done].
    by rewrite length_take, Nat.min_l by (simpl; lia).
  - apply lookup_ge_None in E. simpl in *. lia.
Qed.

(** C33. [evs_clean_path], run in place on any C string followed by any memory,
    stops, leaves at the start of the buffer exactly the string [clean_path]
    of the original, returns that string's length, and writes nothing beyond
    the original terminator. *)
Theorem evs_clean_path_clean p rest :
  no_nul p → Z.of_nat (length p) < 2 ^ 32 →
  ∃ buf', InPlace.evs_clean_path (S (length p)) (p ++ NUL :: rest) =
            Some (buf', Z.of_nat (length (clean_path p))) ∧
    cstr buf' = clean_path p ∧ drop (length p) buf' = NUL :: rest ∧
    length buf' = length (p ++ NUL :: rest).
Proof.
  intros Hn Hlen.
  destruct (loop_spec (S (length p)) p (p ++ NUL :: rest) 0 0 rest)
    as (buf' & Hloop & Ht & Hd & Hl); [done|done|lia|lia|].
  rewrite !Nat.add_0_l, take_0, app_nil_l in *.
  pose proof (length_squeeze false p) as Hsq. pose proof (length_clean_path p) as Hcp.
  destruct (strip_slash_take buf' (squeeze false p)) as [Hs Hw].
  { done. } { rewrite Hl, length_app. lia. }
  fold (clean_path p) in Hs, Hw.
  assert (length (clean_path p) < length buf')%nat by (rewrite Hl, length_app; simpl; lia).
  unfold InPlace.evs_clean_path. rewrite Hloop. cbn [mbind option_bind]. cbv zeta.
  rewrite Hw. exists (wr buf' (length (clean_path p)) NUL). split_and!.
  - repeat f_equal. apply Z.mod_small. lia.
  - apply cstr_take.
    + unfold wr. by rewrite take_insert_ge, <- Hs by done.
    + unfold wr. by rewrite list_lookup_insert_eq.
    + by apply clean_path_no_nul.
  - destruct (decide (length (clean_path p) < length p)%nat).
    + by rewrite drop_wr.
    + assert (length (clean_path p) = length p) as -> by lia. unfold wr.
      rewrite drop_insert_ge, Hd, Nat.sub_diag by done. done.
  - by rewrite length_wr.
Qed.

Lemma evs_clean_path_clean_witness :
  let p := str "//a*/b//" in
  no_nul p ∧ Z.of_nat (length p) < 2 ^ 32 ∧
  ∃ buf', InPlace.evs_clean_path (S (length p)) (p ++ NUL :: [7]) =
            Some (buf', Z.of_nat (length (clean_path p))) ∧
    cstr buf' = clean_path p ∧ drop (length p) buf' = NUL :: [7] ∧
    length buf' = length (p ++ NUL :: [7]).
Proof.
  assert (Hn : no_nul (str "//a*/b//")) by (by repeat constructor).
  split; [exact Hn|]. split; [done|].
  apply (evs_clean_path_clean (str "//a*/b//") [7]); [exact Hn|done].
Defined.

(** ** The shape of a clean path *)

(** Only path characters, no two adjacent slashes ([after]: the previous
    character was one) and, unless [trail], no slash at the end. *)
Fixpoint shape (trail after : bool) (p : bytes) : bool :=
  match p with
  | [] => trail || negb after
  | c :: p => if c =? SLASH then negb after && shape trail true p
              else path_char c && shape trail false p
  end.

Abbreviation clean_shape := (shape false false).

(** The characters of a path other than its separators. *)
Definition content (p : bytes) : bytes :=
  List.filter (λ c, path_char c && negb (c =? SLASH)) p.

Lemma squeeze_shape b p : bytes_ok p → shape true b (squeeze b p) = true.
Proof.
  revert b. induction p as [|c p IH]; intros b Hp; simpl; [done|].
  apply Forall_cons_iff in Hp as [Hc Hp]. pose proof (allowed_path_char c Hc) as E.
  unfold skipped. destruct (Z.eqb_spec c SLASH) as [->|Hs]; simpl.
  - destruct b; simpl; auto.
  - destruct b; simpl; rewrite E; destruct (path_char c) eqn:Ec; simpl; auto;
      destruct (Z.eqb_spec c SLASH); simpl; rewrite ?Ec; simpl; auto.
Qed.

Lemma shape_snoc t a p c :
  shape t a (p ++ [c]) = true →
  shape true a p = true ∧ (c = SLASH → shape false a p = true) ∧
  (c ≠ SLASH → shape false a (p ++ [c]) = true).
Proof.
  revert a. induction p as [|d p IH]; intros a; simpl.
  - destruct (Z.eqb_spec c SLASH) as [->|]; simpl.
    + by destruct a.
    + rewrite orb_true_r, andb_true_r. tauto.
  - destruct (d =? SLASH); intros [-> H]%andb_true_iff; by apply IH in H.
Qed.

Lemma strip_slash_snoc p c : strip_slash (p ++ [c]) = if c =? SLASH then p else p ++ [c].
Proof.
  unfold strip_slash. rewrite last_snoc. destruct (c =? SLASH); [|done].
  rewrite length_app, Nat.add_sub. apply take_app_length.
Qed.

Lemma strip_slash_shape p : shape true false p = true → clean_shape (strip_slash p) = true.
Proof.
  destruct p as [|c p _] using rev_ind; [done|]. intros H.
  rewrite strip_slash_snoc. apply shape_snoc in H as (_ & H1 & H2).
  destruct (Z.eqb_spec c SLASH); auto.
Qed.

Lemma clean_path_shape p : bytes_ok p → clean_shape (clean_path p) = true.
Proof. intros Hp. by apply strip_slash_shape, squeeze_shape. Qed.

Lemma shape_bytes t a p : shape t a p = true → Forall (λ c, path_char c = true) p.
Proof.
  revert a. induction p as [|c p IH]; intros a; simpl; [constructor|].
  destruct (Z.eqb_spec c SLASH) as [->|]; intros [? H]%andb_true_iff; constructor; eauto.
Qed.

Lemma path_char_range c : path_char c = true → 45 ≤ c ≤ 122.
Proof. unfold path_char, is_digit, SLASH. lia. Qed.

Lemma path_char_allowed c : path_char c = true → allowed c = true.
Proof.
  intros H. pose proof (path_char_range c H). rewrite allowed_path_char; [done|].
  unfold byte_ok. lia.
Qed.

Lemma squeeze_id t b p : shape t b p = true → squeeze b p = p.
Proof.
  revert b. induction p as [|c p IH]; intros b; simpl; [done|]. unfold skipped.
  destruct (Z.eqb_spec c SLASH) as [->|]; intros [H Hp]%andb_true_iff.
  - destruct b; [done|]. simpl. by rewrite IH.
  - rewrite (path_char_allowed c H). simpl. rewrite andb_false_r. by rewrite IH.
Qed.

Lemma strip_slash_id p : clean_shape p = true → strip_slash p = p.
Proof.
  destruct p as [|c p _] using rev_ind; [done|]. intros H. rewrite strip_slash_snoc.
  destruct (Z.eqb_spec c SLASH) as [->|]; [|done]. exfalso. revert H.
  generalize false at 2 as a. induction p as [|d p IH]; intros a; simpl.
  - by rewrite andb_false_r.
  - destruct (d =? SLASH); intros [_ H]%andb_true_iff; by apply IH in H.
Qed.

Lemma clean_path_id p : clean_shape p = true → clean_path p = p.
Proof.
  intros H. unfold clean_path. erewrite squeeze_id by done. by apply strip_slash_id.
Qed.

Lemma content_app p q : content (p ++ q) = content p ++ content q.
Proof. apply List.filter_app. Qed.

Lemma squeeze_content b p : bytes_ok p → content (squeeze b p) = content p.
Proof.
  unfold content. revert b. induction p as [|c p IH]; intros b Hp; simpl; [done|].
  apply Forall_cons_iff in Hp as [Hc Hp]. unfold skipped.
  rewrite (allowed_path_char c Hc).
  destruct (Z.eqb_spec c SLASH) as [->|]; simpl.
  - destruct b; simpl; auto.
  - apply Z.eqb_neq in n.
    destruct b, (path_char c) eqn:E; simpl; rewrite ?E, ?n; simpl; auto; f_equal; auto.
Qed.

Lemma strip_slash_content p : content (strip_slash p) = content p.
Proof.
  destruct p as [|c p _] using rev_ind; [done|]. rewrite strip_slash_snoc.
  destruct (Z.eqb_spec c SLASH) as [->|]; [|done].
  by rewrite content_app, app_nil_r.
Qed.

Lemma squeeze_filter b p : squeeze b (List.filter allowed p) = squeeze b p.
Proof.
  revert b. induction p as [|c p IH]; intros b; simpl; [done|]. unfold skipped.
  destruct (allowed c) eqn:E; simpl; unfold skipped; rewrite ?E; simpl.
  - by rewrite !IH.
  - destruct (Z.eqb_spec c SLASH) as [->|]; [done|]. destruct b; simpl; apply IH.
Qed.

(** C34. The result of cleaning is a QuickIO path: only [A-Za-z0-9_/-], no empty
    segment and no trailing slash; nothing else is lost (the non-separator
    characters survive in order); a path already in that form is unchanged, so
    cleaning twice is cleaning once; and two paths that differ only in
    disallowed characters clean to the same path. *)
Theorem clean_path_correct p :
  bytes_ok p →
  clean_shape (clean_path p) = true ∧
  content (clean_path p) = content p ∧
  clean_path (clean_path p) = clean_path p ∧
  clean_path (List.filter allowed p) = clean_path p.
Proof.
  intros Hp. pose proof (clean_path_shape p Hp) as Hs. split_and!; [done|..].
  - unfold clean_path. by rewrite strip_slash_content, squeeze_content.
  - by apply clean_path_id.
  - unfold clean_path. by rewrite squeeze_filter.
Qed.

Lemma clean_path_correct_witness :
  bytes_ok (str "/app/@user/(new)>>>>") ∧
  clean_shape (clean_path (str "/app/@user/(new)>>>>")) = true ∧
  content (clean_path (str "/app/@user/(new)>>>>")) = content (str "/app/@user/(new)>>>>") ∧
  clean_path (clean_path (str "/app/@user/(new)>>>>")) = clean_path (str "/app/@user/(new)>>>>") ∧
  clean_path (List.filter allowed (str "/app/@user/(new)>>>>")) =
    clean_path (str "/app/@user/(new)>>>>").
Proof.
  assert (H : bytes_ok (str "/app/@user/(new)>>>>")) by (repeat constructor; done).
  split; [exact H|]. exact (clean_path_correct _ H).
Defined.

(** [evs_make_path] always yields a clean path that is empty or starts with
    a slash, whatever its three arguments, and its result is the clean path of
    the arguments joined by slashes. *)
Theorem evs_make_path_correct a b c :
  bytes_ok (default [] a) → bytes_ok (default [] b) → bytes_ok (default [] c) →
  let p := evs_make_path a b c in
  clean_shape p = true ∧ (p = [] ∨ head p = Some SLASH) ∧
  content p = content (default [] a) ++ content (default [] b) ++ content (default [] c).
Proof.
  intros Ha Hb Hc. cbv zeta. unfold evs_make_path.
  set (j := default [] a ++ _).
  assert (Hj : bytes_ok j) by (unfold j; rewrite !Forall_app, !Forall_singleton; done).
  assert (Hcj : content j = content (default [] a) ++ content (default [] b) ++ content (default [] c))
    by (unfold j; rewrite !content_app; done).
  assert (∃ q, bytes_ok (SLASH :: q) ∧ content q = content j ∧
    (if rd j 0 =? SLASH then j else SLASH :: j) = SLASH :: q) as (q & Hq & Hcq & ->).
  { destruct j as [|d j']; [by exists []; repeat constructor|].
    cbn [rd lookup list_lookup default]. unfold rd. simpl.
    destruct (Z.eqb_spec d SLASH) as [->|].
    - by exists j'.
    - exists (d :: j'). split_and!; [constructor; [by unfold byte_ok, SLASH|done]| |done].
      unfold content. simpl. apply Z.eqb_neq in n. by rewrite n. }
  split_and!.
  - by apply clean_path_shape.
  - destruct (strip_slash_prefix (squeeze false (SLASH :: q))) as [k Hk].
    unfold clean_path. destruct (strip_slash _) as [|d r]; [by left|right].
    simpl in Hk. by injection Hk as <- _.
  - unfold clean_path. rewrite strip_slash_content, squeeze_content by done.
    by rewrite <- Hcj, <- Hcq.
Qed.

Lemma evs_make_path_correct_witness :
  bytes_ok (str "/a") ∧ bytes_ok (str "b!") ∧ bytes_ok ([] : bytes) ∧
  let p := evs_make_path (Some (str "/a")) (Some (str "b!")) None in
  clean_shape p = true ∧ (p = [] ∨ head p = Some SLASH) ∧
  content p = content (str "/a") ++ content (str "b!") ++ content [].
Proof.
  assert (Ha : bytes_ok (str "/a")) by (repeat constructor; done).
  assert (Hb : bytes_ok (str "b!")) by (repeat constructor; done).
  assert (Hc : bytes_ok ([] : bytes)) by constructor.
  split; [exact Ha|]. split; [exact Hb|]. split; [exact Hc|].
  exact (evs_make_path_correct (Some (str "/a")) (Some (str "b!")) None Ha Hb Hc).
Defined.
