(* ===== verification/EvsQuery.v ===== *)
(** The event table: the prefix tree of src/evs_query.c.

    A node is found by its path from the root, so insertion and lookup recurse
    on the path. An index outside [childs] is undefined behaviour in C; it is
    the result [InsFault] or [QFault] here, and [evs_query_refines] shows it
    does not happen for paths over the characters '-' to 'z'. Module
    [EventTable] is the specification: a finite map from paths to events. *)
From Stdlib Require Import ZArith Lia.
From stdpp Require Import base list gmap strings.
From S2P Require Import Prelude Path Types.

(** [struct _ptrie]; [ev.ev_path] is NULL exactly when [pt_ev] is [None]. *)
Inductive ptrie :=
  PTrie (pt_ev : option event) (pt_ch : Z) (pt_childs : list (option ptrie)).

Definition pt_ev (t : ptrie) : option event := let '(PTrie e _ _) := t in e.
Definition pt_childs (t : ptrie) : list (option ptrie) := let '(PTrie _ _ l) := t in l.

(** ['z' - '-' + 1] *)
Definition N_CHILDS : nat := 78.

(** [g_slice_alloc0] followed by [child->ch = ch]. *)
Definition new_node (ch : Z) : ptrie := PTrie None ch (replicate N_CHILDS None).

(** The static [_events] before any insertion. *)
Definition _events : ptrie := new_node 0.

(** [guchar ch = *curr - '-'] *)
Definition child_index (c : Z) : nat := Z.to_nat (u8 (c - 45)).

Definition set_child (t : ptrie) (i : nat) (c : ptrie) : ptrie :=
  let '(PTrie e ch l) := t in PTrie e ch (<[i := Some c]> l).

(** The optional leading slash that both functions step over. *)
Definition skip_slash (p : bytes) : bytes :=
  match p with
  | c :: p' => if c =? SLASH then p' else p
  | [] => []
  end.

(** ** evs_query_insert *)

Inductive insert_result :=
  | InsFault                          (** index outside [childs] *)
  | InsNull (t : ptrie)               (** NULL: the root, or already taken *)
  | InsEvent (t : ptrie) (e : event). (** the new event *)

(** The walk that creates the missing nodes, then the check and the
    initialisation at the last one: the new tree, and whether [e] was stored. *)
Fixpoint insert_walk (curr : bytes) (e : event) (parent : ptrie) : option (ptrie * bool) :=
  match curr with
  | [] =>
      let '(PTrie ev ch l) := parent in
      match ev with
      | Some _ => Some (parent, false)
      | None => Some (PTrie (Some e) ch l, true)
      end
  | c :: curr =>
      let i := child_index c in
      if (N_CHILDS <=? i)%nat then None
      else
        let child := match pt_childs parent !! i with
                     | Some (Some t) => t
                     | _ => new_node (Z.of_nat i)
                     end in
        '(child, ok) ← insert_walk curr e child;
        Some (set_child parent i child, ok)
  end.

(** [event_init] *)
Definition event_init (path : bytes) (h : option evs_handler_fn)
    (on : option evs_on_fn) (off : option evs_off_fn) (children : bool) : event :=
  {| ev_path := path; handler_fn := h; on_fn := on; off_fn := off;
     handle_children := children |}.

Definition evs_query_insert (root : ptrie) (path : bytes) (h : option evs_handler_fn)
    (on : option evs_on_fn) (off : option evs_off_fn) (children : bool) : insert_result :=
  match skip_slash path with
  | [] => InsNull root
  | curr =>
      let e := event_init path h on off children in
      match insert_walk curr e root with
      | None => InsFault
      | Some (t, true) => InsEvent t e
      | Some (t, false) => InsNull t
      end
  end.

(** ** evs_query *)

Inductive query_result :=
  | QFault
  | QNull
  | QEvent (e : event) (ev_extra : bytes).

(** After the loop, with [parent = NULL]. *)
Definition query_child (handler : option (bytes * event)) : query_result :=
  match handler with
  | Some (start, e) =>
      if rd start 0 =? SLASH then QEvent e start else QNull
  | None => QNull
  end.

Fixpoint query_loop (curr : bytes) (parent : ptrie)
    (handler : option (bytes * event)) : query_result :=
  match curr with
  | [] =>
      match pt_ev parent with
      | Some e => QEvent e curr
      | None => QNull
      end
  | c :: rest =>
      let i := child_index c in
      if (N_CHILDS <=? i)%nat then QFault
      else
        let handler :=
          match pt_ev parent with
          | Some e => if handle_children e then Some (curr, e) else handler
          | None => handler
          end in
        match pt_childs parent !! i with
        | Some (Some child) => query_loop rest child handler
        | _ => query_child handler
        end
  end.

Definition evs_query (root : ptrie) (path : bytes) : query_result :=
  query_loop (skip_slash path) root None.

(** ** Specification *)

Module EventTable.

(** Paths without their leading slash, to events. *)
Abbreviation table := (gmap bytes event).

Definition insert (tbl : table) (path : bytes) (e : event) : table * bool :=
  let k := skip_slash path in
  if decide (k = []) then (tbl, false)
  else match tbl !! k with
       | Some _ => (tbl, false)
       | None => (<[k := e]> tbl, true)
       end.

(** The longest of the first [n] proper prefixes of [q] that is an event
    handling its children, with the rest of [q]. *)
Fixpoint handler_below (tbl : table) (q : bytes) (n : nat) : option (bytes * event) :=
  match n with
  | O => None
  | S n =>
      match tbl !! take n q with
      | Some e => if handle_children e then Some (drop n q, e) else handler_below tbl q n
      | None => handler_below tbl q n
      end
  end.

(** [q] is a prefix of a registered path. *)
Definition is_node (tbl : table) (q : bytes) : Prop :=
  q = [] ∨ map_Exists (λ k _, q `prefix_of` k) tbl.

#[export] Instance is_node_dec tbl q : Decision (is_node tbl q).
Proof. unfold is_node. apply _. Defined.

(** An exact match wins; a path that is a prefix of a registered one and is not
    itself registered matches nothing; any other goes to its longest prefix
    that handles children, provided that prefix ends at a segment boundary. *)
Definition query (tbl : table) (path : bytes) : query_result :=
  let q := skip_slash path in
  if decide (is_node tbl q) then
    match tbl !! q with Some e => QEvent e [] | None => QNull end
  else query_child (handler_below tbl q (length q)).

End EventTable.

(** ** Examples of test/test_evs.c *)

Definition test_add (t : ptrie) (p : string) (children : bool) : ptrie :=
  match evs_query_insert t (str p) None None None children with
  | InsEvent t _ | InsNull t => t
  | InsFault => t
  end.

Definition test_tree : ptrie :=
  test_add (test_add (test_add (test_add _events "/query-test" true)
    "/query-test/an" true) "/query-test/another" false) "/query-test/specific" false.

Definition test_found (p : string) : option (bytes * bytes) :=
  match evs_query test_tree (str p) with
  | QEvent e x => Some (ev_path e, x)
  | _ => None
  end.

Example query_ex1 : test_found "/query-test/specific/with/children" =
  Some (str "/query-test", str "/specific/with/children").
Proof. by vm_compute. Qed.
Example query_ex2 : test_found "/query-test/an/t" = Some (str "/query-test/an", str "/t").
Proof. by vm_compute. Qed.
Example query_ex3 : test_found "/query-test/another-test" = None.
Proof. by vm_compute. Qed.
Example query_ex4 : test_found "/query-test/a" = None.
Proof. by vm_compute. Qed.

(** ** Nodes by path *)

(** The characters '-' to 'z', those with a place in [childs]. *)
Abbreviation path_ok := (Forall (λ c, 45 ≤ c ≤ 122)).

Definition child (t : ptrie) (i : nat) : option ptrie := mjoin (pt_childs t !! i).

Fixpoint walk (t : ptrie) (p : bytes) : option ptrie :=
  match p with
  | [] => Some t
  | c :: p => t' ← child t (child_index c); walk t' p
  end.

Definition walk_ev (t : ptrie) (p : bytes) : option event := walk t p ≫= pt_ev.

Inductive wf : ptrie → Prop :=
  | wf_node e ch l :
      length l = N_CHILDS → (∀ i t, l !! i = Some (Some t) → wf t) →
      wf (PTrie e ch l).

Lemma child_index_lt c : 45 ≤ c ≤ 122 → (child_index c < N_CHILDS)%nat.
Proof. intros H. unfold child_index, u8, N_CHILDS. rewrite Z.mod_small; lia. Qed.

Lemma child_index_inj c d :
  45 ≤ c ≤ 122 → 45 ≤ d ≤ 122 → child_index c = child_index d → c = d.
Proof. intros H1 H2. unfold child_index, u8. rewrite !Z.mod_small; lia. Qed.

Lemma child_index_guard c : 45 ≤ c ≤ 122 → (N_CHILDS <=? child_index c)%nat = false.
Proof. intros H. apply Nat.leb_gt, child_index_lt, H. Qed.

Lemma wf_child t i c : wf t → child t i = Some c → wf c.
Proof.
  intros [e ch l _ Hw] H. apply (Hw i). unfold child in H. simpl in H.
  by destruct (l !! i) as [[?|]|]; simplify_eq/=.
Qed.

Lemma wf_new_node ch : wf (new_node ch).
Proof.
  constructor; [by rewrite length_replicate|].
  intros i t H. apply lookup_replicate in H as [? _]. done.
Qed.

Lemma child_new_node ch i : child (new_node ch) i = None.
Proof.
  unfold child, new_node. cbn [pt_childs].
  destruct (_ !! i) as [o|] eqn:E; [|done]. apply lookup_replicate in E as [-> _]. done.
Qed.

Lemma wf_set_child t i c : wf t → wf c → wf (set_child t i c).
Proof.
  intros [e ch l Hl Hw] Hc. constructor; [by rewrite length_insert|].
  intros j t' H. apply list_lookup_insert_Some in H as [(_ & [= <-] & _)|[_ H]]; [done|eauto].
Qed.

Lemma child_set_child t i c j :
  wf t → (i < N_CHILDS)%nat →
  child (set_child t i c) j = if decide (i = j) then Some c else child t j.
Proof.
  intros [e ch l Hl _] Hi. unfold child. cbn [set_child pt_childs].
  case_decide; subst.
  - by rewrite list_lookup_insert_eq by lia.
  - by rewrite list_lookup_insert_ne.
Qed.

Lemma pt_ev_set_child t i c : pt_ev (set_child t i c) = pt_ev t.
Proof. by destruct t. Qed.

(** What [insert_walk] and [query_loop] find at an index is [child]. *)
Lemma child_default t i :
  (match pt_childs t !! i with Some (Some t') => t' | _ => new_node (Z.of_nat i) end) =
  default (new_node (Z.of_nat i)) (child t i).
Proof. unfold child. by destruct (pt_childs t !! i) as [[?|]|]. Qed.

Lemma walk_new_node ch q : walk (new_node ch) q = match q with [] => Some (new_node ch) | _ => None end.
Proof. destruct q as [|c q]; [done|]. cbn [walk]. by rewrite child_new_node. Qed.

Lemma walk_ev_new_node ch q : walk_ev (new_node ch) q = None.
Proof. unfold walk_ev. rewrite walk_new_node. by destruct q. Qed.

Lemma walk_app t p q : walk t (p ++ q) = t' ← walk t p; walk t' q.
Proof.
  revert t. induction p as [|c p IH]; intros t; [done|]. cbn [walk app].
  by destruct (child t _) as [t'|]; cbn.
Qed.

(** ** Insertion *)

Lemma walk_set_child t c t' d q :
  wf t → 45 ≤ c ≤ 122 → 45 ≤ d ≤ 122 →
  walk (set_child t (child_index c) t') (d :: q) =
    if decide (d = c) then walk t' q else walk t (d :: q).
Proof.
  intros Hwf Hc Hd. cbn [walk]. rewrite child_set_child by (done || by apply child_index_lt).
  case_decide as E; case_decide as E'; [done|..|done].
  - destruct E'. symmetry. by apply child_index_inj.
  - by subst.
Qed.

(** The node that insertion descends into, missing or not. *)
Definition child_or_new (t : ptrie) (c : Z) : ptrie :=
  default (new_node (Z.of_nat (child_index c))) (child t (child_index c)).

Lemma child_or_new_wf t c : wf t → wf (child_or_new t c).
Proof.
  intros Hwf. unfold child_or_new.
  destruct (child t _) eqn:E; [by eapply wf_child|apply wf_new_node].
Qed.

Lemma walk_ev_child_or_new t c q : walk_ev (child_or_new t c) q = walk_ev t (c :: q).
Proof.
  unfold walk_ev, child_or_new. cbn [walk]. destruct (child t _); [done|].
  apply walk_ev_new_node.
Qed.

Lemma walk_child_or_new t c q :
  is_Some (walk (child_or_new t c) q) ↔ is_Some (walk t (c :: q)) ∨ q = [].
Proof.
  unfold child_or_new. cbn [walk]. destruct (child t _) as [t'|]; cbn.
  - split; [by left|]. intros [H| ->]; [done|by eexists].
  - rewrite walk_new_node. destruct q.
    + split; [by right|by eexists].
    + split; [by left|by intros [H|H]].
Qed.

(** What an insertion below [t] establishes. *)
Definition inserted (curr : bytes) (e : event) (t t' : ptrie) : Prop :=
  wf t' ∧
  (∀ q, path_ok q → walk_ev t' q =
     if decide (q = curr) then Some (default e (walk_ev t curr)) else walk_ev t q) ∧
  (∀ q, path_ok q → is_Some (walk t' q) ↔ is_Some (walk t q) ∨ q `prefix_of` curr).

Lemma prefix_of_nil (q : bytes) : q `prefix_of` [] ↔ q = [].
Proof. split; [by intros [k H]; destruct q|by intros ->]. Qed.

Lemma inserted_here e t ev ch l :
  t = PTrie ev ch l → wf t → inserted [] e t (PTrie (Some (default e ev)) ch l).
Proof.
  intros -> Hwf. inversion Hwf as [? ? ? Hl Hw]; subst. split_and!; [by constructor|..].
  - intros q _. unfold walk_ev. case_decide; subst; [done|]. by destruct q.
  - intros q _. rewrite prefix_of_nil. destruct q as [|d q]; [by split; [left|eexists]|].
    split; [by left|]. by intros [H|H].
Qed.

Lemma inserted_below c curr e t t' :
  wf t → 45 ≤ c ≤ 122 → inserted curr e (child_or_new t c) t' →
  inserted (c :: curr) e t (set_child t (child_index c) t').
Proof.
  intros Hwf Hc (Hwf' & Hev & Hnode). split_and!; [by apply wf_set_child|..].
  - intros [|d q] Hq; [unfold walk_ev; cbn; by rewrite pt_ev_set_child|].
    apply Forall_cons_iff in Hq as [Hd Hq]. unfold walk_ev at 1.
    rewrite walk_set_child by done. destruct (decide (d = c)) as [->|E].
    + fold (walk_ev t' q). rewrite (Hev q Hq), !walk_ev_child_or_new.
      repeat case_decide; congruence.
    + by rewrite decide_False by congruence.
  - intros [|d q] Hq; [split; [by left; eexists|by eexists]|].
    apply Forall_cons_iff in Hq as [Hd Hq]. rewrite walk_set_child by done.
    destruct (decide (d = c)) as [->|E].
    + rewrite (Hnode q Hq), walk_child_or_new. split.
      * intros [[H| ->]|H]; [by left|right; apply prefix_cons, prefix_nil|by right; apply prefix_cons].
      * intros [H|H]; [by do 2 left|by right; apply prefix_cons_inv_2 in H].
    + split; [by left|]. intros [H|H]; [done|]. by apply prefix_cons_inv_1 in H.
Qed.

Lemma insert_walk_spec curr e t :
  path_ok curr → wf t →
  ∃ t', insert_walk curr e t = Some (t', bool_decide (walk_ev t curr = None)) ∧
    inserted curr e t t'.
Proof.
  revert t. induction curr as [|c curr IH]; intros t Hp Hwf.
  - destruct t as [ev ch l] eqn:Et. rewrite <- Et in *.
    exists (PTrie (Some (default e ev)) ch l). split; [|by eapply inserted_here].
    subst t. unfold walk_ev. cbn. by destruct ev.
  - apply Forall_cons_iff in Hp as [Hc Hp]. cbn [insert_walk].
    rewrite child_index_guard, child_default by done. fold (child_or_new t c).
    destruct (IH (child_or_new t c) Hp (child_or_new_wf t c Hwf)) as (t' & -> & Hins).
    rewrite walk_ev_child_or_new. eexists. split; [done|]. by apply inserted_below.
Qed.

(** ** Refinement *)

(** The tree represents the table: same events, and a node for exactly the
    prefixes of registered paths. *)
Record represents (tbl : EventTable.table) (t : ptrie) : Prop := mkRepresents {
  rep_wf : wf t;
  rep_root : tbl !! ([] : bytes) = None;
  rep_keys : map_Forall (λ k _, path_ok k) tbl;
  rep_events : ∀ q, path_ok q → walk_ev t q = tbl !! q;
  rep_nodes : ∀ q, path_ok q → is_Some (walk t q) ↔ EventTable.is_node tbl q;
}.

Lemma represents_init : represents ∅ _events.
Proof.
  split; [apply wf_new_node|done|by intros k e ?|..]; intros q _.
  - rewrite lookup_empty. apply walk_ev_new_node.
  - unfold _events. rewrite walk_new_node. unfold EventTable.is_node. split.
    + destruct q; [by left|by intros []].
    + intros [->|(k & e & H & _)]; [by eexists|done].
Qed.

Lemma is_node_key tbl k e q : tbl !! k = Some e → q `prefix_of` k → EventTable.is_node tbl q.
Proof. intros H Hq. right. by exists k, e. Qed.

Lemma is_node_prefix tbl p q :
  EventTable.is_node tbl q → p `prefix_of` q → EventTable.is_node tbl p.
Proof.
  intros [->|(k & e & H & Hq)] Hp.
  - left. by apply prefix_of_nil.
  - eapply is_node_key; [done|]. by etrans.
Qed.

Lemma is_node_insert tbl k e q :
  tbl !! k = None →
  EventTable.is_node (<[k := e]> tbl) q ↔ EventTable.is_node tbl q ∨ q `prefix_of` k.
Proof.
  intros Hk. unfold EventTable.is_node. rewrite map_Exists_insert by done. tauto.
Qed.

(** Insertion refines the table's. *)
Lemma evs_query_insert_refines tbl t path h on off ch :
  represents tbl t → path_ok (skip_slash path) →
  let e := event_init path h on off ch in
  let '(tbl', ok) := EventTable.insert tbl path e in
  ∃ t', evs_query_insert t path h on off ch = (if ok then InsEvent t' e else InsNull t') ∧
    represents tbl' t'.
Proof.
  intros Hrep Hp. cbv zeta. unfold EventTable.insert, evs_query_insert.
  generalize (event_init path h on off ch) as e. intros e. revert Hp.
  generalize (skip_slash path) as k. intros k Hp. case_decide as Hk; [subst k; by exists t|].
  destruct (insert_walk_spec k e t Hp (rep_wf _ _ Hrep)) as (t' & Hw & Hwf' & Hev & Hnode).
  rewrite (rep_events _ _ Hrep k Hp) in Hw, Hev.
  destruct (tbl !! k) as [x|] eqn:Htk; exists t'.
  - split; [destruct k; [done|]; by rewrite Hw|].
    split; [done|apply Hrep|apply Hrep|..]; intros q Hq.
    + rewrite (Hev q Hq). case_decide; subst; [done|]. by apply Hrep.
    + rewrite (Hnode q Hq), (rep_nodes _ _ Hrep q Hq). split; [|by left].
      intros [?|?]; [done|]. by eapply is_node_key.
  - split; [destruct k; [done|]; by rewrite Hw|].
    split; [done|by rewrite lookup_insert_ne; [apply Hrep|]|..].
    + apply map_Forall_insert; [done|]. by split; [|apply Hrep].
    + intros q Hq. rewrite (Hev q Hq), lookup_insert.
      repeat case_decide; subst; try done. by apply Hrep.
    + intros q Hq. rewrite (Hnode q Hq), (rep_nodes _ _ Hrep q Hq).
      by rewrite is_node_insert.
Qed.

Lemma handler_below_more tbl q k m :
  (k ≤ m)%nat → (∀ j, (k ≤ j < m)%nat → tbl !! take j q = None) →
  EventTable.handler_below tbl q m = EventTable.handler_below tbl q k.
Proof.
  intros Hkm H. induction Hkm as [|m Hkm IH]; [done|]. cbn [EventTable.handler_below].
  rewrite H by lia. apply IH. intros j Hj. apply H. lia.
Qed.

(** Where the walk leaves the tree, the path is no prefix of a registered one,
    and the handlers seen so far are all there are. *)
Lemma query_miss tbl t p c rest :
  represents tbl t → path_ok (p ++ c :: rest) → walk t (p ++ [c]) = None →
  EventTable.handler_below tbl (p ++ c :: rest) (length (p ++ c :: rest)) =
    EventTable.handler_below tbl (p ++ c :: rest) (S (length p)) ∧
  ¬ EventTable.is_node tbl (p ++ c :: rest).
Proof.
  intros Hrep Hok Hw.
  assert (Happ : p ++ c :: rest = (p ++ [c]) ++ rest) by by rewrite <- app_assoc.
  assert (Hlen : length (p ++ [c]) = S (length p)) by (rewrite length_app; simpl; lia).
  assert (Hnn : ∀ k, (p ++ [c]) `prefix_of` k → ¬ EventTable.is_node tbl k).
  { intros k Hk Hn. apply (is_node_prefix _ _ _ Hn) in Hk.
    rewrite Happ in Hok. apply Forall_app in Hok as [Hok _].
    apply (rep_nodes _ _ Hrep _ Hok) in Hk as [x Hk]. congruence. }
  split; [|apply Hnn; rewrite Happ; by eexists].
  apply handler_below_more; [rewrite length_app; simpl; lia|].
  intros j Hj. apply eq_None_not_Some. intros [x Hx].
  eapply Hnn; [|eapply is_node_key; [exact Hx|done]].
  rewrite Happ, take_app_ge by lia. by eexists.
Qed.

Lemma query_loop_spec tbl t p rest n :
  represents tbl t → path_ok (p ++ rest) → walk t p = Some n →
  query_loop rest n (EventTable.handler_below tbl (p ++ rest) (length p)) =
    if decide (EventTable.is_node tbl (p ++ rest)) then
      match tbl !! (p ++ rest) with Some e => QEvent e [] | None => QNull end
    else query_child (EventTable.handler_below tbl (p ++ rest) (length (p ++ rest))).
Proof.
  intros Hrep. revert p n. induction rest as [|c rest IH]; intros p n Hok Hp.
  - rewrite app_nil_r in *. rewrite decide_True.
    + rewrite <- (rep_events _ _ Hrep p Hok). unfold walk_ev. rewrite Hp. done.
    + apply (rep_nodes _ _ Hrep p Hok). by eexists.
  - pose proof Hok as [Hokp [Hc Hokr]%Forall_cons_iff]%Forall_app. cbn [query_loop].
    rewrite child_index_guard by done.
    assert (Hev : pt_ev n = tbl !! p).
    { rewrite <- (rep_events _ _ Hrep p Hokp). unfold walk_ev. by rewrite Hp. }
    assert (Hh : (match pt_ev n with
                  | Some e => if handle_children e then Some (c :: rest, e)
                              else EventTable.handler_below tbl (p ++ c :: rest) (length p)
                  | None => EventTable.handler_below tbl (p ++ c :: rest) (length p) end)
               = EventTable.handler_below tbl (p ++ c :: rest) (S (length p))).
    { cbn [EventTable.handler_below]. by rewrite take_app_length, drop_app_length, Hev. }
    rewrite Hh. clear Hh. assert (Hw : walk t (p ++ [c]) = child n (child_index c)).
    { rewrite walk_app, Hp. cbn. by destruct (child n _). }
    assert (Happ : p ++ c :: rest = (p ++ [c]) ++ rest) by by rewrite <- app_assoc.
    assert (Hlen : S (length p) = length (p ++ [c])) by (rewrite length_app; simpl; lia).
    unfold child in Hw. destruct (pt_childs n !! _) as [[c'|]|]; cbn in Hw.
    { rewrite Happ in *. rewrite Hlen. by apply IH. }
    all: destruct (query_miss tbl t p c rest Hrep Hok Hw) as [-> Hnn].
    all: by rewrite decide_False.
Qed.

Lemma evs_query_spec tbl t path :
  represents tbl t → path_ok (skip_slash path) →
  evs_query t path = EventTable.query tbl path.
Proof. intros Hrep Hp. by apply (query_loop_spec tbl t []). Qed.

(** ** Any sequence of registrations *)

(** Registering events one after the other, and which calls returned one. *)
Fixpoint add_all (t : ptrie) (es : list event) : option (ptrie * list bool) :=
  match es with
  | [] => Some (t, [])
  | e :: es =>
      match evs_query_insert t (ev_path e) (handler_fn e) (on_fn e) (off_fn e)
              (handle_children e) with
      | InsFault => None
      | InsNull t => '(t, rs) ← add_all t es; Some (t, false :: rs)
      | InsEvent t _ => '(t, rs) ← add_all t es; Some (t, true :: rs)
      end
  end.

Fixpoint spec_all (tbl : EventTable.table) (es : list event) : EventTable.table * list bool :=
  match es with
  | [] => (tbl, [])
  | e :: es =>
      let r := EventTable.insert tbl (ev_path e) e in
      let s := spec_all r.1 es in (s.1, r.2 :: s.2)
  end.

Definition events_ok (es : list event) : Prop :=
  Forall (λ e, path_ok (skip_slash (ev_path e))) es.

Lemma event_eta e :
  event_init (ev_path e) (handler_fn e) (on_fn e) (off_fn e) (handle_children e) = e.
Proof. by destruct e. Qed.

Lemma add_all_spec tbl t es :
  represents tbl t → events_ok es →
  ∃ t', add_all t es = Some (t', (spec_all tbl es).2) ∧ represents (spec_all tbl es).1 t'.
Proof.
  revert tbl t. induction es as [|e es IH]; intros tbl t Hrep Hok; [by exists t|].
  apply Forall_cons_iff in Hok as [He Hok]. cbn [add_all spec_all].
  pose proof (evs_query_insert_refines tbl t _ (handler_fn e) (on_fn e) (off_fn e)
    (handle_children e) Hrep He) as H. cbv zeta in H. rewrite event_eta in H.
  destruct (EventTable.insert tbl (ev_path e) e) as [tbl1 ok]. destruct H as (t1 & -> & H1).
  destruct (IH tbl1 t1 H1 Hok) as (t' & Ht' & H2). exists t'.
  destruct ok; rewrite Ht'; done.
Qed.

(** C18. The event tree is a refinement of the event table: after any sequence
    of registrations of paths over '-' to 'z', none of which indexes outside a
    node, the calls that succeeded are those the table accepts (the first for
    each non-empty path) and every query answers what the table answers. *)
Theorem evs_query_refines es path :
  events_ok es → path_ok (skip_slash path) →
  ∃ t, add_all _events es = Some (t, (spec_all ∅ es).2) ∧
    evs_query t path = EventTable.query (spec_all ∅ es).1 path.
Proof.
  intros Hes Hp. destruct (add_all_spec ∅ _events es represents_init Hes) as (t & Ht & Hrep).
  exists t. split; [done|]. by apply evs_query_spec.
Qed.

Definition test_events : list event :=
  [mkEvent (str "/query-test") None None None true;
   mkEvent (str "/query-test/an") None None None true;
   mkEvent (str "/query-test/an") None None None false].

Lemma test_events_ok : events_ok test_events.
Proof. repeat constructor; done. Qed.

Lemma evs_query_refines_witness :
  events_ok test_events ∧ path_ok (skip_slash (str "/query-test/an/t")) ∧
  ∃ t, add_all _events test_events = Some (t, (spec_all ∅ test_events).2) ∧
    evs_query t (str "/query-test/an/t") =
      EventTable.query (spec_all ∅ test_events).1 (str "/query-test/an/t").
Proof.
  assert (H : path_ok (skip_slash (str "/query-test/an/t"))) by (repeat constructor; done).
  split; [exact test_events_ok|]. split; [exact H|].
  exact (evs_query_refines test_events _ test_events_ok H).
Defined.

Lemma handler_below_spec tbl q n x e :
  EventTable.handler_below tbl q n = Some (x, e) →
  ∃ k, q = k ++ x ∧ tbl !! k = Some e ∧ handle_children e = true.
Proof.
  induction n as [|n IH]; cbn [EventTable.handler_below]; [done|].
  destruct (tbl !! take n q) as [e'|] eqn:E; [|done].
  destruct (handle_children e') eqn:Ec; [|done]. intros [= <- <-].
  exists (take n q). by rewrite take_drop.
Qed.

Lemma table_query_sound tbl path e x :
  EventTable.query tbl path = QEvent e x →
  ∃ k, skip_slash path = k ++ x ∧ tbl !! k = Some e ∧
    (x = [] ∨ head x = Some SLASH ∧ handle_children e = true).
Proof.
  unfold EventTable.query. generalize (skip_slash path) as q. intros q. case_decide.
  - destruct (tbl !! q) eqn:E; [|done]. intros [= <- <-]. exists q. rewrite app_nil_r.
    by split_and!; [| |left].
  - unfold query_child. destruct (EventTable.handler_below _ _ _) as [[y e']|] eqn:E; [|done].
    unfold rd. destruct y as [|c y]; [done|]. cbn. destruct (Z.eqb_spec c SLASH) as [->|]; [|done].
    intros [= <- <-]. apply handler_below_spec in E as (k & -> & Hk & Hc).
    exists k. split_and!; [done|done|by right].
Qed.

Lemma insert_cases tbl path e :
  EventTable.insert tbl path e = (tbl, false) ∨
  tbl !! skip_slash path = None ∧
  EventTable.insert tbl path e = (<[skip_slash path := e]> tbl, true).
Proof.
  unfold EventTable.insert. case_decide; [by left|].
  destruct (tbl !! _); [by left|by right].
Qed.

Lemma spec_all_sound tbl es k e :
  (spec_all tbl es).1 !! k = Some e →
  tbl !! k = Some e ∨ e ∈ es ∧ k = skip_slash (ev_path e).
Proof.
  revert tbl. induction es as [|e' es IH]; intros tbl; cbn [spec_all fst snd]; [by left|].
  intros [H|[??]]%IH; [|right; by split; [right|]].
  destruct (insert_cases tbl (ev_path e') e') as [Hi|[_ Hi]]; rewrite Hi in H; [by left|].
  cbn in H. apply lookup_insert_Some in H as [[<- <-]|[? ?]]; [right; by split; [left|]|by left].
Qed.

Lemma spec_all_keeps tbl es k e :
  tbl !! k = Some e → (spec_all tbl es).1 !! k = Some e.
Proof.
  revert tbl. induction es as [|e' es IH]; intros tbl Hk; cbn [spec_all fst snd]; [done|].
  apply IH. destruct (insert_cases tbl (ev_path e') e') as [->|[? ->]]; [done|].
  cbn. by rewrite lookup_insert_ne by congruence.
Qed.

Lemma spec_all_true tbl es i e :
  es !! i = Some e → (spec_all tbl es).2 !! i = Some true →
  (spec_all tbl es).1 !! skip_slash (ev_path e) = Some e.
Proof.
  revert tbl i. induction es as [|e' es IH]; intros tbl [|i]; cbn [spec_all fst snd]; [done..| |].
  - intros [= ->]. cbn. destruct (insert_cases tbl (ev_path e) e) as [->|[? ->]]; [done|].
    intros _. apply spec_all_keeps, lookup_insert_eq.
  - intros Hi Ht. by apply (IH _ i).
Qed.

(** Routing is sound and complete for the registered events. An event that
    a query returns was registered; its path is the queried one without the
    extra segments; and there are extra segments only when the event handles
    its children, starting with a slash. Conversely the path of an event whose
    registration succeeded finds that event, with no extra segments, whatever
    was registered before or after. *)
Theorem evs_query_routes es t rs :
  events_ok es → add_all _events es = Some (t, rs) →
  (∀ path e x, path_ok (skip_slash path) → evs_query t path = QEvent e x →
     e ∈ es ∧ skip_slash path = skip_slash (ev_path e) ++ x ∧
     (x = [] ∨ head x = Some SLASH ∧ handle_children e = true)) ∧
  (∀ i e, es !! i = Some e → rs !! i = Some true →
     evs_query t (ev_path e) = QEvent e []).
Proof.
  intros Hes Ht. destruct (add_all_spec ∅ _events es represents_init Hes) as (t' & Ht' & Hrep).
  rewrite Ht in Ht'. injection Ht' as <- ->. split.
  - intros path e x Hp. rewrite (evs_query_spec _ _ _ Hrep Hp).
    intros (k & Hk & He & Hx)%table_query_sound.
    apply spec_all_sound in He as [He|[He ->]]; [done|]. by split_and!.
  - intros i e Hi Hr.
    assert (Hp : path_ok (skip_slash (ev_path e))) by (by eapply Forall_lookup in Hes).
    pose proof (spec_all_true ∅ es i e Hi Hr) as Hk.
    rewrite (evs_query_spec _ _ _ Hrep Hp). unfold EventTable.query.
    rewrite decide_True, Hk; [done|]. by eapply is_node_key.
Qed.

Definition test_tree2 : ptrie :=
  match add_all _events test_events with Some (t, _) => t | None => _events end.

Lemma evs_query_routes_witness :
  events_ok test_events ∧
  add_all _events test_events = Some (test_tree2, [true; true; false]) ∧
  (∀ path e x, path_ok (skip_slash path) → evs_query test_tree2 path = QEvent e x →
     e ∈ test_events ∧ skip_slash path = skip_slash (ev_path e) ++ x ∧
     (x = [] ∨ head x = Some SLASH ∧ handle_children e = true)) ∧
  (∀ i e, test_events !! i = Some e → [true; true; false] !! i = Some true →
     evs_query test_tree2 (ev_path e) = QEvent e []).
Proof.
  assert (H : add_all _events test_events = Some (test_tree2, [true; true; false]))
    by (vm_compute; reflexivity).
  split; [exact test_events_ok|]. split; [exact H|].
  exact (evs_query_routes test_events test_tree2 [true; true; false] test_events_ok H).
Defined.

(** An event that handles children loses a child path as soon as an unrelated
    event shares more of that path than it does: with "/query-test" and
    "/query-test/an" registered, "/query-test/another-test" and "/query-test/a"
    reach neither. *)
Lemma sibling_hides_children :
  evs_query (test_add _events "/query-test" true) (str "/query-test/a") =
    QEvent (mkEvent (str "/query-test") None None None true) (str "/a") ∧
  evs_query (test_add (test_add _events "/query-test" true) "/query-test/an" true)
    (str "/query-test/a") = QNull ∧
  evs_query (test_add (test_add _events "/query-test" true) "/query-test/an" true)
    (str "/query-test/another-test") = QNull.
Proof. by vm_compute. Qed.
