(* ===== verification/EvsFree.v ===== *)
(** The release of the event tree at exit: [_ptrie_free] of src/evs_query.c and
    [event_clear] of src/evs.c. *)
From Stdlib Require Import ZArith Lia Sorted.
From stdpp Require Import base list gmap strings.
From S2P Require Import Prelude Path Types EvsQuery.

(** What is given back: the fields of an event, or a node of the tree. A node is
    named by the characters that lead to it. *)
Inductive release :=
  | event_clear (e : event)
  | g_slice_free1 (node : bytes).

(** The character of the child at index [i]. *)
Definition child_char (i : nat) : Z := 45 + Z.of_nat i.

(** [_ptrie_free] of a node at [p]: its children first, then its event, then
    the node itself, unless it is the static root. *)
Fixpoint _ptrie_free (p : bytes) (t : ptrie) : list release :=
  let '(PTrie ev _ childs) := t in
  let fix free_childs (i : nat) (l : list (option ptrie)) : list release :=
    match l with
    | [] => []
    | None :: l => free_childs (S i) l
    | Some c :: l => _ptrie_free (p ++ [child_char i]) c ++ free_childs (S i) l
    end in
  free_childs O childs ++
  match ev with Some e => [event_clear e] | None => [] end ++
  match p with [] => [] | _ => [g_slice_free1 p] end.

(** What [qev_cleanup(&_events, _ptrie_free)] does at exit: the root is cleared
    by the [memset]. *)
Definition evs_query_free (root : ptrie) : list release * ptrie := (_ptrie_free [] root, _events).

(** ** Everything once *)

Fixpoint free_childs (p : bytes) (i : nat) (l : list (option ptrie)) : list release :=
  match l with
  | [] => []
  | None :: l => free_childs p (S i) l
  | Some c :: l => _ptrie_free (p ++ [child_char i]) c ++ free_childs p (S i) l
  end.

Lemma ptrie_free_eq p ev ch l :
  _ptrie_free p (PTrie ev ch l) =
    free_childs p 0 l ++ match ev with Some e => [event_clear e] | None => [] end ++
    match p with [] => [] | _ => [g_slice_free1 p] end.
Proof.
  cbn [_ptrie_free]. f_equal. generalize O. induction l as [|[c|] l IH]; intros i; simpl; [done|by rewrite IH|apply IH].
Qed.

(** The nodes and the events of what is given back, by their paths. *)
Definition nodes (rs : list release) : list bytes :=
  omap (λ r, match r with g_slice_free1 q => Some q | _ => None end) rs.
Definition events (rs : list release) : list event :=
  omap (λ r, match r with event_clear e => Some e | _ => None end) rs.

Lemma nodes_app a b : nodes (a ++ b) = nodes a ++ nodes b.
Proof. apply omap_app. Qed.
Lemma events_app a b : events (a ++ b) = events a ++ events b.
Proof. apply omap_app. Qed.

(** The paths below [t] that lead to a node, and to an event, in the order in
    which they are given back. *)
Fixpoint paths (t : ptrie) : list (bytes * option event) :=
  let '(PTrie ev _ childs) := t in
  let fix below (i : nat) (l : list (option ptrie)) : list (bytes * option event) :=
    match l with
    | [] => []
    | None :: l => below (S i) l
    | Some c :: l => (prod_map (cons (child_char i)) id <$> paths c) ++ below (S i) l
    end in
  below O childs ++ [([], ev)].

Fixpoint below (i : nat) (l : list (option ptrie)) : list (bytes * option event) :=
  match l with
  | [] => []
  | None :: l => below (S i) l
  | Some c :: l => (prod_map (cons (child_char i)) id <$> paths c) ++ below (S i) l
  end.

Lemma paths_eq ev ch l : paths (PTrie ev ch l) = below 0 l ++ [([], ev)].
Proof. reflexivity. Qed.

(** Induction over the tree. *)
Lemma ptrie_ind2 (P : ptrie → Prop) :
  (∀ ev ch l, (∀ i c, l !! i = Some (Some c) → P c) → P (PTrie ev ch l)) → ∀ t, P t.
Proof.
  intros H. fix IH 1. intros [ev ch l]. apply H. revert l. fix IHl 1. intros [|[c|] l] [|i] c'; simpl.
  - discriminate.
  - discriminate.
  - intros [= <-]. apply IH.
  - apply IHl.
  - discriminate.
  - apply IHl.
Qed.

(** The path from the root, of a node that is not the root. *)
Definition full (p : bytes) (x : bytes * option event) : option bytes :=
  match p ++ x.1 with [] => None | q => Some q end.

Lemma full_child p i (xs : list (bytes * option event)) :
  omap (full (p ++ [child_char i])) xs = omap (full p) (prod_map (cons (child_char i)) id <$> xs).
Proof.
  induction xs as [|[q e] xs IH]; [done|]. cbn [omap list_omap fmap list_fmap prod_map fst snd].
  assert (E : full (p ++ [child_char i]) (q, e) = full p (child_char i :: q, id e)).
  { unfold full. simpl. by rewrite <- app_assoc. }
  rewrite E. change (list_omap ?f ?l) with (omap f l). rewrite IH. done.
Qed.

Lemma events_child (f : bytes → bytes) (xs : list (bytes * option event)) :
  omap snd (prod_map f id <$> xs) = omap snd xs.
Proof.
  induction xs as [|[q e] xs IH]; [done|]. cbn [omap list_omap fmap list_fmap prod_map fst snd].
  change (list_omap ?f ?l) with (omap f l). by rewrite IH.
Qed.

Lemma free_paths t p :
  nodes (_ptrie_free p t) = omap (full p) (paths t) ∧ events (_ptrie_free p t) = omap snd (paths t).
Proof.
  revert p. induction t as [ev ch l IH] using ptrie_ind2. intros p. rewrite ptrie_free_eq, paths_eq.
  assert (Hc : ∀ i, nodes (free_childs p i l) = omap (full p) (below i l) ∧
    events (free_childs p i l) = omap snd (below i l)).
  { clear ch. induction l as [|[c|] l IHl]; intros i; cbn [free_childs below]; [done| |].
    - destruct (IH O c eq_refl (p ++ [child_char i])) as [H1 H2].
      destruct (IHl (λ j, IH (S j)) (S i)) as [H3 H4]. rewrite nodes_app, events_app, H1, H2, H3, H4, !omap_app.
      split; f_equal; [apply full_child|]. symmetry. apply events_child.
    - apply (IHl (λ j, IH (S j))). }
  destruct (Hc O) as [H1 H2]. rewrite !nodes_app, !events_app, !omap_app, H1, H2. split.
  - f_equal. unfold full. simpl. rewrite app_nil_r. by destruct ev, p.
  - f_equal. by destruct ev, p.
Qed.

Lemma child_index_char i : (i < N_CHILDS)%nat → child_index (child_char i) = i.
Proof. intros H. unfold child_index, child_char, u8, N_CHILDS in *. rewrite Z.mod_small; lia. Qed.

Lemma child_char_index c : 45 ≤ c ≤ 122 → child_char (child_index c) = c.
Proof. intros H. unfold child_index, child_char, u8. rewrite Z.mod_small; lia. Qed.

Lemma below_elem i l x :
  x ∈ below i l ↔ ∃ j c q e, l !! j = Some (Some c) ∧ (q, e) ∈ paths c ∧ x = (child_char (i + j) :: q, e).
Proof.
  revert i. induction l as [|[c|] l IH]; intros i; simpl.
  - split; [by intros ?%elem_of_nil|by intros (j & c & q & e & H & _)].
  - rewrite elem_of_app, IH, list_elem_of_fmap. split.
    + intros [([q e] & -> & H)|(j & c' & q & e & H1 & H2 & ->)].
      * exists O, c, q, e. by rewrite Nat.add_0_r.
      * exists (S j), c', q, e. by rewrite <- Nat.add_succ_comm.
    + intros ([|j] & c' & q & e & H1 & H2 & ->); simpl in H1.
      * left. injection H1 as <-. exists (q, e). by rewrite Nat.add_0_r.
      * right. exists j, c', q, e. by rewrite Nat.add_succ_comm.
  - rewrite IH. split.
    + intros (j & c & q & e & H1 & H2 & ->). exists (S j), c, q, e. by rewrite <- Nat.add_succ_comm.
    + intros ([|j] & c & q & e & H1 & H2 & ->); [done|]. exists j, c, q, e. by rewrite Nat.add_succ_comm.
Qed.

(** The paths are those of the nodes, with what is stored there. *)
Lemma paths_walk t : wf t → ∀ q e,
  (q, e) ∈ paths t ↔ path_ok q ∧ pt_ev <$> walk t q = Some e.
Proof.
  induction t as [ev ch l IH] using ptrie_ind2. intros Hwf. inversion Hwf as [? ? ? Hl Hc]; subst.
  intros q e. rewrite paths_eq, elem_of_app, below_elem, list_elem_of_singleton. destruct q as [|x q].
  - split; [intros [(j & c & q & e' & _ & _ & [=])|[= ->]]; by split|]. intros [_ [= <-]]. by right.
  - rewrite Forall_cons. split.
    + intros [(j & c & q' & e' & H1 & H2 & [= -> -> ->])|[=]]. apply (IH j c H1 (Hc j c H1)) in H2 as [H2 H3].
      assert (Hj : (j < N_CHILDS)%nat) by (rewrite <- Hl; by eapply lookup_lt_Some).
      split; [split; [|done]; unfold child_char, N_CHILDS in *; lia|].
      cbn [walk]. rewrite child_index_char by done. unfold child. simpl. by rewrite H1.
    + intros [[Hx Hq] Hw]. left. cbn [walk] in Hw. unfold child in Hw. simpl in Hw.
      destruct (l !! child_index x) as [[c|]|] eqn:E; simpl in Hw; [|done..].
      exists (child_index x), c, q, e. split; [done|]. split; [by apply (IH _ c E (Hc _ c E))|].
      simpl. by rewrite child_char_index.
Qed.

Lemma below_fst i l x : x ∈ (below i l).*1 → ∃ j q, x = child_char (i + j) :: q.
Proof.
  intros H. apply list_elem_of_fmap in H as ([y e] & -> & H). apply below_elem in H as (j & c & q & e' & _ & _ & [= -> ->]).
  by exists j, q.
Qed.

Lemma paths_NoDup t : NoDup (paths t).*1.
Proof.
  induction t as [ev ch l IH] using ptrie_ind2. rewrite paths_eq, fmap_app. apply NoDup_app. split; [|split].
  - clear ch. generalize O. induction l as [|[c|] l IHl]; intros i; simpl; [constructor| |apply (IHl (λ j, IH (S j)))].
    rewrite fmap_app. apply NoDup_app. split; [|split].
    + rewrite <- list_fmap_compose. assert (E : (fst ∘ prod_map (cons (child_char i)) id) <$> paths c = cons (child_char i) <$> (paths c).*1).
      { rewrite <- list_fmap_compose. apply list_fmap_ext. by intros ? [? ?]. }
      rewrite E. apply NoDup_fmap_2; [by intros ? ? [=]|]. apply (IH O c eq_refl).
    + intros x Hx Hx2. apply list_elem_of_fmap in Hx as ([y e] & -> & Hx). apply list_elem_of_fmap in Hx as ([q e'] & [= -> ->] & _).
      apply below_fst in Hx2 as (j & q2 & [= E _]). unfold child_char in E. lia.
    + apply (IHl (λ j, IH (S j))).
  - intros x Hx Hx2. apply list_elem_of_singleton in Hx2 as ->. by apply below_fst in Hx as (j & q & [=]).
  - apply NoDup_singleton.
Qed.

(** Nodes are given back after those below them. *)
Definition not_above (p q : bytes) : Prop := ∀ x, x ≠ [] → q ≠ p ++ x.

Lemma sorted_app {A} (R : A → A → Prop) l1 l2 :
  StronglySorted R l1 → StronglySorted R l2 → (∀ x y, x ∈ l1 → y ∈ l2 → R x y) → StronglySorted R (l1 ++ l2).
Proof.
  induction 1 as [|a l1 H1 IH Ha]; intros H2 H; simpl; [done|]. constructor.
  - apply IH; [done|]. intros x y Hx. apply H. by right.
  - apply Forall_app. split; [done|]. apply Forall_forall. intros y. apply H. by left.
Qed.

Lemma sorted_fmap {A B} (f : A → B) (R : B → B → Prop) l :
  StronglySorted (λ x y, R (f x) (f y)) l → StronglySorted R (f <$> l).
Proof.
  induction 1 as [|a l H IH Ha]; simpl; constructor; [done|]. by apply Forall_fmap.
Qed.

Lemma sorted_mono {A} (R S : A → A → Prop) l :
  (∀ x y, R x y → S x y) → StronglySorted R l → StronglySorted S l.
Proof. intros H. induction 1; constructor; [done|]. eapply Forall_impl; [done|]. auto. Qed.

Lemma below_sorted i l :
  (∀ j c, l !! j = Some (Some c) → StronglySorted not_above (paths c).*1) →
  StronglySorted not_above (below i l).*1.
Proof.
  revert i. induction l as [|[c|] l IH]; intros i Hl; cbn [below]; [constructor| |apply IH; intros j; apply (Hl (S j))].
  rewrite fmap_app. apply sorted_app.
  - assert (E : (prod_map (cons (child_char i)) id <$> paths c).*1 = cons (child_char i) <$> (paths c).*1).
    { rewrite <- !list_fmap_compose. apply list_fmap_ext. by intros ? [? ?]. }
    rewrite E. apply sorted_fmap. eapply sorted_mono; [|apply (Hl O c eq_refl)].
    intros p q H x Hx [= Hq]. by apply (H x).
  - apply IH. intros j. apply (Hl (S j)).
  - intros p q Hp Hq x Hx ->. apply list_elem_of_fmap in Hp as ([y e] & -> & Hp).
    apply list_elem_of_fmap in Hp as ([z e'] & [= -> ->] & _). apply below_fst in Hq as (j & q' & [= E _]).
    unfold child_char in E. lia.
Qed.

Lemma paths_sorted t : StronglySorted not_above (paths t).*1.
Proof.
  induction t as [ev ch l IH] using ptrie_ind2. rewrite paths_eq, fmap_app. apply sorted_app.
  - by apply below_sorted.
  - repeat constructor.
  - intros p q Hp Hq x Hx ->. apply list_elem_of_singleton in Hq. by apply app_nil in Hq as [_ ->].
Qed.

Lemma nodes_root ev ch l : nodes (_ptrie_free [] (PTrie ev ch l)) = (below 0 l).*1.
Proof.
  rewrite (proj1 (free_paths _ [])), paths_eq, omap_app. simpl. rewrite app_nil_r.
  assert (H : ∀ x, x ∈ (below 0 l).*1 → x ≠ []) by (intros x Hx; by apply below_fst in Hx as (j & q & ->)).
  revert H. generalize (below 0 l). intros xs H. induction xs as [|[q e] xs IH]; [done|].
  cbn [omap list_omap fmap list_fmap fst]. change (list_omap ?f ?k) with (omap f k).
  rewrite IH by (intros x Hx; apply H; by right). unfold full at 1. simpl.
  destruct q; [|done]. exfalso. apply (H []); [by left|done].
Qed.

(** C17. At exit the event tree is given back whole. Whatever events were
    registered, in whatever order, each of them is cleared exactly once and each
    node of the tree but the static root is freed exactly once, after all the
    nodes below it; the root is left as it was before the first registration. *)
Theorem evs_query_free_correct tbl t :
  represents tbl t →
  let r := evs_query_free t in
  NoDup (nodes r.1) ∧ (∀ q, q ∈ nodes r.1 ↔ q ≠ [] ∧ path_ok q ∧ EventTable.is_node tbl q) ∧
  StronglySorted not_above (nodes r.1) ∧
  events r.1 ≡ₚ (map_to_list tbl).*2 ∧ represents ∅ r.2.
Proof.
  intros H r. subst r. unfold evs_query_free. cbn [fst snd]. destruct t as [ev ch l].
  pose proof (rep_wf _ _ H) as Hwf. pose proof (paths_walk _ Hwf) as Hw.
  pose proof (paths_NoDup (PTrie ev ch l)) as Hnd. pose proof (paths_sorted (PTrie ev ch l)) as Hso.
  rewrite paths_eq, fmap_app in Hnd. rewrite nodes_root.
  split; [by apply NoDup_app in Hnd as [Hnd _]|]. split; [|split; [|split; [|apply represents_init]]].
  - intros q. split.
    + intros Hq. assert (Hne : q ≠ []) by (by apply below_fst in Hq as (j & q' & ->)).
      apply list_elem_of_fmap in Hq as ([q' e] & -> & Hq). cbn [fst] in *.
      destruct (proj1 (Hw q' e)) as [Hp Hx]; [rewrite paths_eq; apply elem_of_app; by left|].
      split; [done|]. split; [done|]. apply (rep_nodes _ _ H q' Hp). destruct (walk _ q'); [by eexists|done].
    + intros (Hne & Hp & Hn). apply (rep_nodes _ _ H q Hp) in Hn as [t' Ht'].
      assert (Hin : (q, pt_ev t') ∈ paths (PTrie ev ch l)) by (apply Hw; by rewrite Ht').
      rewrite paths_eq in Hin. apply elem_of_app in Hin as [Hin|Hin].
      * apply list_elem_of_fmap. by exists (q, pt_ev t').
      * by apply list_elem_of_singleton in Hin as [= -> _].
  - rewrite paths_eq, fmap_app in Hso. clear -Hso. revert Hso. generalize (below 0 l).*1. intros xs.
    induction xs as [|x xs IH]; [constructor|]. simpl. intros Hs. apply StronglySorted_inv in Hs as [Hs Hx].
    constructor; [by apply IH|]. by apply Forall_app in Hx as [Hx _].
  - rewrite (proj2 (free_paths _ [])). set (xs := paths (PTrie ev ch l)) in *.
    set (ys := omap (λ x : bytes * option event, pair x.1 <$> x.2) xs).
    assert (E : omap snd xs = ys.*2).
    { unfold ys. clear. induction xs as [|[q [e|]] xs IH]; [done|..]; cbn [omap list_omap fmap list_fmap fst snd option_map option_fmap];
        change (list_omap ?f ?k) with (omap f k); by rewrite IH. }
    rewrite E. apply fmap_Permutation. apply NoDup_Permutation.
    + assert (Hin : ∀ zs, NoDup zs.*1 → NoDup (omap (λ x : bytes * option event, pair x.1 <$> x.2) zs)).
      { clear. induction zs as [|[q o] zs IH]; [constructor|]. intros Hz. apply NoDup_cons in Hz as [H1 H2].
        destruct o as [e|]; simpl; [|by apply IH]. apply NoDup_cons. split; [|by apply IH].
        intros Hq. apply H1. apply list_elem_of_omap in Hq as ([q' o'] & Hz & Ho). simpl in Ho.
        destruct o' as [e'|]; [|done]. injection Ho as -> ->. apply list_elem_of_fmap. by exists (q, Some e). }
      apply Hin. exact (paths_NoDup (PTrie ev ch l)).
    + apply NoDup_map_to_list.
    + intros [q e]. rewrite elem_of_map_to_list. unfold ys. rewrite list_elem_of_omap. split.
      * intros ([q' o] & Hz & Ho). simpl in Ho. destruct o as [e'|]; [|done]. injection Ho as -> ->.
        apply Hw in Hz as [Hp Hx]. rewrite <- (rep_events _ _ H q Hp). unfold walk_ev.
        destruct (walk _ q); [|done]. simpl in *. by injection Hx.
      * intros Hq. pose proof (rep_keys _ _ H q e Hq) as Hp. pose proof (rep_events _ _ H q Hp) as He.
        exists (q, Some e). split; [|done]. apply Hw. split; [done|]. unfold walk_ev in He. rewrite Hq in He.
        destruct (walk _ q); [|done]. simpl in *. by rewrite He.
Qed.

(** ** Witness *)

Lemma evs_query_free_correct_witness :
  ∃ t, add_all _events test_events = Some (t, [true; true; false]) ∧
    events (evs_query_free t).1 ≡ₚ take 2 test_events ∧ NoDup (nodes (evs_query_free t).1) ∧
    length (nodes (evs_query_free t).1) = 13%nat.
Proof.
  destruct (add_all_spec ∅ _events test_events represents_init test_events_ok) as (t & Ht & Hr).
  exists t. split; [exact Ht|].
  destruct (evs_query_free_correct (spec_all ∅ test_events).1 t Hr) as (H1 & _ & _ & H2 & _).
  split; [|split; [exact H1|]].
  - etrans; [exact H2|]. vm_compute. apply Permutation_swap || reflexivity.
  - assert (E : add_all _events test_events = Some (t, (spec_all ∅ test_events).2)) by exact Ht.
    clear -E. enough (K : (λ r, length (nodes (evs_query_free r.1).1)) <$> add_all _events test_events = Some 13%nat).
    { rewrite E in K. by injection K. }
    vm_compute. reflexivity.
Defined.
