(* ===== verification/State.v ===== *)
(** The state of the server: clients, subscriptions and the global variables of
    the sources, with the primitive accesses the model is written in.

    Pointers to clients and subscriptions are addresses in the tables
    [w_clients] and [w_subs]; freeing removes the entry. An access through a
    pointer that is NULL or freed has no defined result in C: the model raises
    [w_fault] and goes on, and the theorems that say an operation is safe say
    that it leaves the flag as it was.

    Locks are not part of the state: every operation here runs as one critical
    section, which is how the sources use [qev_lock]. The one protocol that works
    without a common lock, the reference count of subscriptions, has its own
    interleaving model in SubRace.v. *)
From Stdlib Require Import ZArith Lia.
From stdpp Require Import base list gmap strings.
From S2P Require Import Prelude Libs Types EvsQuery.

(** The statistics counters of evs.c, sub.c, client.c and the protocols. *)
Inductive stat :=
  | evs_sent | evs_callbacks_sent | evs_received | evs_broadcasts_unique
  | evs_broadcasts_events
  | subs_total | subs_added | subs_removed
  | clients_subs_added | clients_subs_removed
  | callbacks_total | callbacks_created | callbacks_fired | callbacks_evicted
  | raw_handshakes | flash_handshakes
  | rfc6455_upgrades | rfc6455_handshakes_good | rfc6455_handshakes_bad
  | http_requests_iframe | http_requests_invalid_method | http_requests_poll
  | http_requests_immediate_response | http_responses (code : Z)
  | http_upgrade_invalid | http_upgrade_missing
  | http_surrogates_opened | http_surrogates_closed.

#[export] Instance stat_eq_dec : EqDecision stat.
Proof. solve_decision. Defined.

(** The [http] field of [struct client]. *)
Record http_state := mkHttp {
  (** the key in http's client table *)
  h_sid : Z;
  h_tbl : Z;
  (** how much data is left to read, 64 bits *)
  h_body_len : Z;
  h_is_post : bool;
  h_iframe_requested : bool;
  h_keep_alive : bool;
  h_in_request : bool;
  h_incoming : bool;
  (** the poller of a surrogate, the surrogate of a poller, or NULL *)
  h_client : option cid;
}.

(** [struct client] *)
Record client := mkClient {
  (** [qev_is_surrogate] *)
  c_surrogate : bool;
  (** [qev_is_closing] *)
  c_closing : bool;
  (** references taken by the sources: [qev_ref] minus [qev_unref] *)
  c_refs : Z;
  (** [qev_client.rbuff] *)
  c_rbuff : bytes;
  (** what was handed to quick-event for this client, in order *)
  c_out : list output;
  c_handshaked : bool;
  c_prot : option protocol;
  c_last_send : Z;
  c_last_recv : Z;
  (** [timeout != NULL] *)
  c_timeout : bool;
  (** NULL, or the table from subscriptions *)
  c_subs : option (gmap positive client_sub);
  (** NULL, or the table from quarks to variants *)
  c_data : option (gmap Z Z);
  c_http : http_state;
  (** [cbs[4]] *)
  c_cbs : list (option client_cb);
  (** 16 bits *)
  c_cbs_id : Z;
}.

Section State.
Context {L : Libs}.

(** [struct subscription] *)
Record subscription := mkSub {
  sub_ev : event;
  sub_ev_extra : bytes;
  subscribers : qlist;
  (** 32 bits *)
  refs : Z;
}.

Record world := mkWorld {
  (** [_events] of evs_query.c *)
  w_events : ptrie;
  (** [event.subs] of each event, by the event's path *)
  w_ev_subs : gmap bytes (gmap bytes positive);
  (** the allocated [struct subscription]s, by address *)
  w_subs : gmap positive subscription;
  (** the allocated [struct client]s, by address *)
  w_clients : gmap cid client;
  (** [_fair_subs] of client.c *)
  w_fair : fair;
  (** [_broadcasts] of evs.c: subscription and JSON *)
  w_broadcasts : list (positive * bytes);
  (** [_clients] of protocols_http.c: surrogates by session id *)
  w_tables : list (gmap Z cid);
  (** the statistics counters *)
  w_stats : stat → Z;
  (** calls of callback data destructors, in order: destructor, data *)
  w_freed : list (nat * nat);
  (** [errno == ERANGE] in the running thread *)
  w_errno : bool;
  (** [qev_monotonic] *)
  w_now : Z;
  (** state of GLib's random generator *)
  w_rand : Z;
  (** an access that C leaves undefined has happened *)
  w_fault : bool;
}.

End State.

(** ** Field updates *)

Definition set_h_sid (g : Z → Z) (h : http_state) : http_state :=
    mkHttp (g (h_sid h)) (h_tbl h) (h_body_len h) (h_is_post h)
    (h_iframe_requested h) (h_keep_alive h) (h_in_request h) (h_incoming h)
    (h_client h).
Definition set_h_tbl (g : Z → Z) (h : http_state) : http_state :=
    mkHttp (h_sid h) (g (h_tbl h)) (h_body_len h) (h_is_post h)
    (h_iframe_requested h) (h_keep_alive h) (h_in_request h) (h_incoming h)
    (h_client h).
Definition set_h_body_len (g : Z → Z) (h : http_state) : http_state :=
    mkHttp (h_sid h) (h_tbl h) (g (h_body_len h)) (h_is_post h)
    (h_iframe_requested h) (h_keep_alive h) (h_in_request h) (h_incoming h)
    (h_client h).
Definition set_h_is_post (g : bool → bool) (h : http_state) : http_state :=
    mkHttp (h_sid h) (h_tbl h) (h_body_len h) (g (h_is_post h))
    (h_iframe_requested h) (h_keep_alive h) (h_in_request h) (h_incoming h)
    (h_client h).
Definition set_h_iframe_requested (g : bool → bool) (h : http_state) : http_state :=
    mkHttp (h_sid h) (h_tbl h) (h_body_len h) (h_is_post h) (g
    (h_iframe_requested h)) (h_keep_alive h) (h_in_request h) (h_incoming h)
    (h_client h).
Definition set_h_keep_alive (g : bool → bool) (h : http_state) : http_state :=
    mkHttp (h_sid h) (h_tbl h) (h_body_len h) (h_is_post h)
    (h_iframe_requested h) (g (h_keep_alive h)) (h_in_request h) (h_incoming
    h) (h_client h).
Definition set_h_in_request (g : bool → bool) (h : http_state) : http_state :=
    mkHttp (h_sid h) (h_tbl h) (h_body_len h) (h_is_post h)
    (h_iframe_requested h) (h_keep_alive h) (g (h_in_request h)) (h_incoming
    h) (h_client h).
Definition set_h_incoming (g : bool → bool) (h : http_state) : http_state :=
    mkHttp (h_sid h) (h_tbl h) (h_body_len h) (h_is_post h)
    (h_iframe_requested h) (h_keep_alive h) (h_in_request h) (g (h_incoming
    h)) (h_client h).
Definition set_h_client (g : (option cid) → (option cid)) (h : http_state) : http_state :=
    mkHttp (h_sid h) (h_tbl h) (h_body_len h) (h_is_post h)
    (h_iframe_requested h) (h_keep_alive h) (h_in_request h) (h_incoming h) (g
    (h_client h)).
Definition set_c_surrogate (g : bool → bool) (c : client) : client :=
    mkClient (g (c_surrogate c)) (c_closing c) (c_refs c) (c_rbuff c) (c_out
    c) (c_handshaked c) (c_prot c) (c_last_send c) (c_last_recv c) (c_timeout
    c) (c_subs c) (c_data c) (c_http c) (c_cbs c) (c_cbs_id c).
Definition set_c_closing (g : bool → bool) (c : client) : client :=
    mkClient (c_surrogate c) (g (c_closing c)) (c_refs c) (c_rbuff c) (c_out
    c) (c_handshaked c) (c_prot c) (c_last_send c) (c_last_recv c) (c_timeout
    c) (c_subs c) (c_data c) (c_http c) (c_cbs c) (c_cbs_id c).
Definition set_c_refs (g : Z → Z) (c : client) : client :=
    mkClient (c_surrogate c) (c_closing c) (g (c_refs c)) (c_rbuff c) (c_out
    c) (c_handshaked c) (c_prot c) (c_last_send c) (c_last_recv c) (c_timeout
    c) (c_subs c) (c_data c) (c_http c) (c_cbs c) (c_cbs_id c).
Definition set_c_rbuff (g : bytes → bytes) (c : client) : client :=
    mkClient (c_surrogate c) (c_closing c) (c_refs c) (g (c_rbuff c)) (c_out
    c) (c_handshaked c) (c_prot c) (c_last_send c) (c_last_recv c) (c_timeout
    c) (c_subs c) (c_data c) (c_http c) (c_cbs c) (c_cbs_id c).
Definition set_c_out (g : (list output) → (list output)) (c : client) : client :=
    mkClient (c_surrogate c) (c_closing c) (c_refs c) (c_rbuff c) (g (c_out
    c)) (c_handshaked c) (c_prot c) (c_last_send c) (c_last_recv c) (c_timeout
    c) (c_subs c) (c_data c) (c_http c) (c_cbs c) (c_cbs_id c).
Definition set_c_handshaked (g : bool → bool) (c : client) : client :=
    mkClient (c_surrogate c) (c_closing c) (c_refs c) (c_rbuff c) (c_out c) (g
    (c_handshaked c)) (c_prot c) (c_last_send c) (c_last_recv c) (c_timeout c)
    (c_subs c) (c_data c) (c_http c) (c_cbs c) (c_cbs_id c).
Definition set_c_prot (g : (option protocol) → (option protocol)) (c : client) : client :=
    mkClient (c_surrogate c) (c_closing c) (c_refs c) (c_rbuff c) (c_out c)
    (c_handshaked c) (g (c_prot c)) (c_last_send c) (c_last_recv c) (c_timeout
    c) (c_subs c) (c_data c) (c_http c) (c_cbs c) (c_cbs_id c).
Definition set_c_last_send (g : Z → Z) (c : client) : client :=
    mkClient (c_surrogate c) (c_closing c) (c_refs c) (c_rbuff c) (c_out c)
    (c_handshaked c) (c_prot c) (g (c_last_send c)) (c_last_recv c) (c_timeout
    c) (c_subs c) (c_data c) (c_http c) (c_cbs c) (c_cbs_id c).
Definition set_c_last_recv (g : Z → Z) (c : client) : client :=
    mkClient (c_surrogate c) (c_closing c) (c_refs c) (c_rbuff c) (c_out c)
    (c_handshaked c) (c_prot c) (c_last_send c) (g (c_last_recv c)) (c_timeout
    c) (c_subs c) (c_data c) (c_http c) (c_cbs c) (c_cbs_id c).
Definition set_c_timeout (g : bool → bool) (c : client) : client :=
    mkClient (c_surrogate c) (c_closing c) (c_refs c) (c_rbuff c) (c_out c)
    (c_handshaked c) (c_prot c) (c_last_send c) (c_last_recv c) (g (c_timeout
    c)) (c_subs c) (c_data c) (c_http c) (c_cbs c) (c_cbs_id c).
Definition set_c_subs (g : (option (gmap positive client_sub)) → (option (gmap positive client_sub))) (c : client) : client :=
    mkClient (c_surrogate c) (c_closing c) (c_refs c) (c_rbuff c) (c_out c)
    (c_handshaked c) (c_prot c) (c_last_send c) (c_last_recv c) (c_timeout c)
    (g (c_subs c)) (c_data c) (c_http c) (c_cbs c) (c_cbs_id c).
Definition set_c_data (g : (option (gmap Z Z)) → (option (gmap Z Z))) (c : client) : client :=
    mkClient (c_surrogate c) (c_closing c) (c_refs c) (c_rbuff c) (c_out c)
    (c_handshaked c) (c_prot c) (c_last_send c) (c_last_recv c) (c_timeout c)
    (c_subs c) (g (c_data c)) (c_http c) (c_cbs c) (c_cbs_id c).
Definition set_c_http (g : http_state → http_state) (c : client) : client :=
    mkClient (c_surrogate c) (c_closing c) (c_refs c) (c_rbuff c) (c_out c)
    (c_handshaked c) (c_prot c) (c_last_send c) (c_last_recv c) (c_timeout c)
    (c_subs c) (c_data c) (g (c_http c)) (c_cbs c) (c_cbs_id c).
Definition set_c_cbs (g : (list (option client_cb)) → (list (option client_cb))) (c : client) : client :=
    mkClient (c_surrogate c) (c_closing c) (c_refs c) (c_rbuff c) (c_out c)
    (c_handshaked c) (c_prot c) (c_last_send c) (c_last_recv c) (c_timeout c)
    (c_subs c) (c_data c) (c_http c) (g (c_cbs c)) (c_cbs_id c).
Definition set_c_cbs_id (g : Z → Z) (c : client) : client :=
    mkClient (c_surrogate c) (c_closing c) (c_refs c) (c_rbuff c) (c_out c)
    (c_handshaked c) (c_prot c) (c_last_send c) (c_last_recv c) (c_timeout c)
    (c_subs c) (c_data c) (c_http c) (c_cbs c) (g (c_cbs_id c)).

Section Updates.
Context {L : Libs}.
Definition set_sub_ev (g : event → event) (s : subscription) : subscription :=
    mkSub (g (sub_ev s)) (sub_ev_extra s) (subscribers s) (refs s).
Definition set_sub_ev_extra (g : bytes → bytes) (s : subscription) : subscription :=
    mkSub (sub_ev s) (g (sub_ev_extra s)) (subscribers s) (refs s).
Definition set_subscribers (g : qlist → qlist) (s : subscription) : subscription :=
    mkSub (sub_ev s) (sub_ev_extra s) (g (subscribers s)) (refs s).
Definition set_refs (g : Z → Z) (s : subscription) : subscription :=
    mkSub (sub_ev s) (sub_ev_extra s) (subscribers s) (g (refs s)).
Definition set_w_events (g : ptrie → ptrie) (w : world) : world :=
    mkWorld (g (w_events w)) (w_ev_subs w) (w_subs w) (w_clients w) (w_fair w)
    (w_broadcasts w) (w_tables w) (w_stats w) (w_freed w) (w_errno w) (w_now
    w) (w_rand w) (w_fault w).
Definition set_w_ev_subs (g : (gmap bytes (gmap bytes positive)) → (gmap bytes (gmap bytes positive))) (w : world) : world :=
    mkWorld (w_events w) (g (w_ev_subs w)) (w_subs w) (w_clients w) (w_fair w)
    (w_broadcasts w) (w_tables w) (w_stats w) (w_freed w) (w_errno w) (w_now
    w) (w_rand w) (w_fault w).
Definition set_w_subs (g : (gmap positive subscription) → (gmap positive subscription)) (w : world) : world :=
    mkWorld (w_events w) (w_ev_subs w) (g (w_subs w)) (w_clients w) (w_fair w)
    (w_broadcasts w) (w_tables w) (w_stats w) (w_freed w) (w_errno w) (w_now
    w) (w_rand w) (w_fault w).
Definition set_w_clients (g : (gmap cid client) → (gmap cid client)) (w : world) : world :=
    mkWorld (w_events w) (w_ev_subs w) (w_subs w) (g (w_clients w)) (w_fair w)
    (w_broadcasts w) (w_tables w) (w_stats w) (w_freed w) (w_errno w) (w_now
    w) (w_rand w) (w_fault w).
Definition set_w_fair (g : fair → fair) (w : world) : world :=
    mkWorld (w_events w) (w_ev_subs w) (w_subs w) (w_clients w) (g (w_fair w))
    (w_broadcasts w) (w_tables w) (w_stats w) (w_freed w) (w_errno w) (w_now
    w) (w_rand w) (w_fault w).
Definition set_w_broadcasts (g : (list (positive * bytes)) → (list (positive * bytes))) (w : world) : world :=
    mkWorld (w_events w) (w_ev_subs w) (w_subs w) (w_clients w) (w_fair w) (g
    (w_broadcasts w)) (w_tables w) (w_stats w) (w_freed w) (w_errno w) (w_now
    w) (w_rand w) (w_fault w).
Definition set_w_tables (g : (list (gmap Z cid)) → (list (gmap Z cid))) (w : world) : world :=
    mkWorld (w_events w) (w_ev_subs w) (w_subs w) (w_clients w) (w_fair w)
    (w_broadcasts w) (g (w_tables w)) (w_stats w) (w_freed w) (w_errno w)
    (w_now w) (w_rand w) (w_fault w).
Definition set_w_stats (g : (stat → Z) → (stat → Z)) (w : world) : world :=
    mkWorld (w_events w) (w_ev_subs w) (w_subs w) (w_clients w) (w_fair w)
    (w_broadcasts w) (w_tables w) (g (w_stats w)) (w_freed w) (w_errno w)
    (w_now w) (w_rand w) (w_fault w).
Definition set_w_freed (g : (list (nat * nat)) → (list (nat * nat))) (w : world) : world :=
    mkWorld (w_events w) (w_ev_subs w) (w_subs w) (w_clients w) (w_fair w)
    (w_broadcasts w) (w_tables w) (w_stats w) (g (w_freed w)) (w_errno w)
    (w_now w) (w_rand w) (w_fault w).
Definition set_w_errno (g : bool → bool) (w : world) : world :=
    mkWorld (w_events w) (w_ev_subs w) (w_subs w) (w_clients w) (w_fair w)
    (w_broadcasts w) (w_tables w) (w_stats w) (w_freed w) (g (w_errno w))
    (w_now w) (w_rand w) (w_fault w).
Definition set_w_now (g : Z → Z) (w : world) : world :=
    mkWorld (w_events w) (w_ev_subs w) (w_subs w) (w_clients w) (w_fair w)
    (w_broadcasts w) (w_tables w) (w_stats w) (w_freed w) (w_errno w) (g
    (w_now w)) (w_rand w) (w_fault w).
Definition set_w_rand (g : Z → Z) (w : world) : world :=
    mkWorld (w_events w) (w_ev_subs w) (w_subs w) (w_clients w) (w_fair w)
    (w_broadcasts w) (w_tables w) (w_stats w) (w_freed w) (w_errno w) (w_now
    w) (g (w_rand w)) (w_fault w).
Definition set_w_fault (g : bool → bool) (w : world) : world :=
    mkWorld (w_events w) (w_ev_subs w) (w_subs w) (w_clients w) (w_fair w)
    (w_broadcasts w) (w_tables w) (w_stats w) (w_freed w) (w_errno w) (w_now
    w) (w_rand w) (g (w_fault w)).
End Updates.

(** ** Primitive accesses *)

Section Access.
Context {L : Libs}.

Definition fault (w : world) : world := set_w_fault (λ _, true) w.

(** Write through a client pointer. *)
Definition upd_client (c : cid) (f : client → client) (w : world) : world :=
  match w_clients w !! c with
  | Some cl => set_w_clients <[c := f cl]> w
  | None => fault w
  end.

(** Write through a subscription pointer. *)
Definition upd_sub (s : positive) (f : subscription → subscription) (w : world) : world :=
  match w_subs w !! s with
  | Some sub => set_w_subs <[s := f sub]> w
  | None => fault w
  end.

Definition stat_add (k : stat) (n : Z) (w : world) : world :=
  set_w_stats (λ m s, if decide (s = k) then m s + n else m s) w.
Definition stat_inc (k : stat) : world → world := stat_add k 1.
Definition stat_dec (k : stat) : world → world := stat_add k (-1).

(** quick-event's per-client operations, as the sources see them. *)
Definition qev_write (c : cid) (b : bytes) : world → world :=
  upd_client c (set_c_out (λ o, o ++ [OWrite b])).
Definition qev_close (c : cid) (r : close_reason) : world → world :=
  upd_client c (λ cl, set_c_closing (λ _, true) (set_c_out (λ o, o ++ [OClose r]) cl)).
Definition qev_ref (c : cid) : world → world := upd_client c (set_c_refs (λ n, n + 1)).
Definition qev_unref (c : cid) : world → world := upd_client c (set_c_refs (λ n, n - 1)).

(** [qev_unref] does nothing for NULL. *)
Definition qev_unref_opt (c : option cid) (w : world) : world :=
  match c with Some c => qev_unref c w | None => w end.
(** [qev_timeout(client, &client->timeout)] and [qev_timeout_clear] *)
Definition qev_timeout (c : cid) : world → world := upd_client c (set_c_timeout (λ _, true)).
Definition qev_timeout_clear (c : cid) : world → world :=
  upd_client c (set_c_timeout (λ _, false)).
(** [client->last_send = qev_monotonic], and the same for [last_recv] *)
Definition touch_send (c : cid) (w : world) : world :=
  upd_client c (set_c_last_send (λ _, w_now w)) w.
Definition touch_recv (c : cid) (w : world) : world :=
  upd_client c (set_c_last_recv (λ _, w_now w)) w.

(** [g_slice_alloc0(sizeof(struct client))] *)
Definition http0 : http_state :=
  {| h_sid := 0; h_tbl := 0; h_body_len := 0; h_is_post := false;
     h_iframe_requested := false; h_keep_alive := false; h_in_request := false;
     h_incoming := false; h_client := None |}.
Definition qev_client_new (surrogate : bool) : client :=
  {| c_surrogate := surrogate; c_closing := false; c_refs := 0; c_rbuff := [];
     c_out := []; c_handshaked := false; c_prot := None; c_last_send := 0;
     c_last_recv := 0; c_timeout := false; c_subs := None; c_data := None;
     c_http := http0; c_cbs := replicate N_CBS None; c_cbs_id := 0 |}.

End Access.

(** [G_N_ELEMENTS(_clients)] of protocols_http.c *)
Definition N_TABLES : nat := 64.

(** ** What an update of a client changes *)

Section Lemmas.
Context {L : Libs}.

Lemma upd_client_at c f d w :
  w_clients (upd_client c f w) !! d =
    if decide (d = c) then f <$> w_clients w !! d else w_clients w !! d.
Proof.
  unfold upd_client. destruct (w_clients w !! c) as [cl|] eqn:E; simpl.
  - case_decide as Hd; [subst; by rewrite lookup_insert_eq, E|by rewrite lookup_insert_ne].
  - case_decide as Hd; [subst; by rewrite E|done].
Qed.

Lemma upd_client_Some c f cl w :
  w_clients w !! c = Some cl → upd_client c f w = set_w_clients <[c := f cl]> w.
Proof. intros H. unfold upd_client. by rewrite H. Qed.

Lemma upd_client_stats c f w : w_stats (upd_client c f w) = w_stats w.
Proof. unfold upd_client. by destruct (w_clients w !! c). Qed.

Lemma upd_client_now c f w : w_now (upd_client c f w) = w_now w.
Proof. unfold upd_client. by destruct (w_clients w !! c). Qed.

(** A field that an update leaves alone. *)
Lemma upd_client_proj {X} (proj : client → X) (z : X) c f d w :
  (∀ cl, proj (f cl) = proj cl) →
  match w_clients (upd_client c f w) !! d with Some cl => proj cl | None => z end =
  match w_clients w !! d with Some cl => proj cl | None => z end.
Proof.
  intros E. rewrite upd_client_at. destruct (w_clients w !! d); [|by case_decide].
  simpl. case_decide; [apply E|done].
Qed.

Lemma upd_client_dom c f d w :
  is_Some (w_clients (upd_client c f w) !! d) ↔ is_Some (w_clients w !! d).
Proof. rewrite upd_client_at. case_decide; [by rewrite fmap_is_Some|done]. Qed.

End Lemmas.

(** A world with no clients, events or subscriptions. *)
Definition world0 (f : fair (Libs := libs0)) : world (L := libs0) :=
  {| w_events := _events; w_ev_subs := ∅; w_subs := ∅; w_clients := ∅; w_fair := f;
     w_broadcasts := []; w_tables := replicate N_TABLES ∅; w_stats := λ _, 0; w_freed := []; w_errno := false;
     w_now := 0; w_rand := 0; w_fault := false |}.
