(* ===== verification/Callbacks.v ===== *)
(** Server callbacks: the four slots of a client in src/client.c. *)
From Stdlib Require Import ZArith Lia.
From stdpp Require Import base list gmap strings.
From S2P Require Import Prelude Libs Types EvsQuery State.

Section Callbacks.
Context {L : Libs}.

(** [_cb_data_free] *)
Definition _cb_data_free (data free_fn : option nat) (w : world) : world :=
  match data, free_fn with
  | Some d, Some f => set_w_freed (λ l, l ++ [(f, d)]) w
  | _, _ => w
  end.

(** [client->cbs[i]] *)
Definition cb_slot (c : cid) (i : nat) (w : world) : option client_cb :=
  cl ← w_clients w !! c; mjoin (c_cbs cl !! i).

Definition _cb_remove (c : cid) (i : nat) (w : world) : world :=
  stat_dec callbacks_total (upd_client c (set_c_cbs <[i := None]>) w).

Definition _cb_free (c : cid) (i : nat) (w : world) : world :=
  match cb_slot c i w with
  | Some cb => _cb_remove c i (_cb_data_free (cb_data cb) (cb_free_fn cb) w)
  | None => fault w
  end.

(** The first loop of [client_cb_new]: the index of the first NULL slot, or
    the number of slots. *)
Fixpoint first_null (l : list (option client_cb)) : nat :=
  match l with
  | None :: _ => 0
  | Some _ :: l => S (first_null l)
  | [] => 0
  end.

(** [(i << 16) | id] *)
Definition server_cb_id (i : nat) (id : Z) : Z := Z.lor (Z.shiftl (Z.of_nat i) 16) id.

(** [cbs_id++; cbs_id = MAX(1, cbs_id)] on 16 bits. *)
Definition next_cb_id (id : Z) : Z := Z.max 1 (u16 (id + 1)).

Definition client_cb_new (c : option cid) (fn : option evs_cb_fn)
    (data free_fn : option nat) (w : world) : Z * world :=
  match fn with
  | None => (EVS_NO_CALLBACK, _cb_data_free data free_fn w)
  | Some fn =>
      match c with
      | None => (EVS_NO_CALLBACK, fault w)
      | Some c =>
          match w_clients w !! c with
          | None => (EVS_NO_CALLBACK, fault w)
          | Some cl =>
              let i := first_null (c_cbs cl) in
              let '(i, w) :=
                if (i =? N_CBS)%nat then
                  let '(r, s) := g_random_int_range (w_rand w) 0 (Z.of_nat N_CBS) in
                  (Z.to_nat r,
                   stat_inc callbacks_evicted
                     (_cb_free c (Z.to_nat r) (set_w_rand (λ _, s) w)))
                else (i, w) in
              let id := next_cb_id (c_cbs_id cl) in
              let cb := mkCb id fn data free_fn (w_now w) in
              let w := upd_client c (set_c_cbs_id (λ _, id)) w in
              let w := upd_client c (set_c_cbs <[i := Some cb]>) w in
              (server_cb_id i id,
               stat_inc callbacks_created (stat_inc callbacks_total w))
          end
      end
  end.

(** The slot and the id that a server callback id names, 16 bits each. *)
Definition cb_slot_of (v : Z) : Z := u16 (Z.shiftr v 16).
Definition cb_id_of (v : Z) : Z := Z.land v 65535.

(** The first half of [client_cb_fire], up to the call: the callback, taken out
    of its slot, or nothing ([goto error]). *)
Definition client_cb_take (c : cid) (server_cb : Z) (w : world) : option client_cb * world :=
  if Z.of_nat N_CBS <=? cb_slot_of server_cb then (None, w)
  else
    let slot := Z.to_nat (cb_slot_of server_cb) in
    match w_clients w !! c with
    | None => (None, fault w)
    | Some cl =>
        match mjoin (c_cbs cl !! slot) with
        | Some cb =>
            if cb_id cb =? cb_id_of server_cb then (Some cb, _cb_remove c slot w)
            else (None, w)
        | None => (None, w)
        end
    end.

(** The body of the loop of [client_cb_prune]. *)
Definition prune_slot (c : cid) (before : Z) (w : world) (i : nat) : world :=
  match cb_slot c i w with
  | Some cb => if cb_created cb <? before then _cb_free c i w else w
  | None => w
  end.

Definition client_cb_prune (c : cid) (before : Z) (w : world) : world :=
  match w_clients w !! c with
  | None => fault w
  | Some _ => foldl (prune_slot c before) w (seq 0 N_CBS)
  end.

(** [client_cb_prune_get_before], with the configured maximum age in seconds. *)
Definition client_cb_prune_get_before (cfg_clients_cb_max_age : Z) (w : world) : Z :=
  w_now w - qev_sec_to_usec cfg_clients_cb_max_age.

(** The body of the loop of [client_free_all] over the callbacks. *)
Definition free_slot (c : cid) (w : world) (i : nat) : world :=
  match cb_slot c i w with
  | Some _ => _cb_free c i w
  | None => w
  end.

Definition client_free_all (c : cid) (w : world) : world :=
  upd_client c (set_c_data (λ _, None)) (foldl (free_slot c) w (seq 0 N_CBS)).

(** ** What the slots stand for

    A client holds a finite map from server callback ids to callbacks. *)

Fixpoint cb_map_from (i : nat) (l : list (option client_cb)) : gmap Z client_cb :=
  match l with
  | [] => ∅
  | None :: l => cb_map_from (S i) l
  | Some cb :: l => <[server_cb_id i (cb_id cb) := cb]> (cb_map_from (S i) l)
  end.

Definition cb_map : list (option client_cb) → gmap Z client_cb := cb_map_from 0.

Definition cb_view (c : cid) (w : world) : gmap Z client_cb :=
  match w_clients w !! c with
  | Some cl => cb_map (c_cbs cl)
  | None => ∅
  end.

(** Ids are 16 bits and never 0. *)
Definition ids_ok (l : list (option client_cb)) : Prop :=
  ∀ i cb, l !! i = Some (Some cb) → 0 < cb_id cb < 65536.

Record cbs_ok (cl : client) : Prop := {
  cbs_length : length (c_cbs cl) = N_CBS;
  cbs_id_range : 0 ≤ c_cbs_id cl < 65536;
  cbs_ids : ids_ok (c_cbs cl);
}.

Definition cbs_wf (w : world) : Prop :=
  ∀ c cl, w_clients w !! c = Some cl → cbs_ok cl.

(** All callbacks of all clients; the destructor call a callback is owed, and
    the calls owed to all of them. *)
Definition live (w : world) : list client_cb :=
  map_items (λ cl, occupied (c_cbs cl)) (w_clients w).

Definition owed (data free_fn : option nat) : list (nat * nat) :=
  match data, free_fn with Some d, Some f => [(f, d)] | _, _ => [] end.
Definition owner (cb : client_cb) : list (nat * nat) := owed (cb_data cb) (cb_free_fn cb).
Definition held (w : world) : list (nat * nat) := live w ≫= owner.

(** What the callback operations leave alone: everything but the slots, the
    statistics, the list of destructor calls and the random state. *)
Definition cb_mask (w : world) : world :=
  set_w_clients (fmap (λ cl, set_c_cbs (λ _, []) (set_c_cbs_id (λ _, 0) cl)))
    (set_w_stats (λ _ _, 0) (set_w_freed (λ _, []) (set_w_rand (λ _, 0) w))).

(** ** Ids *)

Lemma server_cb_id_eq i id : 0 ≤ id < 65536 → server_cb_id i id = Z.of_nat i * 65536 + id.
Proof.
  intros Hid. unfold server_cb_id.
  assert (Hand : Z.land (Z.shiftl (Z.of_nat i) 16) id = 0).
  { apply Z.bits_inj'. intros n Hn. rewrite Z.land_spec, Z.bits_0.
    destruct (Z.lt_ge_cases n 16).
    - by rewrite Z.shiftl_spec_low.
    - replace (Z.testbit id n) with false; [apply andb_false_r|].
      symmetry. apply Z.testbit_false; [lia|]. pose proof (Z.pow_le_mono_r 2 16 n).
      by rewrite Z.div_small by lia. }
  rewrite <- Z.lxor_lor, <- Z.add_nocarry_lxor by done.
  rewrite Z.shiftl_mul_pow2 by lia. lia.
Qed.

Lemma server_cb_id_parts i id :
  0 ≤ id < 65536 → Z.of_nat i < 65536 →
  cb_slot_of (server_cb_id i id) = Z.of_nat i ∧ cb_id_of (server_cb_id i id) = id.
Proof.
  intros Hid Hi. rewrite server_cb_id_eq by done. unfold cb_slot_of, cb_id_of, u16.
  change 65535 with (Z.ones 16). rewrite Z.land_ones, Z.shiftr_div_pow2 by lia.
  change (2 ^ 16) with 65536. rewrite Z.add_comm, Z.div_add, Z.mod_add by lia.
  rewrite (Z.div_small id) by done. rewrite !Z.mod_small by lia. lia.
Qed.

Lemma server_cb_id_split v :
  server_cb_id (Z.to_nat (cb_slot_of v)) (cb_id_of v) = u32 v.
Proof.
  unfold cb_slot_of, cb_id_of, u16, u32. change 65535 with (Z.ones 16).
  rewrite Z.land_ones, Z.shiftr_div_pow2 by lia. change (2 ^ 16) with 65536.
  pose proof (Z.mod_pos_bound v 65536). pose proof (Z.mod_pos_bound (v / 65536) 65536).
  rewrite server_cb_id_eq, Z2Nat.id by lia. change (2 ^ 32) with (65536 * 65536).
  rewrite Z.rem_mul_r by lia. lia.
Qed.

Lemma next_cb_id_range id : 0 ≤ id < 65536 → 0 < next_cb_id id < 65536.
Proof. unfold next_cb_id, u16. pose proof (Z.mod_pos_bound (id + 1) (2 ^ 16)). lia. Qed.

(** ** The map of the slots *)

Lemma cb_map_from_lookup n l v cb :
  ids_ok l →
  cb_map_from n l !! v = Some cb ↔
  ∃ i, l !! i = Some (Some cb) ∧ v = server_cb_id (n + i) (cb_id cb).
Proof.
  revert n. induction l as [|o l IH]; intros n Hl; cbn [cb_map_from].
  { rewrite lookup_empty. split; [done|]. by intros (i & Hi & _). }
  assert (Hl' : ids_ok l) by (intros i cb' Hi; apply (Hl (S i) cb' Hi)).
  assert (Hshift : cb_map_from (S n) l !! v = Some cb ↔
    ∃ i, (o :: l) !! S i = Some (Some cb) ∧ v = server_cb_id (n + S i) (cb_id cb)).
  { rewrite IH by done. by setoid_rewrite Nat.add_succ_r. }
  destruct o as [b|]; [|rewrite Hshift].
  - assert (Hb : 0 < cb_id b < 65536) by (apply (Hl 0%nat b eq_refl)).
    rewrite lookup_insert_Some, Hshift. split.
    + intros [[<- ->]|[_ (i & Hi & ->)]]; [exists 0%nat|by exists (S i)].
      by rewrite Nat.add_0_r.
    + intros ([|i] & Hi & ->); [injection Hi as ->; left; by rewrite Nat.add_0_r|].
      right. split; [|by eauto].
      assert (0 < cb_id cb < 65536) by (apply (Hl _ _ Hi)).
      rewrite !server_cb_id_eq by lia. lia.
  - split; [intros (i & ?); by exists (S i)|].
    intros ([|i] & Hi & ?); [done|by exists i].
Qed.

Lemma cb_map_lookup l v cb :
  ids_ok l →
  cb_map l !! v = Some cb ↔ ∃ i, l !! i = Some (Some cb) ∧ v = server_cb_id i (cb_id cb).
Proof. apply cb_map_from_lookup. Qed.

(** Two occupied slots with the same id are the same slot. *)
Lemma slot_inj l i j x y :
  ids_ok l → l !! i = Some (Some x) → l !! j = Some (Some y) →
  server_cb_id i (cb_id x) = server_cb_id j (cb_id y) → i = j.
Proof.
  intros Hl Hx%Hl Hy%Hl. rewrite !server_cb_id_eq by lia. lia.
Qed.

Lemma ids_ok_insert l i x :
  ids_ok l → (∀ cb, x = Some cb → 0 < cb_id cb < 65536) → ids_ok (<[i := x]> l).
Proof.
  intros Hl Hx j cb. rewrite list_lookup_insert_Some.
  intros [(<- & E & _)|[_ Hj]]; [by apply Hx|by apply (Hl j)].
Qed.

Lemma cb_map_clear l i cb :
  ids_ok l → l !! i = Some (Some cb) →
  cb_map (<[i := None]> l) = delete (server_cb_id i (cb_id cb)) (cb_map l).
Proof.
  intros Hl Hi. apply map_eq. intros v. apply option_eq. intros b.
  rewrite cb_map_lookup by (by apply ids_ok_insert). rewrite lookup_delete_Some, cb_map_lookup by done.
  setoid_rewrite list_lookup_insert_Some. split.
  - intros (j & [(<- & [=] & _)|[Hne Hj]] & ->). split; [|by eauto].
    intros E. apply Hne. by eapply slot_inj.
  - intros [Hne (j & Hj & ->)]. exists j. split; [|done]. right. split; [|done].
    intros ->. rewrite Hi in Hj. by injection Hj as ->.
Qed.

Lemma cb_map_fill l i cb :
  ids_ok l → 0 < cb_id cb < 65536 → l !! i = Some None →
  cb_map (<[i := Some cb]> l) = <[server_cb_id i (cb_id cb) := cb]> (cb_map l).
Proof.
  intros Hl Hcb Hi. apply map_eq. intros v. apply option_eq. intros b.
  rewrite cb_map_lookup by (apply ids_ok_insert; [done|by intros ? [= <-]]).
  rewrite lookup_insert_Some, cb_map_lookup by done.
  setoid_rewrite list_lookup_insert_Some. split.
  - intros (j & [(<- & [= <-] & _)|[Hne Hj]] & ->); [by left|right].
    assert (0 < cb_id b < 65536) by (apply (Hl _ _ Hj)).
    split; [|by eauto]. rewrite !server_cb_id_eq by lia. lia.
  - intros [[<- <-]|[Hne (j & Hj & ->)]]; [exists i|exists j].
    + split; [left|done]. split; [done|]. split; [done|]. by apply lookup_lt_Some in Hi.
    + split; [right|done]. split; [by intros ->; rewrite Hi in Hj|done].
Qed.

Lemma cb_map_size n l : ids_ok l → size (cb_map_from n l) = length (occupied l).
Proof.
  revert n. induction l as [|o l IH]; intros n Hl; [done|].
  assert (Hl' : ids_ok l) by (intros i cb' Hi; apply (Hl (S i) cb' Hi)).
  destruct o as [b|]; cbn [cb_map_from]; [|by rewrite IH].
  rewrite map_size_insert_None; [by rewrite IH|].
  apply eq_None_not_Some. intros [cb Hcb]. apply cb_map_from_lookup in Hcb; [|done].
  destruct Hcb as (i & Hi & E). assert (0 < cb_id b < 65536) by (apply (Hl 0%nat b eq_refl)).
  assert (0 < cb_id cb < 65536) by (apply (Hl' _ _ Hi)).
  rewrite !server_cb_id_eq in E by lia. lia.
Qed.

Lemma first_null_spec l :
  (l !! first_null l = Some None ∧ (length (occupied l) < length l)%nat) ∨
  (first_null l = length l ∧ length (occupied l) = length l).
Proof.
  induction l as [|[b|] l IH]; [by right| |].
  - change (occupied (Some b :: l)) with (b :: occupied l). cbn [first_null length lookup list_lookup].
    destruct IH as [[? ?]|[? ?]]; [left; split; [done|lia]|right; lia].
  - left. split; [done|]. change (occupied (None :: l)) with (occupied l). cbn [length].
    destruct IH as [[_ ?]|[_ ?]]; lia.
Qed.

(** ** One slot at a time *)

Lemma live_set_slot c i x y cl w :
  w_clients w !! c = Some cl → c_cbs cl !! i = Some y →
  live (upd_client c (set_c_cbs <[i := x]>) w) ++ option_list y ≡ₚ live w ++ option_list x.
Proof.
  intros Hc Hi. unfold live, upd_client. rewrite Hc. simpl.
  pose proof (map_items_insert (λ cl, occupied (c_cbs cl)) (w_clients w) c
    (set_c_cbs <[i:=x]> cl) cl Hc) as Hm. simpl in Hm.
  pose proof (occupied_insert (c_cbs cl) i x y Hi) as Ho.
  apply (Permutation_app_inv_r (occupied (c_cbs cl))).
  rewrite <- app_assoc, (Permutation_app_comm (option_list y)), app_assoc, Hm.
  rewrite <- !app_assoc. apply Permutation_app_head.
  rewrite Ho. apply Permutation_app_comm.
Qed.

Lemma cb_mask_set_slot c f w cl :
  w_clients w !! c = Some cl →
  cb_mask (upd_client c (set_c_cbs f) w) = cb_mask w.
Proof.
  intros Hc. unfold upd_client. rewrite Hc. unfold cb_mask, set_w_clients; simpl. f_equal.
  rewrite fmap_insert. apply insert_id. by rewrite lookup_fmap, Hc.
Qed.

Lemma held_set_slot c i x y cl w :
  w_clients w !! c = Some cl → c_cbs cl !! i = Some y →
  held (upd_client c (set_c_cbs <[i := x]>) w) ++ (option_list y ≫= owner)
    ≡ₚ held w ++ (option_list x ≫= owner).
Proof.
  intros Hc Hi. unfold held. rewrite <- !bind_app. by rewrite live_set_slot.
Qed.

(** What every operation on the callbacks of [c] respects. The destructor calls
    made and those owed change only by what the operation takes over ([gain])
    and what it hands to its caller ([loss]). *)
Record cb_step (c : cid) (gain loss : list (nat * nat)) (w w' : world) : Prop := {
  step_mask : cb_mask w' = cb_mask w;
  step_wf : cbs_wf w → cbs_wf w';
  step_other d : d ≠ c → w_clients w' !! d = w_clients w !! d;
  step_total : w_stats w' callbacks_total - Z.of_nat (length (live w')) =
               w_stats w callbacks_total - Z.of_nat (length (live w));
  step_owed : w_freed w' ++ held w' ++ loss ≡ₚ w_freed w ++ held w ++ gain;
}.

Lemma cb_step_refl c w : cb_step c [] [] w w.
Proof. by split. Qed.

Lemma cb_step_trans c g1 l1 g2 l2 w1 w2 w3 :
  cb_step c g1 l1 w1 w2 → cb_step c g2 l2 w2 w3 → cb_step c (g1 ++ g2) (l1 ++ l2) w1 w3.
Proof.
  intros [M1 W1 O1 T1 D1] [M2 W2 O2 T2 D2]. split; [congruence|auto| |lia|].
  - intros d Hd. by rewrite O2, O1.
  - rewrite (Permutation_app_comm l1), !app_assoc, <- (app_assoc _ (held w3)), D2.
    rewrite <- !app_assoc, (Permutation_app_comm g2), !app_assoc, <- (app_assoc _ (held w2)).
    by rewrite D1, <- !app_assoc.
Qed.

Lemma cb_step_cancel c x w w' : cb_step c x x w w' → cb_step c [] [] w w'.
Proof.
  intros [M W O T D]. split; [done..|]. rewrite !app_nil_r.
  rewrite !app_assoc in D. by apply Permutation_app_inv_r in D.
Qed.

Lemma cb_step_fault c g l w w' : cb_step c g l w w' → w_fault w' = w_fault w.
Proof. intros [M _ _ _ _]. apply (f_equal w_fault M). Qed.

Lemma cb_step_now c g l w w' : cb_step c g l w w' → w_now w' = w_now w.
Proof. intros [M _ _ _ _]. apply (f_equal w_now M). Qed.

(** Operations that leave the clients alone. *)
Lemma step_stat c k n w : k ≠ callbacks_total → cb_step c [] [] w (stat_add k n w).
Proof.
  intros Hk. split; [done..| |done]. unfold stat_add, live. simpl.
  by rewrite decide_False by congruence.
Qed.

Lemma step_rand c f w : cb_step c [] [] w (set_w_rand f w).
Proof. by split. Qed.

Lemma step_data_free c d fr w : cb_step c (owed d fr) [] w (_cb_data_free d fr w).
Proof.
  destruct d, fr; try apply cb_step_refl. split; [done..|]. unfold held, live. simpl.
  rewrite app_nil_r, <- app_assoc. apply Permutation_app_head, Permutation_app_comm.
Qed.

(** Filling or emptying one slot and counting it. *)
Lemma step_set_slot c cl i x y n w :
  w_clients w !! c = Some cl → c_cbs cl !! i = Some y →
  (∀ cb, x = Some cb → 0 < cb_id cb < 65536) →
  n = Z.of_nat (length (option_list x)) - Z.of_nat (length (option_list y)) →
  cb_step c (option_list x ≫= owner) (option_list y ≫= owner) w
    (stat_add callbacks_total n (upd_client c (set_c_cbs <[i := x]>) w)).
Proof.
  intros Hc Hi Hx Hn. set (w1 := upd_client c (set_c_cbs <[i := x]>) w).
  assert (E1 : w_clients w1 = <[c := set_c_cbs <[i:=x]> cl]> (w_clients w))
    by (subst w1; unfold upd_client; by rewrite Hc).
  assert (E2 : w_stats w1 = w_stats w) by (subst w1; unfold upd_client; by rewrite Hc).
  assert (E3 : w_freed w1 = w_freed w) by (subst w1; unfold upd_client; by rewrite Hc).
  split.
  - etransitivity; [|by apply (cb_mask_set_slot c <[i:=x]> w cl)]. done.
  - intros Hwf d cl'. simpl. rewrite E1, lookup_insert_Some.
    intros [[<- <-]|[_ Hd]]; [|by apply (Hwf d)].
    destruct (Hwf c cl Hc) as [Hlen Hid Hids]. split; simpl; [by rewrite length_insert|done|].
    by apply ids_ok_insert.
  - intros d Hd. simpl. by rewrite E1, lookup_insert_ne.
  - unfold live. simpl. rewrite E2.
    pose proof (Permutation_length (live_set_slot c i x y cl w Hc Hi)) as Hl.
    rewrite !length_app in Hl. fold w1 in Hl. unfold live in Hl. lia.
  - unfold held, live. simpl. fold (live w1). fold (held w1). rewrite E3.
    apply Permutation_app_head. by apply (held_set_slot c i x y cl w).
Qed.

(** ** The operations *)

Lemma cb_slot_Some c i w cb :
  cb_slot c i w = Some cb ↔
  ∃ cl, w_clients w !! c = Some cl ∧ c_cbs cl !! i = Some (Some cb).
Proof.
  unfold cb_slot. destruct (w_clients w !! c) as [cl|]; simpl; [|by split; [|intros (?&?&_)]].
  destruct (c_cbs cl !! i) as [o|] eqn:E; simpl.
  - split; [intros ->; by eauto|]. intros (? & [= <-] & Hi). congruence.
  - split; [done|]. intros (? & [= <-] & Hi). congruence.
Qed.

Lemma cb_view_clear c cl i cb w :
  cbs_wf w → w_clients w !! c = Some cl → c_cbs cl !! i = Some (Some cb) →
  cb_map (<[i := None]> (c_cbs cl)) = delete (server_cb_id i (cb_id cb)) (cb_view c w).
Proof.
  intros Hwf Hc Hi. unfold cb_view. rewrite Hc. apply cb_map_clear; [|done].
  by apply (Hwf c cl).
Qed.

Lemma cb_remove_spec c cl i cb w :
  w_clients w !! c = Some cl → c_cbs cl !! i = Some (Some cb) →
  cb_step c [] (owner cb) w (_cb_remove c i w) ∧
  w_clients (_cb_remove c i w) !! c = Some (set_c_cbs <[i := None]> cl) ∧
  w_freed (_cb_remove c i w) = w_freed w.
Proof.
  intros Hc Hi. unfold _cb_remove, stat_dec. split; [|split].
  - pose proof (step_set_slot c cl i None _ (-1) w Hc Hi) as H. simpl in H.
    rewrite app_nil_r in H. by apply H.
  - unfold upd_client. rewrite Hc. apply lookup_insert_eq.
  - unfold upd_client. by rewrite Hc.
Qed.

Lemma data_free_freed d fr w : w_freed (_cb_data_free d fr w) = w_freed w ++ owed d fr.
Proof. destruct d, fr; simpl; by rewrite ?app_nil_r. Qed.

Lemma data_free_clients d fr w : w_clients (_cb_data_free d fr w) = w_clients w.
Proof. by destruct d, fr. Qed.

Lemma cb_free_spec c cl i cb w :
  w_clients w !! c = Some cl → c_cbs cl !! i = Some (Some cb) →
  cb_step c [] [] w (_cb_free c i w) ∧
  w_clients (_cb_free c i w) !! c = Some (set_c_cbs <[i := None]> cl) ∧
  w_freed (_cb_free c i w) = w_freed w ++ owner cb.
Proof.
  intros Hc Hi. unfold _cb_free.
  rewrite (proj2 (cb_slot_Some c i w cb)) by eauto.
  destruct (cb_remove_spec c cl i cb (_cb_data_free (cb_data cb) (cb_free_fn cb) w))
    as (H1 & H2 & H3); [by rewrite data_free_clients|done|].
  split; [|split; [done|]].
  - apply (cb_step_cancel _ (owner cb)).
    pose proof (cb_step_trans _ _ _ _ _ _ _ _ (step_data_free c _ _ w) H1) as H.
    by rewrite app_nil_r in H.
  - by rewrite H3, data_free_freed.
Qed.

(** Clearing all the slots whose callback satisfies a test: the loops of
    [client_cb_prune] and [client_free_all]. *)
Definition sweep (p : client_cb → bool) (c : cid) (w : world) (i : nat) : world :=
  match cb_slot c i w with
  | Some cb => if p cb then _cb_free c i w else w
  | None => w
  end.

Definition spare (p : client_cb → bool) (o : option client_cb) : option client_cb :=
  cb ← o; if p cb then None else Some cb.

Lemma sweep_spec p c cl i w :
  w_clients w !! c = Some cl →
  cb_step c [] [] w (sweep p c w i) ∧
  w_clients (sweep p c w i) !! c = Some (set_c_cbs (alter (spare p) i) cl).
Proof.
  intros Hc. unfold sweep.
  assert (Hid : (∀ o, c_cbs cl !! i = Some o → spare p o = o) →
                Some cl = Some (set_c_cbs (alter (spare p) i) cl)).
  { intros H. f_equal. destruct cl; unfold set_c_cbs; simpl in *. f_equal.
    symmetry. by apply alter_id_at. }
  destruct (cb_slot c i w) as [cb|] eqn:E.
  - apply cb_slot_Some in E. destruct E as (cl' & Hc' & Hi).
    rewrite Hc in Hc'. injection Hc' as <-. destruct (p cb) eqn:Hp.
    + destruct (cb_free_spec c cl i cb w Hc Hi) as (H1 & H2 & _). split; [done|].
      rewrite H2. f_equal. unfold set_c_cbs. f_equal. rewrite list_insert_alter.
      apply list_alter_ext; [|done]. rewrite Hi. intros ? [= <-]. simpl. by rewrite Hp.
    + split; [apply cb_step_refl|]. rewrite Hc. apply Hid. rewrite Hi.
      intros ? [= <-]. simpl. by rewrite Hp.
  - split; [apply cb_step_refl|]. rewrite Hc. apply Hid. intros [cb|] Hi; [|done].
    assert (cb_slot c i w = Some cb) by (apply cb_slot_Some; eauto). congruence.
Qed.

Lemma sweep_all p c cl w l :
  w_clients w !! c = Some cl →
  cb_step c [] [] w (foldl (sweep p c) w l) ∧
  w_clients (foldl (sweep p c) w l) !! c =
    Some (set_c_cbs (λ cbs, foldl (λ cbs i, alter (spare p) i cbs) cbs l) cl).
Proof.
  revert w cl. induction l as [|i l IH]; intros w cl Hc; cbn [foldl].
  - split; [apply cb_step_refl|]. rewrite Hc. by destruct cl.
  - destruct (sweep_spec p c cl i w Hc) as [H1 H2].
    destruct (IH _ _ H2) as [H3 H4]. split; [|by rewrite H4].
    apply (cb_step_trans _ [] [] [] [] _ _ _ H1 H3).
Qed.

(** A sweep over all the slots filters the map they stand for. *)
Lemma sweep_view p c cl w :
  cbs_wf w → w_clients w !! c = Some cl →
  cb_view c (foldl (sweep p c) w (seq 0 N_CBS)) =
    filter (λ kv, p kv.2 = false) (cb_view c w).
Proof.
  intros Hwf Hc. destruct (sweep_all p c cl w (seq 0 N_CBS) Hc) as [_ H].
  unfold cb_view. rewrite H, Hc. destruct (Hwf c cl Hc) as [Hlen _ Hids]. cbn [set_c_cbs c_cbs].
  rewrite <- Hlen, foldl_alter_seq. apply map_eq. intros v. apply option_eq. intros cb.
  assert (Hids' : ids_ok (spare p <$> c_cbs cl)).
  { intros i b. rewrite list_lookup_fmap_Some. intros ([b'|] & Hb & Hi); simpl in Hb; [|done].
    destruct (p b'); [done|]. injection Hb as ->. by apply (Hids i). }
  rewrite map_lookup_filter_Some, !cb_map_lookup by done.
  setoid_rewrite list_lookup_fmap_Some. split.
  - intros (i & ([b|] & Hb & Hi) & ->); simpl in Hb; [|done].
    destruct (p b) eqn:E; [done|]. injection Hb as ->. eauto.
  - intros [(i & Hi & ->) Hp]. exists i. split; [|done]. exists (Some cb).
    split; [|done]. simpl in *. by rewrite Hp.
Qed.

Lemma cb_map_at l i id :
  ids_ok l → 0 ≤ id < 65536 →
  cb_map l !! server_cb_id i id =
    cb ← mjoin (l !! i); if cb_id cb =? id then Some cb else None.
Proof.
  intros Hl Hid. apply option_eq. intros cb. rewrite cb_map_lookup by done. split.
  - intros (j & Hj & E). assert (0 < cb_id cb < 65536) by (apply (Hl _ _ Hj)).
    rewrite !server_cb_id_eq in E by lia. assert (i = j) as -> by lia.
    rewrite Hj. simpl. by rewrite (proj2 (Z.eqb_eq _ _)) by lia.
  - destruct (l !! i) as [[b|]|] eqn:Hi; simpl; [|done..].
    destruct (Z.eqb_spec (cb_id b) id) as [<-|]; [|done]. intros [= <-]. eauto.
Qed.

Lemma take_spec c cl v w :
  cbs_wf w → w_clients w !! c = Some cl →
  (client_cb_take c v w).1 = cb_view c w !! u32 v ∧
  cb_view c (client_cb_take c v w).2 = delete (u32 v) (cb_view c w) ∧
  cb_step c [] (default [] (owner <$> (client_cb_take c v w).1)) w (client_cb_take c v w).2 ∧
  w_freed (client_cb_take c v w).2 = w_freed w.
Proof.
  intros Hwf Hc. destruct (Hwf c cl Hc) as [Hlen _ Hids].
  set (i := Z.to_nat (cb_slot_of v)). set (id := cb_id_of v).
  assert (Hid : 0 ≤ id < 65536).
  { unfold id, cb_id_of. change 65535 with (Z.ones 16). rewrite Z.land_ones by lia.
    apply Z.mod_pos_bound. lia. }
  assert (Hmiss : cb_view c w !! u32 v = None →
    None = cb_view c w !! u32 v ∧ cb_view c w = delete (u32 v) (cb_view c w) ∧
    cb_step c [] [] w w ∧ w_freed w = w_freed w).
  { intros H. rewrite H, delete_id by done. auto using cb_step_refl. }
  assert (Hview : cb_view c w !! u32 v =
    cb ← mjoin (c_cbs cl !! i); if cb_id cb =? id then Some cb else None).
  { unfold cb_view. rewrite Hc, <- server_cb_id_split. by apply cb_map_at. }
  unfold client_cb_take. rewrite Hc. fold i id.
  destruct (Z.leb_spec (Z.of_nat N_CBS) (cb_slot_of v)) as [Hle|Hle].
  { apply Hmiss. rewrite Hview, lookup_ge_None_2; [done|]. rewrite Hlen. unfold i. lia. }
  destruct (c_cbs cl !! i) as [[cb|]|] eqn:Hi; simpl in *; [|by apply Hmiss..].
  destruct (Z.eqb_spec (cb_id cb) id) as [Hcb|]; [|by apply Hmiss].
  destruct (cb_remove_spec c cl i cb w Hc Hi) as (H1 & H2 & H3). cbn [fst snd].
  split; [done|]. split; [|by split].
  unfold cb_view at 1. rewrite H2. cbn [set_c_cbs c_cbs].
  rewrite (cb_view_clear c cl i cb w) by done. f_equal.
  rewrite Hcb. apply server_cb_id_split.
Qed.

Lemma prune_sweep c before w l :
  foldl (prune_slot c before) w l = foldl (sweep (λ cb, cb_created cb <? before) c) w l.
Proof. done. Qed.

Lemma free_sweep c w l : foldl (free_slot c) w l = foldl (sweep (λ _, true) c) w l.
Proof. done. Qed.

(** The slot a new callback goes to, and the world it finds there. *)
Lemma evict_spec c cl r s w :
  cbs_wf w → w_clients w !! c = Some cl → 0 ≤ r < Z.of_nat N_CBS →
  length (occupied (c_cbs cl)) = N_CBS →
  let w' := stat_inc callbacks_evicted (_cb_free c (Z.to_nat r) (set_w_rand (λ _, s) w)) in
  cb_step c [] [] w w' ∧
  ∃ old, c_cbs cl !! Z.to_nat r = Some (Some old) ∧
    w_clients w' !! c = Some (set_c_cbs <[Z.to_nat r := None]> cl) ∧
    w_freed w' = w_freed w ++ owner old.
Proof.
  intros Hwf Hc Hr Hfull w'. destruct (Hwf c cl Hc) as [Hlen _ _].
  destruct (lookup_lt_is_Some_2 (c_cbs cl) (Z.to_nat r)) as [[old|] Hi]; [lia| |].
  - destruct (cb_free_spec c cl (Z.to_nat r) old (set_w_rand (λ _, s) w) Hc Hi)
      as (H1 & H2 & H3).
    split; [|by eauto].
    refine (cb_step_trans _ [] [] [] [] _ _ _ (step_rand c _ w) _).
    refine (cb_step_trans _ [] [] [] [] _ _ _ H1 _). by apply step_stat.
  - exfalso. apply (occupied_full (c_cbs cl) (Z.to_nat r)); congruence.
Qed.

Lemma step_cbs_id c cl id w :
  w_clients w !! c = Some cl → 0 ≤ id < 65536 →
  cb_step c [] [] w (upd_client c (set_c_cbs_id (λ _, id)) w) ∧
  w_clients (upd_client c (set_c_cbs_id (λ _, id)) w) !! c = Some (set_c_cbs_id (λ _, id) cl).
Proof.
  intros Hc Hid. set (w1 := upd_client c (set_c_cbs_id (λ _, id)) w).
  assert (E : w1 = set_w_clients <[c := set_c_cbs_id (λ _, id) cl]> w)
    by (subst w1; unfold upd_client; by rewrite Hc).
  assert (Hlive : live w1 ≡ₚ live w).
  { rewrite E. unfold live. simpl.
    pose proof (map_items_insert (λ cl, occupied (c_cbs cl)) (w_clients w) c
      (set_c_cbs_id (λ _, id) cl) cl Hc) as Hm. by apply Permutation_app_inv_r in Hm. }
  clearbody w1. split; [split|].
  - rewrite E. unfold cb_mask, set_w_clients. simpl. f_equal. rewrite fmap_insert.
    apply insert_id. by rewrite lookup_fmap, Hc.
  - intros Hwf d cl'. rewrite E. simpl. rewrite lookup_insert_Some.
    intros [[<- <-]|[_ Hd]]; [|by apply (Hwf d)].
    destruct (Hwf c cl Hc) as [? ? ?]. by split.
  - intros d Hd. rewrite E. simpl. by rewrite lookup_insert_ne.
  - rewrite Hlive. by rewrite E.
  - unfold held. rewrite Hlive. by rewrite E.
  - rewrite E. apply lookup_insert_eq.
Qed.

Lemma store_spec c cl i id cb w :
  w_clients w !! c = Some cl → c_cbs cl !! i = Some None →
  0 ≤ id < 65536 → 0 < cb_id cb < 65536 →
  let w' := stat_inc callbacks_created (stat_inc callbacks_total
    (upd_client c (set_c_cbs <[i := Some cb]>) (upd_client c (set_c_cbs_id (λ _, id)) w))) in
  cb_step c (owner cb) [] w w' ∧
  w_clients w' !! c = Some (set_c_cbs <[i := Some cb]> (set_c_cbs_id (λ _, id) cl)) ∧
  w_freed w' = w_freed w.
Proof.
  intros Hc Hi Hid Hcb w'. destruct (step_cbs_id c cl id w Hc Hid) as [H1 H2].
  set (w1 := upd_client c (set_c_cbs_id (λ _, id)) w) in *.
  assert (Hx : ∀ b, Some cb = Some b → 0 < cb_id b < 65536) by (by intros ? [= <-]).
  pose proof (step_set_slot c _ i (Some cb) None 1 w1 H2 Hi Hx eq_refl) as H3.
  change (option_list (Some cb) ≫= owner) with (owner cb ++ []) in H3.
  change (option_list (@None client_cb) ≫= owner) with (@nil (nat * nat)) in H3.
  rewrite app_nil_r in H3.
  split; [|split].
  - apply (cb_step_trans c [] [] (owner cb) [] w w1 w' H1).
    pose proof (cb_step_trans c (owner cb) [] [] [] _ _ w' H3) as H4.
    rewrite app_nil_r in H4. apply H4. by apply step_stat.
  - subst w'. cbn [w_clients stat_inc stat_add set_w_stats]. unfold upd_client. rewrite H2.
    apply lookup_insert_eq.
  - subst w' w1. cbn. unfold upd_client at 1. rewrite H2. unfold upd_client. by rewrite Hc.
Qed.

Lemma cb_view_size c cl w :
  cbs_wf w → w_clients w !! c = Some cl →
  size (cb_view c w) = length (occupied (c_cbs cl)).
Proof.
  intros Hwf Hc. unfold cb_view. rewrite Hc. apply cb_map_size. by apply (Hwf c cl).
Qed.

Lemma server_cb_id_bounds i id :
  (i < N_CBS)%nat → 0 < id < 65536 →
  0 < server_cb_id i id < 2 ^ 32 ∧ u32 (server_cb_id i id) = server_cb_id i id ∧
  cb_id_of (server_cb_id i id) = id.
Proof.
  unfold N_CBS. intros Hi Hid.
  destruct (server_cb_id_parts i id) as [_ H2]; [lia|lia|]. rewrite H2.
  rewrite server_cb_id_eq by lia. split; [lia|]. split; [|done].
  apply Z.mod_small. lia.
Qed.

(** The map and the destructor calls left by [client_cb_new] before it stores
    the new callback: one callback is evicted if all slots are taken. *)
Definition made_room (c : cid) (w : world) (m : gmap Z client_cb) (freed : list (nat * nat)) : Prop :=
  ((size (cb_view c w) < N_CBS)%nat ∧ m = cb_view c w ∧ freed = []) ∨
  (size (cb_view c w) = N_CBS ∧ ∃ k old, cb_view c w !! k = Some old ∧
     m = delete k (cb_view c w) ∧ freed = owner old).

Lemma room_spec {LO : LibsOk L} c cl w :
  cbs_wf w → w_clients w !! c = Some cl →
  let i := first_null (c_cbs cl) in
  let r := if (i =? N_CBS)%nat then
             let '(r, s) := g_random_int_range (w_rand w) 0 (Z.of_nat N_CBS) in
             (Z.to_nat r,
              stat_inc callbacks_evicted
                (_cb_free c (Z.to_nat r) (set_w_rand (λ _, s) w)))
           else (i, w) in
  (r.1 < N_CBS)%nat ∧ cb_step c [] [] w r.2 ∧
  ∃ cbs freed, w_clients r.2 !! c = Some (set_c_cbs (λ _, cbs) cl) ∧
    cbs !! r.1 = Some None ∧ w_freed r.2 = w_freed w ++ freed ∧
    made_room c w (cb_map cbs) freed.
Proof.
  intros Hwf Hc i r. destruct (Hwf c cl Hc) as [Hlen _ Hids].
  pose proof (cb_view_size c cl w Hwf Hc) as Hsize.
  destruct (first_null_spec (c_cbs cl)) as [[Hi Hocc]|[Hi Hocc]]; fold i in Hi.
  - assert (i < N_CBS)%nat by (rewrite <- Hlen; by apply lookup_lt_is_Some_1; eexists).
    subst r. rewrite (proj2 (Nat.eqb_neq i N_CBS)) by lia. simpl.
    split; [done|]. split; [apply cb_step_refl|].
    exists (c_cbs cl), []. rewrite app_nil_r. split; [|split; [done|]].
    + rewrite Hc. by destruct cl.
    + split; [done|]. left. split; [lia|]. split; [|done]. unfold cb_view. by rewrite Hc.
  - subst r. rewrite (proj2 (Nat.eqb_eq i N_CBS)) by lia.
    pose proof (random_range (w_rand w) 0 (Z.of_nat N_CBS) ltac:(done)) as Hr.
    destruct (g_random_int_range (w_rand w) 0 (Z.of_nat N_CBS)) as [r s]. cbn [fst snd] in *.
    destruct (evict_spec c cl r s w Hwf Hc Hr) as (H1 & old & H2 & H3 & H4); [lia|].
    split; [lia|]. split; [done|].
    exists (<[Z.to_nat r := None]> (c_cbs cl)), (owner old).
    split; [by rewrite H3|]. split; [apply list_lookup_insert_eq; lia|]. split; [done|].
    right. split; [lia|]. exists (server_cb_id (Z.to_nat r) (cb_id old)), old.
    split; [|split; [|done]].
    + unfold cb_view. rewrite Hc. apply cb_map_lookup; eauto.
    + by apply cb_view_clear.
Qed.

Lemma new_spec {LO : LibsOk L} c cl f d fr w :
  cbs_wf w → w_clients w !! c = Some cl →
  let v := (client_cb_new (Some c) (Some f) d fr w).1 in
  let w' := (client_cb_new (Some c) (Some f) d fr w).2 in
  let id := next_cb_id (c_cbs_id cl) in
  let cb := mkCb id f d fr (w_now w) in
  0 < v < 2 ^ 32 ∧ u32 v = v ∧ cb_id_of v = id ∧ cb_step c (owed d fr) [] w w' ∧
  (∃ cl', w_clients w' !! c = Some cl' ∧ c_cbs_id cl' = id) ∧
  ∃ m freed, made_room c w m freed ∧ m !! v = None ∧ cb_view c w' = <[v := cb]> m ∧
    w_freed w' = w_freed w ++ freed.
Proof.
  intros Hwf Hc. destruct (Hwf c cl Hc) as [Hlen Hid Hids].
  pose proof (room_spec c cl w Hwf Hc) as (H1 & H2 & cbs & freed & H3 & H4 & H5 & H6).
  unfold client_cb_new. rewrite Hc. cbv zeta in H1, H2, H3, H4, H5 |- *.
  destruct (if (first_null (c_cbs cl) =? N_CBS)%nat then _ else _) as [i w1] eqn:E.
  cbn [fst snd] in *. pose proof (next_cb_id_range _ Hid) as Hnext.
  set (id := next_cb_id (c_cbs_id cl)) in *. rewrite (cb_step_now _ _ _ _ _ H2).
  set (cb := mkCb id f d fr (w_now w)).
  destruct (server_cb_id_bounds i id H1 Hnext) as (B1 & B2 & B3).
  assert (Hlook : (set_c_cbs (λ _, cbs) cl).(c_cbs) !! i = Some None) by done.
  destruct (store_spec c _ i id cb w1 H3 Hlook) as (S1 & S2 & S3); [lia|done|].
  assert (Hids1 : ids_ok cbs) by apply (cbs_ids _ (step_wf _ _ _ _ _ H2 Hwf c _ H3)).
  split; [done|]. split; [done|]. split; [done|].
  split; [apply (cb_step_trans c [] [] (owner cb) [] w w1 _ H2 S1)|].
  split; [by eexists|]. exists (cb_map cbs), freed. split; [done|].
  split; [|split; [|by rewrite S3]].
  - change id with (cb_id cb) at 1. rewrite cb_map_at by (done || simpl; lia).
    by rewrite H4.
  - unfold cb_view. rewrite S2. simpl. by apply (cb_map_fill cbs i cb).
Qed.

Lemma live_upd c cl f w :
  w_clients w !! c = Some cl → c_cbs (f cl) = c_cbs cl → live (upd_client c f w) ≡ₚ live w.
Proof.
  intros Hc Hf. unfold upd_client, live. rewrite Hc. simpl.
  pose proof (map_items_insert (λ cl, occupied (c_cbs cl)) (w_clients w) c (f cl) cl Hc) as Hm.
  simpl in Hm. rewrite Hf in Hm. by apply Permutation_app_inv_r in Hm.
Qed.

Lemma cbs_wf_upd c cl f w :
  w_clients w !! c = Some cl → cbs_wf w → (cbs_ok cl → cbs_ok (f cl)) →
  cbs_wf (upd_client c f w).
Proof.
  intros Hc Hwf Hf d cl'. unfold upd_client. rewrite Hc. simpl. rewrite lookup_insert_Some.
  intros [[<- <-]|[_ Hd]]; [by apply Hf, (Hwf c)|by apply (Hwf d)].
Qed.

Lemma free_all_spec c cl w :
  cbs_wf w → w_clients w !! c = Some cl →
  let w' := client_free_all c w in
  cb_view c w' = ∅ ∧ w_fault w' = w_fault w ∧
  w_freed w' ++ held w' ≡ₚ w_freed w ++ held w ∧ cbs_wf w' ∧
  (∀ e, e ≠ c → w_clients w' !! e = w_clients w !! e) ∧
  w_stats w' callbacks_total - Z.of_nat (length (live w')) =
    w_stats w callbacks_total - Z.of_nat (length (live w)).
Proof.
  intros Hwf Hc w'. pose proof (sweep_all (λ _, true) c cl w (seq 0 N_CBS) Hc) as [S Hc1].
  pose proof (sweep_view (λ _, true) c cl w Hwf Hc) as V.
  pose proof (cb_step_fault _ _ _ _ _ S) as F. destruct S as [M W O T D].
  subst w'. unfold client_free_all. rewrite free_sweep.
  set (w1 := foldl (sweep (λ _, true) c) w (seq 0 N_CBS)) in *. rewrite !app_nil_r in D.
  pose proof (live_upd c _ (set_c_data (λ _, None)) w1 Hc1 eq_refl) as Hl.
  assert (E : upd_client c (set_c_data (λ _, None)) w1 =
    set_w_clients <[c := set_c_data (λ _, None)
      (set_c_cbs (λ cbs, foldl (λ cbs i, alter (spare (λ _, true)) i cbs) cbs (seq 0 N_CBS)) cl)]> w1)
    by (unfold upd_client; by rewrite Hc1).
  split; [|split; [|split; [|split; [|split]]]].
  - unfold cb_view in V |- *. rewrite Hc1 in V. rewrite E. cbn [w_clients set_w_clients].
    rewrite lookup_insert_eq. etransitivity; [apply V|]. apply map_empty. intros k.
    apply map_lookup_filter_None. by right.
  - rewrite <- F. by rewrite E.
  - unfold held at 1. rewrite Hl. fold (held w1). by rewrite E.
  - eapply cbs_wf_upd; [done|by apply W|]. intros [? ? ?]. by split.
  - intros e He. rewrite <- O by done. rewrite E. simpl. by rewrite lookup_insert_ne.
  - rewrite Hl, <- T. by rewrite E.
Qed.

(** ** Sequences of operations

    [client_cb_fire] runs the callback between taking it and calling its
    destructor, and the callback may itself create callbacks; so the two halves
    are separate steps here and the callbacks taken but not done are kept. *)
Inductive cb_op :=
  | CbNew (c : option cid) (fn : option evs_cb_fn) (data free_fn : option nat)
  | CbTake (c : cid) (server_cb : Z)
  | CbDone
  | CbPrune (c : cid) (before : Z)
  | CbFreeAll (c : cid)
  | CbClock (now : Z).

Definition run_op (s : world * list client_cb) (op : cb_op) : world * list client_cb :=
  let '(w, running) := s in
  match op with
  | CbNew c fn d fr => ((client_cb_new c fn d fr w).2, running)
  | CbTake c v => let '(o, w) := client_cb_take c v w in (w, option_list o ++ running)
  | CbDone =>
      match running with
      | [] => s
      | cb :: running =>
          (stat_inc callbacks_fired (_cb_data_free (cb_data cb) (cb_free_fn cb) w), running)
      end
  | CbPrune c before => (client_cb_prune c before w, running)
  | CbFreeAll c => (client_free_all c w, running)
  | CbClock now => (set_w_now (λ _, now) w, running)
  end.

Definition run_ops : world * list client_cb → list cb_op → world * list client_cb :=
  foldl run_op.

(** The operation uses a client that exists. *)
Definition op_ok (w : world) (op : cb_op) : Prop :=
  match op with
  | CbNew (Some c) (Some _) _ _ | CbTake c _ | CbPrune c _ | CbFreeAll c =>
      is_Some (w_clients w !! c)
  | CbNew None (Some _) _ _ => False
  | CbNew _ None _ _ | CbDone | CbClock _ => True
  end.

(** The destructor calls an operation becomes responsible for. *)
Definition op_gain (op : cb_op) : list (nat * nat) :=
  match op with CbNew _ _ d fr => owed d fr | _ => [] end.

Record ops_inv (gain : list (nat * nat)) (s s' : world * list client_cb) : Prop := {
  inv_wf : cbs_wf s.1 → cbs_wf s'.1;
  inv_dom c : is_Some (w_clients s'.1 !! c) ↔ is_Some (w_clients s.1 !! c);
  inv_fault : w_fault s'.1 = w_fault s.1;
  inv_total : w_stats s'.1 callbacks_total - Z.of_nat (length (live s'.1)) =
              w_stats s.1 callbacks_total - Z.of_nat (length (live s.1));
  inv_owed : w_freed s'.1 ++ held s'.1 ++ (s'.2 ≫= owner) ≡ₚ
             w_freed s.1 ++ held s.1 ++ (s.2 ≫= owner) ++ gain;
}.

Lemma cb_step_dom c g l w w' d :
  cb_step c g l w w' → is_Some (w_clients w' !! d) ↔ is_Some (w_clients w !! d).
Proof.
  intros [M _ _ _ _]. pose proof (f_equal (λ w, w_clients w !! d) M) as E. simpl in E.
  rewrite !lookup_fmap in E.
  destruct (w_clients w' !! d), (w_clients w !! d); try done; by split; eexists.
Qed.

Lemma cb_step_inv c g l w w' run run' :
  cb_step c g l w w' → (run' ≫= owner) ≡ₚ l ++ (run ≫= owner) →
  ops_inv g (w, run) (w', run').
Proof.
  intros S Hrun. pose proof (cb_step_fault _ _ _ _ _ S) as F.
  pose proof (λ d, cb_step_dom _ _ _ _ _ d S) as Dom. destruct S as [M W O T D].
  split; simpl; [done..|]. rewrite Hrun, !app_assoc, <- (app_assoc _ (held w')), D.
  rewrite <- !app_assoc. do 2 apply Permutation_app_head. apply Permutation_app_comm.
Qed.

Lemma run_op_inv {LO : LibsOk L} s op :
  cbs_wf s.1 → op_ok s.1 op → ops_inv (op_gain op) s (run_op s op).
Proof.
  destruct s as [w run]. intros Hwf Hok; cbn [fst] in *.
  destruct op as [[c|] [fn|] d fr|c v| |c before|c|now]; simpl in Hok; cbn [run_op op_gain].
  - destruct Hok as [cl Hc]. destruct (new_spec c cl fn d fr w Hwf Hc) as (_ & _ & _ & S & _).
    by eapply cb_step_inv.
  - apply (cb_step_inv c _ []); [apply step_data_free|done].
  - done.
  - apply (cb_step_inv 1%positive _ []); [apply step_data_free|done].
  - destruct Hok as [cl Hc]. destruct (take_spec c cl v w Hwf Hc) as (_ & _ & S & _).
    destruct (client_cb_take c v w) as [[cb|] w']; by eapply cb_step_inv.
  - destruct run as [|cb run]; [by split; rewrite ?app_nil_r|]. split; simpl.
    + intros _ c cl Hc. apply (Hwf c). simpl in Hc. by rewrite data_free_clients in Hc.
    + intros c. by rewrite data_free_clients.
    + by destruct (cb_data cb), (cb_free_fn cb).
    + unfold live. simpl. rewrite data_free_clients. by destruct (cb_data cb), (cb_free_fn cb).
    + unfold held, live. simpl. rewrite data_free_clients, data_free_freed, app_nil_r.
      fold (live w). fold (held w). rewrite <- app_assoc. apply Permutation_app_head.
      rewrite !app_assoc. apply Permutation_app_tail, Permutation_app_comm.
  - destruct Hok as [cl Hc]. unfold client_cb_prune. rewrite Hc.
    apply (cb_step_inv c [] []); [|done]. by apply (sweep_all (λ cb, cb_created cb <? before) c cl).
  - destruct Hok as [cl Hc]. destruct (free_all_spec c cl w Hwf Hc) as (_ & F & D & W & O & T).
    split; simpl; [done| |done|done|by rewrite app_nil_r, !app_assoc, D].
    intros e. destruct (decide (e = c)) as [->|He]; [|by rewrite O].
    destruct (sweep_all (λ _, true) c cl w (seq 0 N_CBS) Hc) as [_ E].
    unfold client_free_all. rewrite free_sweep. unfold upd_client. rewrite E. simpl.
    rewrite lookup_insert_eq, Hc. by split; eexists.
  - split; simpl; [done..|]. by rewrite app_nil_r.
Qed.

Lemma run_ops_inv {LO : LibsOk L} s ops :
  cbs_wf s.1 → Forall (op_ok s.1) ops → ops_inv (ops ≫= op_gain) s (run_ops s ops).
Proof.
  revert s. induction ops as [|op ops IH]; intros s Hwf Hok.
  { by split; simpl; rewrite ?app_nil_r. }
  apply Forall_cons_iff in Hok as [Hop Hok].
  destruct (run_op_inv s op Hwf Hop) as [W1 D1 F1 T1 O1].
  assert (Hok' : Forall (op_ok (run_op s op).1) ops).
  { eapply Forall_impl; [exact Hok|]. intros [[?|] [?|]| | | | |]; simpl; rewrite ?D1; done. }
  destruct (IH (run_op s op) (W1 Hwf) Hok') as [W2 D2 F2 T2 O2].
  change (run_ops s (op :: ops)) with (run_ops (run_op s op) ops).
  split; [by auto|by intros c; rewrite D2|congruence|lia|].
  rewrite O2, bind_cons. rewrite !app_assoc, <- (app_assoc _ (held _)), O1.
  by rewrite !app_assoc.
Qed.

(** ** Correctness *)

(** C31. Creating a callback for a well-formed client returns an id between 1
    and 2^32 - 1 (never [EVS_NO_CALLBACK]) that was unused and under which the
    client now holds exactly the new callback, stamped with the current time.
    All its other callbacks stay, except that when all four slots were taken
    one of them is evicted and its destructor runs, once. Nothing else of the
    server changes, no undefined access happens, and the state stays
    well-formed. *)
Theorem client_cb_new_correct {LO : LibsOk L} c cl f d fr w :
  cbs_wf w → w_clients w !! c = Some cl →
  let v := (client_cb_new (Some c) (Some f) d fr w).1 in
  let w' := (client_cb_new (Some c) (Some f) d fr w).2 in
  EVS_NO_CALLBACK < v < 2 ^ 32 ∧ cbs_wf w' ∧ cb_mask w' = cb_mask w ∧
  (∀ e, e ≠ c → w_clients w' !! e = w_clients w !! e) ∧
  ∃ m freed, made_room c w m freed ∧ m !! v = None ∧
    cb_view c w' = <[v := mkCb (cb_id_of v) f d fr (w_now w)]> m ∧
    w_freed w' = w_freed w ++ freed.
Proof.
  intros Hwf Hc v w'. destruct (new_spec c cl f d fr w Hwf Hc) as (H1 & _ & H2 & H3 & _ & H4).
  fold v w' in H1, H2, H3, H4. rewrite H2. destruct H3 as [M W O _ _]. auto 10.
Qed.

(** Taking a callback to fire it gives the callback the client holds under
    the low 32 bits of the id, if there is one, and removes it, so no callback
    fires twice; an id that names none changes nothing. No destructor runs and
    nothing else of the server changes. *)
Theorem client_cb_take_correct c cl v w :
  cbs_wf w → w_clients w !! c = Some cl →
  let r := client_cb_take c v w in
  r.1 = cb_view c w !! u32 v ∧
  cb_view c r.2 = delete (u32 v) (cb_view c w) ∧
  (r.1 = None → r.2 = w) ∧ (client_cb_take c v r.2).1 = None ∧
  w_freed r.2 = w_freed w ∧ cbs_wf r.2 ∧ cb_mask r.2 = cb_mask w ∧
  (∀ e, e ≠ c → w_clients r.2 !! e = w_clients w !! e).
Proof.
  intros Hwf Hc r. destruct (take_spec c cl v w Hwf Hc) as (H1 & H2 & [M W O T D] & H4).
  fold r in H1, H2, M, W, O, H4. split; [done|]. split; [done|].
  split; [|split; [|by auto]].
  - subst r. unfold client_cb_take. rewrite Hc. repeat branch; done.
  - assert (is_Some (w_clients r.2 !! c)) as [cl' Hc'].
    { pose proof (f_equal (λ w, w_clients w !! c) M) as E. simpl in E.
      rewrite !lookup_fmap, Hc in E. destruct (w_clients r.2 !! c); [by eexists|done]. }
    destruct (take_spec c cl' v r.2 (W Hwf) Hc') as (E & _). rewrite E, H2.
    apply lookup_delete_eq.
Qed.

(** C38. Pruning keeps exactly the callbacks created at [before] or later,
    and freeing a client keeps none. The destructor of every removed callback
    that has one and non-NULL data runs exactly once, and no other runs. *)
Theorem client_cb_prune_correct c cl before w :
  cbs_wf w → w_clients w !! c = Some cl →
  let w1 := client_cb_prune c before w in
  let w2 := client_free_all c w in
  cb_view c w1 = filter (λ kv, before ≤ cb_created kv.2) (cb_view c w) ∧
  cb_mask w1 = cb_mask w ∧ cb_view c w2 = ∅ ∧ w_fault w2 = w_fault w ∧
  Forall (λ w', w_freed w' ++ held w' ≡ₚ w_freed w ++ held w ∧ cbs_wf w' ∧
    (∀ e, e ≠ c → w_clients w' !! e = w_clients w !! e)) [w1; w2].
Proof.
  intros Hwf Hc w1 w2.
  destruct (free_all_spec c cl w Hwf Hc) as (F1 & F2 & F3 & F4 & F5 & F6). fold w2 in F1, F2, F3, F4, F5, F6.
  assert (E1 : w1 = foldl (sweep (λ cb, cb_created cb <? before) c) w (seq 0 N_CBS))
    by (subst w1; unfold client_cb_prune; by rewrite Hc).
  destruct (sweep_all (λ cb, cb_created cb <? before) c cl w (seq 0 N_CBS) Hc)
    as [[M W O T D] _]. rewrite <- E1 in *.
  split; [|split; [done|split; [done|split; [done|]]]].
  - rewrite E1, (sweep_view _ c cl) by done. apply map_filter_ext.
    intros k cb _. simpl. apply Z.ltb_ge.
  - rewrite !app_nil_r in D. rewrite !Forall_cons_iff. auto 10.
Qed.

(** C19. Over every sequence of callback operations, on any clients and with
    callbacks creating further callbacks while they run: the statistic of
    existing callbacks equals the number of occupied slots, no undefined access
    happens, and every destructor call the server was given is made, or still
    owed by a live or a running callback, exactly once. *)
Theorem callbacks_balance {LO : LibsOk L} w running ops :
  cbs_wf w → w_stats w callbacks_total = Z.of_nat (length (live w)) →
  Forall (op_ok w) ops →
  let s := run_ops (w, running) ops in
  cbs_wf s.1 ∧ w_fault s.1 = w_fault w ∧
  w_stats s.1 callbacks_total = Z.of_nat (length (live s.1)) ∧
  w_freed s.1 ++ held s.1 ++ (s.2 ≫= owner) ≡ₚ
    w_freed w ++ held w ++ (running ≫= owner) ++ (ops ≫= op_gain).
Proof.
  intros Hwf Ht Hok s. destruct (run_ops_inv (w, running) ops Hwf Hok) as [W D F T O].
  cbn [fst snd] in *. fold s in W, F, T, O. split; [by apply W|]. split; [done|].
  split; [lia|done].
Qed.

(** ** Ids are not reused quickly *)

(** The operation creates a callback for [c]. *)
Definition creates (c : cid) (op : cb_op) : bool :=
  match op with CbNew (Some d) (Some _) _ _ => bool_decide (d = c) | _ => false end.

Definition creations (c : cid) (ops : list cb_op) : nat :=
  length (List.filter (creates c) ops).

(** The [n]-th id after [id]. *)
Lemma next_cb_id_iter n id :
  0 < id < 65536 → Nat.iter n next_cb_id id = (id - 1 + Z.of_nat n) mod 65535 + 1.
Proof.
  intros Hid. induction n as [|n IH].
  - change (Nat.iter 0 next_cb_id id) with id. rewrite Z.mod_small by lia. lia.
  - change (Nat.iter (S n) next_cb_id id) with (next_cb_id (Nat.iter n next_cb_id id)).
    rewrite IH. unfold next_cb_id, u16. change (2 ^ 16) with 65536.
    pose proof (Z.mod_pos_bound (id - 1 + Z.of_nat n) 65535 ltac:(lia)) as Hb.
    replace (id - 1 + Z.of_nat (S n)) with (id - 1 + Z.of_nat n + 1) by lia.
    rewrite <- (Z.add_mod_idemp_l (id - 1 + Z.of_nat n)) by lia.
    set (x := (id - 1 + Z.of_nat n) mod 65535) in *. clearbody x.
    destruct (Z.eq_dec x 65534) as [->|]; [done|].
    rewrite !Z.mod_small by lia. lia.
Qed.

(** The callbacks of [c] under [v] can only be [cb], and the client is [n]
    creations past [id]. *)
Record only (c : cid) (v id : Z) (cb : client_cb) (n : nat) (w : world) : Prop := {
  only_view cb' : cb_view c w !! v = Some cb' → cb' = cb;
  only_id cl : w_clients w !! c = Some cl → c_cbs_id cl = Nat.iter n next_cb_id id;
}.

Lemma only_other c v id cb n w w' :
  only c v id cb n w → w_clients w' !! c = w_clients w !! c → only c v id cb n w'.
Proof. intros [H1 H2] E. split; unfold cb_view; rewrite E; done. Qed.

Lemma only_sub c v id cb n w w' cl cl' :
  only c v id cb n w → w_clients w !! c = Some cl → w_clients w' !! c = Some cl' →
  c_cbs_id cl' = c_cbs_id cl → cb_view c w' ⊆ cb_view c w → only c v id cb n w'.
Proof.
  intros [H1 H2] Hc Hc' Hid Hsub. split.
  - intros cb' Hcb'. apply H1. by eapply lookup_weaken.
  - intros cl'' Hc''. rewrite Hc' in Hc''. injection Hc'' as <-. rewrite Hid. by apply H2.
Qed.

Lemma made_room_sub c w m freed : made_room c w m freed → m ⊆ cb_view c w.
Proof.
  intros [(_ & -> & _)|(_ & k & old & _ & -> & _)]; [done|apply delete_subseteq].
Qed.

Lemma take_id c cl v w :
  w_clients w !! c = Some cl →
  ∃ cl', w_clients (client_cb_take c v w).2 !! c = Some cl' ∧ c_cbs_id cl' = c_cbs_id cl.
Proof.
  intros Hc. unfold client_cb_take. rewrite Hc. branch; [by eauto|].
  destruct (c_cbs cl !! _) as [[cb|]|] eqn:Hi; simpl; [|by eauto..].
  branch; [|by eauto]. destruct (cb_remove_spec c cl _ cb w Hc Hi) as (_ & E & _).
  eexists. by split; [apply E|].
Qed.

(** Fewer than 65535 creations do not come back to the same id. *)
Lemma next_cb_id_fresh n id :
  0 < id < 65536 → Z.of_nat (S n) < 65535 → Nat.iter (S n) next_cb_id id ≠ id.
Proof.
  intros Hid Hn. rewrite next_cb_id_iter by done.
  destruct (Z.lt_ge_cases (id - 1 + Z.of_nat (S n)) 65535).
  - rewrite Z.mod_small by lia. lia.
  - rewrite <- (Z.mod_unique_pos _ 65535 1 (id - 1 + Z.of_nat (S n) - 65535)) by lia. lia.
Qed.

Lemma only_new {LO : LibsOk L} c cl v cb n fn d fr w :
  0 < cb_id_of v < 65536 → Z.of_nat n + 1 < 65535 →
  cbs_wf w → w_clients w !! c = Some cl → only c v (cb_id_of v) cb n w →
  only c v (cb_id_of v) cb (S n) (client_cb_new (Some c) (Some fn) d fr w).2.
Proof.
  intros Hid Hn Hwf Hc Hin.
  destruct (new_spec c cl fn d fr w Hwf Hc) as (_ & _ & Hv & _ & (cl' & Hc' & Hid') & H).
  destruct H as (m & freed & Hm%made_room_sub & _ & Hview & _).
  rewrite (only_id _ _ _ _ _ _ Hin cl Hc) in Hv, Hid', Hview.
  split; [|by intros ? E; rewrite Hc' in E; injection E as <-].
  intros cb'. rewrite Hview, lookup_insert_Some. intros [[E _]|[_ Hcb']].
  - exfalso. rewrite E in Hv. by apply (next_cb_id_fresh n (cb_id_of v)); [|lia|].
  - apply (only_view _ _ _ _ _ _ Hin). by eapply lookup_weaken.
Qed.

Lemma only_step {LO : LibsOk L} c v cb n s op :
  0 < cb_id_of v < 65536 → (creates c op = true → Z.of_nat n + 1 < 65535) →
  cbs_wf s.1 → op_ok s.1 op → only c v (cb_id_of v) cb n s.1 →
  only c v (cb_id_of v) cb (if creates c op then S n else n) (run_op s op).1.
Proof.
  destruct s as [w run]. intros Hid Hn Hwf Hok Hin; cbn [fst] in *.
  destruct op as [[d|] [fn|] dt fr|d u| |d before|d|now]; simpl in Hok; cbn [run_op creates fst] in *.
  - destruct Hok as [cl Hd]. case_bool_decide as E; [subst d; eapply only_new; try done; by apply Hn|].
    destruct (new_spec d cl fn dt fr w Hwf Hd) as (_ & _ & _ & St & _).
    by eapply only_other; [|apply St].
  - eapply only_other; [done|]. apply (f_equal (lookup c)), data_free_clients.
  - done.
  - eapply only_other; [done|]. apply (f_equal (lookup c)), data_free_clients.
  - destruct Hok as [cl Hd]. destruct (take_spec d cl u w Hwf Hd) as (_ & Hview & S & _).
    destruct (take_id d cl u w Hd) as (cl' & Hc' & Hid').
    destruct (client_cb_take d u w) as [o w']. cbn [fst snd] in *.
    destruct (decide (c = d)) as [<-|]; [|by eapply only_other; [|apply S]].
    eapply only_sub; try done. rewrite Hview. apply delete_subseteq.
  - destruct run as [|b run]; [done|]. eapply only_other; [done|]. simpl.
    by rewrite data_free_clients.
  - destruct Hok as [cl Hd]. unfold client_cb_prune. rewrite Hd.
    destruct (sweep_all (λ cb, cb_created cb <? before) d cl w (seq 0 N_CBS) Hd) as [S Hc'].
    destruct (decide (c = d)) as [<-|]; [|by eapply only_other; [|apply S]].
    eapply only_sub; try done. rewrite prune_sweep, (sweep_view _ _ cl) by done.
    apply map_filter_subseteq.
  - destruct Hok as [cl Hd]. destruct (free_all_spec d cl w Hwf Hd) as (V & _ & _ & _ & O & _).
    destruct (decide (c = d)) as [<-|]; [|by eapply only_other; [|apply O]].
    destruct (sweep_all (λ _, true) c cl w (seq 0 N_CBS) Hd) as [_ E].
    eapply (only_sub _ _ _ _ _ w _ cl); [done..| | |by rewrite V; apply map_empty_subseteq].
    + unfold client_free_all. rewrite free_sweep. unfold upd_client. rewrite E.
      apply lookup_insert_eq.
    + done.
  - by eapply only_other.
Qed.

Lemma only_run {LO : LibsOk L} c v cb n s ops :
  0 < cb_id_of v < 65536 → Z.of_nat (n + creations c ops) < 65535 →
  cbs_wf s.1 → Forall (op_ok s.1) ops → only c v (cb_id_of v) cb n s.1 →
  only c v (cb_id_of v) cb (n + creations c ops) (run_ops s ops).1.
Proof.
  intros Hid. revert n s. induction ops as [|op ops IH]; intros n s Hn Hwf Hok Hin.
  { by rewrite Nat.add_0_r. }
  apply Forall_cons_iff in Hok as [Hop Hok].
  destruct (run_op_inv s op Hwf Hop) as [W D _ _ _].
  assert (Hok' : Forall (op_ok (run_op s op).1) ops).
  { eapply Forall_impl; [exact Hok|]. intros [[?|] [?|]| | | | |]; simpl; rewrite ?D; done. }
  pose proof (only_step c v cb n s op Hid) as Hs.
  change (run_ops s (op :: ops)) with (run_ops (run_op s op) ops).
  unfold creations in *. cbn [List.filter] in *. destruct (creates c op); cbn [length] in *.
  - rewrite <- Nat.add_succ_comm in *. apply IH; [lia|auto|done|apply Hs; [lia|done..]].
  - apply IH; [lia|auto|done|by apply Hs].
Qed.

(** C32. An id is not reused while it matters: after a callback is created
    under [v], whatever callback operations run on any clients, as long as
    fewer than 65535 further callbacks are created for this client, [v] names
    that callback or none. So a client's late answer never runs a callback
    other than the one its id was given for. *)
Theorem callback_id_not_reused {LO : LibsOk L} c cl f d fr w running ops :
  cbs_wf w → w_clients w !! c = Some cl →
  let v := (client_cb_new (Some c) (Some f) d fr w).1 in
  let w1 := (client_cb_new (Some c) (Some f) d fr w).2 in
  Forall (op_ok w1) ops → Z.of_nat (creations c ops) < 65535 →
  ∀ cb, cb_view c (run_ops (w1, running) ops).1 !! v = Some cb →
        cb = mkCb (cb_id_of v) f d fr (w_now w).
Proof.
  intros Hwf Hc v w1 Hok Hn.
  destruct (new_spec c cl f d fr w Hwf Hc) as (_ & _ & Hv & St & (cl' & Hc' & Hid') & H).
  destruct H as (m & freed & _ & _ & Hview & _). fold v w1 in Hv, St, Hc', Hview.
  assert (Hid : 0 < cb_id_of v < 65536)
    by (rewrite Hv; apply next_cb_id_range, (cbs_id_range _ (Hwf c cl Hc))).
  apply (only_view c v (cb_id_of v) _ (0 + creations c ops)).
  apply (only_run c v _ 0 (w1, running) ops); [done|done|by apply St|done|].
  split; cbn [fst].
  - intros cb. rewrite Hview, lookup_insert_eq, Hv. congruence.
  - intros cl'' Hc''. rewrite Hc' in Hc''. injection Hc'' as <-. by rewrite Hid', Hv.
Qed.

End Callbacks.

(** ** Witnesses *)

Definition demo_client : client := qev_client_new false.

(** One freshly connected client and nothing else. *)
Definition demo_world : world (L := libs0) :=
  set_w_clients (L := libs0) <[1%positive := demo_client]>
    (world0 (Reference.mkPool 10 0)).

Lemma client_new_cbs_ok b : cbs_ok (qev_client_new b).
Proof.
  split; [done|done|]. intros i cb Hi.
  apply lookup_replicate in Hi as [? _]. done.
Qed.

Lemma demo_wf : cbs_wf (L := libs0) demo_world.
Proof.
  intros c cl. simpl. rewrite lookup_insert_Some, lookup_empty.
  intros [[_ <-]|[_ ?]]; [apply client_new_cbs_ok|done].
Qed.

Lemma client_cb_new_correct_witness :
  let r := client_cb_new (L := libs0) (Some 1%positive) (Some (app_cb 7)) (Some 3%nat)
             (Some 4%nat) demo_world in
  r.1 = 1 ∧ cbs_wf (L := libs0) demo_world ∧
  w_clients (L := libs0) demo_world !! 1%positive = Some demo_client ∧ EVS_NO_CALLBACK < r.1.
Proof.
  split; [reflexivity|]. split; [apply demo_wf|]. split; [reflexivity|].
  apply (client_cb_new_correct (L := libs0) 1%positive demo_client (app_cb 7) (Some 3%nat)
    (Some 4%nat) demo_world demo_wf eq_refl).
Defined.

(** The client after two creations. *)
Definition demo_world2 : world (L := libs0) :=
  (run_ops (L := libs0) (demo_world, [])
     [CbNew (Some 1%positive) (Some (app_cb 7)) (Some 3%nat) (Some 4%nat);
      CbClock 100;
      CbNew (Some 1%positive) (Some (app_cb 8)) None None]).1.

Definition demo_client2 : client :=
  default demo_client (w_clients (L := libs0) demo_world2 !! 1%positive).

Lemma demo_wf2 : cbs_wf (L := libs0) demo_world2.
Proof.
  apply (run_ops_inv (L := libs0) (demo_world, [])); try apply demo_wf.
  repeat constructor; simpl; by eexists.
Qed.

Lemma client_cb_take_correct_witness :
  w_clients (L := libs0) demo_world2 !! 1%positive = Some demo_client2 ∧
  (client_cb_take (L := libs0) 1%positive 65538 demo_world2).1 =
    Some (mkCb 2 (app_cb 8) None None 100) ∧
  (client_cb_take (L := libs0) 1%positive 65538 demo_world2).1 =
    cb_view (L := libs0) 1%positive demo_world2 !! 65538.
Proof.
  split; [vm_compute; reflexivity|]. split; [vm_compute; reflexivity|].
  exact (proj1 (client_cb_take_correct (L := libs0) 1%positive demo_client2 65538
    demo_world2 demo_wf2 ltac:(vm_compute; reflexivity))).
Defined.

Lemma client_cb_prune_correct_witness :
  w_freed (client_cb_prune (L := libs0) 1%positive 50 demo_world2) = [(4%nat, 3%nat)] ∧
  w_clients (L := libs0) demo_world2 !! 1%positive = Some demo_client2 ∧
  cb_view (L := libs0) 1%positive (client_cb_prune (L := libs0) 1%positive 50 demo_world2) =
    filter (λ kv, 50 ≤ cb_created kv.2) (cb_view (L := libs0) 1%positive demo_world2).
Proof.
  split; [vm_compute; reflexivity|]. split; [vm_compute; reflexivity|].
  exact (proj1 (client_cb_prune_correct (L := libs0) 1%positive demo_client2 50
    demo_world2 demo_wf2 ltac:(vm_compute; reflexivity))).
Defined.

Definition demo_ops : list cb_op :=
  [CbNew (Some 1%positive) (Some (app_cb 7)) (Some 3%nat) (Some 4%nat);
   CbTake 1%positive 1; CbNew (Some 1%positive) (Some (app_cb 9)) (Some 5%nat) (Some 4%nat);
   CbDone; CbFreeAll 1%positive].

Lemma callbacks_balance_witness :
  w_freed (run_ops (L := libs0) (demo_world, []) demo_ops).1 = [(4%nat, 3%nat); (4%nat, 5%nat)] ∧
  Forall (op_ok (L := libs0) demo_world) demo_ops ∧
  w_fault (run_ops (L := libs0) (demo_world, []) demo_ops).1 = false.
Proof.
  assert (Hok : Forall (op_ok (L := libs0) demo_world) demo_ops)
    by (repeat constructor; simpl; by eexists).
  split; [vm_compute; reflexivity|]. split; [exact Hok|].
  exact (proj1 (proj2 (callbacks_balance (L := libs0) demo_world [] demo_ops demo_wf
    ltac:(vm_compute; reflexivity) Hok))).
Defined.

Lemma callback_id_not_reused_witness :
  let v := (client_cb_new (L := libs0) (Some 1%positive) (Some (app_cb 7)) None None demo_world).1 in
  let w1 := (client_cb_new (L := libs0) (Some 1%positive) (Some (app_cb 7)) None None demo_world).2 in
  Forall (op_ok (L := libs0) w1) demo_ops ∧
  ∀ cb, cb_view (L := libs0) 1%positive (run_ops (L := libs0) (w1, []) demo_ops).1 !! v = Some cb →
        cb = mkCb (cb_id_of v) (app_cb 7) None None 0.
Proof.
  intros v w1.
  assert (Hok : Forall (op_ok (L := libs0) w1) demo_ops)
    by (repeat constructor; simpl; by eexists).
  split; [exact Hok|].
  exact (callback_id_not_reused (L := libs0) 1%positive demo_client (app_cb 7) None None
    demo_world [] demo_ops demo_wf eq_refl Hok eq_refl).
Defined.
