(* ===== verification/Sub.v ===== *)
(** Subscriptions: src/sub.c, with each call taken as one step. The protocol
    between concurrent calls is in SubRace.v. *)
From Stdlib Require Import ZArith Lia.
From stdpp Require Import base list gmap strings.
From S2P Require Import Prelude Libs Types EvsQuery State.

Section Sub.
Context {L : Libs}.

(** [g_hash_table_lookup(ev->subs, ev_extra)] *)
Definition ev_sub (ev : event) (ev_extra : bytes) (w : world) : option positive :=
  default ∅ (w_ev_subs w !! ev_path ev) !! ev_extra.

Definition set_ev_sub (ev : event) (ev_extra : bytes) (o : option positive) : world → world :=
  set_w_ev_subs (λ m,
    <[ev_path ev := partial_alter (λ _, o) ev_extra (default ∅ (m !! ev_path ev))]> m).

(** [_get_if_exists]. [atomic_inc_not_zero] adds one modulo 2^32 and refuses
    only 0. *)
Definition _get_if_exists (ev : event) (ev_extra : bytes) (w : world) : option positive * world :=
  match ev_sub ev ev_extra w with
  | None => (None, w)
  | Some s =>
      match w_subs w !! s with
      | None => (None, fault w)
      | Some sub =>
          if refs sub =? 0 then (None, w)
          else (Some s, upd_sub s (set_refs (λ n, u32 (n + 1))) w)
      end
  end.

Definition sub_get (ev : event) (ev_extra : option bytes) (or_create : bool) (w : world) :
    option positive * world :=
  let ev_extra := default [] ev_extra in
  let '(sub, w) := _get_if_exists ev ev_extra w in
  match sub with
  | Some s => (Some s, w)
  | None =>
      if or_create then
        let '(sub, w) := _get_if_exists ev ev_extra w in
        match sub with
        | Some s => (Some s, w)
        | None =>
            let s := fresh (dom (w_subs w)) in
            let w := set_w_subs <[s := mkSub ev ev_extra qev_list_new 1]> w in
            let w := set_ev_sub ev ev_extra (Some s) w in
            (Some s, stat_inc subs_added (stat_inc subs_total w))
        end
      else (None, w)
  end.

Definition sub_ref (s : positive) (w : world) : world :=
  upd_sub s (set_refs (λ n, u32 (n + 1))) w.

Definition sub_unref (s : positive) (w : world) : world :=
  match w_subs w !! s with
  | None => fault w
  | Some sub =>
      let w := upd_sub s (set_refs (λ n, u32 (n - 1))) w in
      if negb (u32 (refs sub - 1) =? 0) then w
      else
        let w := if decide (ev_sub (sub_ev sub) (sub_ev_extra sub) w = Some s)
                 then set_ev_sub (sub_ev sub) (sub_ev_extra sub) None w else w in
        let w := set_w_subs (delete s) w in
        stat_inc subs_removed (stat_dec subs_total w)
  end.

(** ** Well-formed tables *)

(** The table of each event and the allocated subscriptions correspond, every
    subscription is referenced, and the statistic counts them. *)
Record subs_wf (w : world) : Prop := {
  subs_tbl s ev x : ev_sub ev x w = Some s →
    ∃ sub, w_subs w !! s = Some sub ∧ ev_path (sub_ev sub) = ev_path ev ∧ sub_ev_extra sub = x;
  subs_in s sub : w_subs w !! s = Some sub → ev_sub (sub_ev sub) (sub_ev_extra sub) w = Some s;
  subs_refs s sub : w_subs w !! s = Some sub → 0 < refs sub < 2 ^ 32;
  subs_count : w_stats w subs_total = Z.of_nat (size (w_subs w));
}.

(** What the operations of this file leave alone: everything but the tables,
    the subscriptions and the statistics. *)
Definition sub_mask (w : world) : world :=
  set_w_ev_subs (λ _, ∅) (set_w_subs (λ _, ∅) (set_w_stats (λ _ _, 0) w)).

(** The references to a subscription, 0 when it does not exist. *)
Definition sub_refs (s : positive) (w : world) : Z :=
  match w_subs w !! s with Some sub => refs sub | None => 0 end.

Lemma ev_sub_set ev x o ev' x' w :
  ev_sub ev' x' (set_ev_sub ev x o w) =
    if decide (ev_path ev' = ev_path ev ∧ x' = x) then o else ev_sub ev' x' w.
Proof.
  unfold ev_sub, set_ev_sub. simpl. destruct (decide (ev_path ev' = ev_path ev)) as [E|Hne].
  - rewrite E, lookup_insert_eq. simpl. destruct (decide (x' = x)) as [->|Hx].
    + rewrite lookup_partial_alter_eq. by rewrite decide_True.
    + rewrite lookup_partial_alter_ne by done. by rewrite decide_False by tauto.
  - rewrite lookup_insert_ne by done. by rewrite decide_False by tauto.
Qed.

Lemma upd_sub_lookup s f w sub :
  w_subs w !! s = Some sub → upd_sub s f w = set_w_subs <[s := f sub]> w.
Proof. intros H. unfold upd_sub. by rewrite H. Qed.

Lemma subs_wf_refs s sub n w :
  subs_wf w → w_subs w !! s = Some sub → 0 < n < 2 ^ 32 →
  subs_wf (set_w_subs <[s := set_refs (λ _, n) sub]> w).
Proof.
  intros [T I R C] Hs Hn. split.
  - intros s' ev x H. destruct (T s' ev x H) as (sub' & Hs' & E). simpl.
    destruct (decide (s' = s)) as [->|Hne].
    + rewrite lookup_insert_eq. eexists; split; [done|]. simpl. congruence.
    + rewrite lookup_insert_ne by done. eauto.
  - intros s' sub'. simpl. rewrite lookup_insert_Some. intros [[<- <-]|[_ H]]; [by apply (I s sub)|by apply (I s' sub')].
  - intros s' sub'. simpl. rewrite lookup_insert_Some. intros [[<- <-]|[_ H]]; [done|by eapply R].
  - simpl. by rewrite map_size_insert, Hs, C.
Qed.

Lemma subs_wf_new s ev x q w :
  subs_wf w → w_subs w !! s = None → ev_sub ev x w = None →
  subs_wf (stat_inc subs_added (stat_inc subs_total
    (set_ev_sub ev x (Some s) (set_w_subs <[s := mkSub ev x q 1]> w)))).
Proof.
  intros [T I R C] Hs Hx. split.
  - intros s' ev' x' H. change (ev_sub ev' x' (set_ev_sub ev x (Some s) w) = Some s') in H.
    rewrite ev_sub_set in H. simpl. destruct (decide _) as [[E ->]|Hne].
    + injection H as <-. rewrite lookup_insert_eq. by eexists.
    + destruct (T s' ev' x' H) as (sub' & Hs' & E).
      rewrite lookup_insert_ne by congruence. eauto.
  - intros s' sub'. simpl. intros H.
    change (ev_sub (sub_ev sub') (sub_ev_extra sub') (set_ev_sub ev x (Some s) w) = Some s').
    rewrite ev_sub_set. apply lookup_insert_Some in H as [[<- <-]|[Hne H]].
    + by rewrite decide_True.
    + pose proof (I s' sub' H) as H'. rewrite decide_False; [done|].
      intros [E1 E2]. unfold ev_sub in H', Hx. rewrite E1, E2 in H'. congruence.
  - intros s' sub'. simpl. rewrite lookup_insert_Some. intros [[<- <-]|[_ H]]; [done|by eapply R].
  - simpl. rewrite map_size_insert_None by done. rewrite C. lia.
Qed.

Lemma subs_wf_del s sub w :
  subs_wf w → w_subs w !! s = Some sub →
  subs_wf (stat_inc subs_removed (stat_dec subs_total
    (set_w_subs (delete s) (set_ev_sub (sub_ev sub) (sub_ev_extra sub) None w)))).
Proof.
  intros [T I R C] Hs. split.
  - intros s' ev' x' H.
    change (ev_sub ev' x' (set_ev_sub (sub_ev sub) (sub_ev_extra sub) None w) = Some s') in H.
    rewrite ev_sub_set in H. destruct (decide _) as [|Hne]; [done|]. simpl.
    destruct (T s' ev' x' H) as (sub' & Hs' & E1 & E2).
    rewrite lookup_delete_ne; [by eauto|]. intros <-. apply Hne. split; congruence.
  - intros s' sub'. simpl. rewrite lookup_delete_Some. intros [Hne H].
    change (ev_sub (sub_ev sub') (sub_ev_extra sub')
      (set_ev_sub (sub_ev sub) (sub_ev_extra sub) None w) = Some s').
    rewrite ev_sub_set. pose proof (I s' sub' H) as H'. rewrite decide_False; [done|].
    intros [E1 E2]. pose proof (I s sub Hs) as H2. unfold ev_sub in H', H2.
    rewrite E1, E2 in H'. congruence.
  - intros s' sub'. simpl. rewrite lookup_delete_Some. intros [_ H]. by eapply R.
  - simpl. rewrite map_size_delete_Some by (by eexists). rewrite C.
    assert (size (w_subs w) ≠ 0%nat) by (eapply map_size_ne_0_lookup_2; by eexists). lia.
Qed.

(** The subscription a key names, found or created with a reference more. *)
Definition got (ev : event) (x : bytes) (s : positive) (w : world) : subscription :=
  match w_subs w !! s with
  | Some sub => set_refs (λ n, n + 1) sub
  | None => mkSub ev x qev_list_new 1
  end.

Lemma get_if_exists_spec ev x w :
  subs_wf w → (∀ s, sub_refs s w < 2 ^ 32 - 1) →
  match ev_sub ev x w with
  | None => _get_if_exists ev x w = (None, w)
  | Some s => ∃ sub, w_subs w !! s = Some sub ∧ 0 < refs sub < 2 ^ 32 - 1 ∧
      _get_if_exists ev x w = (Some s, set_w_subs <[s := set_refs (λ n, n + 1) sub]> w)
  end.
Proof.
  intros Hwf Hsmall. unfold _get_if_exists. destruct (ev_sub ev x w) as [s|] eqn:E; [|done].
  destruct (subs_tbl w Hwf s ev x E) as (sub & Hs & _). exists sub. rewrite Hs.
  pose proof (subs_refs w Hwf s sub Hs) as Hr. specialize (Hsmall s).
  unfold sub_refs in Hsmall. rewrite Hs in Hsmall. split; [done|]. split; [lia|].
  rewrite (proj2 (Z.eqb_neq _ _)), (upd_sub_lookup _ _ _ sub) by (done || lia).
  do 3 f_equal. unfold set_refs. f_equal. apply Z.mod_small. lia.
Qed.

Lemma sub_get_spec ev ox create w :
  subs_wf w → (∀ s, sub_refs s w < 2 ^ 32 - 1) →
  let x := default [] ox in
  match ev_sub ev x w with
  | Some s => ∃ sub, w_subs w !! s = Some sub ∧ 0 < refs sub < 2 ^ 32 - 1 ∧
      sub_get ev ox create w = (Some s, set_w_subs <[s := set_refs (λ n, n + 1) sub]> w)
  | None =>
      sub_get ev ox create w =
        if create then
          let s := fresh (dom (w_subs w)) in
          (Some s, stat_inc subs_added (stat_inc subs_total
             (set_ev_sub ev x (Some s) (set_w_subs <[s := mkSub ev x qev_list_new 1]> w))))
        else (None, w)
  end.
Proof.
  intros Hwf Hsmall x. pose proof (get_if_exists_spec ev x w Hwf Hsmall) as H.
  unfold sub_get. fold x. destruct (ev_sub ev x w) as [s|].
  - destruct H as (sub & H1 & H2 & H3). exists sub. by rewrite H3.
  - rewrite H. destruct create; [|done]. by rewrite H.
Qed.

Lemma fresh_sub w : w_subs w !! fresh (dom (w_subs w)) = None.
Proof. apply not_elem_of_dom, is_fresh. Qed.

Lemma sub_get_wf ev ox create w :
  subs_wf w → (∀ s, sub_refs s w < 2 ^ 32 - 1) → subs_wf (sub_get ev ox create w).2.
Proof.
  intros Hwf Hsmall. pose proof (sub_get_spec ev ox create w Hwf Hsmall) as H. cbv zeta in H.
  destruct (ev_sub ev (default [] ox) w) as [s|] eqn:E.
  - destruct H as (sub & Hs & Hr & ->). cbn [snd].
    replace (set_refs _ sub) with (set_refs (λ _, refs sub + 1) sub) by done.
    apply subs_wf_refs; [done..|lia].
  - rewrite H. destruct create; [|done]. apply subs_wf_new; auto using fresh_sub.
Qed.

(** C36. [sub_get] answers with the subscription its event's table has for the
    key, or creates one when asked to, or answers NULL and changes nothing.
    What it returns is in the table under the key afterwards, has one more
    reference than before and otherwise the same contents (a new one: no
    subscribers and one reference). No other subscription or key changes, and
    the tables stay well-formed. *)
Theorem sub_get_correct ev ox create w :
  subs_wf w → (∀ s, sub_refs s w < 2 ^ 32 - 1) →
  let x := default [] ox in
  let r := sub_get ev ox create w in
  subs_wf r.2 ∧ sub_mask r.2 = sub_mask w ∧
  match r.1 with
  | None => ev_sub ev x w = None ∧ create = false ∧ r.2 = w
  | Some s =>
      (ev_sub ev x w = Some s ∨
       ev_sub ev x w = None ∧ create = true ∧ w_subs w !! s = None) ∧
      w_subs r.2 = <[s := got ev x s w]> (w_subs w) ∧
      ∀ ev' x', ev_sub ev' x' r.2 =
        if decide (ev_path ev' = ev_path ev ∧ x' = x) then Some s else ev_sub ev' x' w
  end.
Proof.
  intros Hwf Hsmall x r. split; [by apply sub_get_wf|].
  pose proof (sub_get_spec ev ox create w Hwf Hsmall) as H.
  fold x r in H. cbv zeta in H. unfold got. destruct (ev_sub ev x w) as [s|] eqn:E.
  - destruct H as (sub & Hs & Hr & ->). cbn [fst snd]. split; [done|]. split; [by left|].
    split; [by rewrite Hs|]. intros ev' x'. change (ev_sub ev' x' (set_w_subs _ w)) with (ev_sub ev' x' w).
    destruct (decide _) as [[E1 ->]|]; [|done]. unfold ev_sub in *. by rewrite E1.
  - subst r. rewrite H. destruct create; cbn [fst snd]; [|by auto].
    pose proof (fresh_sub w) as Hf. set (s := fresh (dom (w_subs w))) in *.
    split; [done|]. split; [by auto|].
    split; [by rewrite Hf|]. intros ev' x'.
    exact (ev_sub_set ev x (Some s) ev' x' w).
Qed.

Lemma subs_wf_ext w w' :
  w_subs w' = w_subs w → w_ev_subs w' = w_ev_subs w →
  w_stats w' subs_total = w_stats w subs_total → subs_wf w → subs_wf w'.
Proof.
  intros E1 E2 E3 [T I R C]. unfold ev_sub in *.
  split; intros *; unfold ev_sub; rewrite ?E1, ?E2, ?E3; eauto.
Qed.

Lemma subs_wf_subscribers s sub f w :
  subs_wf w → w_subs w !! s = Some sub →
  subs_wf (set_w_subs <[s := set_subscribers f sub]> w).
Proof.
  intros [T I R C] Hs. split.
  - intros s' ev x H. destruct (T s' ev x H) as (sub' & Hs' & E). simpl.
    destruct (decide (s' = s)) as [->|Hne].
    + rewrite lookup_insert_eq. eexists; split; [done|]. simpl. congruence.
    + rewrite lookup_insert_ne by done. eauto.
  - intros s' sub'. simpl. rewrite lookup_insert_Some.
    intros [[<- <-]|[_ H]]; [by apply (I s sub)|by apply (I s' sub')].
  - intros s' sub'. simpl. rewrite lookup_insert_Some.
    intros [[<- <-]|[_ H]]; [by apply (R s sub)|by apply (R s' sub')].
  - simpl. by rewrite map_size_insert, Hs, C.
Qed.

Lemma sub_unref_stats s k w :
  k ≠ subs_total → k ≠ subs_removed → w_stats (sub_unref s w) k = w_stats w k.
Proof.
  intros H1 H2. unfold sub_unref, upd_sub. destruct (w_subs w !! s); [|done].
  destruct (negb _); [done|]. simpl. rewrite !decide_False by congruence. by case_decide.
Qed.

Lemma sub_unref_spec s sub w :
  subs_wf w → w_subs w !! s = Some sub →
  let w' := sub_unref s w in
  subs_wf w' ∧ sub_mask w' = sub_mask w ∧
  (1 < refs sub → w' = set_w_subs <[s := set_refs (λ n, n - 1) sub]> w) ∧
  (refs sub = 1 → w_subs w' = delete s (w_subs w) ∧
     ∀ ev x, ev_sub ev x w' =
       if decide (ev_path ev = ev_path (sub_ev sub) ∧ x = sub_ev_extra sub) then None
       else ev_sub ev x w).
Proof.
  intros Hwf Hs w'. pose proof (subs_refs w Hwf s sub Hs) as Hr.
  assert (Hu : u32 (refs sub - 1) = refs sub - 1) by (apply Z.mod_small; lia).
  subst w'. unfold sub_unref. rewrite Hs, (upd_sub_lookup s _ w sub Hs), Hu.
  destruct (Z.eqb_spec (refs sub - 1) 0) as [E|E]; cbn [negb].
  - rewrite decide_True by (exact (subs_in w Hwf s sub Hs)).
    set (w1 := set_w_subs (delete s) _).
    assert (Hw1 : w1 = set_w_subs (delete s) (set_ev_sub (sub_ev sub) (sub_ev_extra sub) None w)).
    { subst w1. unfold set_w_subs, set_ev_sub, set_w_ev_subs. simpl. f_equal.
      apply delete_insert_eq. }
    rewrite Hw1. split; [by apply subs_wf_del|]. split; [done|]. split; [lia|].
    intros _. split; [done|]. intros ev x. apply (ev_sub_set (sub_ev sub)).
  - assert (Es : set_refs (λ n, u32 (n - 1)) sub = set_refs (λ n, n - 1) sub)
      by (unfold set_refs; by rewrite Hu).
    rewrite Es. split; [|split; [done|split; [done|lia]]].
    replace (set_refs _ sub) with (set_refs (λ _, refs sub - 1) sub) by done.
    apply subs_wf_refs; [done..|lia].
Qed.

(** [sub_unref] takes one reference away; dropping the last one removes
    the subscription from memory and its key, and only its key, from its
    event's table. The tables stay well-formed. So getting a subscription and
    dropping the reference again leaves every table as it was. *)
Theorem sub_unref_correct s sub w :
  subs_wf w → w_subs w !! s = Some sub →
  let w' := sub_unref s w in
  subs_wf w' ∧ sub_mask w' = sub_mask w ∧
  (1 < refs sub → w' = set_w_subs <[s := set_refs (λ n, n - 1) sub]> w) ∧
  (refs sub = 1 → w_subs w' = delete s (w_subs w) ∧
     ∀ ev x, ev_sub ev x w' =
       if decide (ev_path ev = ev_path (sub_ev sub) ∧ x = sub_ev_extra sub) then None
       else ev_sub ev x w).
Proof. by apply sub_unref_spec. Qed.

End Sub.

(** ** Witnesses *)

Definition demo_event : event :=
  mkEvent (str "/demo") (Some (app_handler 1)) None None true.

(** No subscription yet, then one with one reference, then none again. *)
Definition demo_subs : world (L := libs0) := world0 (Reference.mkPool 10 0).

Definition demo_subs1 : world (L := libs0) :=
  (sub_get (L := libs0) demo_event (Some (str "/a")) true demo_subs).2.

Lemma demo_subs_wf : subs_wf (L := libs0) demo_subs.
Proof.
  split; [|done|done|done]. intros s ev x. unfold ev_sub. simpl.
  by rewrite lookup_empty.
Qed.

Lemma demo_subs_small : ∀ s, sub_refs (L := libs0) s demo_subs < 2 ^ 32 - 1.
Proof. intros s. unfold sub_refs. simpl. by rewrite lookup_empty. Qed.

Lemma sub_get_correct_witness :
  (sub_get (L := libs0) demo_event (Some (str "/a")) true demo_subs).1 = Some 1%positive ∧
  ev_sub (L := libs0) demo_event (str "/a") demo_subs1 = Some 1%positive ∧
  subs_wf (L := libs0) demo_subs1.
Proof.
  split; [reflexivity|]. split; [vm_compute; reflexivity|].
  exact (proj1 (sub_get_correct (L := libs0) demo_event (Some (str "/a")) true demo_subs
    demo_subs_wf demo_subs_small)).
Defined.

Lemma demo_subs1_wf : subs_wf (L := libs0) demo_subs1.
Proof. apply sub_get_wf; [apply demo_subs_wf|apply demo_subs_small]. Qed.

Lemma sub_unref_correct_witness :
  w_subs (L := libs0) demo_subs1 !! 1%positive =
    Some (mkSub (L := libs0) demo_event (str "/a") [] 1) ∧
  w_subs (L := libs0) (sub_unref (L := libs0) 1%positive demo_subs1) =
    delete 1%positive (w_subs (L := libs0) demo_subs1).
Proof.
  assert (H : w_subs (L := libs0) demo_subs1 !! 1%positive =
    Some (mkSub (L := libs0) demo_event (str "/a") [] 1)) by reflexivity.
  split; [exact H|].
  exact (proj1 (proj2 (proj2 (proj2 (sub_unref_correct (L := libs0) 1%positive
    (mkSub (L := libs0) demo_event (str "/a") [] 1) demo_subs1 demo_subs1_wf H))) eq_refl)).
Defined.
