(* ===== verification/SubRace.v ===== *)
(** The protocol between concurrent [sub_get], [sub_ref] and [sub_unref] calls
    on the subscriptions of one event: src/sub.c and [atomic_inc_not_zero] of
    src/atomic.h, one atomic memory access or lock operation per step.

    Any number of threads run. A thread between calls may start any call whose
    contract it meets: [sub_ref] and [sub_unref] need a reference that somebody
    holds. References may be passed between threads, so they are counted per
    subscription ([tok]) and not per thread. A schedule is a list of thread
    numbers with the call to start if the thread is idle; [step] refuses a
    choice that is not possible (a lock that is taken, a contract not met). *)
From Stdlib Require Import ZArith Lia.
From stdpp Require Import base list gmap strings functions.
From S2P Require Import Prelude.

(** The fields of [struct subscription] that the protocol uses. *)
Record cell := mkCell { c_extra : bytes; c_count : Z }.

(** Where a thread is. [wr] says which of the two critical sections of
    [sub_get] it is in: false under the reader lock, true under the writer's. *)
Inductive pc :=
  | Idle
  | GetLock (wr : bool) (key : bytes) (cr : bool)
  | GetLookup (wr : bool) (key : bytes) (cr : bool)
  | GetVal (wr : bool) (key : bytes) (cr : bool) (s : positive)
  | GetCas (wr : bool) (key : bytes) (cr : bool) (s : positive) (val : Z)
  | GetNew (key : bytes)
  | GetUnlock (wr : bool) (key : bytes) (cr : bool) (res : option positive)
  | DropLock (s : positive)
  | DropRemove (s : positive)
  | DropUnlock (s : positive)
  | DropFree (s : positive).

Inductive action := AGet (key : bytes) (cr : bool) | ARef (s : positive) | AUnref (s : positive).

Record state := mkState {
  (** the allocated subscriptions *)
  heap : gmap positive cell;
  (** [ev->subs]: under each key, the subscription that owns the key's memory
      and the subscription that is the value *)
  tbl : gmap bytes (positive * positive);
  (** [ev->subs_lock] *)
  readers : gset nat;
  writer : option nat;
  (** references held outside the running calls *)
  tok : positive → nat;
  threads : nat → pc;
  (** freed memory was used *)
  broken : bool;
}.

Definition init : state := mkState ∅ ∅ ∅ None (λ _, 0%nat) (λ _, Idle) false.

Definition set_pc (t : nat) (p : pc) (st : state) : state :=
  mkState (heap st) (tbl st) (readers st) (writer st) (tok st) (<[t := p]> (threads st)) (broken st).
Definition set_heap (h : gmap positive cell) (st : state) : state :=
  mkState h (tbl st) (readers st) (writer st) (tok st) (threads st) (broken st).
Definition set_tbl (m : gmap bytes (positive * positive)) (st : state) : state :=
  mkState (heap st) m (readers st) (writer st) (tok st) (threads st) (broken st).
Definition set_lock (r : gset nat) (wr : option nat) (st : state) : state :=
  mkState (heap st) (tbl st) r wr (tok st) (threads st) (broken st).
Definition set_tok (s : positive) (n : nat) (st : state) : state :=
  mkState (heap st) (tbl st) (readers st) (writer st) (<[s := n]> (tok st)) (threads st) (broken st).
Definition break (st : state) : state :=
  mkState (heap st) (tbl st) (readers st) (writer st) (tok st) (threads st) true.

(** An access to the memory of [s]. *)
Definition with_sub (s : positive) (f : cell → state) (st : state) : state :=
  match heap st !! s with Some c => f c | None => break st end.

Definition set_count (s : positive) (c : cell) (n : Z) (st : state) : state :=
  set_heap (<[s := mkCell (c_extra c) (u32 n)]> (heap st)) st.

(** [g_rw_lock_{reader,writer}_{lock,unlock}] *)
Definition lock (t : nat) (wr : bool) (st : state) : option state :=
  match writer st with
  | Some _ => None
  | None =>
      if wr then
        if decide (readers st = ∅) then Some (set_lock (readers st) (Some t) st) else None
      else Some (set_lock ({[t]} ∪ readers st) None st)
  end.
Definition unlock (t : nat) (wr : bool) (st : state) : state :=
  if wr then set_lock (readers st) None st
  else set_lock (readers st ∖ {[t]}) (writer st) st.

(** The result of [_get_if_exists]: on failure the writer goes on to create,
    the reader releases its lock. *)
Definition get_failed (t : nat) (wr : bool) (key : bytes) (cr : bool) (st : state) : state :=
  set_pc t (if wr then GetNew key else GetUnlock wr key cr None) st.

(** [g_hash_table_lookup]: comparing keys reads the memory of the entry's key. *)
Definition lookup_key (key : bytes) (f : option positive → state) (st : state) : state :=
  match tbl st !! key with
  | None => f None
  | Some (owner, s) => with_sub owner (λ _, f (Some s)) st
  end.

Definition start (t : nat) (a : action) (st : state) : option state :=
  match a with
  | AGet key cr => Some (set_pc t (GetLock false key cr) st)
  | ARef s =>
      if (tok st s =? 0)%nat then None
      else Some (with_sub s (λ c,
        set_tok s (S (tok st s)) (set_count s c (c_count c + 1) st)) st)
  | AUnref s =>
      if (tok st s =? 0)%nat then None
      else Some (with_sub s (λ c,
        let st := set_tok s (pred (tok st s)) (set_count s c (c_count c - 1) st) in
        if u32 (c_count c - 1) =? 0 then set_pc t (DropLock s) st else st) st)
  end.

Definition step (st : state) (ta : nat * action) : option state :=
  let '(t, a) := ta in
  match threads st t with
  | Idle => start t a st
  | GetLock wr key cr =>
      st ← lock t wr st; Some (set_pc t (GetLookup wr key cr) st)
  | GetLookup wr key cr =>
      Some (lookup_key key (λ o,
        match o with
        | None => get_failed t wr key cr st
        | Some s => set_pc t (GetVal wr key cr s) st
        end) st)
  | GetVal wr key cr s =>
      Some (with_sub s (λ c, set_pc t (GetCas wr key cr s (c_count c)) st) st)
  | GetCas wr key cr s val =>
      if val =? 0 then Some (get_failed t wr key cr st)
      else Some (with_sub s (λ c,
        if c_count c =? val then
          set_pc t (GetUnlock wr key cr (Some s))
            (set_tok s (S (tok st s)) (set_count s c (val + 1) st))
        else set_pc t (GetCas wr key cr s (c_count c)) st) st)
  | GetNew key =>
      let s := fresh (dom (heap st)) in
      let st := set_heap (<[s := mkCell key 1]> (heap st)) st in
      Some (lookup_key key (λ _,
        set_pc t (GetUnlock true key true (Some s))
          (set_tok s (S (tok st s)) (set_tbl (<[key := (s, s)]> (tbl st)) st))) st)
  | GetUnlock wr key cr res =>
      let st := unlock t wr st in
      Some (set_pc t (match res with
                      | None => if cr then GetLock true key cr else Idle
                      | Some _ => Idle
                      end) st)
  | DropLock s => st ← lock t true st; Some (set_pc t (DropRemove s) st)
  | DropRemove s =>
      Some (with_sub s (λ c,
        lookup_key (c_extra c) (λ o,
          set_pc t (DropUnlock s)
            (if decide (o = Some s) then set_tbl (delete (c_extra c) (tbl st)) st else st)) st) st)
  | DropUnlock s => Some (set_pc t (DropFree s) (unlock t true st))
  | DropFree s => Some (with_sub s (λ _, set_pc t Idle (set_heap (delete s (heap st)) st)) st)
  end.

(** ** The invariant *)

(** The lock a thread holds, and the subscription it is about to free. *)
Definition pc_mode (p : pc) : option bool :=
  match p with
  | GetLookup wr _ _ | GetVal wr _ _ _ | GetCas wr _ _ _ _ | GetUnlock wr _ _ _ => Some wr
  | GetNew _ | DropRemove _ | DropUnlock _ => Some true
  | Idle | GetLock _ _ _ | DropLock _ | DropFree _ => None
  end.

Definition dying (p : pc) : option positive :=
  match p with
  | DropLock s | DropRemove s | DropUnlock s | DropFree s => Some s
  | _ => None
  end.

(** What a thread relies on at each point. *)
Definition pc_ok (st : state) (p : pc) : Prop :=
  match p with
  | GetVal _ key _ s => tbl st !! key = Some (s, s)
  | GetCas _ key _ s val => tbl st !! key = Some (s, s) ∧ (val = 0 → tok st s = 0%nat)
  | GetNew key => ∀ o s, tbl st !! key = Some (o, s) → tok st s = 0%nat
  | DropLock s | DropRemove s => is_Some (heap st !! s) ∧ tok st s = 0%nat
  | DropUnlock s | DropFree s =>
      (is_Some (heap st !! s) ∧ tok st s = 0%nat) ∧ ∀ key o, tbl st !! key ≠ Some (o, s)
  | _ => True
  end.

Record inv (st : state) : Prop := {
  i_ok : broken st = false;
  i_writer t : writer st = Some t ↔ pc_mode (threads st t) = Some true;
  i_readers t : t ∈ readers st ↔ pc_mode (threads st t) = Some false;
  i_excl t : writer st = Some t → readers st = ∅;
  i_count s c : heap st !! s = Some c → c_count c = Z.of_nat (tok st s);
  i_tok s : heap st !! s = None → tok st s = 0%nat;
  i_tbl key o s : tbl st !! key = Some (o, s) →
    o = s ∧ ∃ c, heap st !! s = Some c ∧ c_extra c = key;
  i_live s c : heap st !! s = Some c → tok st s ≠ 0%nat → tbl st !! c_extra c = Some (s, s);
  i_pc t : pc_ok st (threads st t);
  i_one t t' s : dying (threads st t) = Some s → dying (threads st t') = Some s → t = t';
  i_dead s : is_Some (heap st !! s) → tok st s = 0%nat → ∃ t, dying (threads st t) = Some s;
}.

(** What a thread relies on survives the steps of others that keep the table,
    the allocated subscriptions and the counts that are 0. *)
Lemma pc_ok_stable st st' p :
  tbl st' = tbl st → (∀ s, tok st s = 0%nat → tok st' s = 0%nat) →
  (∀ s, is_Some (heap st !! s) → is_Some (heap st' !! s)) →
  pc_ok st p → pc_ok st' p.
Proof. intros Ht Hk Hh. destruct p; simpl; rewrite ?Ht; naive_solver. Qed.

(** Fewer references than the 32-bit counter can hold. *)
Definition small (st : state) : Prop := ∀ s, Z.of_nat (tok st s) < 2 ^ 32 - 1.

Lemma pc_set t p st t' :
  threads (set_pc t p st) t' = if decide (t' = t) then p else threads st t'.
Proof.
  simpl. destruct (decide (t' = t)) as [->|]; [apply fn_lookup_insert|].
  by apply fn_lookup_insert_ne.
Qed.

Lemma tok_set s n st s' :
  tok (set_tok s n st) s' = if decide (s' = s) then n else tok st s'.
Proof.
  simpl. destruct (decide (s' = s)) as [->|]; [apply fn_lookup_insert|].
  by apply fn_lookup_insert_ne.
Qed.

Lemma init_inv : inv init.
Proof.
  split; simpl; try done; try (intros *; rewrite lookup_empty; done).
  intros s [c H]. by rewrite lookup_empty in H.
Qed.

(** The writer is the only thread in a critical section. *)
Lemma writer_alone st t t' wr :
  inv st → writer st = Some t → pc_mode (threads st t') = Some wr → t' = t.
Proof.
  intros I Hw Hm. destruct wr.
  - apply (i_writer st I) in Hm. congruence.
  - apply (i_readers st I) in Hm. rewrite (i_excl st I t Hw) in Hm. set_solver.
Qed.

Lemma tok_alloc st s : inv st → tok st s ≠ 0%nat → ∃ c, heap st !! s = Some c.
Proof.
  intros I H. destruct (heap st !! s) as [c|] eqn:E; [by eexists|].
  by rewrite (i_tok st I s E) in H.
Qed.

(** *** A thread moves on without touching anything else *)

Lemma inv_pc t p st :
  inv st → pc_mode p = pc_mode (threads st t) → dying p = dying (threads st t) →
  pc_ok st p → inv (set_pc t p st).
Proof.
  intros I Hm Hd Hp.
  assert (Em : ∀ t', pc_mode (threads (set_pc t p st) t') = pc_mode (threads st t'))
    by (intros t'; rewrite pc_set; by destruct (decide _) as [->|]).
  assert (Ed : ∀ t', dying (threads (set_pc t p st) t') = dying (threads st t'))
    by (intros t'; rewrite pc_set; by destruct (decide _) as [->|]).
  destruct I as [? W R ? ? ? ? ? P O D].
  split; try assumption; intros *; rewrite ?Em, ?Ed; auto.
  - rewrite pc_set. destruct (decide _) as [->|]; [done|apply P].
  - intros H1 H2. by apply (O _ _ s).
  - intros H1 H2. destruct (D s H1 H2) as [t' Ht']. exists t'. by rewrite Ed.
Qed.

(** *** Locks *)

Lemma inv_lock t wr p st st' :
  inv st → lock t wr st = Some st' → pc_mode (threads st t) = None →
  pc_mode p = Some wr → dying p = dying (threads st t) → pc_ok st p →
  inv (set_pc t p st').
Proof.
  intros I Hl Hm Hp Hd Hok.
  assert (Ht : heap st' = heap st ∧ tbl st' = tbl st ∧ tok st' = tok st ∧
    threads st' = threads st ∧ broken st' = broken st).
  { unfold lock in Hl. destruct (writer st), wr; try done; [destruct (decide _); [|done]|];
      injection Hl as <-; done. }
  destruct Ht as (E1 & E2 & E3 & E4 & E5).
  assert (Ed : ∀ t', dying (threads (set_pc t p st') t') = dying (threads st t'))
    by (intros t'; rewrite pc_set, E4; by destruct (decide _) as [->|]).
  assert (Hr : t ∉ readers st) by (rewrite (i_readers st I), Hm; done).
  assert (Hw : writer st = None ∧ (if wr then readers st = ∅ ∧ writer st' = Some t ∧
     readers st' = readers st else writer st' = None ∧ readers st' = {[t]} ∪ readers st)).
  { unfold lock in Hl. destruct (writer st), wr; try done; [destruct (decide _); [|done]|];
      injection Hl as <-; done. }
  destruct I as [? W R X C T B V P O D].
  split; intros *; rewrite ?Ed; rewrite ?pc_set; cbn [heap tbl readers writer tok broken set_pc];
    rewrite ?E1, ?E2, ?E3, ?E4, ?E5; auto.
  - destruct Hw as [Hw0 Hw]. specialize (W t0). rewrite Hw0 in W. destruct wr.
    + destruct Hw as (_ & -> & _). destruct (decide (t0 = t)) as [->|]; [by split|].
      split; [congruence|]. intros H. by apply W in H.
    + destruct Hw as [-> _]. destruct (decide (t0 = t)) as [->|]; [rewrite Hp; by split|done].
  - destruct Hw as [_ Hw]. specialize (R t0). destruct wr.
    + destruct Hw as (Hr0 & _ & ->). destruct (decide (t0 = t)) as [->|]; [|done].
      rewrite Hp, Hr0. split; [set_solver|done].
    + destruct Hw as [_ ->]. destruct (decide (t0 = t)) as [->|]; [rewrite Hp; set_solver|].
      set_solver.
  - destruct Hw as [_ Hw]. destruct wr; [by destruct Hw as (-> & _ & ->)|].
    destruct Hw as [-> _]. done.
  - assert (Hk : ∀ q, pc_ok st q → pc_ok (set_pc t p st') q).
    { intros q. destruct q; simpl; rewrite ?E1, ?E2, ?E3; auto. }
    destruct (decide _); auto.
  - intros H1 H2. by apply (O _ _ s).
  - intros H1 H2. destruct (D s H1 H2) as [t' Ht']. exists t'. by rewrite Ed.
Qed.

Lemma inv_unlock t wr p st :
  inv st → pc_mode (threads st t) = Some wr → pc_mode p = None →
  dying p = dying (threads st t) → pc_ok st p →
  inv (set_pc t p (unlock t wr st)).
Proof.
  intros I Hm Hp Hd Hok.
  assert (Ed : ∀ t', dying (threads (set_pc t p (unlock t wr st)) t') = dying (threads st t')).
  { intros t'. rewrite pc_set. destruct (decide _) as [->|]; [done|by destruct wr]. }
  assert (Hother : wr = true → ∀ t' b, t' ≠ t → pc_mode (threads st t') = Some b → False).
  { intros -> t' b Hne Hb. apply Hne. eapply writer_alone; eauto. by apply (i_writer st I). }
  destruct I as [? W R X C T B V P O D].
  split; intros *; rewrite ?Ed; rewrite ?pc_set; cbn [heap tbl tok broken set_pc];
    try (destruct wr; simpl; eauto; fail).
  - destruct (decide (t0 = t)) as [->|Hne].
    + rewrite Hp. split; [|done]. destruct wr; simpl; [done|]. rewrite W, Hm. done.
    + destruct wr; simpl; [|apply W]. split; [done|]. intros H. by destruct (Hother eq_refl t0 true).
  - destruct (decide (t0 = t)) as [->|Hne].
    + rewrite Hp. split; [|done]. destruct wr; simpl; [rewrite R, Hm; done|set_solver].
    + destruct wr; simpl; [apply R|]. rewrite elem_of_difference, not_elem_of_singleton, R. tauto.
  - destruct wr; simpl; [done|]. intros H. rewrite (X _ H); set_solver.
  - assert (Hk : ∀ q, pc_ok st q → pc_ok (set_pc t p (unlock t wr st)) q)
      by (intros q; destruct q, wr; simpl; auto).
    destruct (decide (t0 = t)); destruct wr; simpl; auto.
  - intros H1 H2. destruct (D s) as [t' Ht']; [by destruct wr..|]. exists t'. by rewrite Ed.
Qed.

(** *** References *)

(** Changing the count of a subscription between two positive values. *)
Lemma inv_count s c n st :
  inv st → heap st !! s = Some c → tok st s ≠ 0%nat → n ≠ 0%nat → Z.of_nat n < 2 ^ 32 →
  inv (set_tok s n (set_count s c (Z.of_nat n) st)).
Proof.
  intros [? W R X C T B V P O D] Hs Ht Hn Hb.
  assert (Hu : u32 (Z.of_nat n) = Z.of_nat n) by (apply Z.mod_small; lia).
  split; try assumption; intros *; rewrite ?tok_set; cbn [heap tbl set_tok set_count set_heap];
    rewrite ?lookup_insert.
  - repeat case_decide; subst; try done; [|by apply C]. intros [= <-]. done.
  - repeat case_decide; subst; try done. apply T.
  - intros H. destruct (B key o s0 H) as (-> & c' & Hc' & <-). split; [done|].
    case_decide; [subst|by eauto]. eexists; split; [done|]. simpl. congruence.
  - repeat case_decide; subst; try done; [|by apply V]. intros [= <-] _. simpl. by apply V.
  - apply (pc_ok_stable st); [done| | |apply P].
    + intros s'. rewrite tok_set. case_decide; [by subst|done].
    + intros s'. cbn [heap set_tok set_count set_heap]. rewrite lookup_insert.
      case_decide; [by eexists|done].
  - cbn [threads set_tok set_count set_heap]. intros H1 H2.
    destruct (decide (s0 = s)) as [->|]; [done|]. apply D; [|done].
    by rewrite decide_False in H1 by done.
Qed.

(** Taking the last reference away starts the removal. *)
Lemma inv_last t s c st :
  inv st → heap st !! s = Some c → tok st s = 1%nat → threads st t = Idle →
  inv (set_pc t (DropLock s) (set_tok s 0 (set_count s c 0 st))).
Proof.
  intros I Hs Ht Hidle.
  assert (Hnd : ∀ t', dying (threads st t') ≠ Some s).
  { intros t' Hd. pose proof (i_pc st I t') as P.
    destruct (threads st t'); try done; injection Hd as ->; simpl in P; naive_solver lia. }
  destruct I as [? W R X C T B V P O D].
  split; try assumption; intros *; rewrite ?pc_set; cbn [tok set_pc]; rewrite ?tok_set;
    cbn [heap tbl writer readers set_pc set_tok set_count set_heap]; rewrite ?lookup_insert;
    change (threads (set_tok s 0 (set_count s c 0 st))) with (threads st).
  - specialize (W t0). case_decide; subst; [|done]. rewrite W, Hidle. done.
  - specialize (R t0). case_decide; subst; [|done]. rewrite R, Hidle. done.
  - repeat case_decide; subst; try done; [|by apply C]. intros [= <-]. done.
  - repeat case_decide; subst; try done. apply T.
  - intros H. destruct (B key o s0 H) as (-> & c' & Hc' & <-). split; [done|].
    case_decide; [subst|by eauto]. eexists; split; [done|]. simpl. congruence.
  - repeat case_decide; subst; try done. apply V.
  - specialize (P t0). case_decide; subst.
    + split; [|cbn [tok set_pc]; by rewrite tok_set, decide_True].
      simpl. rewrite lookup_insert_eq. by eexists.
    + apply (pc_ok_stable st); [done| | |apply P].
      * intros s'. cbn [tok set_pc]. rewrite tok_set. by case_decide.
      * intros s'. cbn [heap set_pc set_tok set_count set_heap]. rewrite lookup_insert.
        case_decide; [by eexists|done].
  - intros H1 H2. destruct (decide (t0 = t)) as [->|], (decide (t' = t)) as [->|];
      simpl in H1, H2; simplify_eq; try done;
      [by destruct (Hnd t')|by destruct (Hnd t0)|by apply (O _ _ s0)].
  - intros H1 H2. destruct (decide (s0 = s)) as [->|Hne].
    + exists t. rewrite pc_set. by rewrite decide_True.
    + rewrite decide_False in H1 by done. destruct (D s0 H1 H2) as [t' Ht'].
      exists t'. rewrite pc_set. case_decide; [subst|done]. by rewrite Hidle in Ht'.
Qed.

(** *** Creating, unlinking and freeing *)

(** What holds for every other thread while [t] is the writer. *)
Lemma others_stable st st' t t' :
  inv st → writer st = Some t → t' ≠ t →
  (∀ s, is_Some (heap st !! s) → is_Some (heap st' !! s) ∧ (tok st s = 0%nat → tok st' s = 0%nat)) →
  (∀ key o s, tbl st' !! key = Some (o, s) → tbl st !! key = Some (o, s) ∨ heap st !! s = None) →
  pc_ok st' (threads st t').
Proof.
  intros I Hw Hne Hh Ht. pose proof (i_pc st I t') as P.
  assert (Hm : ∀ b, pc_mode (threads st t') ≠ Some b)
    by (intros b Hb; apply Hne; eapply writer_alone; eauto).
  destruct (threads st t') eqn:E; simpl in *; try done; try (by edestruct Hm).
  - destruct P as [P1 P2]. destruct (Hh s P1) as [H1 H2]. auto.
  - destruct P as [[P1 P2] P3]. destruct (Hh s P1) as [H1 H2]. split; [by auto|].
    intros key o H. destruct (Ht key o s H) as [H'|H']; [by apply (P3 key o)|].
    rewrite H' in P1. by destruct P1.
Qed.

Lemma inv_new t key st :
  inv st → threads st t = GetNew key →
  let s := fresh (dom (heap st)) in
  inv (set_pc t (GetUnlock true key true (Some s))
        (set_tok s (S (tok st s)) (set_tbl (<[key := (s, s)]> (tbl st))
          (set_heap (<[s := mkCell key 1]> (heap st)) st)))).
Proof.
  intros I Ht s.
  assert (Hs : heap st !! s = None) by apply not_elem_of_dom, is_fresh.
  clearbody s. rewrite (i_tok st I s Hs).
  assert (Hw : writer st = Some t) by (apply (i_writer st I); by rewrite Ht).
  pose proof (i_pc st I t) as Pt. rewrite Ht in Pt. simpl in Pt.
  pose proof (others_stable st) as Hoth.
  pose proof I as [? W R X C T B V P O D].
  split; try assumption; intros *; rewrite ?pc_set; cbn [tok set_pc]; rewrite ?tok_set;
    cbn [heap tbl writer readers tok set_pc set_tok set_tbl set_heap]; rewrite ?lookup_insert;
    change (threads (set_tok s 1 (set_tbl (<[key:=(s, s)]> (tbl st))
      (set_heap (<[s:=mkCell key 1]> (heap st)) st)))) with (threads st).
  - case_decide; subst; [|apply W]. rewrite W, Ht. done.
  - case_decide; subst; [|apply R]. rewrite R, Ht. done.
  - repeat case_decide; subst; try done; [by intros [= <-]|by apply C].
  - repeat case_decide; subst; try done. apply T.
  - case_decide as Hk; [subst|].
    + intros [= <- <-]. split; [done|]. rewrite decide_True by done. by eexists.
    + intros H. destruct (B _ _ _ H) as (-> & c & Hc & <-). split; [done|].
      case_decide; [congruence|by eauto].
  - destruct (decide (s = s0)) as [<-|Hne].
    + intros [= <-] _. simpl. by rewrite decide_True.
    + rewrite (decide_False (P := s0 = s)) by done. intros Hc Hn.
      pose proof (V _ _ Hc Hn) as Hk. case_decide; [subst|done]. by apply Pt in Hk.
  - case_decide; [done|]. eapply Hoth; eauto.
    + intros s' Hs'. cbn [heap tok set_pc]. rewrite tok_set.
      cbn [heap tok set_tok set_tbl set_heap]. rewrite lookup_insert.
      destruct (decide (s' = s)) as [->|]; [rewrite Hs in Hs'; by destruct Hs'|].
      by rewrite decide_False by done.
    + intros k o s'. cbn [tbl set_pc set_tok set_tbl]. rewrite lookup_insert.
      case_decide; [intros [= <- <-]; by right|by left].
  - intros H1 H2. destruct (decide (t0 = t)), (decide (t' = t)); try done. by apply (O _ _ s0).
  - intros H1 H2. case_decide; [done|]. rewrite decide_False in H1 by done.
    destruct (D s0 H1 H2) as [t' Ht']. exists t'. rewrite pc_set.
    case_decide; [subst|done]. by rewrite Ht in Ht'.
Qed.

Lemma inv_remove t s c st :
  inv st → threads st t = DropRemove s → heap st !! s = Some c →
  inv (set_pc t (DropUnlock s)
    (if decide (snd <$> tbl st !! c_extra c = Some s)
     then set_tbl (delete (c_extra c) (tbl st)) st else st)).
Proof.
  intros I Ht Hs. set (st' := if decide _ then _ else _).
  assert (Hw : writer st = Some t) by (apply (i_writer st I); by rewrite Ht).
  pose proof (i_pc st I t) as Pt. rewrite Ht in Pt. simpl in Pt. destruct Pt as [_ Pt].
  assert (Hsub : ∀ k o x, tbl st' !! k = Some (o, x) → tbl st !! k = Some (o, x)).
  { intros k o x. subst st'. case_decide; [|done]. simpl. rewrite lookup_delete_Some. tauto. }
  assert (Hnot : ∀ k o, tbl st' !! k ≠ Some (o, s)).
  { intros k o H. pose proof (Hsub k o s H) as H'.
    destruct (i_tbl st I k o s H') as (-> & c' & Hc' & <-). rewrite Hs in Hc'. injection Hc' as <-.
    subst st'. rewrite H' in H. simpl in H. rewrite decide_True in H by done. simpl in H.
    by rewrite lookup_delete_eq in H. }
  assert (Hkeep : ∀ k x, tbl st !! k = Some (x, x) → tok st x ≠ 0%nat → tbl st' !! k = Some (x, x)).
  { intros k x H Hx. subst st'. case_decide as Hd; [|done]. simpl.
    rewrite lookup_delete_ne; [done|]. intros <-. rewrite H in Hd. simpl in Hd. congruence. }
  assert (E : heap st' = heap st ∧ tok st' = tok st ∧ threads st' = threads st ∧
    readers st' = readers st ∧ writer st' = writer st ∧ broken st' = broken st)
    by (subst st'; by case_decide).
  clearbody st'. destruct E as (E1 & E2 & E3 & E4 & E5 & E6).
  pose proof (others_stable st) as Hoth.
  pose proof I as [? W R X C T B V P O D].
  assert (Ed : ∀ t', dying (threads (set_pc t (DropUnlock s) st') t') = dying (threads st t')).
  { intros t'. rewrite pc_set, E3. case_decide; [subst; by rewrite Ht|done]. }
  split; intros *; rewrite ?Ed; rewrite ?pc_set;
    cbn [heap tbl writer readers tok broken set_pc]; rewrite ?E1, ?E2, ?E3, ?E4, ?E5, ?E6; auto.
  - case_decide; subst; [|apply W]. rewrite W, Ht. done.
  - case_decide; subst; [|apply R]. rewrite R, Ht. done.
  - apply X.
  - case_decide; subst.
    + split; [|done]. cbn [heap tok set_pc]. rewrite E1, E2, Hs. by split; [eexists|].
    + eapply Hoth; eauto; cbn [heap tok tbl set_pc]; rewrite ?E1, ?E2; eauto.
  - intros H1 H2. by apply (O _ _ s0).
  - intros H1 H2. destruct (D s0 H1 H2) as [t' Ht']. exists t'. by rewrite Ed.
Qed.

Lemma inv_free t s st :
  inv st → threads st t = DropFree s →
  inv (set_pc t Idle (set_heap (delete s (heap st)) st)).
Proof.
  intros I Ht. pose proof (i_pc st I t) as Pt. rewrite Ht in Pt. destruct Pt as [[Ps Pk] Pt].
  assert (Hnd : ∀ t', t' ≠ t → dying (threads st t') ≠ Some s).
  { intros t' Hne Hd. apply Hne, (i_one st I _ _ s); [done|]. by rewrite Ht. }
  destruct I as [? W R X C T B V P O D].
  split; try assumption; intros *; rewrite ?pc_set;
    cbn [heap tbl writer readers tok set_pc set_heap]; rewrite ?lookup_delete;
    change (threads (set_heap (delete s (heap st)) st)) with (threads st).
  - specialize (W t0). case_decide; subst; [|done]. rewrite W, Ht. done.
  - specialize (R t0). case_decide; subst; [|done]. rewrite R, Ht. done.
  - case_decide; [done|]. apply C.
  - case_decide; [by subst|]. apply T.
  - intros H. destruct (B _ _ _ H) as (-> & c & Hc & <-). split; [done|].
    case_decide; [subst; by apply Pt in H|by eauto].
  - case_decide; [done|]. apply V.
  - specialize (P t0). case_decide; [done|]. specialize (Hnd t0 ltac:(done)).
    destruct (threads st t0); simpl in *; auto; rewrite ?lookup_delete_ne by congruence; auto.
  - intros H1 H2. destruct (decide (t0 = t)), (decide (t' = t)); try done. by apply (O _ _ s0).
  - intros H1 H2. case_decide; [by destruct H1|].
    destruct (D s0 H1 H2) as [t' Ht']. exists t'. rewrite pc_set.
    case_decide; [subst|done]. rewrite Ht in Ht'. simpl in Ht'. congruence.
Qed.

(** ** Every step preserves the invariant *)

Lemma with_sub_Some s f c st : heap st !! s = Some c → with_sub s f st = f c.
Proof. intros H. unfold with_sub. by rewrite H. Qed.

Lemma lookup_key_eq key f st :
  (∀ o s, tbl st !! key = Some (o, s) → is_Some (heap st !! o)) →
  lookup_key key f st = f (snd <$> tbl st !! key).
Proof.
  intros H. unfold lookup_key. destruct (tbl st !! key) as [[o s]|]; [|done].
  destruct (H o s eq_refl) as [c Hc]. by rewrite (with_sub_Some _ _ c).
Qed.

Lemma inv_lookup_key key f st : inv st → lookup_key key f st = f (snd <$> tbl st !! key).
Proof.
  intros I. apply lookup_key_eq. intros o s H.
  destruct (i_tbl st I _ _ _ H) as (-> & c & Hc & _). by eexists.
Qed.

Lemma inv_failed t wr key cr st :
  inv st → pc_mode (threads st t) = Some wr → dying (threads st t) = None →
  (∀ o s, tbl st !! key = Some (o, s) → tok st s = 0%nat) →
  inv (get_failed t wr key cr st).
Proof. intros I Hm Hd H. apply inv_pc; by destruct wr. Qed.

Lemma inv_incr s c st :
  inv st → heap st !! s = Some c → tok st s ≠ 0%nat → small st →
  inv (set_tok s (S (tok st s)) (set_count s c (c_count c + 1) st)).
Proof.
  intros I Hs Ht Hsm. rewrite (i_count st I s c Hs).
  replace (Z.of_nat (tok st s) + 1) with (Z.of_nat (S (tok st s))) by lia.
  specialize (Hsm s). apply inv_count; [done..|lia].
Qed.

Lemma start_inv t a st st' :
  inv st → small st → threads st t = Idle → start t a st = Some st' → inv st'.
Proof.
  intros I Hsm Ht. destruct a as [key cr|s|s]; simpl.
  - intros [= <-]. by apply inv_pc; rewrite ?Ht.
  - destruct (Nat.eqb_spec (tok st s) 0) as [|Hn]; [done|]. intros [= <-].
    destruct (tok_alloc st s I Hn) as [c Hc]. rewrite (with_sub_Some _ _ c) by done.
    by apply inv_incr.
  - destruct (Nat.eqb_spec (tok st s) 0) as [|Hn]; [done|]. intros [= <-].
    destruct (tok_alloc st s I Hn) as [c Hc]. rewrite (with_sub_Some _ _ c) by done.
    rewrite (i_count st I s c Hc). specialize (Hsm s).
    assert (Hu : u32 (Z.of_nat (tok st s) - 1) = Z.of_nat (pred (tok st s)))
      by (unfold u32; rewrite Z.mod_small by lia; lia).
    rewrite Hu. destruct (Z.eqb_spec (Z.of_nat (pred (tok st s))) 0) as [E|E].
    + assert (Hone : tok st s = 1%nat) by lia. rewrite Hone. by apply (inv_last t s c st).
    + replace (Z.of_nat (tok st s) - 1) with (Z.of_nat (pred (tok st s))) by lia.
      apply inv_count; [done..|lia|lia].
Qed.

Lemma get_inv t st st' a :
  inv st → small st → step st (t, a) = Some st' →
  match threads st t with
  | GetLock _ _ _ | GetLookup _ _ _ | GetVal _ _ _ _ | GetCas _ _ _ _ _
  | GetNew _ | GetUnlock _ _ _ _ => True
  | _ => False
  end → inv st'.
Proof.
  intros I Hsm Hst Hpc. pose proof (i_pc st I t) as P. unfold step in Hst.
  destruct (threads st t) as [|wr key cr|wr key cr|wr key cr s|wr key cr s val|key|wr key cr res|s|s|s|s]
    eqn:Ht; try done.
  - destruct (lock t wr st) as [st1|] eqn:Hl; [|done]. injection Hst as <-.
    eapply inv_lock; eauto; by rewrite ?Ht.
  - injection Hst as <-. rewrite inv_lookup_key by done.
    destruct (tbl st !! key) as [[o s]|] eqn:Hk; simpl.
    + apply inv_pc; rewrite ?Ht; try done. simpl. by destruct (i_tbl st I _ _ _ Hk) as [-> _].
    + apply inv_failed; rewrite ?Ht; try done. intros o s Hs. congruence.
  - injection Hst as <-. simpl in P. destruct (i_tbl st I _ _ _ P) as (_ & c & Hc & _).
    rewrite (with_sub_Some _ _ c) by done. apply inv_pc; rewrite ?Ht; try done.
    split; [done|]. rewrite (i_count st I s c Hc). lia.
  - destruct P as [P Pz]. destruct (Z.eqb_spec val 0) as [->|Hv].
    { injection Hst as <-. apply inv_failed; rewrite ?Ht; try done.
      intros o s' Hs'. rewrite P in Hs'. injection Hs' as <- <-. by apply Pz. }
    injection Hst as <-. destruct (i_tbl st I _ _ _ P) as (_ & c & Hc & _).
    rewrite (with_sub_Some _ _ c) by done. destruct (Z.eqb_spec (c_count c) val) as [<-|].
    + apply inv_pc; [|by simpl; rewrite Ht..|done]. apply inv_incr; try done.
      rewrite (i_count st I s c Hc) in Hv. lia.
    + apply inv_pc; rewrite ?Ht; try done. split; [done|].
      rewrite (i_count st I s c Hc). lia.
  - injection Hst as <-. rewrite lookup_key_eq.
    + by apply inv_new.
    + intros o s Hs. simpl in Hs. destruct (i_tbl st I _ _ _ Hs) as (-> & c & Hc & _).
      simpl. rewrite lookup_insert. case_decide; by eexists.
  - injection Hst as <-. apply inv_unlock; rewrite ?Ht; try done; by destruct res, cr.
Qed.

Lemma step_inv st ta st' : inv st → small st → step st ta = Some st' → inv st'.
Proof.
  destruct ta as [t a]. intros I Hsm Hst. pose proof (i_pc st I t) as P.
  pose proof (get_inv t st st' a I Hsm Hst) as Hget. unfold step in Hst.
  destruct (threads st t) as [|? ? ?|? ? ?|? ? ? ?|? ? ? ? ?|?|? ? ? ?|s|s|s|s] eqn:Ht; auto.
  - by eapply start_inv.
  - destruct (lock t true st) as [st1|] eqn:Hl; [|done]. injection Hst as <-.
    eapply inv_lock; eauto; by rewrite ?Ht.
  - injection Hst as <-. destruct P as [[c Hc] _]. rewrite (with_sub_Some _ _ c) by done.
    rewrite inv_lookup_key by done. by apply inv_remove.
  - injection Hst as <-. apply (inv_unlock t true); by rewrite ?Ht.
  - injection Hst as <-. destruct P as [[[c Hc] _] _]. rewrite (with_sub_Some _ _ c) by done.
    by apply inv_free.
Qed.

(** ** Correctness of the protocol *)

(** The states of all interleavings in which the 32-bit counters do not
    overflow. *)
Inductive reachable : state → Prop :=
  | reach_init : reachable init
  | reach_step st ta st' :
      reachable st → small st → step st ta = Some st' → reachable st'.

Lemma reachable_inv st : reachable st → inv st.
Proof. induction 1; [apply init_inv|by eapply step_inv]. Qed.

(** C5. In every interleaving of concurrent calls on the subscriptions of an
    event: no freed memory is ever used, not even by a reader that finds in the
    table a subscription another thread is about to free, or through the key
    strings the table borrows; the count of an allocated subscription is the
    number of references held; a referenced subscription is allocated and is
    the one the table gives for its key, so a key never has two; and when no
    call is running, exactly the referenced subscriptions are allocated. *)
Theorem sub_race_safe st :
  reachable st →
  broken st = false ∧
  (∀ s c, heap st !! s = Some c → c_count c = Z.of_nat (tok st s)) ∧
  (∀ s, tok st s ≠ 0%nat → ∃ c, heap st !! s = Some c ∧ tbl st !! c_extra c = Some (s, s)) ∧
  (∀ s s' c c', heap st !! s = Some c → heap st !! s' = Some c' →
     tok st s ≠ 0%nat → tok st s' ≠ 0%nat → c_extra c = c_extra c' → s = s') ∧
  ((∀ t, threads st t = Idle) → ∀ s, is_Some (heap st !! s) ↔ tok st s ≠ 0%nat).
Proof.
  intros I%reachable_inv. split; [by apply i_ok|]. split; [by apply i_count|].
  split; [|split].
  - intros s Hs. destruct (tok_alloc st s I Hs) as [c Hc]. exists c. split; [done|].
    by apply i_live.
  - intros s s' c c' Hc Hc' Hn Hn' E. pose proof (i_live st I s c Hc Hn) as H.
    rewrite E, (i_live st I s' c' Hc' Hn') in H. congruence.
  - intros Hidle s. split; [|intros Hs; destruct (tok_alloc st s I Hs) as [c Hc]; by eexists].
    intros Hs Hz. destruct (i_dead st I s Hs Hz) as [t Ht]. by rewrite Hidle in Ht.
Qed.

(** C29. The calls never block each other for ever: whenever some thread is in
    the middle of a call, some thread that is in the middle of a call can take
    a step. *)
Theorem sub_race_progress st t :
  reachable st → threads st t ≠ Idle →
  ∃ t', threads st t' ≠ Idle ∧ ∀ a, is_Some (step st (t', a)).
Proof.
  intros I%reachable_inv Ht.
  assert (Hgo : ∀ t' b, pc_mode (threads st t') = Some b →
    threads st t' ≠ Idle ∧ ∀ a, is_Some (step st (t', a))).
  { intros t' b Hb. unfold step. destruct (threads st t'); try done;
      (split; [done|]); intros a; try (by eexists). branch; by eexists. }
  destruct (writer st) as [t'|] eqn:Hw.
  { exists t'. apply (Hgo t' true). by apply (i_writer st I). }
  destruct (set_choose_or_empty (readers st)) as [[t' Hr]|Hr].
  { exists t'. apply (Hgo t' false). by apply (i_readers st I). }
  apply leibniz_equiv in Hr. exists t. split; [done|]. intros a. unfold step.
  assert (Hl : ∀ wr, is_Some (lock t wr st)).
  { intros wr. unfold lock. rewrite Hw. destruct wr; [|by eexists]. rewrite decide_True by done. by eexists. }
  destruct (threads st t) eqn:E; try done; try (by eexists).
  - destruct (Hl wr) as [st' ->]. by eexists.
  - branch; by eexists.
  - destruct (Hl true) as [st' ->]. by eexists.
Qed.

(** ** Schedules, to evaluate the protocol on concrete ones *)

Fixpoint run (st : state) (sched : list (nat * action)) : option state :=
  match sched with
  | [] => Some st
  | ta :: sched => st ← step st ta; run st sched
  end.

Definition tok_le (n : nat) (st : state) : Prop := ∀ s, (tok st s ≤ n)%nat.

Lemma with_sub_tok s f st n :
  (∀ c, tok_le n (f c)) → tok_le n st → tok_le n (with_sub s f st).
Proof. unfold with_sub. destruct (heap st !! s); auto. Qed.

Lemma lookup_key_tok key f st n :
  (∀ o, tok_le n (f o)) → tok_le n st → tok_le n (lookup_key key f st).
Proof.
  intros H1 H2. unfold lookup_key. destruct (tbl st !! key) as [[? ?]|]; [|auto].
  by apply with_sub_tok.
Qed.

Lemma set_tok_le n s m st : (m ≤ n)%nat → tok_le n st → tok_le n (set_tok s m st).
Proof. intros ? H s'. rewrite tok_set. case_decide; [done|apply H]. Qed.

Lemma lock_tok t wr st st' : lock t wr st = Some st' → tok st' = tok st.
Proof.
  unfold lock. intros H. destruct (writer st), wr; try done; [destruct (decide _); [|done]|];
    by injection H as <-.
Qed.

Lemma mono_tok n st : tok_le n st → tok_le (S n) st.
Proof. intros H s. specialize (H s). lia. Qed.

(** One step adds at most one reference. *)
Lemma step_tok n st ta st' : tok_le n st → step st ta = Some st' → tok_le (S n) st'.
Proof.
  destruct ta as [t a]. intros H Hst. pose proof (mono_tok n st H) as HS.
  assert (Hlock : ∀ wr p st1, lock t wr st = Some st1 → tok_le (S n) (set_pc t p st1)).
  { intros wr p st1 Hl s. simpl. rewrite (lock_tok _ _ _ _ Hl). apply HS. }
  assert (Hincr : ∀ s, (S (tok st s) ≤ S n)%nat) by (intros s; specialize (H s); lia).
  unfold step in Hst. destruct (threads st t) as [|? ? ?|wr ? ?|? ? ? ?|? ? ? ? ?|?|[] ? ? ?|?|?|?|?].
  - destruct a; simpl in Hst; [by injection Hst as <-| |]; destruct (_ =? _)%nat; try done;
      injection Hst as <-; (apply with_sub_tok; [intros c|done]).
    + by apply set_tok_le.
    + assert (Hd : tok_le (S n) (set_tok s (pred (tok st s)) (set_count s c (c_count c - 1) st)))
        by (apply set_tok_le; [specialize (H s); lia|done]).
      by destruct (_ =? _).
  - destruct (lock t wr st) eqn:E; [|done]. injection Hst as <-. by eapply Hlock.
  - injection Hst as <-. apply lookup_key_tok; [|done]. intros [s|]; [done|by destruct wr].
  - injection Hst as <-. by apply with_sub_tok.
  - destruct (_ =? _); injection Hst as <-; [by destruct wr|]. apply with_sub_tok; [|done].
    intros c. destruct (_ =? _); [by apply set_tok_le|done].
  - injection Hst as <-. apply lookup_key_tok; [|done]. intros o. by apply set_tok_le.
  - by injection Hst as <-.
  - by injection Hst as <-.
  - destruct (lock t true st) eqn:E; [|done]. injection Hst as <-. by eapply Hlock.
  - injection Hst as <-. apply with_sub_tok; [|done]. intros c. apply lookup_key_tok; [|done].
    intros o. by case_decide.
  - by injection Hst as <-.
  - injection Hst as <-. by apply with_sub_tok.
Qed.

(** A schedule of fewer than 2^32 - 1 steps cannot overflow a counter. *)
Lemma run_reachable n st sched st' :
  reachable st → tok_le n st → Z.of_nat (n + length sched) < 2 ^ 32 - 1 →
  run st sched = Some st' → reachable st'.
Proof.
  revert n st. induction sched as [|ta sched IH]; intros n st Hr Hn Hb; simpl.
  { by intros [= <-]. }
  destruct (step st ta) as [st1|] eqn:E; [|done]. simpl. apply (IH (S n)).
  - eapply reach_step; [done| |done]. intros s. specialize (Hn s). lia.
  - by eapply step_tok.
  - simpl in Hb. lia.
Qed.

(** Thread 1 creates a subscription, drops it and is about to unlink it when
    thread 2 asks for the same key, finds the dying subscription, gives up on
    it and replaces it; then thread 1 finishes. *)
Definition demo_sched : list (nat * action) :=
  let get t := (t, AGet (str "x") true) in
  replicate 8 (get 1%nat) ++ [(1%nat, AUnref 1)] ++ replicate 12 (get 2%nat) ++
  replicate 4 (get 1%nat).

Definition demo_race : state := default init (run init demo_sched).

Lemma demo_race_reachable : reachable demo_race.
Proof.
  apply (run_reachable 0 init demo_sched); [apply reach_init|intros s; simpl; lia|done|].
  vm_compute. reflexivity.
Qed.

Lemma sub_race_safe_witness :
  reachable demo_race ∧ tok demo_race 1 = 0%nat ∧ tok demo_race 2 = 1%nat ∧
  tbl demo_race !! str "x" = Some (2%positive, 2%positive) ∧ broken demo_race = false.
Proof.
  split; [exact demo_race_reachable|]. repeat (split; [vm_compute; reflexivity|]).
  exact (proj1 (sub_race_safe demo_race demo_race_reachable)).
Defined.

(** Thread 1 waits for the writer lock that thread 2 holds. *)
Definition demo_wait : state :=
  default init (run init (replicate 5 (2%nat, AGet (str "x") true) ++
                          replicate 1 (1%nat, AGet (str "x") true))).

Lemma sub_race_progress_witness :
  reachable demo_wait ∧ threads demo_wait 1%nat ≠ Idle ∧
  step demo_wait (1%nat, ARef 1) = None ∧
  ∃ t', threads demo_wait t' ≠ Idle ∧ ∀ a, is_Some (step demo_wait (t', a)).
Proof.
  assert (Hr : reachable demo_wait).
  { apply (run_reachable 0 init (replicate 5 (2%nat, AGet (str "x") true) ++
      replicate 1 (1%nat, AGet (str "x") true))); [apply reach_init|intros s; simpl; lia|done|].
    vm_compute. reflexivity. }
  assert (Ht : threads demo_wait 1%nat ≠ Idle) by (vm_compute; done).
  split; [exact Hr|]. split; [exact Ht|]. split; [vm_compute; reflexivity|].
  exact (sub_race_progress demo_wait 1%nat Hr Ht).
Defined.
