(* ===== verification/Apps.v ===== *)
(** What the applications loaded into the server provide: the functions behind
    the handler pointers of Types.v. They run inside the server and may call
    back into it, so each is a function on the whole state. *)
From Stdlib Require Import ZArith Lia.
From stdpp Require Import base list gmap strings.
From S2P Require Import Prelude Libs Types EvsQuery State.

(** [struct evs_on_info]; [ev_extra] and [json] may be NULL. *)
Record evs_on_info := mkInfo {
  info_ev_extra : option bytes;
  info_json : option bytes;
  info_sub : positive;
  info_client : cid;
  info_client_cb : Z;
}.

Class Apps (L : Libs) := {
  (** [evs_handler_fn]: client, ev_extra, client_cb, json *)
  app_handler_call : nat → cid → bytes → Z → bytes → world → evs_status * world;
  (** [evs_on_fn] *)
  app_on_call : nat → evs_on_info → world → evs_status * world;
  (** [evs_off_fn]: client, ev_extra *)
  app_off_call : nat → cid → bytes → world → world;
  (** [evs_cb_fn]: client, data, client_cb, json *)
  app_cb_call : nat → cid → option nat → Z → bytes → world → evs_status * world;
}.

(** What the subscriptions of clients are made of. *)
Record same_subs {L : Libs} (w w' : world) : Prop := {
  ss_subs : w_subs w' = w_subs w;
  ss_tables : w_ev_subs w' = w_ev_subs w;
  ss_fair : w_fair w' = w_fair w;
  ss_clients d :
    (λ cl, (c_subs cl, c_closing cl)) <$> w_clients w' !! d =
    (λ cl, (c_subs cl, c_closing cl)) <$> w_clients w !! d;
  ss_stats k : k ∈ [subs_total; clients_subs_added; clients_subs_removed] →
    w_stats w' k = w_stats w k;
  ss_fault : w_fault w' = w_fault w;
}.

(** [client_closed] calls the unsubscription handlers while it iterates over the
    client's table, which GLib forbids to change meanwhile, and under the lock
    on the client: so a handler does not subscribe or unsubscribe. *)
Class OffQuiet {L : Libs} (A : Apps L) : Prop :=
  off_quiet : ∀ f c x w, same_subs w (app_off_call f c x w).

(** Applications that do nothing and answer OK. *)
Definition apps0 (L : Libs) : Apps L := {|
  app_handler_call := λ _ _ _ _ _ w, (EVS_STATUS_OK, w);
  app_on_call := λ _ _ w, (EVS_STATUS_OK, w);
  app_off_call := λ _ _ _ w, w;
  app_cb_call := λ _ _ _ _ _ w, (EVS_STATUS_OK, w);
|}.

#[export] Instance apps0_quiet (L : Libs) : OffQuiet (apps0 L).
Proof. by split. Qed.
