(* ===== verification/ClientSub.v ===== *)
(** The subscriptions a client holds: src/client.c. A [client_sub] is pending
    from the time the client asked until the application answered, and becomes
    a tombstone if the client unsubscribes meanwhile. *)
From Stdlib Require Import ZArith Lia.
From stdpp Require Import functions base list gmap strings.
From S2P Require Import Prelude Libs Types EvsQuery State Apps Sub.

Section ClientSub.
Context {L : Libs} {A : Apps L}.

(** [client->subs] with NULL read as the empty table. *)
Definition subs_of (cl : client) : gmap positive client_sub := default ∅ (c_subs cl).

Definition _sub_alloc (c : cid) (w : world) : option client_sub * world :=
  match w_clients w !! c with
  | None => (None, fault w)
  | Some cl =>
      let client_used := Z.of_nat (size (subs_of cl)) in
      match qev_fair_use (w_fair w) client_used 1 with
      | Some f =>
          (Some (mkCsub false false), stat_inc clients_subs_added (set_w_fair (λ _, f) w))
      | None => (None, w)
      end
  end.

Definition _sub_free (w : world) : world :=
  stat_inc clients_subs_removed (set_w_fair (λ f, qev_fair_return f 1) w).

Definition _sub_get (c : cid) (s : positive) (w : world) : option client_sub :=
  cl ← w_clients w !! c; m ← c_subs cl; m !! s.

Definition evs_client_off (c : cid) (s : positive) (w : world) : world :=
  match w_subs w !! s with
  | None => fault w
  | Some sub =>
      match off_fn (sub_ev sub) with
      | Some f => app_off_call f c (sub_ev_extra sub) w
      | None => w
      end
  end.

(** [g_hash_table_remove(client->subs, sub)] and the release of the table when
    that was its last entry. *)
Definition remove_csub (s : positive) (cl : client) : client :=
  set_c_subs (λ subs, m ← subs; let m := delete s m in if decide (m = ∅) then None else Some m) cl.

Definition _sub_cleanup (c : cid) (s : positive) (cleanup_hashtable : bool) (w : world) : world :=
  let w := upd_sub s (set_subscribers (λ q, qev_list_remove q c)) w in
  let w := evs_client_off c s w in
  let w := _sub_free w in
  let w := sub_unref s w in
  if cleanup_hashtable then upd_client c (remove_csub s) w else w.

(** Write through the pointer [csub]. *)
Definition upd_csub (c : cid) (s : positive) (f : client_sub → client_sub) : world → world :=
  upd_client c (set_c_subs (fmap (alter f s))).
Definition set_pending (b : bool) (cs : client_sub) : client_sub := mkCsub b (tombstone cs).
Definition set_tombstone (b : bool) (cs : client_sub) : client_sub := mkCsub (pending cs) b.

Definition _sub_remove (c : cid) (s : positive) (rejected : bool) (w : world) : bool * world :=
  match _sub_get c s w with
  | None => (false, w)
  | Some csub =>
      if negb rejected && pending csub then (false, upd_csub c s (set_tombstone true) w)
      else (true, _sub_cleanup c s true w)
  end.

Definition client_sub_active (c : cid) (s : positive) (w : world) : bool :=
  match _sub_get c s w with
  | Some csub => negb (pending csub) && negb (tombstone csub)
  | None => false
  end.

Definition client_sub_add (c : cid) (s : positive) (w : world) : client_sub_state * world :=
  match w_clients w !! c with
  | None => (CLIENT_SUB_NULL, fault w)
  | Some cl =>
      if c_closing cl then (CLIENT_SUB_NULL, w)
      else
        match _sub_get c s w with
        | Some csub =>
            let w := upd_csub c s (set_tombstone false) w in
            (if pending csub then CLIENT_SUB_PENDING else CLIENT_SUB_ACTIVE, w)
        | None =>
            let '(csub, w) := _sub_alloc c w in
            match csub with
            | None => (CLIENT_SUB_NULL, w)
            | Some csub =>
                let w := sub_ref s w in
                let w := upd_client c (set_c_subs (λ subs,
                  Some (<[s := set_pending true csub]> (default ∅ subs)))) w in
                (CLIENT_SUB_CREATED, w)
            end
        end
  end.

Definition client_sub_accept (c : cid) (s : positive) (w : world) : client_sub_state * world :=
  match _sub_get c s w with
  | None => (CLIENT_SUB_NULL, w)
  | Some csub =>
      match w_subs w !! s with
      | None => (CLIENT_SUB_NULL, fault w)
      | Some sub =>
          match qev_list_add (subscribers sub) c with
          | None => (CLIENT_SUB_NULL, _sub_cleanup c s true w)
          | Some q =>
              let w := upd_sub s (set_subscribers (λ _, q)) w in
              let w := upd_csub c s (set_pending false) w in
              if negb (tombstone csub) then (CLIENT_SUB_ACTIVE, w)
              else (CLIENT_SUB_TOMBSTONED, _sub_cleanup c s true w)
          end
      end
  end.

Definition client_sub_reject (c : cid) (s : positive) (w : world) : world :=
  (_sub_remove c s true w).2.

Definition client_sub_remove (c : cid) (s : positive) (w : world) : bool * world :=
  _sub_remove c s false w.

(** One round of the loop of [client_closed]. *)
Definition close_sub (c : cid) (w : world) (s : positive) : world :=
  _sub_cleanup c s false (upd_client c (set_c_subs (fmap (delete s))) w).

(** GLib's iteration order is unspecified; the theorems hold for any order. *)
Definition client_closed_in (order : list positive) (c : cid) (w : world) : world :=
  match w_clients w !! c with
  | None => fault w
  | Some cl =>
      match c_subs cl with
      | None => w
      | Some _ => upd_client c (set_c_subs (λ _, None)) (foldl (close_sub c) w order)
      end
  end.

Definition client_closed (c : cid) (w : world) : world :=
  client_closed_in
    (default [] (cl ← w_clients w !! c; Some (map_to_list (subs_of cl)).*1)) c w.

(** ** The data attached to a client *)

Definition client_set (c : cid) (key : Z) (val : option Z) (w : world) : world :=
  match val with
  | None => w
  | Some val => upd_client c (set_c_data (λ d, Some (<[key := val]> (default ∅ d)))) w
  end.

Definition client_get (c : cid) (key : Z) (w : world) : option Z :=
  cl ← w_clients w !! c; d ← c_data cl; d !! key.

Definition client_has (c : cid) (key : Z) (w : world) : bool :=
  match cl ← w_clients w !! c; c_data cl with
  | Some d => bool_decide (is_Some (d !! key))
  | None => false
  end.

Definition client_del (c : cid) (key : Z) (w : world) : world :=
  upd_client c (set_c_data (λ d,
    d ← d; let d := delete key d in if decide (d = ∅) then None else Some d)) w.

(** ** Accounting *)

Definition held_subs (cl : client) : list positive := (map_to_list (subs_of cl)).*1.

(** The subscription of every [client_sub] of every client. *)
Definition all_subs (w : world) : list positive := map_items held_subs (w_clients w).

Definition uses (s : positive) (l : list positive) : nat := length (filter (λ x, x = s) l).

(** [ext s] references to [s] are held outside the clients' tables: by running
    calls, pending broadcasts and copies of [evs_on_info]. *)
Record csub_wf (ext : positive → nat) (w : world) : Prop := {
  cw_subs : subs_wf w;
  cw_refs s sub : w_subs w !! s = Some sub →
    refs sub = Z.of_nat (uses s (all_subs w) + ext s);
  cw_ext s : ext s ≠ 0%nat → is_Some (w_subs w !! s);
  cw_alloc c s cs : _sub_get c s w = Some cs → is_Some (w_subs w !! s);
  (** a client is in the list of subscribers once it is not pending any more *)
  cw_members s sub c : w_subs w !! s = Some sub →
    c ∈ qev_list_items (subscribers sub) ↔ ∃ cs, _sub_get c s w = Some cs ∧ pending cs = false;
  cw_nodup s sub : w_subs w !! s = Some sub → NoDup (qev_list_items (subscribers sub));
  (** every [client_sub] has its permit *)
  cw_fair : qev_fair_used (w_fair w) = Z.of_nat (length (all_subs w));
  cw_stat : w_stats w clients_subs_added - w_stats w clients_subs_removed =
    Z.of_nat (length (all_subs w));
}.

(** Only a pending entry is a tombstone. *)
Definition tomb_ok (o : option client_sub) : Prop :=
  ∀ cs, o = Some cs → tombstone cs = true → pending cs = true.
Definition tombs_ok (w : world) : Prop := ∀ c s, tomb_ok (_sub_get c s w).

(** No client keeps an empty table. *)
Definition subs_null_ok (w : world) : Prop :=
  ∀ c cl, w_clients w !! c = Some cl → c_subs cl ≠ Some ∅.

(** The four states of a client towards a subscription. *)
Inductive sub_status := Absent | Pending | Tombstoned | Active.

#[export] Instance sub_status_eq_dec : EqDecision sub_status.
Proof. solve_decision. Defined.

Definition csub_status (o : option client_sub) : sub_status :=
  match o with
  | None => Absent
  | Some cs => if pending cs then if tombstone cs then Tombstoned else Pending else Active
  end.

Definition status (c : cid) (s : positive) (w : world) : sub_status :=
  csub_status (_sub_get c s w).

#[global] Instance uses_Permutation s : Proper ((≡ₚ) ==> eq) (uses s).
Proof. intros l1 l2 E. unfold uses. by rewrite E. Qed.

Lemma uses_cons s x l : uses s (x :: l) = ((if decide (x = s) then 1 else 0) + uses s l)%nat.
Proof. unfold uses. rewrite filter_cons. by case_decide. Qed.

Lemma sub_get_eq c s w : _sub_get c s w = cl ← w_clients w !! c; subs_of cl !! s.
Proof.
  unfold _sub_get, subs_of. destruct (w_clients w !! c) as [cl|]; simpl; [|done].
  destruct (c_subs cl); simpl; [done|]. by rewrite lookup_empty.
Qed.

(** *** One entry of one client changes *)

(** The tables of [w'] are those of [w] but for the entry of [c] for [s]. *)
Definition csub_changed (c : cid) (s : positive) (o : option client_sub) (w w' : world) : Prop :=
  ∃ cl cl', w_clients w !! c = Some cl ∧ w_clients w' !! c = Some cl' ∧
    subs_of cl' = partial_alter (λ _, o) s (subs_of cl) ∧
    (∀ d, d ≠ c → c_subs <$> w_clients w' !! d = c_subs <$> w_clients w !! d).

Lemma csub_changed_get c s o w w' d x :
  csub_changed c s o w w' →
  _sub_get d x w' = if decide (d = c ∧ x = s) then o else _sub_get d x w.
Proof.
  intros (cl & cl' & H1 & H2 & H3 & H4). rewrite !sub_get_eq.
  destruct (decide (d = c)) as [->|Hd].
  - rewrite H1, H2. simpl. rewrite H3. destruct (decide (x = s)) as [->|Hx].
    + rewrite lookup_partial_alter_eq. by rewrite decide_True.
    + rewrite lookup_partial_alter_ne by done. by rewrite decide_False by tauto.
  - rewrite decide_False by tauto. specialize (H4 d Hd).
    destruct (w_clients w' !! d) as [x1|], (w_clients w !! d) as [x2|]; try done.
    simpl in *. unfold subs_of. injection H4 as ->. done.
Qed.

Lemma held_subs_set cl cl' s o :
  subs_of cl' = partial_alter (λ _, o) s (subs_of cl) →
  held_subs cl' ++ match subs_of cl !! s with Some _ => [s] | None => [] end
    ≡ₚ held_subs cl ++ match o with Some _ => [s] | None => [] end.
Proof.
  intros E. unfold held_subs. rewrite E.
  assert (Hd : ∀ m : gmap positive client_sub,
    (map_to_list m).*1 ≡ₚ match m !! s with Some _ => [s] | None => [] end ++
                          (map_to_list (delete s m)).*1).
  { intros m. destruct (m !! s) as [cs|] eqn:Hs; [|by rewrite delete_id].
    by rewrite <- (map_to_list_delete m s cs Hs). }
  rewrite (Hd (partial_alter _ _ _)), (Hd (subs_of cl)), lookup_partial_alter_eq.
  replace (delete s (partial_alter (λ _, o) s (subs_of cl))) with (delete s (subs_of cl)).
  - solve_Permutation.
  - apply map_eq. intros k. destruct (decide (k = s)) as [->|]; [by rewrite !lookup_delete_eq|].
    by rewrite !lookup_delete_ne, lookup_partial_alter_ne by done.
Qed.

Lemma map_items_ext {B} (f : client → list B) (m m' : gmap cid client) :
  (∀ d, f <$> m !! d = f <$> m' !! d) → map_items f m ≡ₚ map_items f m'.
Proof.
  revert m'. induction m as [|d x m Hd IH] using map_ind; intros m' H.
  - replace m' with (∅ : gmap cid client); [done|]. symmetry. apply map_empty. intros d.
    specialize (H d). rewrite lookup_empty in H. by destruct (m' !! d).
  - pose proof (H d) as Hx. rewrite lookup_insert_eq in Hx.
    destruct (m' !! d) as [x'|] eqn:Hd'; [|done]. simpl in Hx. injection Hx as Hx.
    rewrite map_items_fresh by done. rewrite <- (map_items_delete f m' d x' Hd').
    rewrite Hx. f_equiv. apply IH. intros e. destruct (decide (e = d)) as [->|].
    + by rewrite lookup_delete_eq, Hd.
    + specialize (H e). by rewrite lookup_insert_ne in H by done; rewrite lookup_delete_ne.
Qed.

Lemma all_subs_changed c s o w w' :
  csub_changed c s o w w' →
  all_subs w' ++ match _sub_get c s w with Some _ => [s] | None => [] end
    ≡ₚ all_subs w ++ match o with Some _ => [s] | None => [] end.
Proof.
  intros (cl & cl' & H1 & H2 & H3 & H4). unfold all_subs.
  rewrite sub_get_eq, H1. simpl.
  assert (E : map_items held_subs (w_clients w') ≡ₚ map_items held_subs (<[c := cl']> (w_clients w))).
  { apply map_items_ext. intros d. destruct (decide (d = c)) as [->|Hd].
    - by rewrite H2, lookup_insert_eq.
    - rewrite lookup_insert_ne by done. specialize (H4 d Hd). unfold held_subs, subs_of.
      destruct (w_clients w' !! d), (w_clients w !! d); try done. simpl in *. by injection H4 as ->. }
  rewrite E. apply (Permutation_app_inv_r (held_subs cl)).
  pose proof (map_items_insert held_subs (w_clients w) c cl' cl H1) as Hm.
  rewrite <- app_assoc, (Permutation_app_comm _ (held_subs cl)), app_assoc, Hm.
  rewrite <- !app_assoc. apply Permutation_app_head. rewrite (held_subs_set cl cl' s o H3).
  apply Permutation_app_comm.
Qed.

(** ** What a cleanup leaves *)

Lemma mask_clients w w' : sub_mask w' = sub_mask w → w_clients w' = w_clients w.
Proof. intros E. apply (f_equal w_clients E). Qed.
Lemma mask_fair w w' : sub_mask w' = sub_mask w → w_fair w' = w_fair w.
Proof. intros E. apply (f_equal w_fair E). Qed.
Lemma mask_fault w w' : sub_mask w' = sub_mask w → w_fault w' = w_fault w.
Proof. intros E. apply (f_equal w_fault E). Qed.

(** The table and the closing flag of a client. *)
Definition view (cl : client) : option (gmap positive client_sub) * bool :=
  (c_subs cl, c_closing cl).

Lemma off_same {OQ : OffQuiet A} c s sub w :
  w_subs w !! s = Some sub → same_subs w (evs_client_off c s w).
Proof.
  intros Hs. unfold evs_client_off. rewrite Hs. destruct (off_fn (sub_ev sub)); [apply off_quiet|].
  by split.
Qed.

(** The subscription without the subscriber [c] and with a reference less. *)
Definition sub_without (c : cid) (sub : subscription) : subscription :=
  set_refs (λ n, n - 1) (set_subscribers (λ q, qev_list_remove q c) sub).

(** The world up to the last step of the cleanup. *)
Lemma cleanup_spec {LO : LibsOk L} {OQ : OffQuiet A} c s sub w :
  subs_wf w → w_subs w !! s = Some sub →
  let w' := _sub_cleanup c s false w in
  subs_wf w' ∧
  w_subs w' = (if refs sub =? 1 then delete s (w_subs w)
               else <[s := sub_without c sub]> (w_subs w)) ∧
  qev_fair_used (w_fair w') = qev_fair_used (w_fair w) - 1 ∧
  w_stats w' clients_subs_added = w_stats w clients_subs_added ∧
  w_stats w' clients_subs_removed = w_stats w clients_subs_removed + 1 ∧
  w_fault w' = w_fault w ∧
  (∀ d, view <$> w_clients w' !! d = view <$> w_clients w !! d).
Proof.
  intros Hwf Hs w'. pose proof (subs_refs w Hwf s sub Hs) as Hr. subst w'. unfold _sub_cleanup.
  rewrite (upd_sub_lookup _ _ _ sub) by done.
  set (sub1 := set_subscribers (λ q, qev_list_remove q c) sub).
  set (w1 := set_w_subs <[s := sub1]> w).
  assert (Hwf1 : subs_wf w1) by (by apply subs_wf_subscribers).
  assert (Hs1 : w_subs w1 !! s = Some sub1) by apply lookup_insert_eq.
  destruct (off_same c s sub1 w1 Hs1) as [E1 E2 E3 E4 E5 E6].
  set (w2 := evs_client_off c s w1) in *.
  assert (Hwf3 : subs_wf (_sub_free w2)).
  { apply (subs_wf_ext w1); simpl; try done. rewrite E5 by set_solver. by rewrite ?decide_False. }
  assert (Hs3 : w_subs (_sub_free w2) !! s = Some sub1) by (simpl; by rewrite E1).
  destruct (sub_unref_spec s sub1 _ Hwf3 Hs3) as (H1 & H2 & H3 & H4).
  split; [done|]. split; [|split; [|split; [|split; [|split]]]].
  - destruct (Z.eqb_spec (refs sub) 1) as [E|E].
    + destruct (H4 E) as [-> _]. simpl. rewrite E1. simpl. apply delete_insert_eq.
    + rewrite H3 by (simpl; lia). simpl. rewrite E1. simpl. by rewrite insert_insert_eq.
  - rewrite (mask_fair _ _ H2). simpl. by rewrite fair_return, E3.
  - rewrite sub_unref_stats by done. simpl. rewrite E5 by set_solver. done.
  - rewrite sub_unref_stats by done. simpl. rewrite E5 by set_solver. done.
  - by rewrite (mask_fault _ _ H2).
  - intros d. rewrite (mask_clients _ _ H2). apply E4.
Qed.

(** ** The invariant when one entry changes *)

Definition present (o : option client_sub) : nat := match o with Some _ => 1 | None => 0 end.

Lemma uses_changed c s o w w' x :
  csub_changed c s o w w' →
  (uses x (all_subs w') + (if decide (s = x) then present (_sub_get c s w) else 0) =
   uses x (all_subs w) + (if decide (s = x) then present o else 0))%nat.
Proof.
  intros Hch. pose proof (all_subs_changed c s o w w' Hch) as E.
  apply (uses_Permutation x) in E. unfold uses in E |- *. rewrite !filter_app, !length_app in E.
  destruct (_sub_get c s w), o; simpl in E; rewrite ?filter_cons, ?filter_nil in E;
    repeat case_decide; simpl in *; lia.
Qed.

Lemma length_changed c s o w w' :
  csub_changed c s o w w' →
  (length (all_subs w') + present (_sub_get c s w) = length (all_subs w) + present o)%nat.
Proof.
  intros Hch. pose proof (Permutation_length (all_subs_changed c s o w w' Hch)) as E.
  rewrite !length_app in E. by destruct (_sub_get c s w), o.
Qed.

(** What an operation that changes one entry has to establish. *)
Record entry_ok (c : cid) (s : positive) (sub : subscription) (o : option client_sub)
    (w w' : world) : Prop := {
  eo_changed : csub_changed c s o w w';
  eo_wf : subs_wf w';
  eo_fair : qev_fair_used (w_fair w') + Z.of_nat (present (_sub_get c s w)) =
    qev_fair_used (w_fair w) + Z.of_nat (present o);
  eo_stat : w_stats w' clients_subs_added - w_stats w' clients_subs_removed +
    Z.of_nat (present (_sub_get c s w)) =
    w_stats w clients_subs_added - w_stats w clients_subs_removed + Z.of_nat (present o);
}.

Lemma csub_wf_update ext c s sub sub' o w w' :
  csub_wf ext w → w_subs w !! s = Some sub → entry_ok c s sub o w w' →
  w_subs w' = <[s := sub']> (w_subs w) →
  refs sub' + Z.of_nat (present (_sub_get c s w)) = refs sub + Z.of_nat (present o) →
  (∀ d, d ∈ qev_list_items (subscribers sub') ↔
     (if decide (d = c) then ∃ cs, o = Some cs ∧ pending cs = false
      else d ∈ qev_list_items (subscribers sub))) →
  NoDup (qev_list_items (subscribers sub')) →
  csub_wf ext w'.
Proof.
  intros Hwf Hs [Hch Hsub Hf Hst] Hw Hr Hm Hn.
  pose proof (length_changed _ _ _ _ _ Hch) as Hlen.
  destruct Hwf as [_ R E Al M N F S].
  split; [done|..].
  - intros x sx. rewrite Hw, lookup_insert_Some. pose proof (uses_changed c s o w w' x Hch) as Hu.
    intros [[<- <-]|[Hne Hx]].
    + rewrite !decide_True in Hu by done. specialize (R s sub Hs). lia.
    + rewrite !decide_False in Hu by done. specialize (R x sx Hx). lia.
  - intros x Hx. rewrite Hw, lookup_insert_is_Some. destruct (decide (s = x)); [by left|right]; auto.
  - intros d x cs. rewrite (csub_changed_get c s o w w') by done. rewrite Hw, lookup_insert_is_Some.
    destruct (decide (s = x)) as [|Hne]; [by left|]. rewrite decide_False by (intros [_ ?]; congruence).
    intros Hd. right. split; [done|]. by eapply Al.
  - intros x sx d. rewrite Hw, lookup_insert_Some, (csub_changed_get c s o w w') by done.
    intros [[<- <-]|[Hne Hx]].
    + rewrite Hm. destruct (decide (d = c)) as [->|Hd]; [by rewrite decide_True|].
      rewrite decide_False by tauto. by apply M.
    + rewrite decide_False by (intros [_ ?]; congruence). by apply M.
  - intros x sx. rewrite Hw, lookup_insert_Some. intros [[<- <-]|[Hne Hx]]; [done|by eapply N].
  - rewrite F in Hf. lia.
  - rewrite S in Hst. lia.
Qed.

(** The last reference went with the entry. *)
Lemma csub_wf_gone ext c s sub w w' :
  csub_wf ext w → w_subs w !! s = Some sub → entry_ok c s sub None w w' →
  is_Some (_sub_get c s w) → refs sub = 1 → w_subs w' = delete s (w_subs w) →
  csub_wf ext w'.
Proof.
  intros Hwf Hs [Hch Hsub Hf Hst] [cs0 Hcs] H1 Hw.
  pose proof (length_changed _ _ _ _ _ Hch) as Hlen.
  pose proof (uses_changed c s None w w' s Hch) as Hus. rewrite Hcs in *. simpl in *.
  rewrite !decide_True in Hus by done. destruct Hwf as [_ R E Al M N F S].
  assert (Hext : ext s = 0%nat) by (specialize (R s sub Hs); lia).
  assert (Hu0 : uses s (all_subs w') = 0%nat) by (specialize (R s sub Hs); lia).
  assert (Hnone : ∀ d cs, _sub_get d s w' = Some cs → False).
  { intros d cs Hd. assert (s ∈ all_subs w') as Hin.
    { unfold all_subs. apply map_items_elem. rewrite sub_get_eq in Hd.
      destruct (w_clients w' !! d) as [cl|] eqn:Hcl; simpl in Hd; [|done].
      exists d, cl. split; [done|]. unfold held_subs. apply list_elem_of_fmap.
      exists (s, cs). split; [done|]. by apply elem_of_map_to_list. }
    unfold uses in Hu0. apply nil_length_inv in Hu0.
    assert (s ∈ filter (λ x, x = s) (all_subs w')) as H by (by apply list_elem_of_filter).
    rewrite Hu0 in H. by apply elem_of_nil in H. }
  split; [done|..].
  - intros x sx. rewrite Hw, lookup_delete_Some. intros [Hne Hx].
    pose proof (uses_changed c s None w w' x Hch) as Hu.
    rewrite !decide_False in Hu by done. specialize (R x sx Hx). lia.
  - intros x Hx. rewrite Hw, lookup_delete_ne by (intros <-; done). auto.
  - intros d x cs Hd. rewrite Hw. destruct (decide (s = x)) as [<-|Hne].
    { by destruct (Hnone d cs). }
    rewrite lookup_delete_ne by done. rewrite (csub_changed_get c s None w w') in Hd by done.
    case_decide; [done|]. by eapply Al.
  - intros x sx d. rewrite Hw, lookup_delete_Some, (csub_changed_get c s None w w') by done.
    intros [Hne Hx]. rewrite decide_False by (intros [_ ?]; congruence). by apply M.
  - intros x sx. rewrite Hw, lookup_delete_Some. intros [_ Hx]. by eapply N.
  - rewrite F in Hf. lia.
  - rewrite S in Hst. lia.
Qed.

(** ** The operations *)

(** The entry of [c] for [s] is now [o], all other entries, the closing flags
    and the fault flag are as they were, and the invariants still hold. *)
Record op_done (ext : positive → nat) (c : cid) (s : positive) (o : option client_sub)
    (w w' : world) : Prop := {
  od_wf : csub_wf ext w';
  od_get d x : _sub_get d x w' = if decide (d = c ∧ x = s) then o else _sub_get d x w;
  od_null : subs_null_ok w → subs_null_ok w';
  od_fault : w_fault w' = w_fault w;
  od_closing d : c_closing <$> w_clients w' !! d = c_closing <$> w_clients w !! d;
}.

Definition views_same (w w' : world) : Prop :=
  ∀ d, view <$> w_clients w' !! d = view <$> w_clients w !! d.

Lemma views_get w w' c s : views_same w w' → _sub_get c s w' = _sub_get c s w.
Proof.
  intros H. specialize (H c). rewrite !sub_get_eq.
  destruct (w_clients w' !! c), (w_clients w !! c); try done. simpl in *.
  unfold subs_of. by injection H as -> _.
Qed.

Lemma views_client w w' c cl :
  views_same w w' → w_clients w !! c = Some cl →
  ∃ cl', w_clients w' !! c = Some cl' ∧ c_subs cl' = c_subs cl ∧ c_closing cl' = c_closing cl.
Proof.
  intros H Hc. specialize (H c). rewrite Hc in H.
  destruct (w_clients w' !! c) as [cl'|]; [|done]. injection H as H1 H2. eauto.
Qed.

(** The client entry is written after changes that are invisible to it. *)
Lemma changed_upd c s o f w w1 cl1 :
  views_same w w1 → w_clients w1 !! c = Some cl1 →
  subs_of (f cl1) = partial_alter (λ _, o) s (subs_of cl1) →
  c_closing (f cl1) = c_closing cl1 → c_subs (f cl1) ≠ Some ∅ →
  csub_changed c s o w (upd_client c f w1) ∧
  (∀ d, c_closing <$> w_clients (upd_client c f w1) !! d = c_closing <$> w_clients w !! d) ∧
  (subs_null_ok w → subs_null_ok (upd_client c f w1)) ∧
  upd_client c f w1 = set_w_clients <[c := f cl1]> w1.
Proof.
  intros H Hc Hs Hcl Hn.
  assert (E : upd_client c f w1 = set_w_clients <[c := f cl1]> w1)
    by (unfold upd_client; by rewrite Hc).
  rewrite E. split; [|split; [|split; [|done]]].
  - pose proof (H c) as Hv. rewrite Hc in Hv.
    destruct (w_clients w !! c) as [cl|] eqn:Hcw; [|done]. injection Hv as Hv _.
    exists cl, (f cl1). split; [done|]. split; [apply lookup_insert_eq|].
    split; [rewrite Hs; unfold subs_of; by rewrite Hv|]. intros d Hd. simpl.
    rewrite lookup_insert_ne by done. specialize (H d).
    destruct (w_clients w1 !! d), (w_clients w !! d); try done. simpl in *. by injection H as ->.
  - intros d. simpl. specialize (H d). destruct (decide (d = c)) as [->|Hd].
    + rewrite lookup_insert_eq. rewrite Hc in H.
      destruct (w_clients w !! c); [|done]. simpl in *. injection H as _ H. congruence.
    + rewrite lookup_insert_ne by done.
      destruct (w_clients w1 !! d), (w_clients w !! d); try done. simpl in *. by injection H as _ ->.
  - intros Hnull d cl. simpl. rewrite lookup_insert_Some. intros [[<- <-]|[_ Hd]]; [done|].
    specialize (H d). rewrite Hd in H. destruct (w_clients w !! d) as [cl'|] eqn:E'; [|done].
    injection H as H _. rewrite H. by apply (Hnull d).
Qed.

Lemma subs_of_remove s cl :
  subs_of (remove_csub s cl) = partial_alter (λ _, None) s (subs_of cl).
Proof.
  unfold subs_of, remove_csub. simpl. destruct (c_subs cl) as [m|]; simpl.
  - case_decide as E; [|done]. simpl. symmetry. apply E.
  - symmetry. exact (delete_empty (M := gmap positive) (A := client_sub) s).
Qed.

Lemma remove_not_empty s cl : c_subs (remove_csub s cl) ≠ Some ∅.
Proof. unfold remove_csub. simpl. destruct (c_subs cl); simpl; [|done]. case_decide; congruence. Qed.

Lemma sub_get_client c s cs w :
  _sub_get c s w = Some cs →
  ∃ cl m, w_clients w !! c = Some cl ∧ c_subs cl = Some m ∧ m !! s = Some cs.
Proof.
  unfold _sub_get. destruct (w_clients w !! c) as [cl|]; [|done]. simpl.
  destruct (c_subs cl) as [m|] eqn:E; [|done]. simpl. eauto.
Qed.

Lemma cleanup_done {LO : LibsOk L} {OQ : OffQuiet A} ext c s cs w :
  csub_wf ext w → _sub_get c s w = Some cs →
  op_done ext c s None w (_sub_cleanup c s true w).
Proof.
  intros Hwf Hcs. destruct (cw_alloc ext w Hwf c s cs Hcs) as [sub Hs].
  destruct (sub_get_client c s cs w Hcs) as (cl & m & Hc & _).
  destruct (cleanup_spec c s sub w (cw_subs ext w Hwf) Hs) as (H1 & H2 & H3 & H4 & H5 & H6 & H7).
  change (_sub_cleanup c s true w) with (upd_client c (remove_csub s) (_sub_cleanup c s false w)).
  set (w1 := _sub_cleanup c s false w) in *.
  destruct (views_client w w1 c cl H7 Hc) as (cl1 & Hc1 & _).
  destruct (changed_upd c s None (remove_csub s) w w1 cl1 H7 Hc1 (subs_of_remove s cl1) eq_refl
    (remove_not_empty s cl1)) as (C1 & C2 & C3 & C4).
  assert (Heo : entry_ok c s sub None w (upd_client c (remove_csub s) w1)).
  { split; [done| | |]; rewrite C4; simpl; rewrite ?Hcs.
    - apply (subs_wf_ext w1); done.
    - simpl. lia.
    - simpl. lia. }
  split; [|by intros; apply csub_changed_get|done|by rewrite C4|done].
  destruct (Z.eqb_spec (refs sub) 1) as [E|E].
  - apply (csub_wf_gone ext c s sub w); try done. by rewrite C4.
  - apply (csub_wf_update ext c s sub (sub_without c sub) None w); try done.
    + by rewrite C4.
    + rewrite Hcs. simpl. lia.
    + intros d. simpl. rewrite list_remove. case_decide; [|tauto].
      split; [tauto|]. by intros (? & ? & _).
    + simpl. apply list_remove_NoDup. by apply (cw_nodup ext w Hwf s).
Qed.

Lemma subs_of_alter f s cl cs :
  subs_of cl !! s = Some cs →
  subs_of (set_c_subs (fmap (alter f s)) cl) = partial_alter (λ _, Some (f cs)) s (subs_of cl) ∧
  c_subs (set_c_subs (fmap (alter f s)) cl) ≠ Some ∅.
Proof.
  unfold subs_of. simpl. destruct (c_subs cl) as [m|]; simpl; [|by rewrite lookup_empty].
  intros H. split.
  - apply map_eq. intros k. destruct (decide (k = s)) as [->|].
    + rewrite lookup_alter_eq, lookup_partial_alter_eq. by rewrite H.
    + by rewrite lookup_alter_ne, lookup_partial_alter_ne by done.
  - intros [= E]. apply (f_equal (lookup s)) in E. rewrite lookup_alter_eq, H in E.
    by rewrite lookup_empty in E.
Qed.

(** Setting a flag of an entry, with the list of subscribers set to match. *)
Lemma flag_done {LO : LibsOk L} ext c s sub cs q f w :
  csub_wf ext w → w_subs w !! s = Some sub → _sub_get c s w = Some cs →
  (∀ d, d ∈ qev_list_items q ↔
     (if decide (d = c) then pending (f cs) = false else d ∈ qev_list_items (subscribers sub))) →
  NoDup (qev_list_items q) →
  op_done ext c s (Some (f cs)) w
    (upd_csub c s f (set_w_subs <[s := set_subscribers (λ _, q) sub]> w)).
Proof.
  intros Hwf Hs Hcs Hq Hn. destruct (sub_get_client c s cs w Hcs) as (cl & m & Hc & Hm & Hms).
  set (w1 := set_w_subs <[s := set_subscribers (λ _, q) sub]> w).
  destruct (subs_of_alter f s cl cs) as [A1 A2]; [unfold subs_of; by rewrite Hm|].
  destruct (changed_upd c s (Some (f cs)) (set_c_subs (fmap (alter f s))) w w1 cl
    (λ d, eq_refl) Hc A1 eq_refl A2) as (C1 & C2 & C3 & C4).
  split; [|by intros; apply csub_changed_get|done|unfold upd_csub; by rewrite C4|done].
  apply (csub_wf_update ext c s sub (set_subscribers (λ _, q) sub) (Some (f cs)) w); try done.
  - split; [done| | |]; unfold upd_csub; rewrite C4; simpl; rewrite ?Hcs; try done.
    apply (subs_wf_ext w1); try done. apply subs_wf_subscribers; [by apply (cw_subs ext)|done].
  - unfold upd_csub. by rewrite C4.
  - rewrite Hcs. simpl. lia.
  - intros d. simpl. rewrite Hq. case_decide; [|done].
    split; [by eexists|]. by intros (? & [= <-] & ?).
Qed.

(** ** The state machine of a client towards a subscription *)

Inductive csub_op := Add | Accept | Reject | Remove.
Inductive csub_result := RState (r : client_sub_state) | RBool (b : bool) | RUnit.

(** What each operation answers and does, given whether the client is closing,
    whether a permit is to be had and whether the list of subscribers has room. *)
Inductive sub_spec (closing permit room : bool) :
    csub_op → sub_status → csub_result → sub_status → Prop :=
  | spec_add_closing st : closing = true →
      sub_spec closing permit room Add st (RState CLIENT_SUB_NULL) st
  | spec_add_new : closing = false → permit = true →
      sub_spec closing permit room Add Absent (RState CLIENT_SUB_CREATED) Pending
  | spec_add_no_permit : closing = false → permit = false →
      sub_spec closing permit room Add Absent (RState CLIENT_SUB_NULL) Absent
  | spec_add_pending st : closing = false → st ∈ [Pending; Tombstoned] →
      sub_spec closing permit room Add st (RState CLIENT_SUB_PENDING) Pending
  | spec_add_active : closing = false →
      sub_spec closing permit room Add Active (RState CLIENT_SUB_ACTIVE) Active
  | spec_accept_absent :
      sub_spec closing permit room Accept Absent (RState CLIENT_SUB_NULL) Absent
  | spec_accept_pending : room = true →
      sub_spec closing permit room Accept Pending (RState CLIENT_SUB_ACTIVE) Active
  | spec_accept_tombstoned : room = true →
      sub_spec closing permit room Accept Tombstoned (RState CLIENT_SUB_TOMBSTONED) Absent
  | spec_accept_no_room st : room = false → st ∈ [Pending; Tombstoned] →
      sub_spec closing permit room Accept st (RState CLIENT_SUB_NULL) Absent
  | spec_reject st : sub_spec closing permit room Reject st RUnit Absent
  | spec_remove_absent : sub_spec closing permit room Remove Absent (RBool false) Absent
  | spec_remove_pending st : st ∈ [Pending; Tombstoned] →
      sub_spec closing permit room Remove st (RBool false) Tombstoned
  | spec_remove_active : sub_spec closing permit room Remove Active (RBool true) Absent.

Definition run_csub_op (op : csub_op) (c : cid) (s : positive) (w : world) : csub_result * world :=
  match op with
  | Add => let '(r, w) := client_sub_add c s w in (RState r, w)
  | Accept => let '(r, w) := client_sub_accept c s w in (RState r, w)
  | Reject => (RUnit, client_sub_reject c s w)
  | Remove => let '(r, w) := client_sub_remove c s w in (RBool r, w)
  end.

Definition permit (cl : client) (w : world) : bool :=
  bool_decide (is_Some (qev_fair_use (w_fair w) (Z.of_nat (size (subs_of cl))) 1)).
Definition room (c : cid) (sub : subscription) : bool :=
  bool_decide (is_Some (qev_list_add (subscribers sub) c)).

(** A result and a state as the specification wants them. *)
Definition implements (ext : positive → nat) (cl : client) (sub : subscription)
    (op : csub_op) (c : cid) (s : positive) (w : world) : Prop :=
  let '(r, w') := run_csub_op op c s w in
  ∃ o, op_done ext c s o w w' ∧ tomb_ok o ∧
    sub_spec (c_closing cl) (permit cl w) (room c sub) op (status c s w) r (csub_status o).

Lemma op_same ext c s w : csub_wf ext w → op_done ext c s (_sub_get c s w) w w.
Proof. intros H. split; try done. intros d x. by case_decide as E; [destruct E as [-> ->]|]. Qed.

Lemma op_done_trans ext c s o1 o2 w1 w2 w3 :
  op_done ext c s o1 w1 w2 → op_done ext c s o2 w2 w3 → op_done ext c s o2 w1 w3.
Proof.
  intros [_ G1 N1 F1 C1] [W2 G2 N2 F2 C2]. split; [done| |auto|congruence|].
  - intros d x. rewrite G2. case_decide; [done|]. rewrite G1. by rewrite decide_False.
  - intros d. by rewrite C2, C1.
Qed.

Lemma op_done_tombs ext c s o w w' :
  op_done ext c s o w w' → tomb_ok o → tombs_ok w → tombs_ok w'.
Proof. intros [_ G _ _ _] Ho Hw d x. rewrite G. by case_decide. Qed.

(** Raising or clearing the tombstone of an entry. *)
Lemma tombstone_done {LO : LibsOk L} ext c s cs b w :
  csub_wf ext w → _sub_get c s w = Some cs →
  op_done ext c s (Some (set_tombstone b cs)) w (upd_csub c s (set_tombstone b) w).
Proof.
  intros Hwf Hcs. destruct (cw_alloc ext w Hwf c s cs Hcs) as [sub Hs].
  pose proof (flag_done ext c s sub cs (subscribers sub) (set_tombstone b) w Hwf Hs Hcs) as H.
  replace (set_w_subs <[s := set_subscribers (λ _, subscribers sub) sub]> w) with w in H.
  - apply H; [|by apply (cw_nodup ext w Hwf s)]. intros d. case_decide; [subst|done].
    rewrite (cw_members ext w Hwf s sub c Hs). split; [|by eauto].
    intros (cs' & Hcs' & Hp). rewrite Hcs in Hcs'. by injection Hcs' as <-.
  - unfold set_w_subs. destruct w; simpl in *. f_equal. symmetry. apply insert_id.
    by destruct sub.
Qed.

Lemma implements_remove {LO : LibsOk L} {OQ : OffQuiet A} ext c s cl sub w (rejected : bool) :
  csub_wf ext w →
  implements ext cl sub (if rejected then Reject else Remove) c s w.
Proof.
  intros Hwf. unfold implements, run_csub_op, client_sub_reject, client_sub_remove, _sub_remove, status.
  pose proof (op_same ext c s w Hwf) as Hsame.
  destruct (_sub_get c s w) as [cs|] eqn:Hcs.
  - pose proof (cleanup_done ext c s cs w Hwf Hcs) as Hclean.
    destruct rejected; simpl; [exists None; split; [done|split; [done|constructor]]|].
    destruct (pending cs) eqn:Hp; simpl.
    + exists (Some (set_tombstone true cs)). split; [by apply tombstone_done|].
      split; [by intros ? [= <-]|]. simpl. rewrite Hp. constructor. destruct (tombstone cs); set_solver.
    + exists None. split; [done|]. split; [done|]. constructor.
  - destruct rejected; simpl; exists None; (split; [done|split; [done|constructor]]).
Qed.

(** The client joins the list of subscribers. *)
Lemma join_done {LO : LibsOk L} ext c s sub cs q w :
  csub_wf ext w → w_subs w !! s = Some sub → _sub_get c s w = Some cs → pending cs = true →
  qev_list_add (subscribers sub) c = Some q →
  op_done ext c s (Some (set_pending false cs)) w
    (upd_csub c s (set_pending false) (set_w_subs <[s := set_subscribers (λ _, q) sub]> w)).
Proof.
  intros Hwf Hs Hcs Hp Hq.
  assert (Hnot : c ∉ qev_list_items (subscribers sub)).
  { rewrite (cw_members ext w Hwf s sub c Hs). intros (cs' & Hcs' & Hp').
    rewrite Hcs in Hcs'. injection Hcs' as <-. congruence. }
  apply flag_done; try done.
  - intros d. rewrite (list_add _ _ _ Hq). case_decide; [by split; auto|naive_solver].
  - by apply (list_NoDup _ _ _ Hq (cw_nodup ext w Hwf s sub Hs)).
Qed.

Lemma implements_accept {LO : LibsOk L} {OQ : OffQuiet A} ext c s cl sub w :
  csub_wf ext w → w_subs w !! s = Some sub → status c s w ≠ Active →
  implements ext cl sub Accept c s w.
Proof.
  intros Hwf Hs Hst. unfold implements, run_csub_op, client_sub_accept, status in *.
  pose proof (op_same ext c s w Hwf) as Hsame.
  destruct (_sub_get c s w) as [cs|] eqn:Hcs;
    [|exists None; split; [done|split; [done|constructor]]].
  simpl in Hst. destruct (pending cs) eqn:Hp; [|done]. rewrite Hs.
  unfold room. destruct (qev_list_add (subscribers sub) c) as [q|] eqn:Hq.
  - rewrite (upd_sub_lookup s _ w sub Hs).
    pose proof (join_done ext c s sub cs q w Hwf Hs Hcs Hp Hq) as Hj.
    assert (Hroom : bool_decide (is_Some (Some q)) = true) by (by apply bool_decide_eq_true_2; eexists).
    destruct (tombstone cs) eqn:Ht; cbn [negb].
    + exists None. split; [|split; [done|simpl; rewrite Hp, Ht; by constructor]].
      eapply op_done_trans; [exact Hj|].
      eapply cleanup_done; [by apply Hj|]. rewrite (od_get _ _ _ _ _ _ Hj). by rewrite decide_True.
    + exists (Some (set_pending false cs)). split; [done|].
      split; [intros ? [= <-]; simpl; congruence|]. simpl. rewrite Hp, Ht. by constructor.
  - exists None. split; [by eapply cleanup_done|]. split; [done|]. simpl. rewrite Hp. constructor.
    + done.
    + destruct (tombstone cs); set_solver.
Qed.

Lemma subs_of_insert s cs cl :
  subs_of (set_c_subs (λ subs, Some (<[s := cs]> (default ∅ subs))) cl) =
    partial_alter (λ _, Some cs) s (subs_of cl) ∧
  c_subs (set_c_subs (λ subs, Some (<[s := cs]> (default ∅ subs))) cl) ≠ Some ∅.
Proof.
  split; [done|]. simpl. intros [= E]. apply (f_equal (lookup s)) in E.
  by rewrite lookup_insert_eq, lookup_empty in E.
Qed.

(** A new entry takes a permit and a reference. *)
Lemma create_done {LO : LibsOk L} ext c s cl sub f w :
  csub_wf ext w → w_clients w !! c = Some cl → w_subs w !! s = Some sub →
  _sub_get c s w = None → refs sub < 2 ^ 32 - 1 →
  qev_fair_use (w_fair w) (Z.of_nat (size (subs_of cl))) 1 = Some f →
  let cs := set_pending true (mkCsub false false) in
  op_done ext c s (Some cs) w
    (upd_client c (set_c_subs (λ subs, Some (<[s := cs]> (default ∅ subs))))
       (sub_ref s (stat_inc clients_subs_added (set_w_fair (λ _, f) w)))).
Proof.
  intros Hwf Hc Hs Hcs Hr Hf cs. pose proof (subs_refs w (cw_subs ext w Hwf) s sub Hs) as Hr0.
  set (w0 := stat_inc clients_subs_added (set_w_fair (λ _, f) w)).
  assert (E0 : sub_ref s w0 = set_w_subs <[s := set_refs (λ _, refs sub + 1) sub]> w0).
  { unfold sub_ref. rewrite (upd_sub_lookup s _ w0 sub Hs). unfold set_refs.
    unfold u32. by rewrite Z.mod_small by lia. }
  rewrite E0. set (w1 := set_w_subs _ w0).
  destruct (subs_of_insert s cs cl) as [A1 A2].
  destruct (changed_upd c s (Some cs) (set_c_subs (λ subs, Some (<[s := cs]> (default ∅ subs))))
    w w1 cl (λ d, eq_refl) Hc A1 eq_refl A2) as (C1 & C2 & C3 & C4).
  split; [|by intros; apply csub_changed_get|done|by rewrite C4|done].
  apply (csub_wf_update ext c s sub (set_refs (λ _, refs sub + 1) sub) (Some cs) w); try done.
  - split; [done| | |]; rewrite C4; simpl; rewrite ?Hcs; simpl.
    + apply (subs_wf_ext w1); try done. apply subs_wf_refs; [|done|lia].
      by apply (subs_wf_ext w); [| | |apply (cw_subs ext)].
    + rewrite (fair_use _ _ _ _ Hf). lia.
    + lia.
  - by rewrite C4.
  - rewrite Hcs. simpl. lia.
  - intros d. simpl. case_decide as E; [subst|done]. rewrite (cw_members ext w Hwf s sub c Hs), Hcs.
    split; [by intros (? & ? & _)|]. by intros (? & [= <-] & ?).
  - exact (cw_nodup ext w Hwf s sub Hs).
Qed.

Lemma implements_add {LO : LibsOk L} ext c s cl sub w :
  csub_wf ext w → tombs_ok w → w_clients w !! c = Some cl → w_subs w !! s = Some sub →
  refs sub < 2 ^ 32 - 1 →
  implements ext cl sub Add c s w.
Proof.
  intros Hwf Ht Hc Hs Hr. unfold implements, run_csub_op, client_sub_add, status, permit.
  rewrite Hc. pose proof (op_same ext c s w Hwf) as Hsame. pose proof (Ht c s) as Htcs.
  destruct (c_closing cl) eqn:Hclosing.
  { exists (_sub_get c s w). split; [done|]. split; [done|]. by constructor. }
  destruct (_sub_get c s w) as [cs|] eqn:Hcs.
  - exists (Some (set_tombstone false cs)). split; [by apply tombstone_done|].
    split; [by intros ? [= <-]|]. simpl. destruct (pending cs) eqn:Hp; constructor; try done.
    destruct (tombstone cs); set_solver.
  - unfold _sub_alloc. rewrite Hc.
    destruct (qev_fair_use (w_fair w) (Z.of_nat (size (subs_of cl))) 1) as [f|] eqn:Hf; cbn [fst snd].
    + exists (Some (set_pending true (mkCsub false false))).
      split; [by eapply create_done|]. split; [by intros ? [= <-]|]. constructor; done.
    + exists None. split; [done|]. split; [done|]. constructor; done.
Qed.

Lemma csub_op_spec {LO : LibsOk L} {OQ : OffQuiet A} ext c s cl sub op w :
  csub_wf ext w → tombs_ok w → subs_null_ok w →
  w_clients w !! c = Some cl → w_subs w !! s = Some sub → ext s ≠ 0%nat →
  refs sub < 2 ^ 32 - 1 → (op = Accept → status c s w ≠ Active) →
  let r := run_csub_op op c s w in
  sub_spec (c_closing cl) (permit cl w) (room c sub) op (status c s w) r.1 (status c s r.2) ∧
  (∀ d x, ¬ (d = c ∧ x = s) → status d x r.2 = status d x w) ∧
  csub_wf ext r.2 ∧ tombs_ok r.2 ∧ subs_null_ok r.2 ∧ w_fault r.2 = w_fault w ∧
  (client_sub_active c s r.2 = true ↔ status c s r.2 = Active).
Proof.
  intros Hwf Ht Hn Hc Hs Hext Hr Hacc.
  assert (H : implements ext cl sub op c s w).
  { destruct op; [by apply implements_add|apply implements_accept; auto
      |by apply (implements_remove _ _ _ _ _ _ true)|by apply (implements_remove _ _ _ _ _ _ false)]. }
  unfold implements in H. destruct (run_csub_op op c s w) as [r w']. cbn [fst snd].
  destruct H as (o & Hd & Hto & Hspec). pose proof (op_done_tombs _ _ _ _ _ _ Hd Hto Ht) as Ht'.
  assert (Ho : _sub_get c s w' = o) by (rewrite (od_get _ _ _ _ _ _ Hd); by rewrite decide_True).
  split; [unfold status; by rewrite Ho|]. split.
  { intros d x Hne. unfold status. rewrite (od_get _ _ _ _ _ _ Hd). by rewrite decide_False. }
  split; [by apply Hd|]. split; [done|]. split; [by apply Hd|]. split; [by apply Hd|].
  unfold client_sub_active, status. rewrite Ho. destruct o as [cs|]; [|done]. simpl.
  specialize (Hto cs eq_refl). destruct (pending cs), (tombstone cs); naive_solver.
Qed.

(** C4. A client's relation to a subscription is a state machine with the
    states absent, pending, tombstoned and active. Adding, accepting, rejecting
    and removing answer and move exactly as [sub_spec] says, errors included,
    touch no other entry of this or another client, raise no fault, and keep
    the invariants: the subscribers of a subscription are exactly the clients
    that are active, each once; only pending entries are tombstones; every
    entry holds one permit and one reference; no empty table is kept. The
    caller holds a reference to the subscription, and an application answers a
    request at most once. *)
Theorem client_sub_refines {LO : LibsOk L} {OQ : OffQuiet A} ext c s cl sub op w :
  csub_wf ext w → tombs_ok w → subs_null_ok w →
  w_clients w !! c = Some cl → w_subs w !! s = Some sub → ext s ≠ 0%nat →
  refs sub < 2 ^ 32 - 1 → (op = Accept → status c s w ≠ Active) →
  let r := run_csub_op op c s w in
  sub_spec (c_closing cl) (permit cl w) (room c sub) op (status c s w) r.1 (status c s r.2) ∧
  (∀ d x, ¬ (d = c ∧ x = s) → status d x r.2 = status d x w) ∧
  csub_wf ext r.2 ∧ tombs_ok r.2 ∧ subs_null_ok r.2 ∧ w_fault r.2 = w_fault w ∧
  (client_sub_active c s r.2 = true ↔ status c s r.2 = Active).
Proof.
  intros Hwf Ht Hn Hc Hs Hext Hr Hacc. by eapply csub_op_spec.
Qed.

(** ** Closing a client *)

Lemma changed_views c s o w w1 w2 :
  csub_changed c s o w w1 → views_same w1 w2 → csub_changed c s o w w2.
Proof.
  intros (cl & cl1 & H1 & H2 & H3 & H4) H. pose proof (H c) as Hc. rewrite H2 in Hc.
  destruct (w_clients w2 !! c) as [cl2|] eqn:E; [|done]. injection Hc as Hc _.
  exists cl, cl2. split; [done|]. split; [done|]. split.
  - rewrite <- H3. unfold subs_of. by rewrite Hc.
  - intros d Hd. rewrite <- H4 by done. specialize (H d).
    destruct (w_clients w2 !! d), (w_clients w1 !! d); try done. simpl in *. by injection H as ->.
Qed.

(** One round of the loop. *)
Lemma close_sub_done {LO : LibsOk L} {OQ : OffQuiet A} ext c s cs w :
  csub_wf ext w → _sub_get c s w = Some cs →
  csub_wf ext (close_sub c w s) ∧
  (∀ d x, _sub_get d x (close_sub c w s) = if decide (d = c ∧ x = s) then None else _sub_get d x w) ∧
  w_fault (close_sub c w s) = w_fault w ∧
  (∀ d, d ≠ c → view <$> w_clients (close_sub c w s) !! d = view <$> w_clients w !! d) ∧
  is_Some (w_clients (close_sub c w s) !! c).
Proof.
  intros Hwf Hcs. destruct (cw_alloc ext w Hwf c s cs Hcs) as [sub Hs].
  destruct (sub_get_client c s cs w Hcs) as (cl & m & Hc & Hm & Hms). unfold close_sub.
  set (w1 := upd_client c (set_c_subs (fmap (delete s))) w).
  assert (E1 : w1 = set_w_clients <[c := set_c_subs (fmap (delete s)) cl]> w)
    by (subst w1; unfold upd_client; by rewrite Hc).
  assert (C1 : csub_changed c s None w w1).
  { exists cl, (set_c_subs (fmap (delete s)) cl). split; [done|]. rewrite E1. simpl.
    split; [apply lookup_insert_eq|]. split; [unfold subs_of; simpl; by rewrite Hm|].
    intros d Hd. by rewrite lookup_insert_ne. }
  assert (Hwf1 : subs_wf w1) by (rewrite E1; by apply (subs_wf_ext w); [| | |apply (cw_subs ext)]).
  assert (Hs1 : w_subs w1 !! s = Some sub) by (by rewrite E1).
  destruct (cleanup_spec c s sub w1 Hwf1 Hs1) as (H1 & H2 & H3 & H4 & H5 & H6 & H7).
  set (w2 := _sub_cleanup c s false w1) in *.
  pose proof (changed_views c s None w w1 w2 C1 H7) as C2.
  assert (Heo : entry_ok c s sub None w w2).
  { split; [done|done| |]; rewrite Hcs; simpl; rewrite ?H3, ?H4, ?H5, E1; simpl; lia. }
  assert (Hsubs : w_subs w1 = w_subs w) by (by rewrite E1). rewrite Hsubs in H2.
  split; [|split; [by intros; apply csub_changed_get|split; [by rewrite H6, E1|split]]].
  - destruct (Z.eqb_spec (refs sub) 1) as [E|E].
    + by apply (csub_wf_gone ext c s sub w).
    + apply (csub_wf_update ext c s sub (sub_without c sub) None w); try done.
      * rewrite Hcs. simpl. lia.
      * intros d. simpl. rewrite list_remove. case_decide; [|tauto].
        split; [tauto|]. by intros (? & ? & _).
      * simpl. apply list_remove_NoDup. by apply (cw_nodup ext w Hwf s).
  - intros d Hd. rewrite H7, E1. simpl. by rewrite lookup_insert_ne.
  - destruct C2 as (_ & cl' & _ & Hc' & _). by eexists.
Qed.

Lemma close_subs_done {LO : LibsOk L} {OQ : OffQuiet A} ext c order w :
  csub_wf ext w → NoDup order → (∀ s, s ∈ order → is_Some (_sub_get c s w)) →
  is_Some (w_clients w !! c) →
  let w' := foldl (close_sub c) w order in
  csub_wf ext w' ∧
  (∀ d x, _sub_get d x w' = if decide (d = c ∧ x ∈ order) then None else _sub_get d x w) ∧
  w_fault w' = w_fault w ∧
  (∀ d, d ≠ c → view <$> w_clients w' !! d = view <$> w_clients w !! d) ∧
  is_Some (w_clients w' !! c).
Proof.
  revert w. induction order as [|s order IH]; intros w Hwf Hnd Hin Hc; simpl.
  { split; [done|]. split; [|done]. intros d x. rewrite decide_False; [done|].
    intros [_ H]. by apply elem_of_nil in H. }
  apply NoDup_cons in Hnd as [Hs Hnd]. destruct (Hin s) as [cs Hcs]; [set_solver|].
  destruct (close_sub_done ext c s cs w Hwf Hcs) as (H1 & H2 & H3 & H4 & H5).
  destruct (IH (close_sub c w s)) as (I1 & I2 & I3 & I4 & I5); try done.
  { intros x Hx. rewrite H2, decide_False by (intros [_ ->]; done). apply Hin. set_solver. }
  split; [done|]. split; [|split; [congruence|split; [|done]]].
  - intros d x. rewrite I2, H2. destruct (decide (d = c ∧ x ∈ s :: order)) as [[-> Hx]|Hne].
    + apply elem_of_cons in Hx as [->|Hx]; [|by rewrite decide_True].
      rewrite decide_False by tauto. by rewrite decide_True.
    + rewrite elem_of_cons in Hne. rewrite !decide_False by tauto. done.
  - intros d Hd. by rewrite I4, H4.
Qed.

Lemma csub_wf_same ext w w' :
  w_subs w' = w_subs w → w_ev_subs w' = w_ev_subs w → w_fair w' = w_fair w →
  (∀ k, k ∈ [subs_total; clients_subs_added; clients_subs_removed] → w_stats w' k = w_stats w k) →
  (∀ c s, _sub_get c s w' = _sub_get c s w) → all_subs w' ≡ₚ all_subs w →
  csub_wf ext w → csub_wf ext w'.
Proof.
  intros E1 E2 E3 E4 Hg Ha [W R E Al M N F S].
  split; intros *; rewrite ?E1, ?E3, ?Ha, ?Hg, ?E4 by set_solver; auto.
  - apply (subs_wf_ext w); auto. apply E4. set_solver.
  - apply Al.
  - apply N.
Qed.

Lemma csub_wf_ext ext w w' :
  w_subs w' = w_subs w → w_ev_subs w' = w_ev_subs w → w_fair w' = w_fair w →
  (∀ k, k ∈ [subs_total; clients_subs_added; clients_subs_removed] → w_stats w' k = w_stats w k) →
  (∀ d, subs_of <$> w_clients w' !! d = subs_of <$> w_clients w !! d) →
  csub_wf ext w → csub_wf ext w'.
Proof.
  intros E1 E2 E3 E4 E5. apply csub_wf_same; try done.
  - intros c s. rewrite !sub_get_eq. specialize (E5 c).
    destruct (w_clients w' !! c), (w_clients w !! c); try done. simpl in *. by injection E5 as ->.
  - apply map_items_ext. intros d. specialize (E5 d). unfold held_subs.
    destruct (w_clients w' !! d), (w_clients w !! d); try done. simpl in *. by injection E5 as ->.
Qed.

Lemma closed_all_subs c cl w w' :
  w_clients w !! c = Some cl → c_subs <$> w_clients w' !! c = Some None →
  (∀ d, d ≠ c → view <$> w_clients w' !! d = view <$> w_clients w !! d) →
  all_subs w' ++ held_subs cl ≡ₚ all_subs w.
Proof.
  intros Hc Hc' H. set (cl0 := set_c_subs (λ _, None) cl).
  assert (E : all_subs w' ≡ₚ map_items held_subs (<[c := cl0]> (w_clients w))).
  { apply map_items_ext. intros d. unfold held_subs, subs_of.
    destruct (decide (d = c)) as [->|Hd].
    - rewrite lookup_insert_eq. destruct (w_clients w' !! c); [|done]. simpl in *. by injection Hc' as ->.
    - rewrite lookup_insert_ne by done. specialize (H d Hd).
      destruct (w_clients w' !! d), (w_clients w !! d); try done. simpl in *. by injection H as -> _. }
  rewrite E. pose proof (map_items_insert held_subs (w_clients w) c cl0 cl Hc) as Hm.
  rewrite Hm. unfold held_subs at 2, subs_of, cl0. simpl. rewrite map_to_list_empty. simpl.
  by rewrite app_nil_r.
Qed.

Lemma closed_in_done {LO : LibsOk L} {OQ : OffQuiet A} ext c cl order w :
  csub_wf ext w → w_clients w !! c = Some cl → order ≡ₚ held_subs cl →
  let w' := client_closed_in order c w in
  csub_wf ext w' ∧ w_fault w' = w_fault w ∧
  c_subs <$> w_clients w' !! c = Some None ∧
  (∀ s, _sub_get c s w' = None) ∧
  (∀ d, d ≠ c → view <$> w_clients w' !! d = view <$> w_clients w !! d).
Proof.
  intros Hwf Hc Horder w'.
  assert (Hin : ∀ s, s ∈ order ↔ is_Some (_sub_get c s w)).
  { intros s. rewrite Horder, sub_get_eq, Hc. simpl. unfold held_subs. rewrite list_elem_of_fmap.
    split; [intros ([k cs] & -> & H%elem_of_map_to_list); by eexists|].
    intros [cs H]. exists (s, cs). by rewrite elem_of_map_to_list. }
  subst w'. unfold client_closed_in. rewrite Hc. destruct (c_subs cl) as [m|] eqn:Hm.
  - destruct (close_subs_done ext c order w) as (H1 & H2 & H3 & H4 & [cl1 H5]); try done.
    { rewrite Horder. apply NoDup_fst_map_to_list. }
    { intros s Hs. by apply Hin. }
    set (w1 := foldl (close_sub c) w order) in *.
    assert (E : upd_client c (set_c_subs (λ _, None)) w1 =
      set_w_clients <[c := set_c_subs (λ _, None) cl1]> w1) by (unfold upd_client; by rewrite H5).
    assert (Hnone : ∀ s, _sub_get c s w1 = None).
    { intros s. rewrite H2. case_decide as Hd; [done|]. apply eq_None_not_Some. rewrite <- Hin. tauto. }
    assert (Hempty : subs_of cl1 = ∅).
    { apply map_empty. intros s. specialize (Hnone s). rewrite sub_get_eq, H5 in Hnone. done. }
    rewrite E. split; [|split; [done|split; [|split]]].
    + apply (csub_wf_ext ext w1); try done. intros d. simpl.
      destruct (decide (d = c)) as [->|]; [|by rewrite lookup_insert_ne].
      rewrite lookup_insert_eq, H5. simpl. by rewrite Hempty.
    + simpl. by rewrite lookup_insert_eq.
    + intros s. unfold _sub_get. simpl. by rewrite lookup_insert_eq.
    + intros d Hd. simpl. rewrite lookup_insert_ne by done. by apply H4.
  - split; [done|]. split; [done|]. split; [by rewrite Hc; simpl; rewrite Hm|]. split; [|done].
    intros s. unfold _sub_get. rewrite Hc. simpl. by rewrite Hm.
Qed.

(** C20. Closing a client, in whatever order its table is walked, ends all its
    subscriptions, pending ones too: it is a subscriber of nothing, its table
    is gone, its permits and references are returned, so a subscription that
    only it kept alive is freed. Other clients keep exactly what they had, no
    fault is raised and the invariants hold afterwards. *)
Theorem client_closed_correct {LO : LibsOk L} {OQ : OffQuiet A} ext c cl order w :
  csub_wf ext w → subs_null_ok w → w_clients w !! c = Some cl → order ≡ₚ held_subs cl →
  let w' := client_closed_in order c w in
  csub_wf ext w' ∧ subs_null_ok w' ∧ w_fault w' = w_fault w ∧
  c_subs <$> w_clients w' !! c = Some None ∧
  (∀ s, status c s w' = Absent) ∧
  (∀ d s, d ≠ c → status d s w' = status d s w) ∧
  (∀ s sub, w_subs w' !! s = Some sub → c ∉ qev_list_items (subscribers sub)) ∧
  qev_fair_used (w_fair w') = qev_fair_used (w_fair w) - Z.of_nat (size (subs_of cl)).
Proof.
  intros Hwf Hnull Hc Horder w'.
  destruct (closed_in_done ext c cl order w Hwf Hc Horder) as (H1 & H2 & H3 & H4 & H5).
  fold w' in H1, H2, H3, H4, H5.
  assert (Hother : ∀ d s, d ≠ c → _sub_get d s w' = _sub_get d s w).
  { intros d s Hd. rewrite !sub_get_eq. specialize (H5 d Hd).
    destruct (w_clients w' !! d), (w_clients w !! d); try done. simpl in *.
    unfold subs_of. by injection H5 as ->. }
  split; [done|]. split; [|split; [done|split; [done|split; [|split; [|split]]]]].
  - intros d cl' Hd. destruct (decide (d = c)) as [->|Hne]; [by rewrite Hd in H3; injection H3 as ->|].
    specialize (H5 d Hne). rewrite Hd in H5. destruct (w_clients w !! d) as [cl2|] eqn:E; [|done].
    injection H5 as -> _. by apply (Hnull d).
  - intros s. unfold status. by rewrite H4.
  - intros d s Hd. unfold status. by rewrite Hother.
  - intros s sub Hs. rewrite (cw_members ext w' H1 s sub c Hs), H4. by intros (? & ? & _).
  - rewrite (cw_fair ext w' H1), (cw_fair ext w Hwf).
    assert (E : all_subs w' ++ held_subs cl ≡ₚ all_subs w).
    { apply (closed_all_subs c cl w w'); done. }
    apply Permutation_length in E. rewrite length_app in E. unfold held_subs in E.
    rewrite length_fmap, length_map_to_list in E. lia.
Qed.

(** ** References held by calls *)

Lemma csub_wf_subs ext ext' w w' :
  csub_wf ext w → subs_wf w' → w_clients w' = w_clients w → w_fair w' = w_fair w →
  (∀ k, k ∈ [clients_subs_added; clients_subs_removed] → w_stats w' k = w_stats w k) →
  (∀ s sub', w_subs w' !! s = Some sub' →
     refs sub' = Z.of_nat (uses s (all_subs w) + ext' s) ∧
     ((∃ sub, w_subs w !! s = Some sub ∧ subscribers sub' = subscribers sub) ∨
      w_subs w !! s = None ∧ qev_list_items (subscribers sub') = [])) →
  (∀ s, ext' s ≠ 0%nat → is_Some (w_subs w' !! s)) →
  (∀ c s, is_Some (_sub_get c s w) → is_Some (w_subs w' !! s)) →
  csub_wf ext' w'.
Proof.
  intros [_ R E Al M N F S] Hwf Ec Ef Es Hsub He Ha.
  assert (Eall : all_subs w' = all_subs w) by (unfold all_subs; by rewrite Ec).
  assert (Eget : ∀ c s, _sub_get c s w' = _sub_get c s w) by (intros; unfold _sub_get; by rewrite Ec).
  split; [done|..].
  - intros s sub' Hs. rewrite Eall. by apply Hsub.
  - done.
  - intros c s cs. rewrite Eget. intros H. apply (Ha c). by eexists.
  - intros s sub' c Hs. rewrite Eget.
    destruct (Hsub s sub' Hs) as [_ [(sub & Hs0 & ->)|[Hs0 ->]]]; [by apply M|].
    split; [by intros ?%elem_of_nil|]. intros (cs & Hcs & _). apply Al in Hcs.
    rewrite Hs0 in Hcs. by destruct Hcs.
  - intros s sub' Hs. destruct (Hsub s sub' Hs) as [_ [(sub & Hs0 & ->)|[_ ->]]]; [by eapply N|constructor].
  - by rewrite Ef, Eall.
  - rewrite !Es, Eall by set_solver. done.
Qed.

Lemma sub_get_stats ev ox create k w :
  k ≠ subs_total → k ≠ subs_added → w_stats (sub_get ev ox create w).2 k = w_stats w k.
Proof.
  intros H1 H2. unfold sub_get, _get_if_exists.
  repeat (case_match; simplify_eq; simpl; try done); unfold upd_sub in *;
    repeat (case_match; simplify_eq; simpl in *; try done); by rewrite ?decide_False by congruence.
Qed.

Lemma uses_fresh ext w s :
  csub_wf ext w → w_subs w !! s = None → uses s (all_subs w) = 0%nat ∧ ext s = 0%nat.
Proof.
  intros Hwf Hs. split.
  - unfold uses. destruct (filter (λ x, x = s) (all_subs w)) as [|x l] eqn:E; [done|].
    assert (Hx : x ∈ filter (λ x, x = s) (all_subs w)) by (rewrite E; set_solver).
    apply list_elem_of_filter in Hx as [-> Hx]. unfold all_subs in Hx.
    apply map_items_elem in Hx as (c & cl & Hc & Hin). unfold held_subs in Hin.
    apply list_elem_of_fmap in Hin as ([k cs] & -> & Hk%elem_of_map_to_list).
    assert (is_Some (w_subs w !! k)) as [? H].
    { eapply (cw_alloc ext w Hwf c). rewrite sub_get_eq, Hc. exact Hk. }
    simpl in Hs. congruence.
  - destruct (ext s) eqn:E; [done|]. assert (is_Some (w_subs w !! s)) as [? H]; [|congruence].
    apply (cw_ext ext w Hwf). lia.
Qed.

Lemma csub_wf_get {LO : LibsOk L} ext ev ox create w :
  csub_wf ext w → (∀ s, sub_refs s w < 2 ^ 32 - 1) →
  let r := sub_get ev ox create w in
  match r.1 with
  | Some s => csub_wf (<[s := S (ext s)]> ext) r.2
  | None => r.2 = w
  end ∧ sub_mask r.2 = sub_mask w.
Proof.
  intros Hwf Hsm r. pose proof (sub_get_spec ev ox create w (cw_subs ext w Hwf) Hsm) as H.
  pose proof (sub_get_wf ev ox create w (cw_subs ext w Hwf) Hsm) as Hwf'.
  assert (Hst : ∀ k, k ∈ [clients_subs_added; clients_subs_removed] →
    w_stats (sub_get ev ox create w).2 k = w_stats w k)
    by (intros k Hk; apply sub_get_stats; intros ->; set_solver).
  cbv zeta in H. subst r. destruct (ev_sub ev (default [] ox) w) as [s|] eqn:E.
  - destruct H as (sub & Hs & Hr & E1). rewrite E1 in *. cbn [fst snd] in *. split; [|done].
    apply (csub_wf_subs ext _ w); try done.
    + intros s' sub'. simpl. rewrite lookup_insert_Some. intros [[<- <-]|[Hne Hs']].
      * rewrite fn_lookup_insert. simpl. rewrite (cw_refs ext w Hwf s sub Hs).
        split; [lia|]. left. by exists sub.
      * rewrite fn_lookup_insert_ne by done. rewrite (cw_refs ext w Hwf s' sub' Hs').
        split; [done|]. left. by exists sub'.
    + intros s'. simpl. rewrite lookup_insert_is_Some. destruct (decide (s = s')) as [|Hne]; [by left|].
      rewrite fn_lookup_insert_ne by done. intros ?. right. split; [done|]. by apply (cw_ext ext).
    + intros c s' [cs Hcs]. simpl. rewrite lookup_insert_is_Some.
      destruct (decide (s = s')) as [|Hne]; [by left|right]. split; [done|]. by eapply (cw_alloc ext).
  - rewrite H in *. destruct create; [|done]. cbn [fst snd] in *.
    pose proof (fresh_sub w) as Hf. set (s := fresh (dom (w_subs w))) in *. split; [|done].
    destruct (uses_fresh ext w s Hwf Hf) as [Hu He].
    apply (csub_wf_subs ext _ w); try done.
    + intros s' sub'. simpl. rewrite lookup_insert_Some. intros [[<- <-]|[Hne Hs']].
      * rewrite fn_lookup_insert, Hu, He. split; [done|]. right. split; [done|]. apply list_new.
      * rewrite fn_lookup_insert_ne by done. rewrite (cw_refs ext w Hwf s' sub' Hs').
        split; [done|]. left. by exists sub'.
    + intros s'. simpl. rewrite lookup_insert_is_Some. destruct (decide (s = s')) as [|Hne]; [by left|].
      rewrite fn_lookup_insert_ne by done. intros ?. right. split; [done|]. by apply (cw_ext ext).
    + intros c s' [cs Hcs]. simpl. rewrite lookup_insert_is_Some.
      destruct (decide (s = s')) as [|Hne]; [by left|right]. split; [done|]. by eapply (cw_alloc ext).
Qed.

Lemma csub_wf_unref ext s w :
  csub_wf ext w → ext s ≠ 0%nat →
  csub_wf (<[s := pred (ext s)]> ext) (sub_unref s w) ∧ sub_mask (sub_unref s w) = sub_mask w.
Proof.
  intros Hwf Hext. destruct (cw_ext ext w Hwf s Hext) as [sub Hs].
  destruct (sub_unref_spec s sub w (cw_subs ext w Hwf) Hs) as (H1 & H2 & H3 & H4).
  split; [|done]. pose proof (subs_refs w (cw_subs ext w Hwf) s sub Hs) as Hr0.
  pose proof (cw_refs ext w Hwf s sub Hs) as Hr.
  assert (Hst : ∀ k, k ∈ [clients_subs_added; clients_subs_removed] →
    w_stats (sub_unref s w) k = w_stats w k)
    by (intros k Hk; apply sub_unref_stats; intros ->; set_solver).
  assert (Hpred : ∀ s', s' ≠ s → (<[s := pred (ext s)]> ext) s' = ext s')
    by (intros; by apply fn_lookup_insert_ne).
  apply (csub_wf_subs ext _ w); try done; [apply (f_equal w_clients H2)|apply (f_equal w_fair H2)|..].
  - intros s' sub'. destruct (Z.eq_dec (refs sub) 1) as [E|E].
    + destruct (H4 E) as [-> _]. rewrite lookup_delete_Some. intros [Hne Hs'].
      rewrite Hpred, (cw_refs ext w Hwf s' sub' Hs') by done. split; [done|]. left. by exists sub'.
    + rewrite H3 by lia. simpl. rewrite lookup_insert_Some. intros [[<- <-]|[Hne Hs']].
      * rewrite fn_lookup_insert. simpl. split; [lia|]. left. by exists sub.
      * rewrite Hpred, (cw_refs ext w Hwf s' sub' Hs') by done. split; [done|]. left. by exists sub'.
  - intros s' Hs'. destruct (decide (s' = s)) as [->|Hne].
    + rewrite fn_lookup_insert in Hs'. rewrite H3 by lia. simpl. rewrite lookup_insert_eq. by eexists.
    + rewrite Hpred in Hs' by done. apply (cw_ext ext w Hwf) in Hs'.
      destruct (Z.eq_dec (refs sub) 1) as [E|E].
      * destruct (H4 E) as [-> _]. by rewrite lookup_delete_ne.
      * rewrite H3 by lia. simpl. by rewrite lookup_insert_ne.
  - intros c s' [cs Hcs]. pose proof (cw_alloc ext w Hwf c s' cs Hcs) as Ha.
    destruct (decide (s' = s)) as [->|Hne].
    + rewrite H3; [simpl; rewrite lookup_insert_eq; by eexists|].
      assert (uses s (all_subs w) ≠ 0%nat); [|lia]. intros Hz.
      destruct (sub_get_client c s cs w Hcs) as (cl & m & Hc & Hm & Hms).
      assert (s ∈ filter (λ x, x = s) (all_subs w)) as Hin.
      { apply list_elem_of_filter. split; [done|]. apply map_items_elem. exists c, cl.
        split; [done|]. apply list_elem_of_fmap. exists (s, cs). split; [done|].
        apply elem_of_map_to_list. unfold subs_of. by rewrite Hm. }
      unfold uses in Hz. apply nil_length_inv in Hz. rewrite Hz in Hin. by apply elem_of_nil in Hin.
    + destruct (Z.eq_dec (refs sub) 1) as [E|E].
      * destruct (H4 E) as [-> _]. by rewrite lookup_delete_ne.
      * rewrite H3 by lia. simpl. by rewrite lookup_insert_ne.
Qed.

(** The data of a client is a finite map from keys to non-NULL values:
    each operation reads or writes exactly its key of exactly its client,
    setting NULL does nothing, and the table is dropped with its last entry. *)
Theorem client_data_correct c cl key key' val w :
  w_clients w !! c = Some cl → c_data cl ≠ Some ∅ →
  client_has c key w = bool_decide (is_Some (client_get c key w)) ∧
  client_set c key None w = w ∧
  client_get c key' (client_set c key (Some val) w) =
    (if decide (key' = key) then Some val else client_get c key' w) ∧
  client_get c key' (client_del c key w) =
    (if decide (key' = key) then None else client_get c key' w) ∧
  Forall (λ w', w_fault w' = w_fault w ∧ c_data <$> w_clients w' !! c ≠ Some (Some ∅) ∧
    ∀ d, d ≠ c → w_clients w' !! d = w_clients w !! d)
    [client_set c key (Some val) w; client_del c key w].
Proof.
  intros Hc Hd.
  assert (Hother : ∀ f d, d ≠ c → w_clients (upd_client c f w) !! d = w_clients w !! d).
  { intros f d Hne. unfold upd_client. rewrite Hc. simpl. by rewrite lookup_insert_ne. }
  assert (Hself : ∀ f, w_clients (upd_client c f w) !! c = Some (f cl) ∧
                       w_fault (upd_client c f w) = w_fault w).
  { intros f. unfold upd_client. rewrite Hc. simpl. by rewrite lookup_insert_eq. }
  unfold client_has, client_get, client_set, client_del.
  split; [rewrite Hc; simpl; by destruct (c_data cl)|]. split; [done|].
  rewrite !Forall_cons_iff, !(proj1 (Hself _)), !(proj2 (Hself _)), Hc. simpl.
  destruct (c_data cl) as [m|] eqn:E; simpl.
  - split; [rewrite lookup_insert; repeat case_decide; congruence|].
    split; [|split; [split; [done|split; [|auto]]|split; [split; [done|split; [|auto]]|done]]].
    + case_decide as He; simpl; [|rewrite lookup_delete; repeat case_decide; congruence].
      case_decide; [done|]. rewrite <- (lookup_delete_ne m key) by done. by rewrite He, lookup_empty.
    + intros [= H]. by apply insert_non_empty in H.
    + case_decide; congruence.
  - split; [rewrite lookup_insert, lookup_empty; repeat case_decide; congruence|].
    split; [by case_decide|].
    split_and!; auto.
Qed.

End ClientSub.

(** ** Witnesses *)

(** A connected client, and an event subscription somebody else is setting up:
    one reference outside the clients. *)
Definition cs_world0 : world (L := libs0) :=
  set_w_clients (L := libs0) <[1%positive := qev_client_new false]>
    (world0 (Reference.mkPool 10 0)).
Definition cs_world1 : world (L := libs0) :=
  (sub_get (L := libs0) demo_event (Some (str "/a")) true cs_world0).2.
Definition cs_ext : positive → nat := <[1%positive := 1%nat]> (λ _, 0%nat).
Definition cs_client : client := qev_client_new false.
Definition cs_sub : subscription (L := libs0) := mkSub (L := libs0) demo_event (str "/a") [] 1.

Lemma cs_world0_wf : csub_wf (L := libs0) (λ _, 0%nat) cs_world0.
Proof.
  assert (Hg : ∀ c s, _sub_get (L := libs0) c s cs_world0 = None).
  { intros c s. rewrite sub_get_eq. simpl. rewrite lookup_insert. by case_decide. }
  split; [|done|done| |done|done|done|done].
  - by apply (subs_wf_ext (L := libs0) demo_subs); [| | |apply demo_subs_wf].
  - intros c s cs. by rewrite Hg.
Qed.

Lemma cs_world1_wf : csub_wf (L := libs0) cs_ext cs_world1.
Proof.
  refine (proj1 (csub_wf_get (L := libs0) (λ _, 0%nat) demo_event (Some (str "/a")) true
    cs_world0 cs_world0_wf _)).
  intros s. unfold sub_refs. simpl. by rewrite lookup_empty.
Qed.

Lemma cs_world1_ok : tombs_ok (L := libs0) cs_world1 ∧ subs_null_ok (L := libs0) cs_world1.
Proof.
  assert (E : w_clients (L := libs0) cs_world1 = <[1%positive := cs_client]> ∅) by reflexivity.
  split.
  - intros c s cs. rewrite sub_get_eq, E, lookup_insert, lookup_empty. by case_decide.
  - intros c cl. rewrite E, lookup_insert. case_decide; [by intros [= <-]|].
    by rewrite lookup_empty.
Qed.

Lemma client_sub_refines_witness :
  let r := run_csub_op (L := libs0) (A := apps0 libs0) Add 1%positive 1%positive cs_world1 in
  w_subs (L := libs0) cs_world1 !! 1%positive = Some cs_sub ∧
  r.1 = RState CLIENT_SUB_CREATED ∧
  sub_spec false (permit (L := libs0) cs_client cs_world1) (room (L := libs0) 1%positive cs_sub)
    Add (status (L := libs0) 1%positive 1%positive cs_world1) r.1
    (status (L := libs0) 1%positive 1%positive r.2).
Proof.
  assert (H : w_subs (L := libs0) cs_world1 !! 1%positive = Some cs_sub) by reflexivity.
  split; [exact H|]. split; [vm_compute; reflexivity|].
  refine (proj1 (client_sub_refines (L := libs0) (A := apps0 libs0) cs_ext 1%positive 1%positive
    cs_client cs_sub Add cs_world1 cs_world1_wf (proj1 cs_world1_ok) (proj2 cs_world1_ok)
    eq_refl H _ eq_refl _)); [vm_compute; discriminate|discriminate].
Defined.

(** Two clients, and subscriptions to /a and /b. Both clients subscribe to /a;
    the first also waits for /b, which nobody else holds. *)
Definition two_world0 : world (L := libs0) :=
  set_w_clients (L := libs0) (λ _, <[1%positive := qev_client_new false]> {[2%positive := qev_client_new false]})
    (world0 (Reference.mkPool 10 0)).
Definition two_get (x : string) (w : world (L := libs0)) : world (L := libs0) :=
  (sub_get (L := libs0) demo_event (Some (str x)) true w).2.
Definition two_op (op : csub_op) (c s : positive) (w : world (L := libs0)) : world (L := libs0) :=
  (run_csub_op (L := libs0) (A := apps0 libs0) op c s w).2.

Definition two_world1 := two_get "/b" (two_get "/a" two_world0).
Definition two_world2 := two_op Accept 1 1 (two_op Add 1 1 two_world1).
Definition two_world3 := two_op Accept 2 1 (two_op Add 2 1 two_world2).
Definition two_world : world (L := libs0) :=
  sub_unref (L := libs0) 2 (sub_unref (L := libs0) 1 (two_op Add 1 2 two_world3)).

Definition two_ok (ext : positive → nat) (w : world (L := libs0)) : Prop :=
  csub_wf (L := libs0) ext w ∧ tombs_ok (L := libs0) w ∧ subs_null_ok (L := libs0) w.

Lemma two_op_ok ext op c s cl sub w :
  two_ok ext w → w_clients w !! c = Some cl → w_subs w !! s = Some sub → ext s ≠ 0%nat →
  (refs (L := libs0) sub <? 2 ^ 32 - 1) = true → (op = Accept → status (L := libs0) c s w ≠ Active) →
  two_ok ext (two_op op c s w).
Proof.
  intros (H1 & H2 & H3) Hc Hs He Hr Ha.
  destruct (csub_op_spec (L := libs0) (A := apps0 libs0) ext c s cl sub op w H1 H2 H3 Hc Hs He)
    as (_ & _ & K1 & K2 & K3 & _); [lia|done|]. by split.
Qed.

Lemma two_get_ok ext x w :
  csub_wf (L := libs0) ext w → (∀ s, sub_refs (L := libs0) s w < 2 ^ 32 - 1) →
  match (sub_get (L := libs0) demo_event (Some (str x)) true w).1 with
  | Some s => csub_wf (L := libs0) (<[s := S (ext s)]> ext) (two_get x w)
  | None => True
  end.
Proof.
  intros H Hr. pose proof (proj1 (csub_wf_get (L := libs0) ext demo_event (Some (str x)) true w H Hr)) as K.
  unfold two_get. by destruct (sub_get _ _ _ _) as [[s|] w'].
Qed.

Definition two_ext : positive → nat := <[2%positive := 1%nat]> (<[1%positive := 1%nat]> (λ _, 0%nat)).

Lemma two_world1_ok : two_ok two_ext two_world1.
Proof.
  assert (Hsub : ∀ c, subs_of <$> w_clients two_world0 !! c = Some ∅ ∨ w_clients two_world0 !! c = None).
  { intros c. simpl. rewrite lookup_insert. case_decide; [by left|]. rewrite lookup_singleton.
    case_decide; [by left|by right]. }
  assert (Hg : ∀ c s, _sub_get (L := libs0) c s two_world0 = None).
  { intros c s. rewrite sub_get_eq. specialize (Hsub c). destruct (w_clients two_world0 !! c) as [cl|]; [|done].
    destruct Hsub as [[= E]|]; [|done]. simpl. by rewrite E. }
  assert (H0 : csub_wf (L := libs0) (λ _, 0%nat) two_world0).
  { split; [|done|done| |done|done|reflexivity|reflexivity].
    - by apply (subs_wf_ext (L := libs0) demo_subs); [| | |apply demo_subs_wf].
    - intros c s cs. by rewrite Hg. }
  assert (H1 : csub_wf (L := libs0) (<[1%positive := 1%nat]> (λ _, 0%nat)) (two_get "/a" two_world0)).
  { apply (two_get_ok (λ _, 0%nat) "/a" two_world0 H0). intros s. unfold sub_refs. simpl. by rewrite lookup_empty. }
  assert (H2 : csub_wf (L := libs0) two_ext two_world1).
  { apply (two_get_ok _ "/b" _ H1). intros s. unfold sub_refs.
    change (w_subs (two_get "/a" two_world0)) with (<[1%positive := mkSub (L := libs0) demo_event (str "/a") [] 1]>
      (∅ : gmap positive (subscription (L := libs0)))).
    rewrite lookup_insert, lookup_empty. case_decide; [simpl; lia|lia]. }
  assert (E : w_clients two_world1 = w_clients two_world0) by reflexivity.
  split; [exact H2|]. split.
  - intros c s cs. unfold _sub_get. rewrite E. fold (_sub_get (L := libs0) c s two_world0). by rewrite Hg.
  - intros c cl. rewrite E. simpl. rewrite lookup_insert. case_decide; [by intros [= <-]|].
    rewrite lookup_singleton. case_decide; [by intros [= <-]|done].
Qed.

(** Nobody but the clients holds the subscriptions. *)
Lemma two_world_ok :
  ∃ ext : positive → nat, (∀ s, ext s = 0%nat) ∧ csub_wf (L := libs0) ext two_world ∧ subs_null_ok (L := libs0) two_world.
Proof.
  assert (H2 : two_ok two_ext two_world2).
  { eapply two_op_ok; [eapply two_op_ok; [exact two_world1_ok|reflexivity|reflexivity|done|reflexivity|done]
      |reflexivity|reflexivity|done|reflexivity|vm_compute; discriminate]. }
  assert (H3 : two_ok two_ext two_world3).
  { eapply two_op_ok; [eapply two_op_ok; [exact H2|reflexivity|reflexivity|done|reflexivity|done]
      |reflexivity|reflexivity|done|reflexivity|vm_compute; discriminate]. }
  assert (H4 : two_ok two_ext (two_op Add 1 2 two_world3)).
  { eapply two_op_ok; [exact H3|reflexivity|reflexivity|done|reflexivity|done]. }
  destruct H4 as (H4 & _ & H5).
  destruct (csub_wf_unref (L := libs0) two_ext 1 _ H4) as [J1 M1]; [done|].
  destruct (csub_wf_unref (L := libs0) _ 2 _ J1) as [J2 M2]; [done|].
  eexists. split; [|split; [exact J2|]].
  - intros s. destruct (decide (s = 2%positive)) as [->|]; [by rewrite fn_lookup_insert|].
    rewrite fn_lookup_insert_ne by done. destruct (decide (s = 1%positive)) as [->|]; [by rewrite fn_lookup_insert|].
    unfold two_ext. by rewrite !fn_lookup_insert_ne.
  - intros c cl. unfold two_world. rewrite (mask_clients _ _ M2), (mask_clients _ _ M1). apply H5.
Qed.

Lemma client_closed_correct_witness :
  let w' := client_closed_in (L := libs0) (A := apps0 libs0) [1; 2]%positive 1 two_world in
  (status (L := libs0) 1 1 two_world = Active ∧ status (L := libs0) 1 2 two_world = Pending ∧
   status (L := libs0) 2 1 two_world = Active ∧ ev_sub (L := libs0) demo_event (str "/b") two_world = Some 2%positive ∧
   w_fair two_world = Reference.mkPool 10 3) ∧
  (∀ s, status (L := libs0) 1 s w' = Absent) ∧ status (L := libs0) 2 1 w' = Active ∧
  ev_sub (L := libs0) demo_event (str "/b") w' = None ∧ qev_fair_used (Libs := libs0) (w_fair w') = 1.
Proof.
  assert (Hne : 2%positive ≠ 1%positive) by done.
  assert (Hold : status (L := libs0) 2 1 two_world = Active) by (vm_compute; reflexivity).
  destruct two_world_ok as (ext & _ & H1 & H2).
  assert (Hh : (λ cl, (held_subs cl, size (subs_of cl))) <$> w_clients two_world !! 1%positive =
    Some ([2; 1]%positive, 2%nat)) by (vm_compute; reflexivity).
  destruct (w_clients two_world !! 1%positive) as [cl|] eqn:Hc; [|discriminate].
  apply (inj Some) in Hh. injection Hh as Ho Hn.
  assert (Ho' : [1; 2]%positive ≡ₚ held_subs cl) by (rewrite Ho; constructor).
  destruct (client_closed_correct (L := libs0) (A := apps0 libs0) ext 1 cl [1; 2]%positive two_world H1 H2 Hc Ho')
    as (_ & _ & _ & _ & K1 & K2 & _ & K3).
  split; [split; [vm_compute; reflexivity|split; [vm_compute; reflexivity|split; [vm_compute; reflexivity|split; [vm_compute; reflexivity|reflexivity]]]]|].
  split; [exact K1|]. split; [exact (eq_trans (K2 2%positive 1%positive Hne) Hold)|].
  split; [vm_compute; reflexivity|]. rewrite K3, Hn. vm_compute. reflexivity.
Defined.

Lemma client_data_correct_witness :
  client_get (L := libs0) 1%positive 7 (client_set (L := libs0) 1%positive 7 (Some 5) cs_world1) = Some 5 ∧
  client_set (L := libs0) 1%positive 7 None cs_world1 = cs_world1.
Proof.
  split; [vm_compute; reflexivity|].
  exact (proj1 (proj2 (client_data_correct (L := libs0) 1%positive cs_client 7 7 5 cs_world1
    eq_refl ltac:(discriminate)))).
Defined.
