(* ===== verification/Raw.v ===== *)
(** The raw protocol's bytes: src/protocols_raw.c without its effects on the
    client, which are in Receive.v. Every other protocol carries messages in
    the text format defined here. *)
From Stdlib Require Import ZArith Lia String.
From stdpp Require Import base list gmap strings.
From S2P Require Import Prelude Libs Types.

Section Raw.
Context {L : Libs}.

Definition HANDSHAKE : bytes := str "/qio/ohai".
Definition PROTOCOLS_HEARTBEAT : bytes := str "/qio/heartbeat:0=null".
Definition RAW_HEARTBEAT : bytes := [0; 0; 0; 0; 0; 0; 0; 21] ++ PROTOCOLS_HEARTBEAT.

(** ** Sending *)

Definition protocol_raw_format (ev_path ev_extra : bytes) (server_cb : Z) (json : bytes) : bytes :=
  ev_path ++ ev_extra ++ [COLON] ++ qev_uint server_cb ++ [EQUALS] ++ json.

Definition protocol_raw_frame (ev_path ev_extra : bytes) (server_cb : Z) (json : bytes) :
    protocol_frames :=
  let buff := protocol_raw_format ev_path ev_extra server_cb json in
  mkFrames (Some (be_split 8 (Z.of_nat (length buff)) ++ buff)) None.

(** ** Receiving *)

(** [memmove(buf + dst, buf + src, n)] inside one buffer. *)
Definition memmove (buf : bytes) (dst src n : nat) : bytes :=
  take dst buf ++ take n (drop src buf) ++ drop (dst + n) buf.

Inductive extract :=
  | XAgain
  | XFatal
  | XEvent (event : bytes) (buf : bytes) (total_len : Z).

(** [protocol_raw_route] up to the call of [protocol_raw_handle]: the C string
    it passes, the changed buffer and what to add to [*used]. *)
Definition raw_extract (buf : bytes) (used : nat) : extract :=
  let rbuff_len := (length buf - used)%nat in
  if (rbuff_len <? 8)%nat then XAgain
  else
    let len := be_join (take 8 (drop used buf)) in
    match qev_safe_uadd len 8 with
    | None => XFatal
    | Some total_len =>
        if Z.of_nat rbuff_len <? total_len then XAgain
        else
          let buf := memmove buf used (used + 8) (Z.to_nat len) in
          let buf := wr buf (used + Z.to_nat len) NUL in
          XEvent (cstr (drop used buf)) buf total_len
    end.

(** [protocol_raw_handle] up to the call of [evs_route]: the path, the callback
    id and the JSON, or the goto to [error]. [errno] is [errno == ERANGE]
    before the call; the second result is the same after it. *)
Definition raw_parse (errno : bool) (event : bytes) : option (bytes * Z * bytes) * bool :=
  match cut COLON event with
  | None => (None, errno)
  | Some (ev_path, curr) =>
      let '(client_cb, n, erange) := g_ascii_strtoull curr in
      let errno := errno || erange in
      if negb (rd curr n =? EQUALS) || (n =? 0)%nat || ((client_cb =? u64_max) && errno)
      then (None, errno)
      else (Some (ev_path, client_cb, drop (S n) curr), errno)
  end.

(** ** Extraction *)

Lemma memmove_spec pre hd body rest :
  memmove (pre ++ hd ++ body ++ rest) (length pre) (length pre + length hd) (length body) =
  pre ++ body ++ drop (length body) (hd ++ body ++ rest).
Proof.
  unfold memmove. rewrite take_app_length. f_equal.
  rewrite <- drop_drop, drop_app_length, drop_app_length, take_app_length. f_equal.
  by rewrite <- drop_drop, drop_app_length.
Qed.

Lemma wr_mid pre (b v : Z) rest :
  wr (pre ++ b :: rest) (length pre) v = pre ++ v :: rest.
Proof. unfold wr. by rewrite insert_app_r_alt, Nat.sub_diag by done. Qed.

(** The frame [be_split 8 len ++ body] at [used], with whatever follows. *)
Lemma raw_extract_frame {LO : LibsOk L} pre hd body rest :
  bytes_ok hd → length hd = 8%nat → be_join hd = Z.of_nat (length body) →
  Z.of_nat (length body) + 8 < 2 ^ 64 →
  ∃ buf, raw_extract (pre ++ hd ++ body ++ rest) (length pre) =
    XEvent (cstr body) buf (Z.of_nat (length body) + 8) ∧
    take (length pre) buf = pre ∧ length buf = length (pre ++ hd ++ body ++ rest) ∧
    drop (length pre + 8 + length body) buf = rest.
Proof.
  intros Hok Hlen Hjoin Hsmall. unfold raw_extract.
  rewrite drop_app_length, (take_app_length' hd), Hjoin by done.
  rewrite (proj2 (Nat.ltb_ge _ _)) by (rewrite !length_app; lia).
  rewrite safe_uadd, (proj2 (Z.ltb_lt _ _)) by lia.
  rewrite (proj2 (Z.ltb_ge _ _)) by (rewrite !length_app; lia).
  rewrite Nat2Z.id.
  replace (length pre + 8)%nat with (length pre + length hd)%nat by lia. rewrite memmove_spec.
  assert (Hd : ∃ b l, drop (length body) (hd ++ body ++ rest) = b :: l ∧
     length l = (7 + length rest)%nat ∧ drop 7 l = rest).
  { destruct (drop (length body) (hd ++ body ++ rest)) as [|b l] eqn:E.
    - apply (f_equal length) in E. rewrite length_drop, !length_app in E. simpl in E. lia.
    - exists b, l. split; [done|]. split.
      + apply (f_equal length) in E. rewrite length_drop, !length_app in E. simpl in E. lia.
      + change (drop 7 l) with (drop 8 (b :: l)). rewrite <- E, drop_drop.
        rewrite app_assoc. apply drop_app_length'. rewrite length_app. lia. }
  destruct Hd as (b & l & -> & Hl & Hrest).
  replace (length pre + length body)%nat with (length (pre ++ body)) by apply length_app.
  rewrite app_assoc, wr_mid. eexists. split; [rewrite <- app_assoc, drop_app_length|].
  - f_equal. clear. induction body as [|x body IH]; simpl; [done|]. by rewrite IH.
  - split; [apply take_app_length|]. split.
    + rewrite !length_app. simpl. rewrite Hl. lia.
    + replace (length pre + length hd + length body)%nat
        with (length pre + (length body + (1 + 7)))%nat by lia.
      rewrite <- !drop_drop, !drop_app_length. exact Hrest.
Qed.

(** The parts of an input that holds a whole frame. *)
Lemma input_split input :
  (8 ≤ length input)%nat → bytes_ok input →
  be_join (take 8 input) + 8 ≤ Z.of_nat (length input) →
  ∃ hd body rest, input = hd ++ body ++ rest ∧ length hd = 8%nat ∧ bytes_ok hd ∧
    be_join hd = Z.of_nat (length body) ∧ take 8 input = hd ∧
    take (length body) (drop 8 input) = body.
Proof.
  intros Hlen Hok Hb. set (hd := take 8 input) in *.
  assert (Hhd : length hd = 8%nat) by (unfold hd; rewrite length_take; lia).
  assert (Hok' : bytes_ok hd) by (by apply Forall_take).
  pose proof (be_join_bound hd Hok') as Hbd. set (n := Z.to_nat (be_join hd)).
  exists hd, (take n (drop 8 input)), (drop n (drop 8 input)).
  assert (Hn : length (take n (drop 8 input)) = n)
    by (rewrite length_take, length_drop; lia).
  split; [unfold hd; by rewrite !take_drop|]. split; [done|]. split; [done|].
  split; [rewrite Hn; lia|]. split; [done|]. by rewrite Hn.
Qed.

(** A frame lies inside the buffer, whose size never changes. *)
Lemma raw_extract_buffer {LO : LibsOk L} buf used event buf' total_len :
  bytes_ok buf → (used ≤ length buf)%nat → raw_extract buf used = XEvent event buf' total_len →
  8 ≤ total_len ∧ (used + Z.to_nat total_len ≤ length buf)%nat ∧
  length buf' = length buf ∧ bytes_ok buf'.
Proof.
  intros Hok Hused. unfold raw_extract.
  destruct (Nat.ltb_spec (length buf - used) 8) as [|H8]; [done|].
  set (len := be_join (take 8 (drop used buf))).
  assert (Hin : bytes_ok (take 8 (drop used buf))) by (by apply Forall_take, Forall_drop).
  pose proof (be_join_bound _ Hin) as Hb. rewrite length_take, length_drop in Hb. fold len in Hb.
  assert (Hlt : len < 2 ^ 64).
  { eapply Z.lt_le_trans; [apply Hb|]. change (2 ^ 64) with (256 ^ 8). apply Z.pow_le_mono_r; lia. }
  rewrite safe_uadd by lia. destruct (_ <? 2 ^ 64); [|done].
  destruct (Z.ltb_spec (Z.of_nat (length buf - used)) (len + 8)) as [|Hge]; [done|].
  intros H. injection H as _ <- <-. split; [lia|]. split; [lia|].
  unfold wr, memmove. rewrite length_insert, !length_app, !length_take, !length_drop. split; [lia|].
  apply Forall_insert; [|done]. rewrite !Forall_app.
  split; [by apply Forall_take|]. split; [by apply Forall_take, Forall_drop|by apply Forall_drop].
Qed.

Lemma raw_extract_spec {LO : LibsOk L} buf used :
  bytes_ok buf → (used ≤ length buf)%nat → Z.of_nat (length buf) < 2 ^ 64 →
  let input := drop used buf in
  let len := be_join (take 8 input) in
  match raw_extract buf used with
  | XAgain => (length input < 8)%nat ∨ len + 8 < 2 ^ 64 ∧ Z.of_nat (length input) < len + 8
  | XFatal => (8 ≤ length input)%nat ∧ 2 ^ 64 ≤ len + 8
  | XEvent event buf' total_len =>
      total_len = len + 8 ∧ total_len ≤ Z.of_nat (length input) ∧
      event = cstr (take (Z.to_nat len) (drop 8 input)) ∧
      length buf' = length buf ∧ take used buf' = take used buf ∧
      drop (used + Z.to_nat total_len) buf' = drop (used + Z.to_nat total_len) buf
  end.
Proof.
  intros Hok Hused Hsmall input len.
  assert (Hlin : length input = (length buf - used)%nat) by apply length_drop.
  assert (Hin : bytes_ok input) by (by apply Forall_drop).
  assert (H8 : bytes_ok (take 8 input)) by (by apply Forall_take).
  pose proof (be_join_bound _ H8) as Hb. rewrite length_take in Hb.
  assert (Hlen : 0 ≤ len < 2 ^ 64).
  { split; [apply Hb|]. eapply Z.lt_le_trans; [apply Hb|].
    change (2 ^ 64) with (256 ^ 8). apply Z.pow_le_mono_r; lia. }
  pose proof (raw_extract_frame (take used buf)) as Hf.
  destruct (Z.le_gt_cases (len + 8) (Z.of_nat (length input))) as [Hle|Hgt].
  - destruct (input_split input) as (hd & body & rest & E & E1 & E2 & E3 & E4 & E5); try done; [lia|].
    assert (Hlb : len = Z.of_nat (length body)) by (unfold len; by rewrite E4).
    destruct (Hf hd body rest E2 E1 E3) as (buf' & E6 & E7 & E8 & E9); [lia|].
    rewrite <- E in E6, E8. unfold input in E6, E8. rewrite take_drop, length_take_le in * by lia.
    rewrite E6, Hlb, Nat2Z.id, E5. split; [done|]. split; [lia|]. split; [done|].
    split; [done|]. split; [done|].
    replace (used + Z.to_nat (Z.of_nat (length body) + 8))%nat
      with (used + 8 + length body)%nat by lia. rewrite E9.
    rewrite <- !drop_drop. fold input. rewrite E, <- E1, !drop_app_length. done.
  - clear Hf. unfold raw_extract. rewrite <- Hlin. fold input. fold len.
    destruct (Nat.ltb_spec (length input) 8); [by left|].
    rewrite safe_uadd by lia. destruct (Z.ltb_spec (len + 8) (2 ^ 64)); [|lia].
    rewrite (proj2 (Z.ltb_lt _ _)) by lia. by right.
Qed.

(** C26. On any input the framing layer answers by the 64-bit big-endian length
    at its start: it waits exactly while the header or the announced bytes are
    missing, refuses exactly the lengths whose frame size overflows 64 bits,
    and otherwise passes on the C string in the announced bytes and consumes
    exactly the frame. Bytes before the frame and after it are untouched. *)
Theorem raw_extract_correct {LO : LibsOk L} buf used :
  bytes_ok buf → (used ≤ length buf)%nat → Z.of_nat (length buf) < 2 ^ 64 →
  let input := drop used buf in
  let len := be_join (take 8 input) in
  match raw_extract buf used with
  | XAgain => (length input < 8)%nat ∨ len + 8 < 2 ^ 64 ∧ Z.of_nat (length input) < len + 8
  | XFatal => (8 ≤ length input)%nat ∧ 2 ^ 64 ≤ len + 8
  | XEvent event buf' total_len =>
      total_len = len + 8 ∧ total_len ≤ Z.of_nat (length input) ∧
      event = cstr (take (Z.to_nat len) (drop 8 input)) ∧
      length buf' = length buf ∧ take used buf' = take used buf ∧
      drop (used + Z.to_nat total_len) buf' = drop (used + Z.to_nat total_len) buf
  end.
Proof. apply raw_extract_spec. Qed.

(** ** The text format *)

Lemma raw_parse_format {LO : LibsOk L} errno ev_path ev_extra server_cb json :
  COLON ∉ ev_path ++ ev_extra → 0 ≤ server_cb < 2 ^ 64 →
  (errno = true → server_cb ≠ u64_max) →
  raw_parse errno (protocol_raw_format ev_path ev_extra server_cb json) =
    (Some (ev_path ++ ev_extra, server_cb, json), errno).
Proof.
  intros Hcolon Hcb Herr. unfold raw_parse, protocol_raw_format.
  rewrite app_assoc. cbn [app]. rewrite cut_app by done.
  rewrite qev_uint_dec by done. pose proof (dec_digits server_cb ltac:(lia)) as Hd.
  rewrite strtoull_digits; [|apply dec_not_nil|done|by intros c [= <-]].
  rewrite undec_dec by lia. rewrite (proj2 (Z.leb_le _ _)) by (unfold u64_max; lia).
  assert (Hrd : rd (dec server_cb ++ EQUALS :: json) (length (dec server_cb)) = EQUALS).
  { unfold rd. by rewrite lookup_app_r, Nat.sub_diag by done. }
  rewrite Hrd, Z.eqb_refl, orb_false_r. cbn [negb orb].
  rewrite (proj2 (Nat.eqb_neq _ _)).
  2:{ intros E. apply nil_length_inv in E. by apply dec_not_nil in E. }
  assert (Hmax : (server_cb =? u64_max) && errno = false).
  { destruct errno; [|apply andb_false_r]. rewrite andb_true_r. apply Z.eqb_neq. by apply Herr. }
  rewrite Hmax. cbn [orb]. do 2 f_equal. f_equal.
  rewrite <- Nat.add_1_r. rewrite <- drop_drop, drop_app_length. done.
Qed.

Lemma format_no_nul {LO : LibsOk L} ev_path ev_extra server_cb json :
  no_nul ev_path → no_nul ev_extra → no_nul json → 0 ≤ server_cb < 2 ^ 64 →
  no_nul (protocol_raw_format ev_path ev_extra server_cb json).
Proof.
  intros H1 H2 H3 Hcb. unfold protocol_raw_format. rewrite qev_uint_dec by done.
  rewrite !no_nul_app. split_and!; try done; [by repeat constructor| |by repeat constructor].
  apply digits_no_nul, dec_digits. lia.
Qed.

(** C21. A frame the server sends for a message is read back as that message
    by the same framing and format code, wherever it stands in a buffer and
    whatever follows it; the frame is consumed exactly. While any proper part
    of it has arrived the reader waits. *)
Theorem raw_roundtrip {LO : LibsOk L} errno ev_path ev_extra server_cb json pre rest :
  COLON ∉ ev_path ++ ev_extra → no_nul ev_path → no_nul ev_extra → no_nul json →
  0 ≤ server_cb < 2 ^ 64 → (errno = true → server_cb ≠ u64_max) →
  Z.of_nat (length (protocol_raw_format ev_path ev_extra server_cb json)) + 8 < 2 ^ 64 →
  ∃ frame, protocol_raw_frame ev_path ev_extra server_cb json = mkFrames (Some frame) None ∧
    (∃ event buf,
       raw_extract (pre ++ frame ++ rest) (length pre) =
         XEvent event buf (Z.of_nat (length frame)) ∧
       drop (length pre + length frame) buf = rest ∧
       raw_parse errno event = (Some (ev_path ++ ev_extra, server_cb, json), errno)) ∧
    (∀ part, part `prefix_of` frame → part ≠ frame →
       raw_extract (pre ++ part) (length pre) = XAgain).
Proof.
  intros Hcolon N1 N2 N3 Hcb Herr Hlen.
  set (body := protocol_raw_format ev_path ev_extra server_cb json) in *.
  set (hd := be_split 8 (Z.of_nat (length body))).
  assert (Hhd : length hd = 8%nat) by apply length_be_split.
  assert (Hj : be_join hd = Z.of_nat (length body))
    by (apply be_join_split; change (256 ^ Z.of_nat 8) with (2 ^ 64); lia).
  exists (hd ++ body). split; [done|]. split.
  - destruct (raw_extract_frame pre hd body rest (be_split_ok _ _) Hhd Hj Hlen)
      as (buf & E1 & _ & _ & E2).
    exists (cstr body), buf. rewrite length_app, Hhd, <- app_assoc.
    split; [rewrite E1; f_equal; lia|]. split; [by rewrite <- E2, Nat.add_assoc|].
    rewrite cstr_id by (by apply format_no_nul). by apply raw_parse_format.
  - intros part [more Hpart] Hne. unfold raw_extract. rewrite drop_app_length, length_app.
    replace (length pre + length part - length pre)%nat with (length part) by lia.
    assert (Hl : (length part < 8 + length body)%nat).
    { apply (f_equal length) in Hpart as Hl. rewrite !length_app, Hhd in Hl.
      destruct more as [|b more]; [by rewrite app_nil_r in Hpart|]. simpl in Hl. lia. }
    destruct (Nat.ltb_spec (length part) 8) as [|H8]; [done|].
    assert (E : take 8 part = hd).
    { rewrite <- (take_app_length' hd body 8) by done. rewrite Hpart.
      by rewrite take_app_le by lia. }
    rewrite E, Hj, safe_uadd by lia. rewrite (proj2 (Z.ltb_lt _ _)) by lia.
    by rewrite (proj2 (Z.ltb_lt _ _)) by lia.
Qed.

(** The raw heartbeat is the frame of the event [/qio/heartbeat] with no
    callback and [null]. *)
Lemma raw_heartbeat_frame {LO : LibsOk L} :
  fr_def (protocol_raw_frame (str "/qio/heartbeat") [] EVS_NO_CALLBACK (str "null")) =
    Some RAW_HEARTBEAT.
Proof.
  unfold protocol_raw_frame, protocol_raw_format. rewrite qev_uint_dec by (unfold EVS_NO_CALLBACK; lia).
  reflexivity.
Qed.

End Raw.

(** ** Witnesses *)

Definition demo_input : bytes := [9] ++ be_split 8 3 ++ str "a:b" ++ str "rest".

Lemma raw_extract_correct_witness :
  raw_extract (L := libs0) demo_input 1 =
    XEvent (str "a:b") ([9] ++ str "a:b" ++ [0; 0; 0; 0; 3] ++ str "a:b" ++ str "rest") 11 ∧
  match raw_extract (L := libs0) demo_input 1 with
  | XAgain => (length (drop 1 demo_input) < 8)%nat ∨
      be_join (take 8 (drop 1 demo_input)) + 8 < 2 ^ 64 ∧
      Z.of_nat (length (drop 1 demo_input)) < be_join (take 8 (drop 1 demo_input)) + 8
  | XFatal => (8 ≤ length (drop 1 demo_input))%nat ∧
      2 ^ 64 ≤ be_join (take 8 (drop 1 demo_input)) + 8
  | XEvent event buf' total_len =>
      total_len = be_join (take 8 (drop 1 demo_input)) + 8 ∧
      total_len ≤ Z.of_nat (length (drop 1 demo_input)) ∧
      event = cstr (take (Z.to_nat (be_join (take 8 (drop 1 demo_input)))) (drop 8 (drop 1 demo_input))) ∧
      length buf' = length demo_input ∧ take 1 buf' = take 1 demo_input ∧
      drop (1 + Z.to_nat total_len) buf' = drop (1 + Z.to_nat total_len) demo_input
  end.
Proof.
  assert (H : bytes_ok demo_input).
  { apply (bool_decide_eq_true_1 (bytes_ok demo_input)). vm_compute. reflexivity. }
  split; [vm_compute; reflexivity|].
  apply (raw_extract_correct (L := libs0) demo_input 1 H); [simpl; lia|reflexivity].
Defined.

Lemma raw_roundtrip_witness :
  ∃ frame, protocol_raw_frame (L := libs0) (str "/chat") (str "/room") 65537 (str "{}") =
      mkFrames (Some frame) None ∧
    length frame = 27%nat ∧
    (∃ event buf, raw_extract (L := libs0) ([1; 2] ++ frame ++ [3]) 2 =
        XEvent event buf (Z.of_nat (length frame)) ∧
      drop (2 + length frame) buf = [3] ∧
      raw_parse (L := libs0) false event = (Some (str "/chat/room", 65537, str "{}"), false)) ∧
    (∀ part, part `prefix_of` frame → part ≠ frame →
       raw_extract (L := libs0) ([1; 2] ++ part) 2 = XAgain).
Proof.
  destruct (raw_roundtrip (L := libs0) false (str "/chat") (str "/room") 65537 (str "{}") [1; 2] [3])
    as (frame & H1 & H2 & H3);
    [vm_compute; intros H; repeat (apply elem_of_cons in H as [H|H]; [discriminate|]);
       by apply elem_of_nil in H
    |repeat constructor; discriminate|repeat constructor; discriminate
    |repeat constructor; discriminate|lia|discriminate|vm_compute; reflexivity|].
  exists frame. split; [exact H1|]. split; [|split; [exact H2|exact H3]].
  injection H1 as <-. reflexivity.
Defined.

(** [errno] is not reset before the conversion: after any earlier overflow in
    the thread the greatest id is refused. *)
Example stale_errno :
  raw_parse (L := libs0) true (str "/a:18446744073709551615=") = (None, true) ∧
  raw_parse (L := libs0) false (str "/a:18446744073709551615=") = (Some (str "/a", 2 ^ 64 - 1, []), false).
Proof. split; reflexivity. Qed.
