(* ===== verification/WebSocket.v ===== *)
(** The WebSocket protocol's bytes: src/protocols_rfc6455.c without its effects
    on the client, which are in Receive.v. Module [Rfc6455] is RFC 6455's own
    frame format, the reference the code's encoder and decoder are compared with. *)
From Stdlib Require Import ZArith Lia String.
From stdpp Require Import base list gmap strings.
From S2P Require Import Prelude Libs Types Raw.

Section WebSocket.
Context {L : Libs}.

Definition HASH_KEY : bytes := str "258EAFA5-E914-47DA-95CA-C5AB0DC85B11".
Definition CRLF : bytes := [13; 10].
Definition HTTP_NOCACHE : bytes :=
  str "Cache-Control: private, max-age=0" ++ CRLF ++ str "Expires: -1" ++ CRLF.
Definition HTTP_101 : bytes :=
  str "HTTP/1.1 101 Switching Protocols" ++ CRLF ++
  str "Upgrade: websocket" ++ CRLF ++
  str "Connection: Upgrade" ++ CRLF ++
  str "Access-Control-Allow-Origin: *" ++ CRLF ++
  str "Sec-WebSocket-Protocol: quickio" ++ CRLF ++
  HTTP_NOCACHE ++
  str "Sec-WebSocket-Accept: ".
Definition QIO_HANDSHAKE : bytes := [129; 9] ++ str "/qio/ohai".
Definition WS_HEARTBEAT : bytes := [129; 21] ++ PROTOCOLS_HEARTBEAT.

Definition PAYLOAD_SHORT : Z := 125.
Definition PAYLOAD_MEDIUM : Z := 126.
Definition PAYLOAD_LONG : Z := 127.
Definition OPCODE_TEXT : Z := 1.
Definition OPCODE_CLOSE : Z := 8.

(** ** Decoding *)

(** A word of [n] bytes in memory, little-endian. *)
Definition load (n : nat) (buf : bytes) (p : nat) : Z := le_join (take n (drop p buf)).
Definition store (n : nat) (buf : bytes) (p : nat) (v : Z) : bytes :=
  take p buf ++ le_split n v ++ drop (p + n) buf.

(** The loops that unmask [n] bytes at a time, and the one that unmasks single
    bytes; [sp] and [mp] are the positions [str] and [msg]. *)
Fixpoint xor_words (n : nat) (mask : Z) (sp mp max : nat) (fuel i : nat) (buf : bytes) :
    nat * bytes :=
  match fuel with
  | O => (i, buf)
  | S fuel =>
      if (i <? max)%nat then
        let from := load n buf (sp + i) in
        xor_words n mask sp mp max fuel (i + n) (store n buf (mp + i) (Z.lxor from mask))
      else (i, buf)
  end.

Fixpoint xor_bytes (mask : bytes) (sp mp len : nat) (fuel i : nat) (buf : bytes) : bytes :=
  match fuel with
  | O => buf
  | S fuel =>
      if (i <? len)%nat then
        xor_bytes mask sp mp len fuel (i + 1)
          (wr buf (mp + i) (Z.lxor (rd buf (sp + i)) (rd mask (Nat.land i 3))))
      else buf
  end.

(** The three loops: 128 bits at a time, then 64, then 8. Each round advances
    [i], so [len] rounds are enough. *)
Definition xor_all (mask : bytes) (sp mp len : nat) (buf : bytes) : bytes :=
  let mask128 := le_join (mask ++ mask ++ mask ++ mask) in
  let max := (len - Nat.land len 15)%nat in
  let '(i, buf) := xor_words 16 mask128 sp mp max len 0 buf in
  let max := (len - Nat.land len 7)%nat in
  let '(i, buf) := xor_words 8 mask128 sp mp max len i buf in
  xor_bytes mask sp mp len len i buf.

Inductive decoded :=
  | DAgain
  | DFatal (close : option close_reason)
  | DOk (len frame_len : Z).

(** The header: its size, the payload's length and the masking key, or
    [return PROT_AGAIN]. *)
Definition decode_header (buf : bytes) (str : nat) (rbuff_len : nat) : option (nat * Z * bytes) :=
  let len := Z.land (rd buf (str + 1)) 127 in
  if len <=? PAYLOAD_SHORT then Some (6%nat, len, take 4 (drop (str + 2) buf))
  else if len =? PAYLOAD_MEDIUM then
    if (rbuff_len <? 8)%nat then None
    else Some (8%nat, be_join (take 2 (drop (str + 2) buf)), take 4 (drop (str + 4) buf))
  else
    if (rbuff_len <? 14)%nat then None
    else Some (14%nat, be_join (take 8 (drop (str + 2) buf)), take 4 (drop (str + 10) buf)).

Definition _decode (buf : bytes) (offset : nat) : decoded * bytes :=
  let rbuff_len := (length buf - offset)%nat in
  let opcode := Z.land (rd buf offset) 15 in
  if opcode =? OPCODE_CLOSE then (DFatal (Some QEV_CLOSE_HUP), buf)
  else if (rbuff_len <? 6)%nat then (DAgain, buf)
  else if negb (opcode =? OPCODE_TEXT) then (DFatal (Some RFC6455_UNSUPPORTED_OPCODE), buf)
  else if Z.land (rd buf (offset + 1)) 128 =? 0 then (DFatal (Some RFC6455_NO_MASK), buf)
  else
    match decode_header buf offset rbuff_len with
    | None => (DAgain, buf)
    | Some (header_len, len, mask) =>
        match qev_safe_uadd (Z.of_nat header_len) len with
        | None => (DFatal None, buf)
        | Some total_len =>
            if Z.of_nat rbuff_len <? total_len then (DAgain, buf)
            else
              let n := Z.to_nat len in
              let buf := xor_all mask (offset + header_len) offset n buf in
              let buf := wr buf (offset + n) NUL in
              if g_utf8_validate (take n (drop offset buf)) then (DOk len total_len, buf)
              else (DFatal (Some RFC6455_NOT_UTF8), buf)
        end
    end.

(** ** Encoding *)

Definition protocol_rfc6455_frame (ev_path ev_extra : bytes) (server_cb : Z) (json : bytes) :
    protocol_frames :=
  let raw := protocol_raw_format ev_path ev_extra server_cb json in
  let len := Z.of_nat (length raw) in
  let def := [129] ++
    (if len <=? PAYLOAD_SHORT then [u8 len]
     else if len <=? 65535 then PAYLOAD_MEDIUM :: be_split 2 len
     else PAYLOAD_LONG :: be_split 8 len) ++ raw in
  mkFrames (Some def) None.

(** What [protocol_rfc6455_close] writes. *)
Definition close_frame (reason : close_reason) : bytes :=
  match reason with
  | QEV_CLOSE_EXITING => [136; 2; 3; 233]
  | QIO_CLOSE_INVALID_HANDSHAKE => [136; 19; 3; 234] ++ str "invalid handshake"
  | RAW_INVALID_EVENT_FORMAT => [136; 22; 3; 234] ++ str "invalid event format"
  | RFC6455_NO_MASK => [136; 23; 3; 234] ++ str "client must mask data"
  | RFC6455_UNSUPPORTED_OPCODE => [136; 2; 3; 235]
  | RFC6455_NOT_UTF8 => [136; 2; 3; 239]
  | QEV_CLOSE_TIMEOUT => [136; 16; 3; 240] ++ str "client timeout"
  | QEV_CLOSE_OUT_OF_MEM => [136; 2; 3; 241]
  | _ => [136; 0]
  end.

(** The response of [protocol_rfc6455_upgrade]. *)
Definition upgrade_response (key : bytes) : bytes :=
  HTTP_101 ++ sha1_base64 (key ++ HASH_KEY) ++ CRLF ++ CRLF.

End WebSocket.

(** ** RFC 6455, section 5.2 *)

Module Rfc6455.

Record frame := mkFrame {
  fin : bool;
  rsv : Z;
  opcode : Z;
  masking_key : option bytes;
  (** after unmasking *)
  payload : bytes;
  size : nat;
}.

Fixpoint unmask_from (i : nat) (key l : bytes) : bytes :=
  match l with
  | [] => []
  | b :: l => Z.lxor b (rd key (i mod 4)) :: unmask_from (S i) key l
  end.

(** Octet [i] of the data is octet [i MOD 4] of the key XOR octet [i]. *)
Definition unmask (key l : bytes) : bytes := unmask_from 0 key l.

(** The extended payload length: the value and the octets it takes. *)
Definition payload_len (len7 : Z) (l : bytes) : option (Z * nat) :=
  if len7 <? 126 then Some (len7, 0%nat)
  else if len7 =? 126 then
    if (length l <? 2)%nat then None else Some (be_join (take 2 l), 2%nat)
  else if (length l <? 8)%nat then None else Some (be_join (take 8 l), 8%nat).

(** The header: its size, the payload length and the masking key. *)
Definition header (l : bytes) : option (nat * Z * option bytes) :=
  match l with
  | _ :: b1 :: l =>
      '(len, n) ← payload_len (Z.land b1 127) l;
      if Z.land b1 128 =? 0 then Some (2 + n, len, None)%nat
      else if (length l <? n + 4)%nat then None
      else Some (2 + n + 4, len, Some (take 4 (drop n l)))%nat
  | _ => None
  end.

(** The first frame of the input, once all of it is there. *)
Definition parse (l : bytes) : option frame :=
  '(h, len, key) ← header l;
  if Z.of_nat (length l) <? Z.of_nat h + len then None
  else
    let data := take (Z.to_nat len) (drop h l) in
    Some {| fin := negb (Z.land (rd l 0) 128 =? 0); rsv := Z.land (rd l 0) 112;
            opcode := Z.land (rd l 0) 15; masking_key := key;
            payload := match key with Some key => unmask key data | None => data end;
            size := h + Z.to_nat len |}.

End Rfc6455.

(** ** Unmasking by words is unmasking by octets *)

Import Rfc6455.

Lemma unmask_from_app i key l1 l2 :
  unmask_from i key (l1 ++ l2) = unmask_from i key l1 ++ unmask_from (i + length l1) key l2.
Proof.
  revert i. induction l1 as [|b l1 IH]; intros i; simpl; [by rewrite Nat.add_0_r|].
  by rewrite IH, <- Nat.add_succ_comm.
Qed.

Lemma length_unmask_from i key l : length (unmask_from i key l) = length l.
Proof. revert i. induction l as [|b l IH]; intros i; simpl; auto. Qed.

Lemma unmask_from_period i j key l :
  (i mod 4 = j mod 4)%nat → unmask_from i key l = unmask_from j key l.
Proof.
  revert i j. induction l as [|b l IH]; intros i j E; cbn [unmask_from]; [done|]. rewrite E. f_equal.
  apply IH. change (S i) with (1 + i)%nat. change (S j) with (1 + j)%nat.
  by rewrite (Nat.Div0.add_mod 1 i 4), (Nat.Div0.add_mod 1 j 4), E.
Qed.

Lemma unmask_involutive i key l :
  bytes_ok l → bytes_ok key → unmask_from i key (unmask_from i key l) = l.
Proof.
  intros Hl Hk. revert i. induction Hl as [|b l Hb Hl IH]; intros i; simpl; [done|].
  rewrite IH. f_equal. rewrite Z.lxor_assoc, Z.lxor_nilpotent. apply Z.lxor_0_r.
Qed.

(** A word-wide exclusive or is one on each of its bytes. *)
Lemma le_split_lxor c m :
  bytes_ok c → bytes_ok m → (length c ≤ length m)%nat →
  le_split (length c) (Z.lxor (le_join c) (le_join m)) = zip_with Z.lxor c m.
Proof.
  intros Hc. revert m. induction Hc as [|b c Hb Hc IH]; intros m Hm Hlen; simpl; [done|].
  destruct m as [|d m]; simpl in *; [lia|]. apply Forall_cons_iff in Hm as [Hd Hm].
  rewrite lxor_cons by done. pose proof (lxor_byte_ok b d Hb Hd) as Hx. unfold byte_ok in Hx.
  rewrite (Z.mul_comm 256), Z.mod_add, Z.div_add, Z.mod_small, Z.div_small by lia.
  rewrite Z.add_0_l, IH by (done || lia). done.
Qed.

Lemma zip_mask_unmask i a b c d w :
  (i mod 4 = 0)%nat → length w = 16%nat ∨ length w = 8%nat →
  zip_with Z.lxor w ([a; b; c; d] ++ [a; b; c; d] ++ [a; b; c; d] ++ [a; b; c; d]) =
  unmask_from i [a; b; c; d] w.
Proof.
  intros Hi Hw. rewrite (unmask_from_period i 0) by done.
  destruct Hw as [Hw|Hw];
    do 8 (destruct w as [|? w]; [discriminate Hw|]); [|destruct w; [done|discriminate Hw]].
  do 8 (destruct w as [|? w]; [discriminate Hw|]). destruct w; [done|discriminate Hw].
Qed.

Lemma rd_from l k : rd l k = rd (drop k l) 0.
Proof. unfold rd. by rewrite lookup_drop, Nat.add_0_r. Qed.

(** The buffer after [i] octets are unmasked. *)
Definition unmasked (key : bytes) (sp mp : nat) (buf : bytes) (i : nat) : bytes :=
  take mp buf ++ unmask_from 0 key (take i (drop sp buf)) ++ drop (mp + i) buf.

Section Loops.
Context (key : bytes) (sp mp len : nat) (buf : bytes).
Context (Hkey : bytes_ok key) (Hklen : length key = 4%nat) (Hbuf : bytes_ok buf).
Context (Hord : (mp ≤ sp)%nat) (Hfit : (sp + len ≤ length buf)%nat).

Lemma unmasked_prefix_length i :
  (i ≤ len)%nat → length (take mp buf ++ unmask_from 0 key (take i (drop sp buf))) = (mp + i)%nat.
Proof.
  intros Hi. rewrite length_app, length_unmask_from, !length_take, length_drop. lia.
Qed.

Lemma unmasked_app i :
  unmasked key sp mp buf i =
    (take mp buf ++ unmask_from 0 key (take i (drop sp buf))) ++ drop (mp + i) buf.
Proof. unfold unmasked. by rewrite app_assoc. Qed.

(** What is still masked has not been overwritten. *)
Lemma drop_unmasked i k :
  (i ≤ len)%nat → (mp + i ≤ k)%nat → drop k (unmasked key sp mp buf i) = drop k buf.
Proof.
  intros Hi Hk. rewrite unmasked_app, drop_app_ge by (rewrite unmasked_prefix_length; lia).
  rewrite unmasked_prefix_length, drop_drop by done. f_equal. lia.
Qed.

Lemma take_unmasked i : (i ≤ len)%nat →
  take (mp + i) (unmasked key sp mp buf i) =
    take mp buf ++ unmask_from 0 key (take i (drop sp buf)).
Proof.
  intros Hi. rewrite unmasked_app. apply take_app_length'. symmetry; by apply unmasked_prefix_length.
Qed.

(** Unmasking [n] more octets. *)
Lemma unmasked_step i n :
  (i + n ≤ len)%nat →
  take (mp + i) (unmasked key sp mp buf i) ++
    unmask_from i key (take n (drop (sp + i) buf)) ++
    drop (mp + i + n) (unmasked key sp mp buf i) =
  unmasked key sp mp buf (i + n).
Proof.
  intros Hn. rewrite take_unmasked, drop_unmasked by lia. unfold unmasked.
  rewrite <- app_assoc. f_equal. rewrite Nat.add_assoc. rewrite app_assoc. f_equal.
  rewrite <- (take_take_drop (drop sp buf) i n), unmask_from_app.
  rewrite length_take_le by (rewrite length_drop; lia). simpl. by rewrite drop_drop.
Qed.

Lemma xor_words_step n i :
  (n = 16 ∨ n = 8)%nat → (i mod 4 = 0)%nat → (i + n ≤ len)%nat →
  store n (unmasked key sp mp buf i) (mp + i)
    (Z.lxor (load n (unmasked key sp mp buf i) (sp + i)) (le_join (key ++ key ++ key ++ key))) =
  unmasked key sp mp buf (i + n).
Proof.
  intros Hn Hi Hle. unfold store, load. rewrite <- unmasked_step by lia.
  rewrite (drop_unmasked i (sp + i)) by lia. f_equal. f_equal.
  set (w := take n (drop (sp + i) buf)).
  assert (Hw : length w = n) by (unfold w; rewrite length_take, length_drop; lia).
  assert (Hwok : bytes_ok w) by (apply Forall_take, Forall_drop; done).
  rewrite <- Hw at 1. rewrite le_split_lxor; [|done|by rewrite !Forall_app|rewrite !length_app; lia].
  destruct key as [|a [|b [|c [|d [|]]]]]; try discriminate Hklen.
  apply zip_mask_unmask; [done|lia].
Qed.

Lemma xor_words_spec n max fuel i :
  (n = 16 ∨ n = 8)%nat → (i mod n = 0)%nat → (max mod n = 0)%nat → (max ≤ len)%nat →
  (max ≤ i + fuel)%nat → (i ≤ len)%nat →
  xor_words n (le_join (key ++ key ++ key ++ key)) sp mp max fuel i (unmasked key sp mp buf i) =
    (Nat.max i max, unmasked key sp mp buf (Nat.max i max)).
Proof.
  intros Hn. revert i. induction fuel as [|fuel IH]; intros i Hi Hm Hmax Hf Hil; cbn [xor_words].
  { by rewrite Nat.max_l by lia. }
  destruct (Nat.ltb_spec i max) as [Hlt|Hge]; [|by rewrite Nat.max_l by lia].
  assert (Hstep : (i + n ≤ max)%nat).
  { pose proof (Nat.div_mod_eq i n). pose proof (Nat.div_mod_eq max n).
    assert (i / n < max / n)%nat by (destruct Hn as [-> | ->]; lia). destruct Hn as [-> | ->]; lia. }
  assert (H4 : (i mod 4 = 0)%nat).
  { pose proof (Nat.div_mod_eq i n) as E. rewrite Hi, Nat.add_0_r in E. rewrite E.
    destruct Hn as [-> | ->].
    - replace (16 * (i / 16))%nat with ((4 * (i / 16)) * 4)%nat by lia. apply Nat.Div0.mod_mul.
    - replace (8 * (i / 8))%nat with ((2 * (i / 8)) * 4)%nat by lia. apply Nat.Div0.mod_mul. }
  rewrite xor_words_step by (done || lia). rewrite IH; try lia.
  - by rewrite !Nat.max_r by lia.
  - rewrite <- (Nat.mul_1_l n) at 1. rewrite Nat.Div0.mod_add. done.
Qed.

Lemma xor_bytes_spec fuel i :
  (len ≤ i + fuel)%nat → (i ≤ len)%nat →
  xor_bytes key sp mp len fuel i (unmasked key sp mp buf i) = unmasked key sp mp buf len.
Proof.
  revert i. induction fuel as [|fuel IH]; intros i Hf Hi; cbn [xor_bytes].
  { by replace i with len by lia. }
  destruct (Nat.ltb_spec i len) as [Hlt|Hge]; [|by replace i with len by lia].
  rewrite <- (IH (i + 1)%nat) by lia. f_equal. rewrite <- unmasked_step by lia.
  assert (Hrd : rd (unmasked key sp mp buf i) (sp + i) = rd buf (sp + i)).
  { rewrite !(rd_from _ (sp + i)). by rewrite drop_unmasked by lia. }
  rewrite Hrd. destruct (lookup_lt_is_Some_2 buf (sp + i)) as [b Hb]; [lia|].
  rewrite (drop_S _ _ _ Hb). change (take 1 (b :: drop (S (sp + i)) buf)) with [b].
  cbn [unmask_from app]. unfold rd at 1. rewrite Hb. cbn [default].
  assert (Hl3 : Nat.land i 3 = (i mod 4)%nat) by apply (Nat.land_ones i 2).
  rewrite Hl3. unfold wr. rewrite insert_take_drop.
  - by rewrite Nat.add_1_r.
  - rewrite unmasked_app, length_app, unmasked_prefix_length, length_drop by lia. lia.
Qed.

(** The three loops together unmask the payload octet by octet. *)
Lemma xor_all_spec : xor_all key sp mp len buf = unmasked key sp mp buf len.
Proof.
  unfold xor_all.
  assert (H0 : buf = unmasked key sp mp buf 0).
  { unfold unmasked. simpl. by rewrite Nat.add_0_r, take_drop. }
  assert (H15 : Nat.land len 15 = (len mod 16)%nat) by apply (Nat.land_ones len 4).
  assert (H7 : Nat.land len 7 = (len mod 8)%nat) by apply (Nat.land_ones len 3).
  rewrite H15, H7.
  pose proof (Nat.div_mod_eq len 16) as E16. pose proof (Nat.div_mod_eq len 8) as E8.
  pose proof (Nat.mod_upper_bound len 16 ltac:(lia)). pose proof (Nat.mod_upper_bound len 8 ltac:(lia)).
  assert (M16 : ((len - len mod 16) mod 16 = 0)%nat).
  { replace (len - len mod 16)%nat with (len / 16 * 16)%nat by lia. apply Nat.Div0.mod_mul. }
  assert (M8 : ((len - len mod 8) mod 8 = 0)%nat).
  { replace (len - len mod 8)%nat with (len / 8 * 8)%nat by lia. apply Nat.Div0.mod_mul. }
  assert (M168 : ((len - len mod 16) mod 8 = 0)%nat).
  { replace (len - len mod 16)%nat with (2 * (len / 16) * 8)%nat by lia. apply Nat.Div0.mod_mul. }
  rewrite H0 at 1. rewrite (xor_words_spec 16) by (auto; lia).
  rewrite Nat.max_0_l. rewrite (xor_words_spec 8) by (auto; lia).
  apply xor_bytes_spec; lia.
Qed.

End Loops.

(** ** The decoder against RFC 6455 *)

Section Decoder.
Context {L : Libs}.

Lemma land_127_bound b : 0 ≤ Z.land b 127 < 128.
Proof. change 127 with (Z.ones 7). rewrite Z.land_ones by lia. apply Z.mod_pos_bound. lia. Qed.

Lemma header_equiv buf offset b0 b1 r :
  drop offset buf = b0 :: b1 :: r → (6 ≤ length (b0 :: b1 :: r))%nat →
  Z.land b1 128 ≠ 0 →
  header (b0 :: b1 :: r) =
    '(h, len, key) ← decode_header buf offset (length (b0 :: b1 :: r)); Some (h, len, Some key).
Proof.
  intros Hin Hlen Hbit. assert (Hr : (4 ≤ length r)%nat) by (simpl in Hlen; lia).
  assert (Hb1 : rd buf (offset + 1) = b1).
  { unfold rd. rewrite <- (lookup_drop buf offset 1). by rewrite Hin. }
  assert (Hdrop : ∀ k, drop (offset + (2 + k)) buf = drop k r).
  { intros k. rewrite <- !drop_drop, Hin. done. }
  unfold header, payload_len, decode_header. rewrite Hb1.
  pose proof (land_127_bound b1) as Hl. set (len := Z.land b1 127) in *.
  rewrite (proj2 (Z.eqb_neq (Z.land b1 128) 0)) by done.
  change (offset + 2)%nat with (offset + (2 + 0))%nat.
  change (offset + 4)%nat with (offset + (2 + 2))%nat.
  change (offset + 10)%nat with (offset + (2 + 8))%nat. rewrite !Hdrop.
  change (length (b0 :: b1 :: r)) with (2 + length r)%nat. unfold PAYLOAD_SHORT, PAYLOAD_MEDIUM.
  destruct (Z.ltb_spec len 126); [rewrite (proj2 (Z.leb_le _ _)) by lia|
    rewrite (proj2 (Z.leb_gt _ _)) by lia; destruct (Z.eqb_spec len 126)]; simpl.
  - by rewrite (proj2 (Nat.ltb_ge _ _)) by lia.
  - rewrite (proj2 (Nat.ltb_ge (length r) 2)) by lia. simpl.
    destruct (Nat.ltb_spec (length r) 6), (Nat.ltb_spec (S (S (length r))) 8); try done; lia.
  - destruct (Nat.ltb_spec (length r) 8); simpl.
    + by rewrite (proj2 (Nat.ltb_lt _ _)) by lia.
    + destruct (Nat.ltb_spec (length r) 12), (Nat.ltb_spec (S (S (length r))) 14); try done; lia.
Qed.

Lemma decode_header_min buf p n h len key :
  decode_header buf p n = Some (h, len, key) → (2 ≤ h)%nat.
Proof.
  unfold decode_header. intros H. repeat case_match; simplify_eq; lia.
Qed.

(** The header's key has four octets, the lengths are in range. *)
Lemma header_bounds l h len key :
  bytes_ok l → header l = Some (h, len, Some key) →
  0 ≤ len < 2 ^ 64 ∧ (h ≤ 14)%nat ∧ (h ≤ length l)%nat ∧ length key = 4%nat ∧ bytes_ok key.
Proof.
  intros Hok. destruct l as [|b0 [|b1 r]]; try done. unfold header.
  apply Forall_cons_iff in Hok as [_ Hok]. apply Forall_cons_iff in Hok as [_ Hok].
  destruct (payload_len (Z.land b1 127) r) as [[len' n]|] eqn:E; simpl; [|done].
  destruct (Z.land b1 128 =? 0); [done|]. destruct (Nat.ltb_spec (length r) (n + 4)); [done|].
  intros [= <- <- <-].
  assert (Hj : ∀ k, (k ≤ 8)%nat → 0 ≤ be_join (take k r) < 2 ^ 64).
  { intros k Hk. pose proof (be_join_bound (take k r) ltac:(by apply Forall_take)) as Hb.
    split; [lia|]. eapply Z.lt_le_trans; [apply Hb|]. change (2 ^ 64) with (256 ^ 8).
    apply Z.pow_le_mono_r; rewrite ?length_take; lia. }
  pose proof (land_127_bound b1). unfold payload_len in E.
  assert (0 ≤ len' < 2 ^ 64 ∧ (n ≤ 8)%nat) as [? ?].
  { destruct (_ <? 126); [injection E as <- <-; lia|]. destruct (_ =? 126).
    - destruct (_ <? 2)%nat; [done|]. injection E as <- <-. split; [apply Hj|]; lia.
    - destruct (_ <? 8)%nat; [done|]. injection E as <- <-. split; [apply Hj|]; lia. }
  split; [done|]. split; [lia|]. split; [simpl; lia|].
  split; [rewrite length_take, length_drop; lia|]. by apply Forall_take, Forall_drop.
Qed.

(** The buffer that a decoded frame leaves. *)
Definition left_by (buf : bytes) (offset : nat) (f : frame) (buf' : bytes) : Prop :=
  take (length (payload f)) (drop offset buf') = payload f ∧
  rd buf' (offset + length (payload f)) = NUL ∧ length buf' = length buf ∧
  take offset buf' = take offset buf ∧ drop (offset + size f) buf' = drop (offset + size f) buf.

Lemma left_by_unmasked key buf offset h n f :
  bytes_ok key → length key = 4%nat → bytes_ok buf →
  (2 ≤ h)%nat → (offset + h + n ≤ length buf)%nat →
  payload f = unmask key (take n (drop (offset + h) buf)) → size f = (h + n)%nat →
  left_by buf offset f (wr (xor_all key (offset + h) offset n buf) (offset + n) NUL).
Proof.
  intros Hk Hkl Hb Hh Hfit Hp Hsz.
  assert (Hpl : length (payload f) = n)
    by (rewrite Hp; unfold unmask; rewrite length_unmask_from, length_take, length_drop; lia).
  rewrite xor_all_spec by (done || lia). rewrite unmasked_app.
  set (pre := take offset buf ++ _).
  assert (Hpre : pre = take offset buf ++ payload f) by (by rewrite Hp).
  assert (Hlpre : length pre = (offset + n)%nat)
    by (rewrite Hpre, length_app, length_take, Hpl; lia).
  destruct (drop (offset + n) buf) as [|b rest] eqn:Hd.
  { apply (f_equal length) in Hd. rewrite length_drop in Hd. simpl in Hd. lia. }
  rewrite <- Hlpre at 1. rewrite wr_mid.
  assert (Hall : length buf = (offset + n + S (length rest))%nat).
  { apply (f_equal length) in Hd. rewrite length_drop in Hd. simpl in Hd. lia. }
  split; [|split; [|split; [|split]]].
  - rewrite Hpre, <- app_assoc, drop_app_length', take_app_length by (rewrite length_take; lia). done.
  - unfold rd. rewrite Hpl, <- Hlpre, lookup_app_r, Nat.sub_diag by lia. done.
  - rewrite length_app, Hlpre. simpl. lia.
  - rewrite Hpre, <- app_assoc, take_app_length' by (rewrite length_take; lia). done.
  - rewrite Hsz. replace (offset + (h + n))%nat with (offset + n + (1 + (h - 1)))%nat by lia.
    transitivity (drop (h - 1) rest).
    + by rewrite <- Hlpre, <- drop_drop, drop_app_length.
    + by rewrite <- drop_drop, Hd.
Qed.

Lemma decode_spec {LO : LibsOk L} buf offset :
  bytes_ok buf → (offset ≤ length buf)%nat →
  let input := drop offset buf in
  let op := Z.land (rd input 0) 15 in
  let masked := Z.land (rd input 1) 128 in
  match _decode buf offset with
  | (DOk len frame_len, buf') =>
      ∃ f key, parse input = Some f ∧ op = OPCODE_TEXT ∧ masking_key f = Some key ∧
        len = Z.of_nat (length (payload f)) ∧ frame_len = Z.of_nat (size f) ∧
        g_utf8_validate (payload f) = true ∧ left_by buf offset f buf'
  | (DAgain, buf') => buf' = buf ∧ op ≠ OPCODE_CLOSE ∧
      ((length input < 6)%nat ∨ op = OPCODE_TEXT ∧ masked ≠ 0 ∧ parse input = None)
  | (DFatal (Some QEV_CLOSE_HUP), buf') => buf' = buf ∧ op = OPCODE_CLOSE
  | (DFatal (Some RFC6455_UNSUPPORTED_OPCODE), buf') =>
      buf' = buf ∧ op ≠ OPCODE_CLOSE ∧ op ≠ OPCODE_TEXT ∧ (6 ≤ length input)%nat
  | (DFatal (Some RFC6455_NO_MASK), buf') =>
      buf' = buf ∧ op = OPCODE_TEXT ∧ masked = 0 ∧ (6 ≤ length input)%nat
  | (DFatal (Some RFC6455_NOT_UTF8), buf') =>
      ∃ f, parse input = Some f ∧ op = OPCODE_TEXT ∧ masked ≠ 0 ∧
        g_utf8_validate (payload f) = false
  | (DFatal None, buf') => buf' = buf ∧
      ∃ h len key, header input = Some (h, len, key) ∧ 2 ^ 64 ≤ Z.of_nat h + len
  | _ => False
  end.
Proof.
  intros Hok Hoff input op masked.
  assert (Hrd0 : rd buf offset = rd input 0) by apply rd_from.
  assert (Hrd1 : rd buf (offset + 1) = rd input 1) by (unfold rd, input; by rewrite lookup_drop).
  assert (Hlin : (length buf - offset)%nat = length input) by (unfold input; by rewrite length_drop).
  unfold _decode. rewrite Hrd0, Hrd1, Hlin. fold op masked.
  destruct (Z.eqb_spec op OPCODE_CLOSE) as [Hc|Hc]; [done|].
  destruct (Nat.ltb_spec (length input) 6) as [H6|H6]; [by auto|].
  destruct (Z.eqb_spec op OPCODE_TEXT) as [Ht|Ht]; cbn [negb]; [|done].
  destruct (Z.eqb_spec masked 0) as [Hm|Hm]; [done|].
  assert (Hin : ∃ b0 b1 r, input = b0 :: b1 :: r).
  { destruct input as [|b0 [|b1 r]]; simpl in H6; try lia. eauto. }
  destruct Hin as (b0 & b1 & r & Hin).
  pose proof (header_equiv buf offset b0 b1 r Hin) as Hhdr. rewrite <- Hin in Hhdr.
  assert (Hb1 : rd input 1 = b1) by (by rewrite Hin). unfold masked in Hm. rewrite Hb1 in Hm.
  specialize (Hhdr H6 Hm). fold masked in Hm.
  assert (Hokin : bytes_ok input) by (by apply Forall_drop).
  destruct (decode_header buf offset (length input)) as [[[h len] key]|] eqn:Hd; simpl in Hhdr.
  2:{ split; [done|]. split; [done|]. right. unfold parse. rewrite Hhdr.
      unfold masked. by rewrite Hb1. }
  destruct (header_bounds input h len key Hokin Hhdr) as (Hlen & Hh & Hhl & Hkl & Hkok).
  rewrite safe_uadd by lia. destruct (Z.ltb_spec (Z.of_nat h + len) (2 ^ 64)); [|by eauto 10].
  unfold masked. rewrite Hb1. unfold parse. rewrite Hhdr. simpl.
  destruct (Z.ltb_spec (Z.of_nat (length input)) (Z.of_nat h + len)) as [Hlt|Hge]; [split; [done|]; split; [done|]; by right|].
  set (data := take (Z.to_nat len) (drop h input)).
  set (f := mkFrame _ _ _ _ _ _).
  assert (Hdl : length data = Z.to_nat len) by (unfold data; rewrite length_take, length_drop; lia).
  assert (Hpl : length (payload f) = Z.to_nat len).
  { change (payload f) with (unmask key data). unfold unmask. by rewrite length_unmask_from. }
  assert (Hleft : left_by buf offset f
    (wr (xor_all key (offset + h) offset (Z.to_nat len) buf) (offset + Z.to_nat len) NUL)).
  { apply left_by_unmasked; try done; [|lia|].
    - by apply decode_header_min in Hd.
    - change (payload f) with (unmask key data). unfold data, input. by rewrite drop_drop. }
  pose proof (proj1 Hleft) as Hpay. rewrite Hpl in Hpay. rewrite Hpay.
  destruct (g_utf8_validate (payload f)) eqn:Hu.
  - exists f, key. rewrite Hpl. split; [done|]. split; [done|]. split; [done|].
    split; [lia|]. split; [simpl; lia|]. done.
  - by exists f.
Qed.

(** C10. On any input the decoder agrees with RFC 6455: a text frame from a
    client is accepted once all of it is there and its payload is UTF-8, and
    then the buffer holds exactly the unmasked payload, NUL-terminated, with
    the bytes before and after the frame untouched, although it is unmasked in
    place, 16, 8 and 1 bytes at a time; it waits exactly while a frame it could
    still accept is incomplete; and each error is reported exactly for its
    cause, the last one being a length that overflows 64 bits. *)
Theorem decode_correct {LO : LibsOk L} buf offset :
  bytes_ok buf → (offset ≤ length buf)%nat →
  let input := drop offset buf in
  let op := Z.land (rd input 0) 15 in
  let masked := Z.land (rd input 1) 128 in
  match _decode buf offset with
  | (DOk len frame_len, buf') =>
      ∃ f key, parse input = Some f ∧ op = OPCODE_TEXT ∧ masking_key f = Some key ∧
        len = Z.of_nat (length (payload f)) ∧ frame_len = Z.of_nat (size f) ∧
        g_utf8_validate (payload f) = true ∧ left_by buf offset f buf'
  | (DAgain, buf') => buf' = buf ∧ op ≠ OPCODE_CLOSE ∧
      ((length input < 6)%nat ∨ op = OPCODE_TEXT ∧ masked ≠ 0 ∧ parse input = None)
  | (DFatal (Some QEV_CLOSE_HUP), buf') => buf' = buf ∧ op = OPCODE_CLOSE
  | (DFatal (Some RFC6455_UNSUPPORTED_OPCODE), buf') =>
      buf' = buf ∧ op ≠ OPCODE_CLOSE ∧ op ≠ OPCODE_TEXT ∧ (6 ≤ length input)%nat
  | (DFatal (Some RFC6455_NO_MASK), buf') =>
      buf' = buf ∧ op = OPCODE_TEXT ∧ masked = 0 ∧ (6 ≤ length input)%nat
  | (DFatal (Some RFC6455_NOT_UTF8), buf') =>
      ∃ f, parse input = Some f ∧ op = OPCODE_TEXT ∧ masked ≠ 0 ∧
        g_utf8_validate (payload f) = false
  | (DFatal None, buf') => buf' = buf ∧
      ∃ h len key, header input = Some (h, len, key) ∧ 2 ^ 64 ≤ Z.of_nat h + len
  | _ => False
  end.
Proof. apply decode_spec. Qed.

(** ** Encoders *)

(** The start of a frame, as RFC 6455 has it: shortest length form. *)
Definition frame_start (opcode mask_bit : Z) (n : Z) : bytes :=
  (128 + opcode) ::
  (if n <? 126 then [mask_bit + n]
   else if n <? 65536 then (mask_bit + 126) :: be_split 2 n
   else (mask_bit + 127) :: be_split 8 n).

(** A client's text message in one masked frame. *)
Definition client_frame (key payload : bytes) : bytes :=
  frame_start OPCODE_TEXT 128 (Z.of_nat (length payload)) ++ key ++ unmask key payload.

Lemma land_mask_bit n : 0 ≤ n < 128 →
  Z.land (128 + n) 127 = n ∧ Z.land (128 + n) 128 ≠ 0 ∧ Z.land n 127 = n ∧ Z.land n 128 = 0.
Proof.
  intros Hn. assert (H : Forall (λ k, Z.land (128 + Z.of_nat k) 127 = Z.of_nat k ∧
    Z.land (128 + Z.of_nat k) 128 ≠ 0 ∧ Z.land (Z.of_nat k) 127 = Z.of_nat k ∧
    Z.land (Z.of_nat k) 128 = 0) (seq 0 128)).
  { apply (bool_decide_eq_true_1 (Forall _ _)). vm_compute. reflexivity. }
  rewrite Forall_forall in H. specialize (H (Z.to_nat n)).
  rewrite Z2Nat.id in H by lia. apply H. apply elem_of_seq. lia.
Qed.

Lemma header_start op (masked : bool) n l :
  0 ≤ n < 2 ^ 64 → (if masked then (4 ≤ length l)%nat else True) →
  let s := frame_start op (if masked then 128 else 0) n in
  header (s ++ l) =
    Some (if masked then (length s + 4, n, Some (take 4 l))%nat else (length s, n, None)) ∧
  (length s ≤ 10)%nat ∧ rd (s ++ l) 0 = 128 + op.
Proof.
  intros Hn Hl s. subst s. unfold frame_start.
  assert (Hbits : ∀ k, 0 ≤ k < 128 →
    Z.land ((if masked then 128 else 0) + k) 127 = k ∧
    (Z.land ((if masked then 128 else 0) + k) 128 =? 0) = negb masked).
  { intros k Hk. destruct (land_mask_bit k Hk) as (B1 & B2 & B3 & B4). destruct masked; simpl.
    - split; [done|]. by apply Z.eqb_neq.
    - split; [done|]. by apply Z.eqb_eq. }
  destruct (Z.ltb_spec n 126); [|destruct (Z.ltb_spec n 65536)]; (split; [|split; [|done]]);
    cbn [app header]; rewrite ?length_cons, ?length_be_split; try (simpl; lia).
  - destruct (Hbits n) as [-> ->]; [lia|]. unfold payload_len. rewrite (proj2 (Z.ltb_lt _ _)) by lia.
    simpl. destruct masked; simpl; [|done]. by rewrite (proj2 (Nat.ltb_ge _ _)) by lia.
  - destruct (Hbits 126) as [-> ->]; [lia|]. unfold payload_len. change (126 <? 126) with false.
    rewrite length_app, length_be_split, take_app_length' by (by rewrite length_be_split).
    rewrite be_join_split by (change (256 ^ Z.of_nat 2) with 65536; lia).
    change (126 =? 126) with true. cbn [negb].
    rewrite (proj2 (Nat.ltb_ge _ _)) by lia. cbn [mbind option_bind].
    destruct masked; cbn [negb]; [|done].
    rewrite (proj2 (Nat.ltb_ge _ _)) by lia.
    rewrite drop_app_length' by (by rewrite length_be_split). done.
  - destruct (Hbits 127) as [-> ->]; [lia|]. unfold payload_len. change (127 <? 126) with false.
    change (127 =? 126) with false. cbv iota.
    rewrite length_app, length_be_split, take_app_length' by (by rewrite length_be_split).
    rewrite be_join_split by (change (256 ^ Z.of_nat 8) with (2 ^ 64); lia).
    rewrite (proj2 (Nat.ltb_ge _ _)) by lia. cbn [mbind option_bind].
    destruct masked; cbn [negb]; [|done].
    rewrite (proj2 (Nat.ltb_ge _ _)) by lia.
    rewrite drop_app_length' by (by rewrite length_be_split). done.
Qed.

Lemma bytes_ok_rd l i : bytes_ok l → byte_ok (rd l i).
Proof.
  intros H. unfold rd. destruct (l !! i) eqn:E; simpl; [|unfold byte_ok, NUL; lia].
  by eapply Forall_lookup_1.
Qed.

Lemma unmask_ok key l : bytes_ok key → bytes_ok l → bytes_ok (unmask key l).
Proof.
  intros Hk Hl. unfold unmask. generalize 0%nat. induction Hl as [|b l Hb Hl IH]; intros i; simpl; [constructor|].
  constructor; [|apply IH]. apply lxor_byte_ok; [done|by apply bytes_ok_rd].
Qed.

(** The header of a frame that is masked, if it is all there. *)
Lemma decode_header_ok buf offset h len key :
  bytes_ok buf → (6 ≤ length (drop offset buf))%nat → Z.land (rd buf (offset + 1)) 128 ≠ 0 →
  decode_header buf offset (length (drop offset buf)) = Some (h, len, key) →
  0 ≤ len < 2 ^ 64 ∧ (2 ≤ h ≤ 14)%nat ∧ (h ≤ length (drop offset buf))%nat ∧ length key = 4%nat ∧ bytes_ok key.
Proof.
  intros Hok H6 Hm Hd. pose proof (decode_header_min _ _ _ _ _ _ Hd) as Hmin.
  assert (Hin : ∃ b0 b1 r, drop offset buf = b0 :: b1 :: r).
  { destruct (drop offset buf) as [|b0 [|b1 r]]; simpl in H6; try lia. eauto. }
  destruct Hin as (b0 & b1 & r & Hin).
  pose proof (header_equiv buf offset b0 b1 r Hin) as Hhdr. rewrite <- Hin in Hhdr.
  assert (Hb1 : rd buf (offset + 1) = b1).
  { transitivity (rd (drop offset buf) 1); [unfold rd; by rewrite lookup_drop|by rewrite Hin]. }
  rewrite Hb1 in Hm. specialize (Hhdr H6 Hm). rewrite Hd in Hhdr. simpl in Hhdr.
  destruct (header_bounds (drop offset buf) h len key) as (K1 & K2 & K3 & K4 & K5); [by apply Forall_drop|done|].
  split; [done|]. split; [lia|]. done.
Qed.

(** A frame is longer than its payload, and inside the input. *)
Lemma parse_size l f key :
  bytes_ok l → parse l = Some f → masking_key f = Some key →
  (length (payload f) < size f)%nat ∧ (size f ≤ length l)%nat.
Proof.
  intros Hok Hp Hk. unfold parse in Hp. destruct (header l) as [[[h len] k]|] eqn:E; [|done]. simpl in Hp.
  destruct (Z.ltb_spec (Z.of_nat (length l)) (Z.of_nat h + len)) as [|Hge]; [done|].
  apply (inj Some) in Hp. subst f. simpl in Hk. subst k. simpl.
  destruct (header_bounds l h len key Hok E) as (H1 & H2 & H3 & _).
  assert (2 ≤ h)%nat.
  { unfold header in E. destruct l as [|b0 [|b1 r]]; try done.
    destruct (payload_len _ r) as [[x n]|]; [|done]. simpl in E. repeat case_match; simplify_eq; lia. }
  unfold unmask. rewrite length_unmask_from, length_take, length_drop. lia.
Qed.

(** The decoder never changes the size of the buffer, and leaves octets. *)
Lemma decode_buffer {LO : LibsOk L} buf offset :
  bytes_ok buf → (offset ≤ length buf)%nat →
  bytes_ok (_decode buf offset).2 ∧ length (_decode buf offset).2 = length buf.
Proof.
  intros Hok Hoff. unfold _decode. rewrite <- (length_drop buf offset).
  destruct (_ =? OPCODE_CLOSE); [done|].
  destruct (Nat.ltb_spec (length (drop offset buf)) 6) as [|H6]; [done|].
  destruct (negb _); [done|]. destruct (Z.eqb_spec (Z.land (rd buf (offset + 1)) 128) 0) as [|Hm]; [done|].
  destruct (decode_header _ _ _) as [[[h len] key]|] eqn:Hd; [|done].
  destruct (decode_header_ok buf offset h len key Hok H6 Hm Hd) as (Hl & [Hh1 Hh2] & Hh3 & Hkl & Hk).
  rewrite safe_uadd by lia. destruct (_ <? 2 ^ 64); [|done].
  destruct (Z.ltb_spec (Z.of_nat (length (drop offset buf))) (Z.of_nat h + len)) as [|Hge]; [done|].
  rewrite length_drop in *.
  rewrite xor_all_spec by (done || lia). set (n := Z.to_nat len).
  assert (H : bytes_ok (unmasked key (offset + h) offset buf n) ∧
    length (unmasked key (offset + h) offset buf n) = length buf).
  { split.
    - unfold unmasked. rewrite !Forall_app. split; [by apply Forall_take|]. split; [|by apply Forall_drop].
      apply (unmask_ok key); [done|]. by apply Forall_take, Forall_drop.
    - rewrite unmasked_app, length_app, (unmasked_prefix_length key (offset + h) offset n) by lia.
      rewrite length_drop. lia. }
  destruct H as [H1 H2].
  assert (H : bytes_ok (wr (unmasked key (offset + h) offset buf n) (offset + n) NUL) ∧
    length (wr (unmasked key (offset + h) offset buf n) (offset + n) NUL) = length buf).
  { unfold wr. rewrite length_insert. split; [|done]. by apply Forall_insert. }
  by destruct (g_utf8_validate _).
Qed.

(** What the frames built with [frame_start] parse to. *)
Lemma parse_start op (key : option bytes) data rest :
  (op = OPCODE_TEXT ∨ op = OPCODE_CLOSE) → Z.of_nat (length data) < 2 ^ 63 →
  match key with Some key => length key = 4%nat | None => True end →
  let s := frame_start op (if key then 128 else 0) (Z.of_nat (length data)) ++ default [] key in
  parse (s ++ data ++ rest) =
    Some (mkFrame true 0 op key (match key with Some key => unmask key data | None => data end)
      (length s + length data)).
Proof.
  intros Hop Hlen Hkey s. subst s.
  destruct (header_start op (if key then true else false) (Z.of_nat (length data))
    (default [] key ++ data ++ rest)) as (H1 & _ & H2); [lia| |].
  { destruct key; [|done]. simpl. rewrite length_app. lia. }
  unfold parse. rewrite <- app_assoc.
  replace (if if key then true else false then 128 else 0) with (if key then 128 else 0) in H1, H2
    by (by destruct key).
  set (s := frame_start _ _ _) in *. rewrite H1, H2. clearbody s.
  assert (Hf : negb (Z.land (128 + op) 128 =? 0) = true ∧ Z.land (128 + op) 112 = 0 ∧
    Z.land (128 + op) 15 = op) by (by destruct Hop as [-> | ->]).
  destruct Hf as (-> & -> & ->). destruct key as [key|]; simpl.
  - rewrite take_app_length' by done. rewrite (proj2 (Z.ltb_ge _ _)) by (rewrite !length_app; lia).
    rewrite Nat2Z.id, length_app, Hkey. do 2 f_equal. f_equal.
    rewrite (app_assoc s), drop_app_length' by (rewrite length_app; lia). apply take_app_length.
  - rewrite (proj2 (Z.ltb_ge _ _)) by (rewrite !length_app; lia).
    rewrite Nat2Z.id, app_nil_r, drop_app_length, take_app_length. done.
Qed.

(** C39. Every frame the server sends is, for RFC 6455, one final unmasked text
    frame in the shortest length form whose payload is the message in the text
    format, whatever follows it in the stream. So are the two predefined
    frames, which carry the handshake and a heartbeat event. *)
Theorem rfc6455_frame_wellformed {LO : LibsOk L} ev_path ev_extra server_cb json rest :
  Z.of_nat (length (protocol_raw_format ev_path ev_extra server_cb json)) < 2 ^ 63 →
  let raw := protocol_raw_format ev_path ev_extra server_cb json in
  ∃ def, protocol_rfc6455_frame ev_path ev_extra server_cb json = mkFrames (Some def) None ∧
    def = frame_start OPCODE_TEXT 0 (Z.of_nat (length raw)) ++ raw ∧
    parse (def ++ rest) = Some (mkFrame true 0 OPCODE_TEXT None raw (length def)) ∧
    parse (QIO_HANDSHAKE ++ rest) =
      Some (mkFrame true 0 OPCODE_TEXT None HANDSHAKE (length QIO_HANDSHAKE)) ∧
    protocol_rfc6455_frame (str "/qio/heartbeat") [] EVS_NO_CALLBACK (str "null") =
      mkFrames (Some WS_HEARTBEAT) None.
Proof.
  intros Hlen raw. fold raw in Hlen.
  exists (frame_start OPCODE_TEXT 0 (Z.of_nat (length raw)) ++ raw). split; [|split; [done|split; [|split]]].
  - unfold protocol_rfc6455_frame. fold raw. do 2 f_equal. unfold frame_start, PAYLOAD_SHORT.
    change (128 + OPCODE_TEXT) with 129. cbn [app]. f_equal. f_equal.
    destruct (Z.ltb_spec (Z.of_nat (length raw)) 126).
    + rewrite (proj2 (Z.leb_le _ _)) by lia. unfold u8. by rewrite Z.mod_small by lia.
    + rewrite (proj2 (Z.leb_gt _ _)) by lia.
      destruct (Z.ltb_spec (Z.of_nat (length raw)) 65536);
        [rewrite (proj2 (Z.leb_le _ _)) by lia|rewrite (proj2 (Z.leb_gt _ _)) by lia]; done.
  - rewrite <- app_assoc, length_app.
    pose proof (parse_start OPCODE_TEXT None raw rest (or_introl eq_refl) Hlen Logic.I) as H.
    simpl in H. rewrite app_nil_r in H. exact H.
  - exact (parse_start OPCODE_TEXT None HANDSHAKE rest (or_introl eq_refl) eq_refl Logic.I).
  - unfold protocol_rfc6455_frame, protocol_raw_format.
    rewrite qev_uint_dec by (unfold EVS_NO_CALLBACK; lia). reflexivity.
Qed.

Lemma parse_complete l f h len key :
  parse l = Some f → header l = Some (h, len, key) → Z.of_nat h + len ≤ Z.of_nat (length l).
Proof.
  intros Hp Hh. unfold parse in Hp. rewrite Hh in Hp. simpl in Hp. revert Hp.
  by destruct (Z.ltb_spec (Z.of_nat (length l)) (Z.of_nat h + len)).
Qed.

Lemma client_frame_parse key payload rest :
  length key = 4%nat → bytes_ok key → bytes_ok payload → Z.of_nat (length payload) < 2 ^ 63 →
  parse (client_frame key payload ++ rest) =
    Some (mkFrame true 0 OPCODE_TEXT (Some key) payload (length (client_frame key payload))).
Proof.
  intros Hk Hkok Hpok Hlen.
  pose proof (parse_start OPCODE_TEXT (Some key) (unmask key payload) rest (or_introl eq_refl)) as Hp.
  assert (Hul : length (unmask key payload) = length payload) by apply length_unmask_from.
  rewrite Hul in Hp. specialize (Hp Hlen Hk). cbv zeta in Hp.
  assert (Huu : unmask key (unmask key payload) = payload) by (by apply unmask_involutive).
  rewrite Huu in Hp. unfold client_frame.
  change (if Some key then 128 else 0) with 128 in Hp. change (default [] (Some key)) with key in Hp.
  rewrite <- !app_assoc in Hp. rewrite <- !app_assoc, Hp. do 2 f_equal. rewrite !length_app, Hul. lia.
Qed.

Lemma frame_start_ok n : 0 ≤ n → bytes_ok (frame_start OPCODE_TEXT 128 n).
Proof.
  intros Hn. unfold frame_start. apply Forall_cons_iff. split; [done|].
  destruct (Z.ltb_spec n 126); [|destruct (Z.ltb_spec n 65536)]; apply Forall_cons_iff;
    (split; [unfold byte_ok; lia|]); try apply be_split_ok; done.
Qed.

Lemma client_frame_ok key payload pre rest :
  length key = 4%nat → bytes_ok key → bytes_ok payload → bytes_ok pre → bytes_ok rest →
  let frame := client_frame key payload in
  bytes_ok (pre ++ frame ++ rest) ∧ (6 ≤ length (frame ++ rest))%nat ∧
  Z.land (rd (frame ++ rest) 0) 15 = OPCODE_TEXT ∧ Z.land (rd (frame ++ rest) 1) 128 ≠ 0.
Proof.
  intros Hk Hkok Hpok Hpre Hrest frame. unfold frame, client_frame.
  split; [|split; [|split]].
  - rewrite !Forall_app. split_and!; try done; [apply frame_start_ok; lia|by apply unmask_ok].
  - unfold frame_start. rewrite !length_app, Hk. simpl.
    destruct (_ <? 126); [|destruct (_ <? 65536)]; simpl; rewrite ?length_be_split; lia.
  - done.
  - unfold rd, frame_start. simpl. destruct (Z.ltb_spec (Z.of_nat (length payload)) 126);
      [|destruct (Z.ltb_spec (Z.of_nat (length payload)) 65536)]; simpl;
      [apply (land_mask_bit (Z.of_nat (length payload))); lia|done|done].
Qed.

(** C27. A text message in one masked frame, as clients must send it, is decoded
    to exactly that message, whatever its length, its key and its position in
    the buffer. *)
Theorem client_frame_decoded {LO : LibsOk L} key payload pre rest :
  length key = 4%nat → bytes_ok key → bytes_ok payload → bytes_ok pre → bytes_ok rest →
  g_utf8_validate payload = true →
  let frame := client_frame key payload in
  Z.of_nat (length (pre ++ frame ++ rest)) < 2 ^ 63 →
  ∃ buf', _decode (pre ++ frame ++ rest) (length pre) =
      (DOk (Z.of_nat (length payload)) (Z.of_nat (length frame)), buf') ∧
    take (length payload) (drop (length pre) buf') = payload ∧
    rd buf' (length pre + length payload) = NUL ∧ take (length pre) buf' = pre ∧
    drop (length pre + length frame) buf' = rest.
Proof.
  intros Hk Hkok Hpok Hpre Hrest Hutf frame Hbig.
  destruct (client_frame_ok key payload pre rest Hk Hkok Hpok Hpre Hrest) as (Hok & H6 & Hop & Hmask).
  fold frame in Hok, H6, Hop, Hmask.
  assert (Hlen : Z.of_nat (length payload) < 2 ^ 63).
  { revert Hbig. unfold frame, client_frame. rewrite !length_app. unfold unmask.
    rewrite length_unmask_from. lia. }
  pose proof (client_frame_parse key payload rest Hk Hkok Hpok Hlen) as Hp. fold frame in Hp.
  pose proof (decode_spec (pre ++ frame ++ rest) (length pre) Hok) as Hd.
  rewrite drop_app_length in Hd. specialize (Hd ltac:(rewrite length_app; lia)). cbv zeta in Hd.
  rewrite Hop, Hp in Hd.
  assert (Hsmall : ∀ h l k, header (frame ++ rest) = Some (h, l, k) → Z.of_nat h + l < 2 ^ 64).
  { intros h l k Hh. pose proof (parse_complete _ _ _ _ _ Hp Hh). rewrite length_app in Hbig. lia. }
  clearbody frame. destruct (_decode (pre ++ frame ++ rest) (length pre)) as [[|o|n m] buf'].
  - destruct Hd as (_ & _ & [?|(_ & _ & ?)]); [lia|done].
  - exfalso. destruct o as [[]|]; try done.
    + by destruct Hd as (_ & Hd).
    + by destruct Hd as (_ & _ & Hd & _).
    + by destruct Hd as (_ & _ & Hd & _).
    + destruct Hd as (f & [= <-] & _ & _ & Hu). simpl in Hu. congruence.
    + destruct Hd as (_ & h & l & k & Hh & Hlarge). specialize (Hsmall h l k Hh). lia.
  - destruct Hd as (f & k & [= <-] & _ & _ & -> & -> & _ & Hl & Hn & _ & Ht & Hr).
    cbn [Rfc6455.payload size] in *. exists buf'. split; [done|]. split; [done|]. split; [done|].
    rewrite take_app_length in Ht. split; [done|]. rewrite Hr.
    by rewrite <- drop_drop, !drop_app_length.
Qed.

(** Whatever the reason for closing, what the server writes is one final
    unmasked close frame that fits a control frame, empty or with a status code
    RFC 6455 defines, in network order, and a reason in printable ASCII. *)
Theorem close_frame_wellformed reason rest :
  ∃ data,
    parse (close_frame reason ++ rest) =
      Some (mkFrame true 0 OPCODE_CLOSE None data (length (close_frame reason))) ∧
    (length data ≤ 125)%nat ∧
    (data = [] ∨ ∃ code text, data = be_split 2 code ++ text ∧
       code ∈ [1001; 1002; 1003; 1007; 1008; 1009] ∧ Forall (λ c, 32 ≤ c < 127) text).
Proof.
  assert (H : ∃ data, close_frame reason = frame_start OPCODE_CLOSE 0 (Z.of_nat (length data)) ++ data ∧
    (length data ≤ 125)%nat ∧
    (data = [] ∨ ∃ code text, data = be_split 2 code ++ text ∧
       code ∈ [1001; 1002; 1003; 1007; 1008; 1009] ∧ Forall (λ c, 32 ≤ c < 127) text)).
  { assert (Hcode : ∀ code text, close_frame reason =
        frame_start OPCODE_CLOSE 0 (Z.of_nat (length (be_split 2 code ++ text))) ++ be_split 2 code ++ text →
      bool_decide ((length (be_split 2 code ++ text) ≤ 125)%nat ∧
        code ∈ [1001; 1002; 1003; 1007; 1008; 1009] ∧ Forall (λ c, 32 ≤ c < 127) text) = true →
      ∃ data, close_frame reason = frame_start OPCODE_CLOSE 0 (Z.of_nat (length data)) ++ data ∧
        (length data ≤ 125)%nat ∧
        (data = [] ∨ ∃ code text, data = be_split 2 code ++ text ∧
           code ∈ [1001; 1002; 1003; 1007; 1008; 1009] ∧ Forall (λ c, 32 ≤ c < 127) text)).
    { intros code text E (H1 & H2 & H3)%bool_decide_eq_true. exists (be_split 2 code ++ text). eauto 10. }
    destruct reason;
      try (exists []; split; [reflexivity|split; [simpl; lia|by left]]);
      [apply (Hcode 1001 [])|apply (Hcode 1008 (str "client timeout"))|apply (Hcode 1009 [])
      |apply (Hcode 1002 (str "invalid handshake"))|apply (Hcode 1002 (str "invalid event format"))
      |apply (Hcode 1002 (str "client must mask data"))|apply (Hcode 1003 [])|apply (Hcode 1007 [])];
      reflexivity. }
  destruct H as (data & E & H1 & H2). exists data. split; [|done].
  pose proof (parse_start OPCODE_CLOSE None data rest (or_intror eq_refl) ltac:(lia) Logic.I) as Hp.
  cbv zeta in Hp. change (default [] (@None bytes)) with (@nil Z) in Hp. rewrite app_nil_r in Hp.
  rewrite E, <- app_assoc, Hp, length_app. done.
Qed.

End Decoder.

(** ** Witnesses *)

Definition demo_key : bytes := [17; 250; 3; 128].
Definition demo_text : bytes := str "/chat/room:1=[1,2,3,4,5,6,7,8,9,10]".
Definition demo_buffer : bytes := [1; 2; 3] ++ client_frame demo_key demo_text ++ [4; 5].

Lemma demo_buffer_ok : bytes_ok demo_buffer.
Proof. apply (bool_decide_eq_true_1 (bytes_ok demo_buffer)). vm_compute. reflexivity. Qed.

Lemma decode_correct_witness :
  (_decode (L := libs0) demo_buffer 3).1 = DOk 35 41 ∧
  match _decode (L := libs0) demo_buffer 3 with
  | (DOk len frame_len, buf') =>
      ∃ f key, parse (drop 3 demo_buffer) = Some f ∧
        Z.land (rd (drop 3 demo_buffer) 0) 15 = OPCODE_TEXT ∧ masking_key f = Some key ∧
        len = Z.of_nat (length (payload f)) ∧ frame_len = Z.of_nat (size f) ∧
        g_utf8_validate (Libs := libs0) (payload f) = true ∧ left_by demo_buffer 3 f buf'
  | _ => False
  end.
Proof.
  split; [vm_compute; reflexivity|].
  pose proof (decode_correct (L := libs0) demo_buffer 3 demo_buffer_ok
    ltac:(vm_compute; lia)) as H. cbv zeta in H.
  assert (E : (_decode (L := libs0) demo_buffer 3).1 = DOk 35 41) by (vm_compute; reflexivity).
  destruct (_decode (L := libs0) demo_buffer 3) as [d buf']. simpl in E. rewrite E in H |- *. exact H.
Defined.

Lemma rfc6455_frame_wellformed_witness :
  ∃ def, protocol_rfc6455_frame (L := libs0) (str "/chat") (str "/room") 7 (str "null") =
      mkFrames (Some def) None ∧
    length def = 19%nat ∧
    parse (def ++ [1; 2]) = Some (mkFrame true 0 OPCODE_TEXT None (str "/chat/room:7=null") (length def)).
Proof.
  destruct (rfc6455_frame_wellformed (L := libs0) (str "/chat") (str "/room") 7 (str "null") [1; 2]
    ltac:(vm_compute; reflexivity)) as (def & H1 & H2 & H3 & _).
  exists def. split; [exact H1|]. split; [rewrite H2; vm_compute; reflexivity|exact H3].
Defined.

Lemma client_frame_decoded_witness :
  ∃ buf', _decode (L := libs0) demo_buffer 3 =
      (DOk (Z.of_nat (length demo_text)) (Z.of_nat (length (client_frame demo_key demo_text))), buf') ∧
    take (length demo_text) (drop 3 buf') = demo_text.
Proof.
  assert (Hk : bytes_ok demo_key) by (apply (bool_decide_eq_true_1 (bytes_ok demo_key)); vm_compute; reflexivity).
  assert (Ht : bytes_ok demo_text) by (apply (bool_decide_eq_true_1 (bytes_ok demo_text)); vm_compute; reflexivity).
  assert (H3 : bytes_ok [1; 2; 3]) by (apply (bool_decide_eq_true_1 (bytes_ok [1; 2; 3])); vm_compute; reflexivity).
  assert (H2 : bytes_ok [4; 5]) by (apply (bool_decide_eq_true_1 (bytes_ok [4; 5])); vm_compute; reflexivity).
  destruct (client_frame_decoded (L := libs0) demo_key demo_text [1; 2; 3] [4; 5]
    eq_refl Hk Ht H3 H2 ltac:(vm_compute; reflexivity) ltac:(vm_compute; reflexivity))
    as (buf' & E1 & E2 & _).
  exists buf'. split; [exact E1|exact E2].
Defined.
