(* ===== verification/Config.v ===== *)
(** The configuration: src/config.c. The variables are written by quick-event's
    configuration code, so the rest of the model takes their values from the
    class [Config]; the checks and the callbacks that config.c registers for
    them are definitions. The HTML pages are generated by the build. *)
From Stdlib Require Import ZArith Lia.
From stdpp Require Import base list gmap strings.
From S2P Require Import Prelude Types Libs EvsQuery State ClientSub.

Class Config := {
  (** seconds *)
  cfg_clients_cb_max_age : Z;
  cfg_clients_subs_total : Z;
  cfg_clients_subs_pressure : Z;
  cfg_clients_subs_min : Z;
  cfg_public_address : option bytes;
  (** [qev_cfg_get_timeout], milliseconds *)
  qev_cfg_get_timeout : Z;
  (** [src_protocols_http_html_iframe_c_html] and
      [src_protocols_http_html_error_c_html] *)
  html_iframe : bytes;
  html_error : bytes;
}.

(** The defaults, with a public address set. *)
Definition config0 : Config := {|
  cfg_clients_cb_max_age := 15;
  cfg_clients_subs_total := 4194304;
  cfg_clients_subs_pressure := 60;
  cfg_clients_subs_min := 128;
  cfg_public_address := Some (str "localhost");
  qev_cfg_get_timeout := 60000;
  html_iframe := str "<html></html>";
  html_error := str "<html></html>";
|}.

Section Config.
Context {L : Libs} {C : Config}.

(** [client_update_subs_config] of client.c, once [client_init] has made
    [_fair_subs]; before that it does nothing. *)
Definition client_update_subs_config (total pressure min : Z) : world → world :=
  set_w_fair (λ f, qev_fair_set f total pressure min).

Definition _update_client_subs_total (new_val : Z) : world → world :=
  client_update_subs_config new_val cfg_clients_subs_pressure cfg_clients_subs_min.
Definition _update_client_subs_pressure (new_val : Z) : world → world :=
  client_update_subs_config cfg_clients_subs_total new_val cfg_clients_subs_min.
Definition _update_client_subs_min (new_val : Z) : world → world :=
  client_update_subs_config cfg_clients_subs_total cfg_clients_subs_pressure new_val.

(** The validators: whether [*error] is set. *)
Definition _validate_client_cb_max_age (val : Z) : bool := val =? 0.

(** With [getaddrinfo]'s answer for an address; the value may be replaced. *)
Definition _validate_public_address (resolves : bytes → bool) (val : option bytes) :
    option bytes * bool :=
  match val with
  | None => (None, false)
  | Some [] => (None, false)
  | Some s => (Some s, negb (resolves s))
  end.

Definition _validate_sub_min_size (max_clients val : Z) : bool :=
  (val =? 0) || (max_clients <? val).

End Config.
