(* ===== verification/Poll.v ===== *)
(** HTTP long polling: the parts of src/protocols_http.c that send responses.

    A client that polls is represented by a surrogate, a client without a
    connection. A real connection (a poller) waits, with its request
    unanswered, until something is sent to the surrogate. Each of the two points
    at the other with its field [http.client] and owns a reference to it. *)
From Stdlib Require Import ZArith Lia String.
From stdpp Require Import functions base list gmap strings.
From S2P Require Import Prelude Types Libs EvsQuery State ClientSub Config Raw WebSocket.

Inductive http_status :=
  | STATUS_200 | STATUS_400 | STATUS_403 | STATUS_405 | STATUS_411 | STATUS_413
  | STATUS_426 | STATUS_501.

Definition HTTP_STATUSES : list http_status :=
  [STATUS_200; STATUS_400; STATUS_403; STATUS_405; STATUS_411; STATUS_413;
   STATUS_426; STATUS_501].

(** [_statuses] *)
Definition status_code (st : http_status) : Z :=
  match st with
  | STATUS_200 => 200 | STATUS_400 => 400 | STATUS_403 => 403 | STATUS_405 => 405
  | STATUS_411 => 411 | STATUS_413 => 413 | STATUS_426 => 426 | STATUS_501 => 501
  end.

Definition status_line (st : http_status) : bytes :=
  match st with
  | STATUS_200 => str "200 OK"
  | STATUS_400 => str "400 Bad Request"
  | STATUS_403 => str "403 Forbidden"
  | STATUS_405 => str "405 Method Not Allowed"
  | STATUS_411 => str "411 Length Required"
  | STATUS_413 => str "413 Request Entity Too Large"
  | STATUS_426 => str "426 Upgrade Required"
  | STATUS_501 => str "501 Not Implemented"
  end ++ CRLF.

Definition HTTP_COMMON : bytes :=
  HTTP_NOCACHE ++ str "Connection: Keep-Alive" ++ CRLF ++ str "Keep-Alive: timeout=60" ++ CRLF.
Definition HTTP_CONTENT_LENGTH : string := "Content-Length".

Section Poll.
Context {L : Libs} {C : Config}.

Definition _build_response_full (status : http_status) (body : option bytes) (is_iframe : bool) :
    bytes :=
  let len := match body with Some b => Z.of_nat (length b) | None => 0 end in
  str "HTTP/1.0 " ++ status_line status ++
  HTTP_COMMON ++ str HTTP_CONTENT_LENGTH ++ str ": " ++
  qev_uint len ++
  CRLF ++ str "Content-Type: " ++ (if is_iframe then str "text/html" else str "text/plain") ++
  CRLF ++ CRLF ++
  default [] body.

Definition _build_response (status : http_status) (body : option bytes) : bytes :=
  _build_response_full status body false.

(** [_status_responses] and [_iframe_source], as [protocol_http_init] sets them;
    without a public address [_iframe_source] is never set. *)
Definition _status_responses (status : http_status) : bytes :=
  match status with
  | STATUS_501 => _build_response STATUS_501 (Some html_error)
  | _ => _build_response status None
  end.

Definition _iframe_source : option bytes :=
  addr ← cfg_public_address;
  Some (_build_response_full STATUS_200
          (Some (qev_buffer_replace_str html_iframe (str "{PUBLIC_ADDRESS}") addr)) true).

(** [c->http] *)
Definition upd_http (c : cid) (f : http_state → http_state) : world → world :=
  upd_client c (set_c_http f).

Definition _steal_client (c : cid) (w : world) : option cid * world :=
  match w_clients w !! c with
  | None => (None, fault w)
  | Some cl => (h_client (c_http cl), upd_http c (set_h_client (λ _, None)) w)
  end.

Definition _surr_release_client (surrogate : option cid) (client : cid) (w : world) : world :=
  match surrogate with
  | None => w
  | Some s =>
      match w_clients w !! s with
      | None => fault w
      | Some sl =>
          if decide (h_client (c_http sl) = Some client) then
            qev_unref client (upd_http s (set_h_client (λ _, None)) w)
          else w
      end
  end.

Definition _send_response (client : option cid) (status : http_status) (resp : bytes) (w : world) :
    bool * world :=
  match client with
  | None => (false, w)
  | Some c =>
      let '(surrogate, w) := _steal_client c w in
      match w_clients w !! c with
      | None => (false, fault w)
      | Some cl =>
          let '(sent, w) :=
            if h_in_request (c_http cl) then
              let w := upd_http c (set_h_in_request (λ _, false)) w in
              let w := qev_write c resp w in
              let w := touch_send c w in
              let w := match surrogate with Some s => touch_send s w | None => w end in
              let w := if negb (h_keep_alive (c_http cl)) then qev_close c HTTP_DONE w else w in
              (true, w)
            else (false, w) in
          let w := _surr_release_client surrogate c w in
          let w := qev_unref_opt surrogate w in
          (sent, if sent then stat_inc (http_responses (status_code status)) w else w)
      end
  end.

Definition _send_error (client : option cid) (status : http_status) (w : world) : bool * world :=
  _send_response client status (_status_responses status) w.

Definition _surr_replace (surrogate new_poller : cid) (w : world) : world :=
  match w_clients w !! surrogate, w_clients w !! new_poller with
  | Some sl, Some pl =>
      let old_poller := h_client (c_http sl) in
      let w := upd_http surrogate (set_h_client (λ _, None)) w in
      let closing := c_closing sl || c_closing pl in
      let w := if negb closing
               then upd_http surrogate (set_h_client (λ _, Some new_poller)) (qev_ref new_poller w)
               else w in
      let w := if closing then (_send_error (Some new_poller) STATUS_403 w).2 else w in
      match old_poller with
      | Some p =>
          qev_unref p (_send_error (Some p) (if closing then STATUS_403 else STATUS_200) w).2
      | None => w
      end
  | _, _ => fault w
  end.

(** The assertion aborts the server when it does not hold. *)
Definition _surr_send (surrogate new_poller : cid) (msgs : bytes) (w : world) : world :=
  let resp := _build_response STATUS_200 (Some msgs) in
  let '(poller, w) := _steal_client surrogate w in
  let '(sent, w) :=
    match poller with
    | Some p => let '(sent, w) := _send_response (Some p) STATUS_200 resp w in (sent, qev_unref p w)
    | None => (false, w)
    end in
  if sent then _surr_replace surrogate new_poller w
  else
    let '(ok, w) := _send_response (Some new_poller) STATUS_200 resp w in
    if ok then w else fault w.

Definition protocol_http_frame (ev_path ev_extra : bytes) (server_cb : Z) (json : bytes) :
    protocol_frames :=
  let raw := protocol_raw_format ev_path ev_extra server_cb json ++ [NEWLINE] in
  mkFrames (Some (_build_response STATUS_200 (Some raw))) (Some raw).

(** Both frames are there: [protocol_http_frame] sets them. *)
Definition protocol_http_send (surrogate : cid) (pframes : protocol_frames) (w : world) : world :=
  match w_clients w !! surrogate, fr_def pframes, fr_raw pframes with
  | Some sl, Some def, Some raw =>
      let '(sent, w) :=
        if negb (h_incoming (c_http sl)) then
          let '(client, w) := _steal_client surrogate w in
          let '(sent, w) := _send_response client STATUS_200 def w in
          (sent, qev_unref_opt client w)
        else (false, w) in
      if negb sent then qev_write surrogate raw w else w
  | _, _, _ => fault w
  end.

Definition protocol_http_heartbeat (c : cid) (hb : protocol_heartbeat) (w : world) : world :=
  match w_clients w !! c with
  | None => fault w
  | Some cl =>
      if c_surrogate cl then
        if bool_decide (h_client (c_http cl) = None) && (c_last_send cl <? hb_timeout hb)
        then qev_close c RAW_HEARTATTACK w else w
      else
        match h_client (c_http cl) with
        | None => if c_last_send cl <? hb_heartbeat hb then qev_close c RAW_HEARTATTACK w else w
        | Some _ => if c_last_send cl <? hb_poll hb then (_send_error (Some c) STATUS_200 w).2 else w
        end
  end.

Definition protocol_http_close (c : cid) (reason : close_reason) (w : world) : world :=
  match w_clients w !! c with
  | None => fault w
  | Some cl =>
      if c_surrogate cl then
        let h := c_http cl in
        let w := set_w_tables (alter (delete (h_sid h)) (Z.to_nat (h_tbl h))) w in
        let '(client, w) := _steal_client c w in
        let w := (_send_error client STATUS_403 w).2 in
        let w := qev_unref_opt client w in
        stat_inc http_surrogates_closed w
      else
        let '(surrogate, w) := _steal_client c w in
        let w :=
          match reason with
          | HTTP_BAD_REQUEST => (_send_error (Some c) STATUS_400 w).2
          | HTTP_LENGTH_REQUIRED => (_send_error (Some c) STATUS_411 w).2
          | QEV_CLOSE_OUT_OF_MEM => (_send_error (Some c) STATUS_413 w).2
          | _ => w
          end in
        match surrogate with
        | Some s => qev_unref s (qev_close s HTTP_DONE w)
        | None => w
        end
  end.

(** ** What the operations do to a connection *)

Definition link (c : cid) (w : world) : option cid :=
  cl ← w_clients w !! c; h_client (c_http cl).
Definition waiting (c : cid) (w : world) : bool :=
  match w_clients w !! c with Some cl => h_in_request (c_http cl) | None => false end.
Definition keeps_alive (c : cid) (w : world) : bool :=
  match w_clients w !! c with Some cl => h_keep_alive (c_http cl) | None => false end.
Definition out (c : cid) (w : world) : list output :=
  match w_clients w !! c with Some cl => c_out cl | None => [] end.
Definition closing (c : cid) (w : world) : bool :=
  match w_clients w !! c with Some cl => c_closing cl | None => false end.
Definition is_surrogate (c : cid) (w : world) : bool :=
  match w_clients w !! c with Some cl => c_surrogate cl | None => false end.

(** The references to a client that no link owns: an operation that keeps this
    number has given back what it took. *)
Definition linked (cl : client) : list cid :=
  match h_client (c_http cl) with Some d => [d] | None => [] end.
Definition links (d : cid) (w : world) : nat :=
  length (filter (.= d) (map_items linked (w_clients w))).
Definition spare (d : cid) (w : world) : Z :=
  match w_clients w !! d with Some cl => c_refs cl | None => 0 end - Z.of_nat (links d w).

(** Everything but outputs, links, references and the like. *)
Definition io_client (cl : client) : client :=
  set_c_out (λ _, []) (set_c_last_send (λ _, 0) (set_c_refs (λ _, 0) (set_c_closing (λ _, false)
    (set_c_http (λ h, set_h_client (λ _, None) (set_h_in_request (λ _, false) h)) cl)))).
Definition io_mask (w : world) : world :=
  set_w_clients (fmap io_client) (set_w_stats (λ _ _, 0) w).

Record io_same (w w' : world) : Prop := {
  io_masks : io_mask w' = io_mask w;
  io_stats k : (∀ n, k ≠ http_responses n) → w_stats w' k = w_stats w k;
}.

#[export] Instance io_same_pre : PreOrder io_same.
Proof.
  split; [done|]. intros w1 w2 w3 [M1 S1] [M2 S2].
  split; [by rewrite M2|]. intros k Hk. by rewrite (S2 k Hk), (S1 k Hk).
Qed.

Lemma io_fault w w' : io_same w w' → w_fault w' = w_fault w.
Proof. intros [M _]. apply (f_equal w_fault M). Qed.
Lemma io_now w w' : io_same w w' → w_now w' = w_now w.
Proof. intros [M _]. apply (f_equal w_now M). Qed.

Lemma io_at w w' c : io_same w w' → io_client <$> w_clients w' !! c = io_client <$> w_clients w !! c.
Proof.
  intros [M _]. apply (f_equal w_clients), (f_equal (.!! c)) in M. simpl in M.
  by rewrite !lookup_fmap in M.
Qed.

Lemma io_some w w' c cl : io_same w w' → w_clients w !! c = Some cl →
  ∃ cl', w_clients w' !! c = Some cl' ∧ io_client cl' = io_client cl.
Proof.
  intros H Hc. apply (io_at _ _ c) in H. rewrite Hc in H.
  destruct (w_clients w' !! c) as [cl'|]; [|done]. apply (inj Some) in H. by exists cl'.
Qed.

Lemma io_upd c cl f w :
  w_clients w !! c = Some cl → io_client (f cl) = io_client cl → io_same w (upd_client c f w).
Proof.
  intros Hc Hf. rewrite (upd_client_Some c f cl w Hc). split; [|done].
  unfold io_mask, set_w_clients, set_w_stats. simpl. f_equal.
  rewrite fmap_insert, Hf. apply insert_id. by rewrite lookup_fmap, Hc.
Qed.

(** One update, in the number of spare references. *)
Lemma spare_upd c cl f d w :
  w_clients w !! c = Some cl →
  spare d (upd_client c f w) =
    spare d w + (if decide (d = c) then c_refs (f cl) - c_refs cl else 0)
    - (if decide (h_client (c_http (f cl)) = Some d) then 1 else 0)
    + (if decide (h_client (c_http cl) = Some d) then 1 else 0).
Proof.
  intros Hc. unfold spare, links. rewrite upd_client_at, (upd_client_Some c f cl w Hc). simpl.
  pose proof (map_items_insert linked (w_clients w) c (f cl) cl Hc) as Hm.
  assert (Hn : ∀ l1 l2 : list cid, l1 ≡ₚ l2 →
    length (filter (.= d) l1) = length (filter (.= d) l2)) by (intros l1 l2 E; by rewrite E).
  apply Hn in Hm. rewrite !filter_app, !length_app in Hm.
  assert (H1 : ∀ x : client, length (filter (.= d) (linked x)) =
    if decide (h_client (c_http x) = Some d) then 1%nat else 0%nat).
  { intros x. unfold linked. destruct (h_client (c_http x)) as [e|]; [|done].
    rewrite filter_cons, filter_nil. destruct (decide (e = d)) as [->|Hne].
    - by rewrite decide_True.
    - by rewrite decide_False by congruence. }
  rewrite !H1 in Hm. destruct (decide (d = c)) as [->|]; [rewrite Hc; simpl|];
    repeat case_decide; simpl in *; lia.
Qed.

(** ** Sending a response *)

(** What a connection is told when a response goes out. *)
Definition answer (keep_alive : bool) (resp : bytes) : list output :=
  OWrite resp :: if keep_alive then [] else [OClose HTTP_DONE].

(** [client] was sent [resp], unless it was not waiting for a response; either
    way it and its surrogate are released from one another. *)
Record responded (c : cid) (resp : bytes) (w w' : world) : Prop := {
  rp_io : io_same w w';
  rp_link d : link d w' =
    if decide (d = c) then None
    else if decide (link c w = Some d ∧ link d w = Some c) then None else link d w;
  rp_waiting d : waiting d w' = if decide (d = c) then false else waiting d w;
  rp_out d : out d w' = out d w ++
    if decide (d = c ∧ waiting c w = true) then answer (keeps_alive c w) resp else [];
  rp_closing d : closing d w' =
    closing d w || (bool_decide (d = c) && waiting c w && negb (keeps_alive c w));
  rp_spare d : spare d w' = spare d w;
}.

(** One step of an operation: an update of an existing client. *)
Definition io_keeps (f : client → client) : Prop := ∀ cl, io_client (f cl) = io_client cl.

Lemma io_upd_some c f w : is_Some (w_clients w !! c) → io_keeps f → io_same w (upd_client c f w).
Proof. intros [cl Hc] Hf. by apply (io_upd c cl). Qed.

Lemma io_stat_step k n w : (∃ m, k = http_responses m) → io_same w (stat_add k n w).
Proof.
  intros [m ->]. split; [done|]. intros j Hj. simpl. by rewrite decide_False by apply Hj.
Qed.

Lemma spare_ext d w w' : w_clients w' = w_clients w → spare d w' = spare d w.
Proof. intros E. unfold spare, links. by rewrite E. Qed.

(** An update that keeps link and references. *)
Lemma spare_keep c f d w :
  (∀ cl, h_client (c_http (f cl)) = h_client (c_http cl) ∧ c_refs (f cl) = c_refs cl) →
  spare d (upd_client c f w) = spare d w.
Proof.
  intros Hf. destruct (w_clients w !! c) as [cl|] eqn:Hc.
  - rewrite (spare_upd c cl) by done. destruct (Hf cl) as [-> ->]. repeat case_decide; lia.
  - apply spare_ext. unfold upd_client. by rewrite Hc.
Qed.

Lemma spare_clear c d w :
  spare d (upd_http c (set_h_client (λ _, None)) w) =
    spare d w + (if decide (link c w = Some d) then 1 else 0).
Proof.
  unfold upd_http, link. destruct (w_clients w !! c) as [cl|] eqn:Hc; simpl.
  - rewrite (spare_upd c cl) by done. simpl. repeat case_decide; simplify_eq; lia.
  - rewrite Z.add_0_r. apply spare_ext. unfold upd_client. by rewrite Hc.
Qed.

Lemma spare_unref c d w :
  is_Some (w_clients w !! c) →
  spare d (qev_unref c w) = spare d w - (if decide (d = c) then 1 else 0).
Proof.
  intros [cl Hc]. unfold qev_unref. rewrite (spare_upd c cl) by done. simpl.
  repeat case_decide; simplify_eq; lia.
Qed.

(** The client that an update leaves at an address. *)
Ltac at_simpl :=
  repeat first [rewrite upd_client_at | rewrite decide_True by done | rewrite decide_False by done
    | progress cbn [w_clients stat_inc stat_add set_w_stats fmap option_fmap option_map] ].

Lemma io_upd_after c f w0 w :
  io_same w0 w → is_Some (w_clients w !! c) → io_keeps f → io_same w0 (upd_client c f w).
Proof. intros H Hc Hf. etrans; [exact H|by apply io_upd_some]. Qed.

Ltac io_steps :=
  repeat (apply io_upd_after; [|rewrite ?upd_client_dom; by eauto|by intros []]); try done.

(** What [_send_response] does to the connection before it releases it. *)
Definition respond (c : cid) (surrogate : option cid) (keep_alive : bool) (resp : bytes)
    (w : world) : world :=
  let w := upd_http c (set_h_in_request (λ _, false)) w in
  let w := qev_write c resp w in
  let w := touch_send c w in
  let w := match surrogate with Some s => touch_send s w | None => w end in
  if negb keep_alive then qev_close c HTTP_DONE w else w.

(** Neither links nor references change, and only [c] is told something. *)
Lemma respond_spec c cl surrogate keep resp w :
  w_clients w !! c = Some cl → (∀ s, surrogate = Some s → is_Some (w_clients w !! s)) →
  let w' := respond c surrogate keep resp w in
  io_same w w' ∧
  (∀ d, link d w' = link d w) ∧ (∀ d, spare d w' = spare d w) ∧
  (∀ d, waiting d w' = if decide (d = c) then false else waiting d w) ∧
  (∀ d, out d w' = out d w ++ if decide (d = c) then answer keep resp else []) ∧
  (∀ d, closing d w' = closing d w || (bool_decide (d = c) && negb keep)).
Proof.
  intros Hc Hs w'.
  assert (Hio : io_same w w').
  { subst w'. unfold respond, upd_http, qev_write, touch_send, qev_close.
    assert (Hc' : is_Some (w_clients w !! c)) by eauto.
    destruct surrogate as [s|], keep; cbn [negb]; io_steps. }
  split; [done|].
  assert (Hat : ∀ d, w_clients w' !! d =
    (λ dl, let dl := if decide (surrogate = Some d) then set_c_last_send (λ _, w_now w) dl else dl in
      if decide (d = c) then
        let dl := set_c_last_send (λ _, w_now w)
          (set_c_out (λ o, o ++ answer keep resp) (set_c_http (set_h_in_request (λ _, false)) dl)) in
        if keep then dl else set_c_closing (λ _, true) dl
      else dl) <$> w_clients w !! d).
  { intros d. subst w'. unfold respond, upd_http, qev_write, touch_send, qev_close.
    destruct surrogate as [s|], keep; cbn [negb]; at_simpl; rewrite ?upd_client_now;
      destruct (w_clients w !! d) as [dl|]; cbn; repeat case_decide; simplify_eq; try done;
      try done;
      f_equal; destruct dl; unfold set_c_closing, set_c_out; cbn; by rewrite <- app_assoc. }
  split; [|split; [|split; [|split]]]; intros d.
  - unfold link. rewrite Hat. destruct (w_clients w !! d); [|done]. destruct keep; cbn; repeat case_decide; done.
  - subst w'. unfold respond, upd_http, qev_write, touch_send, qev_close.
    destruct surrogate, keep; cbn [negb]; by rewrite !spare_keep by done.
  - unfold waiting. rewrite Hat. destruct (w_clients w !! d); [|cbn; by case_decide].
    destruct keep; cbn; repeat case_decide; done.
  - unfold out. rewrite Hat. destruct (w_clients w !! d) as [dl|] eqn:Hd.
    + destruct keep; cbn; repeat case_decide; rewrite ?app_nil_r; done.
    + rewrite decide_False by congruence. done.
  - unfold closing. rewrite Hat. destruct (w_clients w !! d) as [dl|] eqn:Hd.
    + destruct (decide (d = c)) as [->|Hne];
        [rewrite bool_decide_eq_true_2 by done|rewrite bool_decide_eq_false_2 by done];
        destruct keep; cbn; repeat case_decide; rewrite ?orb_false_r, ?orb_true_r; done.
    + by rewrite bool_decide_eq_false_2 by congruence.
Qed.

(** The release of a connection from its surrogate. *)
Lemma release_spec c s w :
  (∀ x, s = Some x → x ≠ c ∧ is_Some (w_clients w !! x)) → is_Some (w_clients w !! c) →
  let w' := qev_unref_opt s (_surr_release_client s c w) in
  io_same w w' ∧
  (∀ d, link d w' = if decide (s = Some d ∧ link d w = Some c) then None else link d w) ∧
  (∀ d, waiting d w' = waiting d w) ∧ (∀ d, out d w' = out d w) ∧
  (∀ d, closing d w' = closing d w) ∧ (∀ d, keeps_alive d w' = keeps_alive d w) ∧
  (∀ d, spare d w' = spare d w - (if decide (s = Some d) then 1 else 0)).
Proof.
  intros Hs Hc w'. destruct s as [s|]; cycle 1.
  { subst w'. cbn. split; [done|]. split; [|split; [done|]].
    - intros d. by rewrite decide_False by naive_solver.
    - split; [done|]. split; [done|]. split; [done|]. intros d. rewrite decide_False by done. lia. }
  destruct (Hs s eq_refl) as [Hne [sl Hsl]]. subst w'. cbn. rewrite Hsl.
  assert (Hlink : link s w = h_client (c_http sl)) by (unfold link; by rewrite Hsl).
  assert (Hs' : is_Some (w_clients w !! s)) by eauto.
  assert (Hproj : ∀ {X} (proj : client → X) (z : X) d,
    (∀ dl, proj (set_c_refs (λ n, n - 1) dl) = proj dl) →
    (∀ dl, proj (set_c_http (set_h_client (λ _, None)) dl) = proj dl) →
    match w_clients (qev_unref s (if decide (h_client (c_http sl) = Some c)
      then qev_unref c (upd_http s (set_h_client (λ _, None)) w) else w)) !! d with
    | Some cl => proj cl | None => z end = match w_clients w !! d with Some cl => proj cl | None => z end).
  { intros X proj z d H1 H2. unfold qev_unref, upd_http. destruct (decide (_ = Some c)); at_simpl;
      destruct (w_clients w !! d); repeat case_decide; cbn; by rewrite ?H1, ?H2. }
  split; [unfold qev_unref, upd_http; case_decide; io_steps|].
  split; [|split; [|split; [|split; [|split]]]]; try (intros d; by apply Hproj).
  - intros d. destruct (decide (Some s = Some d ∧ link d w = Some c)) as [[[= <-] E]|Hd].
    + unfold link at 1, qev_unref, upd_http. rewrite Hlink in E.
      rewrite (decide_True (P := h_client _ = Some c)) by done. at_simpl. rewrite Hsl. done.
    + unfold link at 1, qev_unref, upd_http.
      destruct (decide (h_client (c_http sl) = Some c)) as [E|E]; at_simpl.
      * assert (d ≠ s) by (intros ->; apply Hd; split; congruence). unfold link.
        destruct (w_clients w !! d); cbn; repeat case_decide; done.
      * unfold link. destruct (w_clients w !! d); cbn; repeat case_decide; done.
  - intros d. rewrite (decide_ext (Some s = Some d) (d = s)) by (split; congruence).
    destruct (decide (h_client (c_http sl) = Some c)) as [E|E].
    + rewrite spare_unref by (unfold qev_unref, upd_http; rewrite !upd_client_dom; eauto).
      rewrite spare_unref by (unfold upd_http; by rewrite upd_client_dom).
      rewrite spare_clear, Hlink, E. rewrite (decide_ext (Some c = Some d) (d = c)) by (split; congruence).
      case_decide; lia.
    + by rewrite spare_unref by eauto.
Qed.

(** [_steal_client] *)
Lemma steal_spec c cl w :
  w_clients w !! c = Some cl →
  let w' := (_steal_client c w).2 in
  (_steal_client c w).1 = link c w ∧ io_same w w' ∧
  (∀ d, link d w' = if decide (d = c) then None else link d w) ∧
  (∀ d, waiting d w' = waiting d w) ∧ (∀ d, out d w' = out d w) ∧
  (∀ d, closing d w' = closing d w) ∧ (∀ d, keeps_alive d w' = keeps_alive d w) ∧
  (∀ d, spare d w' = spare d w + (if decide (link c w = Some d) then 1 else 0)).
Proof.
  intros Hc w'. subst w'. unfold _steal_client. rewrite Hc. cbn [fst snd].
  split; [unfold link; by rewrite Hc|]. split; [unfold upd_http; io_steps|].
  split; [|split; [|split; [|split; [|split]]]]; intros d; [..|apply spare_clear];
    unfold link, waiting, out, closing, keeps_alive, upd_http; at_simpl;
    destruct (w_clients w !! d); cbn; by repeat case_decide.
Qed.

Lemma send_response_spec c cl st resp w :
  w_clients w !! c = Some cl →
  (∀ s, link c w = Some s → s ≠ c ∧ is_Some (w_clients w !! s)) →
  let r := _send_response (Some c) st resp w in
  r.1 = waiting c w ∧ responded c resp w r.2.
Proof.
  intros Hc Hs. unfold _send_response.
  destruct (steal_spec c cl w Hc) as (S1 & S2 & S3 & S4 & S5 & S6 & S7 & S8).
  destruct (_steal_client c w) as [s w1]. cbn [fst snd] in *. subst s.
  destruct (io_some _ _ c cl S2 Hc) as (cl1 & Hc1 & _). rewrite Hc1.
  assert (Hw : waiting c w = h_in_request (c_http cl1))
    by (rewrite <- S4; unfold waiting; by rewrite Hc1).
  assert (Hk : keeps_alive c w = h_keep_alive (c_http cl1))
    by (rewrite <- S7; unfold keeps_alive; by rewrite Hc1).
  assert (Hs1 : ∀ s, link c w = Some s → is_Some (w_clients w1 !! s)).
  { intros s E. destruct (Hs s E) as [_ [sl Hsl]]. destruct (io_some _ _ s sl S2 Hsl) as (? & ? & _). eauto. }
  assert (Hdone : ∀ w2, io_same w1 w2 →
    (∀ d, link d w2 = link d w1) → (∀ d, spare d w2 = spare d w1) →
    (∀ d, waiting d w2 = if decide (d = c) then false else waiting d w1) →
    (∀ d, out d w2 = out d w1 ++
      if decide (d = c ∧ waiting c w = true) then answer (keeps_alive c w) resp else []) →
    (∀ d, closing d w2 = closing d w1 ||
      (bool_decide (d = c) && waiting c w && negb (keeps_alive c w))) →
    responded c resp w (qev_unref_opt (link c w) (_surr_release_client (link c w) c w2))).
  { intros w2 B1 B2 B3 B4 B5 B6.
    destruct (release_spec c (link c w) w2) as (R1 & R2 & R3 & R4 & R5 & _ & R7).
    { intros x E. destruct (Hs1 x E) as [xl Hx]. destruct (io_some _ _ x xl B1 Hx) as (? & ? & _).
      split; [by apply Hs|eauto]. }
    { destruct (io_some _ _ c cl1 B1 Hc1) as (? & ? & _). eauto. }
    split; [by etrans; [exact S2|etrans]|..]; intros d.
    - rewrite R2, B2, S3. destruct (decide (d = c)) as [->|Hd]; [|done]. by destruct (decide _).
    - by rewrite R3, B4, S4.
    - by rewrite R4, B5, S5.
    - by rewrite R5, B6, S6.
    - rewrite R7, B3, S8. lia. }
  destruct (waiting c w) eqn:Hwt; rewrite <- Hw; split; try done; cbn [snd].
  - destruct (respond_spec c cl1 (link c w) (h_keep_alive (c_http cl1)) resp w1 Hc1 Hs1)
      as (B1 & B2 & B3 & B4 & B5 & B6). unfold respond in *.
    set (w2 := if negb _ then _ else _) in *. destruct (Hdone w2) as [D1 D2 D3 D4 D5 D6]; try done.
    + intros d. rewrite B5, Hk. f_equal. destruct (decide (d = c)) as [->|]; [by rewrite decide_True|by rewrite decide_False by tauto].
    + intros d. by rewrite B6, Hk, andb_true_r.
    + split; try done. etrans; [exact D1|]. apply io_stat_step. eauto.
  - apply (Hdone w1); [reflexivity|done|done|intros d..].
    + destruct (decide (d = c)) as [->|]; [by rewrite S4, Hwt|done].
    + rewrite decide_False by naive_solver. by rewrite app_nil_r.
    + by rewrite andb_false_r, orb_false_r.
Qed.


(** ** Pollers and surrogates *)

(** A link leads from a connection to a surrogate or back. A connection with one
    awaits its response. The connection that a surrogate points to points back,
    unless both are about to be closed. *)
Record poll_wf (w : world) : Prop := {
  pw_peer c d : link c w = Some d →
    is_Some (w_clients w !! d) ∧ is_surrogate d w = negb (is_surrogate c w);
  pw_waits c d : is_surrogate c w = false → link c w = Some d → waiting c w = true;
  pw_pair s p : is_surrogate s w = true → closing s w && closing p w = false → link s w = Some p →
    link p w = Some s ∧ waiting p w = true;
}.

Lemma io_surrogate w w' c : io_same w w' → is_surrogate c w' = is_surrogate c w.
Proof.
  intros H. apply (io_at _ _ c) in H. unfold is_surrogate.
  destruct (w_clients w' !! c), (w_clients w !! c); try done.
  apply (inj Some) in H. by apply (f_equal c_surrogate) in H.
Qed.

Lemma io_dom w w' c : io_same w w' → is_Some (w_clients w' !! c) ↔ is_Some (w_clients w !! c).
Proof.
  intros H. apply (io_at _ _ c) in H. by rewrite <- (fmap_is_Some io_client), H, fmap_is_Some.
Qed.

Lemma link_some c d w : link c w = Some d → is_Some (w_clients w !! c).
Proof. unfold link. destruct (w_clients w !! c); naive_solver. Qed.

Lemma peer_ne c d w : poll_wf w → link c w = Some d → d ≠ c ∧ is_Some (w_clients w !! d).
Proof.
  intros Hwf H. destruct (pw_peer w Hwf c d H) as [H1 H2]. split; [|done].
  intros ->. by destruct (is_surrogate c w).
Qed.

(** Links are taken away in such a way that what remains is still paired. *)
Lemma poll_wf_open w w' :
  poll_wf w → io_same w w' →
  (∀ c d, link c w' = Some d → link c w = Some d) →
  (∀ c, closing c w = true → closing c w' = true) →
  (∀ c d, link c w' = Some d → waiting c w = true → waiting c w' = true) →
  (∀ s p, is_surrogate s w = true → closing s w' && closing p w' = false → link s w' = Some p →
     link p w = Some s → link p w' = Some s) →
  poll_wf w'.
Proof.
  intros [P1 P2 P3] Hio Hless Hcl Hwait Hpair. split.
  - intros c d H. rewrite io_dom, !(io_surrogate w w') by done. by apply P1, Hless.
  - intros c d. rewrite (io_surrogate w w') by done. intros Hs H. apply (Hwait c d H), (P2 c d Hs), Hless, H.
  - intros s p. rewrite (io_surrogate w w') by done. intros Hs Hc H.
    destruct (P3 s p Hs) as [H1 H2]; [|auto|].
    { destruct (closing s w) eqn:E1; [|done]. destruct (closing p w) eqn:E2; [|done].
      by rewrite !Hcl in Hc. }
    assert (link p w' = Some s) by (by apply Hpair). split; [done|]. by eapply Hwait.
Qed.

Lemma poll_wf_less w w' :
  poll_wf w → io_same w w' →
  (∀ c d, link c w' = Some d → link c w = Some d) →
  (∀ c, closing c w = true → closing c w' = true) →
  (∀ c d, link c w' = Some d → waiting c w = true → waiting c w' = true) →
  (∀ s p, is_surrogate s w = true → link s w' = Some p → link p w = Some s → link p w' = Some s) →
  poll_wf w'.
Proof. intros Hwf Hio Hl Hc Hw Hp. apply (poll_wf_open w); auto. Qed.

(** Nothing happens to links. *)
Lemma poll_wf_same w w' :
  poll_wf w → io_same w w' →
  (∀ c, link c w' = link c w) → (∀ c, closing c w = true → closing c w' = true) →
  (∀ c, waiting c w' = waiting c w) → poll_wf w'.
Proof.
  intros Hwf Hio Hl Hc Hw. apply (poll_wf_less w); [done|done|..]; intros *; rewrite ?Hl, ?Hw; auto.
Qed.

Lemma steal_wf s cl w :
  poll_wf w → w_clients w !! s = Some cl → is_surrogate s w = true →
  poll_wf (_steal_client s w).2.
Proof.
  intros Hwf Hs Hsurr. destruct (steal_spec s cl w Hs) as (_ & S2 & S3 & S4 & _ & S6 & _).
  apply (poll_wf_less w); [done|done|..].
  - intros c d. rewrite S3. by case_decide.
  - intros c. by rewrite S6.
  - intros c d. by rewrite S4.
  - intros t p Ht. rewrite !S3. case_decide; [done|]. intros _ Hp.
    rewrite decide_False; [done|]. intros ->. destruct (pw_peer w Hwf s t Hp) as [_ E].
    by rewrite Ht, Hsurr in E.
Qed.

Lemma responded_wf c resp w w' : poll_wf w → responded c resp w w' → poll_wf w'.
Proof.
  intros Hwf [R1 R2 R3 _ R5 _]. apply (poll_wf_less w); [done|done|..].
  - intros d e. rewrite R2. by repeat case_decide.
  - intros d. rewrite R5. by intros ->.
  - intros d e. rewrite R2, R3. by case_decide.
  - intros s p Hs. rewrite !R2. destruct (decide (s = c)) as [->|Hsc]; [done|].
    destruct (decide (link c w = Some s ∧ link s w = Some c)) as [|Hn]; [done|].
    intros Hlink Hp. assert (p ≠ c) by (intros ->; naive_solver).
    rewrite !(decide_False (P := p = c)) by done.
    rewrite decide_False by (intros [_ E]; congruence). done.
Qed.

Lemma responded_done c cl st resp w :
  poll_wf w → w_clients w !! c = Some cl →
  let r := _send_response (Some c) st resp w in
  r.1 = waiting c w ∧ responded c resp w r.2 ∧ poll_wf r.2.
Proof.
  intros Hwf Hc. destruct (send_response_spec c cl st resp w Hc) as [H1 H2].
  { intros s. by apply peer_ne. }
  split; [done|]. split; [done|]. by eapply responded_wf.
Qed.

(** What an operation leaves: nothing but outputs and links have changed, no
    reference was lost or kept, and the pairs are intact. *)
Record polled (w w' : world) : Prop := {
  po_io : io_same w w';
  po_spare d : spare d w' = spare d w;
  po_wf : poll_wf w';
}.

(** Where a message for a surrogate goes: out on the poller that awaits it, or
    into the surrogate's own buffer. *)
Definition http_target (s : cid) (def raw : bytes) (w : world) : cid * list output :=
  match w_clients w !! s with
  | Some sl =>
      match h_client (c_http sl) with
      | Some p =>
          if negb (h_incoming (c_http sl)) && waiting p w
          then (p, answer (keeps_alive p w) def) else (s, [OWrite raw])
      | None => (s, [OWrite raw])
      end
  | None => (s, [])
  end.

(** The reference that was stolen with the link is given back. *)
Lemma unref_polled p w w' :
  io_same w w' → poll_wf w' → is_Some (w_clients w !! p) →
  (∀ d, spare d w' = spare d w + (if decide (Some p = Some d) then 1 else 0)) →
  polled w (qev_unref p w') ∧ (∀ d, out d (qev_unref p w') = out d w').
Proof.
  intros Hio Hwf Hp Hsp. assert (Hp' : is_Some (w_clients w' !! p)) by (by apply (io_dom w)).
  assert (Hlink : ∀ d, link d (qev_unref p w') = link d w').
  { intros d. by apply (upd_client_proj (λ cl, h_client (c_http cl))). }
  assert (Hio' : io_same w' (qev_unref p w')) by (unfold qev_unref; io_steps).
  split; [|intros d; by apply upd_client_proj]. split; [by etrans| |].
  - intros d. rewrite spare_unref, Hsp by done. rewrite (decide_ext (Some p = Some d) (d = p)) by (split; congruence).
    lia.
  - apply (poll_wf_same w'); [done..| |intros c; by apply upd_client_proj].
    intros c H. rewrite <- H. by apply upd_client_proj.
Qed.


Lemma waiting_some c w : waiting c w = true → is_Some (w_clients w !! c).
Proof. unfold waiting. destruct (w_clients w !! c); [by eexists|done]. Qed.

Lemma qev_write_spec c b w :
  poll_wf w → is_Some (w_clients w !! c) →
  polled w (qev_write c b w) ∧
  (∀ d, out d (qev_write c b w) = out d w ++ if decide (d = c) then [OWrite b] else []).
Proof.
  intros Hwf Hc. assert (Hio : io_same w (qev_write c b w)) by (unfold qev_write; io_steps).
  split; [split; [done|intros d; by apply spare_keep|]|].
  - apply (poll_wf_same w); [done|done|..]; intros d; [by apply (upd_client_proj (λ cl, h_client (c_http cl)))|intros H; rewrite <- H|];
      by apply upd_client_proj.
  - intros d. unfold out, qev_write. at_simpl. destruct Hc as [cl Hc].
    destruct (decide (d = c)) as [->|]; [by rewrite Hc|by rewrite app_nil_r].
Qed.

Lemma polled_trans w1 w2 w3 : polled w1 w2 → polled w2 w3 → polled w1 w3.
Proof.
  intros [I1 S1 _] [I2 S2 W2]. split; [by etrans| |done]. intros d. by rewrite S2, S1.
Qed.

(** A connection becomes the poller of its surrogate. *)
Lemma attach_spec s p w :
  poll_wf w → is_surrogate s w = true → link s w = None → link p w = Some s → waiting p w = true →
  let w' := upd_http s (set_h_client (λ _, Some p)) (qev_ref p w) in
  polled w w' ∧ (∀ d, link d w' = if decide (d = s) then Some p else link d w) ∧
  (∀ d, waiting d w' = waiting d w) ∧ (∀ d, out d w' = out d w) ∧
  (∀ d, closing d w' = closing d w) ∧ (∀ d, keeps_alive d w' = keeps_alive d w).
Proof.
  intros Hwf Hs Hls Hlp Hw w'. destruct (waiting_some p w Hw) as [pl Hp].
  destruct (peer_ne p s w Hwf Hlp) as [Hne [sl Hsl]].
  assert (Hio : io_same w w') by (subst w'; unfold upd_http, qev_ref; io_steps).
  assert (Hproj : ∀ {X} (proj : client → X) (z : X) d, (∀ f cl, proj (set_c_refs f cl) = proj cl) →
    (∀ cl, proj (set_c_http (set_h_client (λ _, Some p)) cl) = proj cl) →
    match w_clients w' !! d with Some cl => proj cl | None => z end =
    match w_clients w !! d with Some cl => proj cl | None => z end).
  { intros X proj z d H1 H2. subst w'. unfold upd_http, qev_ref. by rewrite !upd_client_proj. }
  assert (Hlink : ∀ d, link d w' = if decide (d = s) then Some p else link d w).
  { intros d. subst w'. unfold link, upd_http, qev_ref. at_simpl. destruct (decide (d = s)) as [->|].
    - rewrite Hsl. cbn. by case_decide.
    - destruct (w_clients w !! d); case_decide; done. }
  split; [|split; [done|repeat split; intros d; by apply Hproj]].
  split; [done| |split].
  - intros d. subst w'. unfold upd_http.
    assert (Hsl' : ∃ sl', w_clients (qev_ref p w) !! s = Some sl' ∧ h_client (c_http sl') = None).
    { unfold qev_ref. at_simpl. exists sl. split; [done|]. unfold link in Hls. by rewrite Hsl in Hls. }
    destruct Hsl' as (sl' & Hsl' & Hnone). rewrite (spare_upd s sl') by done. unfold qev_ref.
    rewrite (spare_upd p pl) by done. cbn. rewrite Hnone. repeat case_decide; simplify_eq; lia.
  - intros c d. rewrite Hlink, (io_dom w), !(io_surrogate w w') by done.
    case_decide; [|by apply pw_peer]. subst. intros [= <-]. split; [eauto|].
    destruct (pw_peer w Hwf p s Hlp) as [_ ->]. by destruct (is_surrogate p w).
  - intros c d. rewrite (io_surrogate w w'), Hlink by done. intros Hc.
    assert (Hwc : waiting c w' = waiting c w) by (by apply Hproj). rewrite Hwc.
    case_decide; [congruence|]. by apply pw_waits.
  - intros t q. rewrite (io_surrogate w w'), !Hlink by done. intros Ht Hct.
    assert (Hct0 : closing t w && closing q w = false).
    { rewrite <- Hct. symmetry. f_equal; by apply Hproj. }
    assert (Hwq : waiting q w' = waiting q w) by (by apply Hproj). rewrite Hwq.
    destruct (decide (t = s)) as [->|]; [intros [= <-]; by rewrite decide_False|].
    intros Hq. destruct (pw_pair w Hwf t q Ht Hct0 Hq) as [H1 H2]. rewrite decide_False; [done|].
    intros ->. congruence.
Qed.

(** The rest of a replacement: the old poller, whose reference is in hand, is
    answered and let go. *)
Lemma answer_old q st w0 w :
  io_same w0 w → poll_wf w → is_Some (w_clients w0 !! q) →
  (∀ d, spare d w = spare d w0 + (if decide (Some q = Some d) then 1 else 0)) →
  let w' := qev_unref q (_send_error (Some q) st w).2 in
  polled w0 w' ∧
  (∀ d, link d w' = if decide (d = q) then None
     else if decide (link q w = Some d ∧ link d w = Some q) then None else link d w) ∧
  (∀ d, waiting d w' = if decide (d = q) then false else waiting d w) ∧
  (∀ d, out d w' = out d w ++ if decide (d = q ∧ waiting q w = true)
     then answer (keeps_alive q w) (_status_responses st) else []).
Proof.
  intros Hio Hwf Hq Hsp w'. assert (Hq' : is_Some (w_clients w !! q)) by (by apply (io_dom w0)).
  destruct Hq' as [ql Hq'].
  destruct (responded_done q ql st (_status_responses st) w Hwf Hq') as (_ & R & Rwf).
  fold (_send_error (Some q) st w) in R, Rwf. subst w'. set (w1 := (_send_error _ _ _).2) in *.
  destruct R as [Rio Rlink Rwait Rout _ Rspare].
  destruct (unref_polled q w0 w1) as [Hpo Ho]; [by etrans|done|done|intros d; by rewrite Rspare|].
  split; [done|]. split; [|split]; intros d.
  - rewrite <- Rlink. by apply (upd_client_proj (λ cl, h_client (c_http cl))).
  - rewrite <- Rwait. by apply upd_client_proj.
  - by rewrite Ho.
Qed.

Lemma polled_refl w : poll_wf w → polled w w.
Proof. by split. Qed.

Lemma io_keeps_alive w w' c : io_same w w' → keeps_alive c w' = keeps_alive c w.
Proof.
  intros H. apply (io_at _ _ c) in H. unfold keeps_alive.
  destruct (w_clients w' !! c), (w_clients w !! c); try done.
  apply (inj Some) in H. by apply (f_equal (λ x, h_keep_alive (c_http x))) in H.
Qed.

(** Whether a surrogate has a poller that can be answered. *)
Definition polling (s : cid) (w : world) : bool :=
  match link s w with Some q => waiting q w | None => false end.

(** The poller of a surrogate is stolen and answered, as three of the
    operations below begin. *)
Lemma answer_poller s sl st resp w :
  poll_wf w → w_clients w !! s = Some sl → is_surrogate s w = true →
  let '(client, w1) := _steal_client s w in
  let '(sent, w2) := _send_response client st resp w1 in
  let w3 := qev_unref_opt client w2 in
  client = link s w ∧ sent = polling s w ∧ polled w w3 ∧ link s w3 = None ∧
  (∀ d, d ≠ s → Some d ≠ link s w → link d w ≠ link s w → link d w3 = link d w) ∧
  (∀ d, waiting d w3 = if decide (link s w = Some d) then false else waiting d w) ∧
  (∀ d, out d w3 = out d w ++
     if decide (link s w = Some d ∧ polling s w = true) then answer (keeps_alive d w) resp else []) ∧
  (∀ d, link s w ≠ Some d → closing d w3 = closing d w).
Proof.
  intros Hwf Hs Hsurr. pose proof (steal_wf s sl w Hwf Hs Hsurr) as Hwf1.
  destruct (steal_spec s sl w Hs) as (S1 & S2 & S3 & S4 & S5 & S6 & S7 & S8). unfold polling.
  destruct (_steal_client s w) as [client w1]. cbn [fst snd] in *. subst client.
  destruct (link s w) as [p|] eqn:Hl; cycle 1.
  { cbn. split; [done|]. split; [done|]. split.
    { split; [done| |done]. intros d. rewrite S8. rewrite decide_False by done. lia. }
    split; [rewrite S3; by rewrite decide_True|]. split; [|split; [|split]]; intros d; rewrite ?S3, ?S4, ?S5, ?S6.
    - intros ? _ _. by rewrite decide_False.
    - done.
    - rewrite decide_False by naive_solver. by rewrite app_nil_r.
    - done. }
  destruct (peer_ne s p w Hwf Hl) as [Hps [pl Hpl]].
  destruct (io_some _ _ p pl S2 Hpl) as (pl1 & Hpl1 & _).
  destruct (responded_done p pl1 st resp w1 Hwf1 Hpl1) as (R1 & R2 & R3).
  destruct (_send_response (Some p) st resp w1) as [sent w2]. cbn [fst snd qev_unref_opt] in *.
  destruct R2 as [Rio Rlink Rwait Rout Rclose Rspare].
  destruct (unref_polled p w w2) as [Hpo Hout]; [by etrans|done|eauto|intros d; by rewrite Rspare, S8|].
  assert (Hul : ∀ d, link d (qev_unref p w2) = link d w2)
    by (intros d; by apply (upd_client_proj (λ cl, h_client (c_http cl)))).
  split; [done|]. split; [by rewrite R1|]. split; [done|].
  split; [rewrite Hul, Rlink, (S3 s); rewrite (decide_True (P := s = s)) by done; by repeat case_decide|].
  split; [|split; [|split]]; intros d.
  - intros Hds Hdp Hdl. rewrite Hul, Rlink, (S3 d).
    rewrite (decide_False (P := d = p)) by congruence. rewrite (decide_False (P := d = s)) by done.
    rewrite decide_False; [done|]. by intros [_ ?].
  - transitivity (waiting d w2); [by apply upd_client_proj|]. rewrite Rwait, S4.
    by rewrite (decide_ext (Some p = Some d) (d = p)) by (split; congruence).
  - rewrite Hout, Rout, S4, S5, S7. f_equal. destruct (decide (d = p ∧ _)) as [[-> ?]|Hn].
    + by rewrite decide_True.
    + rewrite decide_False; [done|]. intros [[= ->] ?]. by apply Hn.
  - intros Hd. transitivity (closing d w2); [by apply upd_client_proj|]. rewrite Rclose, S6.
    rewrite bool_decide_eq_false_2 by congruence. apply orb_false_r.
Qed.

Lemma http_send_spec s sl def raw w :
  poll_wf w → w_clients w !! s = Some sl → is_surrogate s w = true →
  let w' := protocol_http_send s (mkFrames (Some def) (Some raw)) w in
  let target := http_target s def raw w in
  polled w w' ∧ w_fault w' = w_fault w ∧
  (∀ d, out d w' = out d w ++ if decide (d = target.1) then target.2 else []) ∧
  (h_incoming (c_http sl) = false → link s w' = None ∧
     ∀ p, link s w = Some p → waiting p w' = false).
Proof.
  intros Hwf Hs Hsurr w' target. subst w' target. unfold protocol_http_send, http_target. cbn [fr_def fr_raw].
  rewrite Hs. assert (Hlink : link s w = h_client (c_http sl)) by (unfold link; by rewrite Hs).
  assert (Hwrite : ∀ w1, polled w w1 → (∀ d, out d w1 = out d w) →
    let w2 := qev_write s raw w1 in polled w w2 ∧ w_fault w2 = w_fault w ∧
    (∀ d, out d w2 = out d w ++ if decide (d = s) then [OWrite raw] else []) ∧
    (∀ d, link d w2 = link d w1 ∧ waiting d w2 = waiting d w1)).
  { intros w1 Hpo Ho w2. destruct (qev_write_spec s raw w1 (po_wf _ _ Hpo)) as [P1 P2].
    { apply (io_dom w); [apply Hpo|eauto]. }
    split; [by eapply polled_trans|]. split.
    { rewrite (io_fault w1) by apply P1. apply io_fault, Hpo. }
    split; intros d; [by rewrite P2, Ho|].
    split; [by apply (upd_client_proj (λ cl, h_client (c_http cl)))|by apply upd_client_proj]. }
  destruct (h_incoming (c_http sl)); cbn [negb andb].
  { replace (match h_client (c_http sl) with Some _ => (s, [OWrite raw]) | None => _ end)
      with (s, [OWrite raw]) by (by destruct (h_client (c_http sl))).
    destruct (Hwrite w) as (H1 & H2 & H3 & _); [by apply polled_refl|done|]. by split_and!. }
  pose proof (answer_poller s sl STATUS_200 def w Hwf Hs Hsurr) as H.
  destruct (_steal_client s w) as [client w1]. destruct (_send_response client STATUS_200 def w1) as [sent w2].
  destruct H as (-> & -> & Hpo & Hl & _ & Hw & Ho & _). unfold polling in *. rewrite Hlink in *.
  assert (Hwait : ∀ p, h_client (c_http sl) = Some p →
    waiting p (qev_unref_opt (h_client (c_http sl)) w2) = false).
  { intros p E. rewrite Hw. by rewrite decide_True. }
  set (w3 := qev_unref_opt _ w2) in *.
  assert (Hbuf : (∀ d, out d w3 = out d w) →
    polled w (qev_write s raw w3) ∧ w_fault (qev_write s raw w3) = w_fault w ∧
    (∀ d, out d (qev_write s raw w3) = out d w ++ if decide (d = s) then [OWrite raw] else []) ∧
    (false = false → link s (qev_write s raw w3) = None ∧
       ∀ p, h_client (c_http sl) = Some p → waiting p (qev_write s raw w3) = false)).
  { intros Hout. destruct (Hwrite w3 Hpo Hout) as (H1 & H2 & H3 & H4).
    split; [done|]. split; [done|]. split; [done|]. intros _. split; [rewrite <- Hl; apply H4|].
    intros p E. rewrite <- (Hwait p E). apply H4. }
  destruct (h_client (c_http sl)) as [p|] eqn:Hp; cycle 1.
  { apply Hbuf. intros d. rewrite Ho, decide_False by naive_solver. by rewrite app_nil_r. }
  destruct (waiting p w) eqn:Hwp; cbn [negb]; cycle 1.
  { apply Hbuf. intros d. rewrite Ho, decide_False by naive_solver. by rewrite app_nil_r. }
  split; [done|]. split; [apply io_fault, Hpo|]. split; [|done]. intros d. cbn [fst snd].
  rewrite Ho. f_equal. destruct (decide (d = p)) as [->|]; [by rewrite decide_True|].
  rewrite decide_False; [done|]. naive_solver.
Qed.


Lemma qev_close_spec c r w :
  poll_wf w → is_Some (w_clients w !! c) →
  polled w (qev_close c r w) ∧
  (∀ d, out d (qev_close c r w) = out d w ++ if decide (d = c) then [OClose r] else []).
Proof.
  intros Hwf Hc. assert (Hio : io_same w (qev_close c r w)) by (unfold qev_close; io_steps).
  split; [split; [done|intros d; by apply spare_keep|]|].
  - apply (poll_wf_same w); [done|done|..]; intros d.
    + by apply (upd_client_proj (λ cl, h_client (c_http cl))).
    + unfold closing, qev_close. at_simpl. destruct (w_clients w !! d); case_decide; done.
    + by apply upd_client_proj.
  - intros d. unfold out, qev_close. at_simpl. destruct Hc as [cl Hc].
    destruct (decide (d = c)) as [->|]; [by rewrite Hc|by rewrite app_nil_r].
Qed.

(** [_surr_replace], for a connection that asked through [s] and awaits its
    response, and is not the poller already. *)
Lemma surr_replace_spec s p w :
  poll_wf w → is_surrogate s w = true → link p w = Some s → waiting p w = true →
  link s w ≠ Some p →
  let w' := _surr_replace s p w in
  let gone := closing s w || closing p w in
  polled w w' ∧ w_fault w' = w_fault w ∧
  link s w' = (if gone then None else Some p) ∧ waiting p w' = negb gone ∧
  (∀ d, out d w' = out d w ++
     if decide (d = p) then
       if gone then answer (keeps_alive p w) (_status_responses STATUS_403) else []
     else if decide (link s w = Some d ∧ waiting d w = true) then
       answer (keeps_alive d w) (_status_responses (if gone then STATUS_403 else STATUS_200))
     else []).
Proof.
  intros Hwf Hs Hlp Hw Hne w' gone. destruct (waiting_some p w Hw) as [pl Hp].
  destruct (peer_ne p s w Hwf Hlp) as [Hsp [sl Hsl]].
  destruct (steal_spec s sl w Hsl) as (_ & S2 & S3 & S4 & S5 & S6 & S7 & S8).
  pose proof (steal_wf s sl w Hwf Hsl Hs) as Hwf1.
  assert (Hlink : link s w = h_client (c_http sl)) by (unfold link; by rewrite Hsl).
  assert (Hgone : gone = c_closing sl || c_closing pl)
    by (subst gone; unfold closing; by rewrite Hsl, Hp).
  subst w'. unfold _surr_replace. rewrite Hsl, Hp, <- Hlink, <- Hgone.
  assert (E1 : upd_http s (set_h_client (λ _, None)) w = (_steal_client s w).2)
    by (unfold _steal_client; by rewrite Hsl).
  rewrite E1. set (w1 := (_steal_client s w).2) in *.
  assert (Hlp1 : link p w1 = Some s) by (rewrite S3; by rewrite decide_False).
  assert (Hls1 : link s w1 = None) by (rewrite S3; by rewrite decide_True).
  assert (Hw1 : waiting p w1 = true) by (by rewrite S4).
  (* the new poller *)
  set (w2 := if gone then (_send_error _ _ _).2 else _). clearbody gone.
  assert (H2 : io_same w w2 ∧ poll_wf w2 ∧ (∀ d, spare d w2 = spare d w1) ∧
    link s w2 = (if gone then None else Some p) ∧ waiting p w2 = negb gone ∧
    (∀ d, d ≠ p → waiting d w2 = waiting d w ∧ keeps_alive d w2 = keeps_alive d w) ∧
    (∀ d, d ≠ p → d ≠ s → link d w2 = link d w) ∧
    (∀ d, out d w2 = out d w ++ if decide (d = p)
       then if gone then answer (keeps_alive p w) (_status_responses STATUS_403) else [] else [])).
  { destruct gone; cbn [negb] in w2.
    - destruct (io_some _ _ p pl S2 Hp) as (pl1 & Hpl1 & _).
      assert (HR : responded p (_status_responses STATUS_403) w1 w2 ∧ poll_wf w2).
      { exact (proj2 (responded_done p pl1 STATUS_403 (_status_responses STATUS_403) w1 Hwf1 Hpl1)). }
      clearbody w2. destruct HR as [[Rio Rlink Rwait Rout _ Rspare] Rwf].
      split; [by etrans|]. split; [done|]. split; [done|].
      split; [rewrite Rlink; by rewrite Hls1; repeat case_decide|].
      split; [rewrite Rwait; by rewrite decide_True|]. split; [|split].
      + intros d Hd. split; [rewrite Rwait, S4; by rewrite decide_False|].
        rewrite <- S7. apply (io_at _ _ d) in Rio. unfold keeps_alive.
        destruct (w_clients w2 !! d), (w_clients w1 !! d); try done. apply (inj Some) in Rio.
        by apply (f_equal (λ x, h_keep_alive (c_http x))) in Rio.
      + intros d Hd Hds. rewrite Rlink, (S3 d), (decide_False (P := d = p)), (decide_False (P := d = s)) by done.
        rewrite decide_False; [done|]. rewrite Hlp1. intros [[= <-] _]. done.
      + intros d. rewrite Rout, S5, S7, Hw1. f_equal.
        destruct (decide (d = p)); [by rewrite decide_True|by rewrite decide_False by tauto].
    - destruct (attach_spec s p w1) as ([A1 A2 A3] & A4 & A5 & A6 & A7 & A8); try done.
      { by rewrite (io_surrogate w). }
      split; [by etrans|]. split; [done|]. split; [done|].
      split; [rewrite A4; by rewrite decide_True|]. split; [by rewrite A5|].
      split; [intros d _; by rewrite A5, A8, S4, S7|].
      split; [intros d _ Hds; rewrite A4, S3; by rewrite !decide_False|].
      intros d. rewrite A6, S5. case_decide; by rewrite app_nil_r. }
  destruct H2 as (I2 & Wf2 & Sp2 & L2 & Wt2 & Same2 & Lk2 & O2).
  (* the old one *)
  destruct (link s w) as [q|] eqn:Hq; cycle 1.
  { split; [split; [done| |done]; intros d; rewrite Sp2, S8; rewrite decide_False by done; lia|].
    split; [by apply io_fault|]. split; [done|]. split; [done|]. intros d. by rewrite O2. }
  assert (Hqp : q ≠ p) by congruence. destruct (peer_ne s q w Hwf Hq) as [Hqs Hqw].
  destruct (answer_old q (if gone then STATUS_403 else STATUS_200) w w2) as (H1 & H2 & H3 & H4); try done.
  { intros d. by rewrite Sp2, S8. }
  destruct (Same2 q Hqp) as [Hwq2 Hkq2].
  split; [done|]. split; [apply io_fault, H1|]. split; [|split].
  - rewrite H2, L2. rewrite decide_False by done. rewrite decide_False; [done|].
    intros [_ E]. destruct gone; congruence.
  - rewrite H3. by rewrite decide_False.
  - intros d. rewrite H4, O2, <- app_assoc, Hwq2, Hkq2. f_equal.
    destruct (decide (d = p)) as [->|Hd].
    + rewrite decide_False by (intros [? _]; congruence). apply app_nil_r.
    + cbn. destruct (decide (d = q ∧ _)) as [[-> ?]|Hn]; [by rewrite decide_True|].
      rewrite decide_False; [done|]. intros [[= ->] ?]. by apply Hn.
Qed.


(** The messages for a surrogate are answered at once: by its old poller, whom
    [p] then replaces, or by [p] itself. *)
Lemma surr_send_spec s p msgs w :
  poll_wf w → is_surrogate s w = true → link p w = Some s → waiting p w = true →
  link s w ≠ Some p →
  let w' := _surr_send s p msgs w in
  let resp := _build_response STATUS_200 (Some msgs) in
  let gone := closing s w || closing p w in
  polled w w' ∧ w_fault w' = w_fault w ∧
  link s w' = (if polling s w then if gone then None else Some p else None) ∧
  waiting p w' = (if polling s w then negb gone else false) ∧
  (∀ d, out d w' = out d w ++
     if decide (d = p) then
       if polling s w then if gone then answer (keeps_alive p w) (_status_responses STATUS_403) else []
       else answer (keeps_alive p w) resp
     else if decide (link s w = Some d ∧ waiting d w = true) then answer (keeps_alive d w) resp
     else []).
Proof.
  intros Hwf Hs Hlp Hw Hne w' resp gone. subst w'. unfold _surr_send. fold resp.
  destruct (waiting_some p w Hw) as [pl Hp]. destruct (peer_ne p s w Hwf Hlp) as [Hsp [sl Hsl]].
  pose proof (answer_poller s sl STATUS_200 resp w Hwf Hsl Hs) as H.
  destruct (_steal_client s w) as [client w1].
  destruct (_send_response client STATUS_200 resp w1) as [sent w2] eqn:Hsend.
  destruct H as (-> & -> & Hpo & Hls & Hl & Hwt & Ho & Hcl).
  set (w3 := qev_unref_opt (link s w) w2) in *.
  replace (match link s w with Some p => _ | None => (false, w1) end) with (polling s w, w3); cycle 1.
  { unfold w3. destruct (link s w) as [q|] eqn:Hq; [by rewrite Hsend|].
    injection Hsend as <- <-. done. }
  assert (Hkeep : keeps_alive p w3 = keeps_alive p w) by apply io_keeps_alive, Hpo.
  assert (Hw3 : waiting p w3 = true) by (rewrite Hwt; by rewrite decide_False).
  assert (Hlp3 : link p w3 = Some s).
  { rewrite Hl; [done|congruence|congruence|]. intros E. rewrite E in Hlp.
    by destruct (peer_ne s s w Hwf Hlp). }
  assert (Hpoll : ∀ d, link s w = Some d → polling s w = waiting d w).
  { intros d E. unfold polling. by rewrite E. }
  destruct (polling s w) eqn:Hpol; cbn [negb].
  - destruct (surr_replace_spec s p w3) as (P1 & P2 & P3 & P4 & P5); try done.
    { apply Hpo. }
    { by rewrite (io_surrogate w) by apply Hpo. }
    { by rewrite Hls. }
    assert (Hgone : closing s w3 || closing p w3 = gone).
    { rewrite !Hcl; [done|done|]. intros E. by destruct (peer_ne s s w Hwf E). }
    rewrite Hgone, Hls, Hkeep in *.
    split; [by eapply polled_trans|]. split; [rewrite P2; apply io_fault, Hpo|].
    split; [done|]. split; [done|]. intros d. rewrite P5, Ho, <- app_assoc. f_equal.
    destruct (decide (d = p)) as [->|].
    + by rewrite decide_False by tauto.
    + rewrite (decide_False (P := None = Some d ∧ _)) by (by intros [??]). rewrite app_nil_r.
      destruct (decide (link s w = Some d ∧ true = true)) as [[E _]|Hn].
      * rewrite decide_True; [done|]. split; [done|]. by rewrite <- (Hpoll d).
      * rewrite decide_False; [done|]. intros [E _]. by apply Hn.
  - assert (Hp3 : is_Some (w_clients w3 !! p)) by (apply (io_dom w); [apply Hpo|eauto]).
    destruct Hp3 as [pl3 Hp3].
    destruct (responded_done p pl3 STATUS_200 resp w3 (po_wf _ _ Hpo) Hp3) as (R1 & R2 & R3).
    destruct (_send_response (Some p) STATUS_200 resp w3) as [ok w4]. cbn [fst snd] in *.
    rewrite R1, Hw3. destruct R2 as [Rio Rlink Rwait Rout _ Rspare].
    split; [eapply polled_trans; [exact Hpo|by split]|].
    split; [rewrite (io_fault w3) by done; apply io_fault, Hpo|].
    split; [rewrite Rlink, Hls; by repeat case_decide|].
    split; [rewrite Rwait; by rewrite decide_True|].
    intros d. rewrite Rout, Ho, Hw3, Hkeep.
    rewrite (decide_False (P := link s w = Some d ∧ false = true)) by (by intros [??]).
    rewrite app_nil_r. f_equal. destruct (decide (d = p)) as [->|]; [by rewrite decide_True|].
    rewrite decide_False by tauto. rewrite decide_False; [done|].
    intros [E E2]. rewrite <- (Hpoll d E) in E2. done.
Qed.

Lemma http_heartbeat_spec c cl hb w :
  poll_wf w → w_clients w !! c = Some cl →
  polled w (protocol_http_heartbeat c hb w) ∧
  (∀ d, out d (protocol_http_heartbeat c hb w) = out d w ++
     if decide (d = c) then
       match h_client (c_http cl) with
       | Some _ =>
           if negb (c_surrogate cl) && (c_last_send cl <? hb_poll hb) && waiting c w
           then answer (keeps_alive c w) (_status_responses STATUS_200) else []
       | None =>
           if c_last_send cl <? (if c_surrogate cl then hb_timeout hb else hb_heartbeat hb)
           then [OClose RAW_HEARTATTACK] else []
       end
     else []).
Proof.
  intros Hwf Hc. unfold protocol_http_heartbeat. rewrite Hc.
  destruct (qev_close_spec c RAW_HEARTATTACK w Hwf ltac:(eauto)) as [K1 K2].
  assert (Hid : polled w w ∧ ∀ d, out d w = out d w ++ if decide (d = c) then [] else []).
  { split; [by apply polled_refl|]. intros d. case_decide; by rewrite app_nil_r. }
  destruct (responded_done c cl STATUS_200 (_status_responses STATUS_200) w Hwf Hc) as (_ & R & Rwf).
  fold (_send_error (Some c) STATUS_200 w) in R, Rwf.
  destruct (c_surrogate cl), (h_client (c_http cl)) as [s|]; cbn [negb andb].
  - rewrite bool_decide_eq_false_2 by done. apply Hid.
  - rewrite bool_decide_eq_true_2 by done. cbn [andb]. by destruct (_ <? _).
  - destruct (_ <? _); cbn [andb]; [|apply Hid]. destruct R as [Rio _ _ Rout _ Rspare].
    split; [by split|]. intros d. rewrite Rout. f_equal.
    destruct (decide (d = c)) as [->|]; [|by rewrite decide_False by tauto].
    destruct (waiting c w); [by rewrite decide_True|by rewrite decide_False by naive_solver].
  - by destruct (_ <? _).
Qed.

(** Closing a surrogate: its poller is told, and it leaves the table. *)
Lemma surrogate_close_spec s sl reason w :
  poll_wf w → w_clients w !! s = Some sl → c_surrogate sl = true →
  let w0 := set_w_tables (alter (delete (h_sid (c_http sl))) (Z.to_nat (h_tbl (c_http sl)))) w in
  let w' := protocol_http_close s reason w in
  (∃ w1, w' = stat_inc http_surrogates_closed w1 ∧ polled w0 w1) ∧ link s w' = None ∧
  (∀ d, out d w' = out d w ++
     if decide (link s w = Some d ∧ polling s w = true)
     then answer (keeps_alive d w) (_status_responses STATUS_403) else []).
Proof.
  intros Hwf Hs Hsurr w0 w'. subst w'. unfold protocol_http_close. rewrite Hs, Hsurr. fold w0.
  assert (Hwf0 : poll_wf w0) by (destruct Hwf; by split).
  assert (Hs0 : is_surrogate s w0 = true) by (unfold is_surrogate; simpl; by rewrite Hs).
  pose proof (answer_poller s sl STATUS_403 (_status_responses STATUS_403) w0 Hwf0 Hs Hs0) as H.
  destruct (_steal_client s w0) as [client w1]. unfold _send_error.
  destruct (_send_response client STATUS_403 _ w1) as [sent w2].
  destruct H as (-> & _ & Hpo & Hl & _ & _ & Ho & _). cbn [snd].
  split; [by eexists|]. split; [exact Hl|exact Ho].
Qed.

(** Closing a poller: it is told why, and its surrogate is closed with it. *)
Lemma poller_close_spec c cl reason w :
  poll_wf w → w_clients w !! c = Some cl → c_surrogate cl = false → c_closing cl = true →
  let w' := protocol_http_close c reason w in
  polled w w' ∧ link c w' = None ∧
  (∀ s, link c w = Some s → closing s w' = true) ∧
  (∀ d, link c w ≠ Some d → d ≠ c → out d w' = out d w).
Proof.
  intros Hwf Hc Hsurr Hclose w'. subst w'. unfold protocol_http_close. rewrite Hc, Hsurr.
  assert (Hcc : closing c w = true) by (unfold closing; by rewrite Hc).
  destruct (steal_spec c cl w Hc) as (S1 & S2 & S3 & S4 & S5 & S6 & S7 & S8).
  destruct (_steal_client c w) as [surr w1]. cbn [fst snd] in *. subst surr.
  destruct (io_some _ _ c cl S2 Hc) as (cl1 & Hc1 & _).
  assert (Hl1 : link c w1 = None) by (rewrite S3; by rewrite decide_True).
  set (w2 := match reason with HTTP_BAD_REQUEST => _ | _ => _ end).
  assert (H2 : io_same w1 w2 ∧ (∀ d, link d w2 = link d w1) ∧ (∀ d, spare d w2 = spare d w1) ∧
    (∀ d, d ≠ c → waiting d w2 = waiting d w1) ∧
    (∀ d, closing d w1 = true → closing d w2 = true) ∧
    (∀ d, d ≠ c → out d w2 = out d w1)).
  { assert (Hsend : ∀ st, let w2 := (_send_error (Some c) st w1).2 in
      io_same w1 w2 ∧ (∀ d, link d w2 = link d w1) ∧ (∀ d, spare d w2 = spare d w1) ∧
      (∀ d, d ≠ c → waiting d w2 = waiting d w1) ∧
      (∀ d, closing d w1 = true → closing d w2 = true) ∧
      (∀ d, d ≠ c → out d w2 = out d w1)).
    { intros st w3. destruct (send_response_spec c cl1 st (_status_responses st) w1 Hc1)
        as (_ & [R1 R2 R3 R4 R5 R6]); [by rewrite Hl1|].
      fold (_send_error (Some c) st w1) in R1, R2, R3, R4, R5, R6. fold w3 in R1, R2, R3, R4, R5, R6.
      split; [done|]. split; [|split; [done|split; [|split]]]; intros d.
      - rewrite R2, Hl1. destruct (decide (d = c)) as [->|]; [done|].
        by rewrite decide_False by (by intros [??]).
      - intros Hd. rewrite R3. by rewrite decide_False.
      - rewrite R5. by intros ->.
      - intros Hd. rewrite R4, decide_False by tauto. by rewrite app_nil_r. }
    subst w2. destruct reason; try apply Hsend; by repeat split. }
  clearbody w2. destruct H2 as (I2 & L2 & P2 & W2 & C2 & O2).
  destruct (link c w) as [s|] eqn:Hl; cycle 1.
  { split; [split; [by etrans|intros d; rewrite P2, S8; rewrite decide_False by done; lia|]|].
    - apply (poll_wf_less w); [done|by etrans|..].
      + intros d e. rewrite L2, S3. by case_decide.
      + intros d H. apply C2. by rewrite S6.
      + intros d e. rewrite L2, S3. case_decide; [done|]. intros _. by rewrite W2, S4.
      + intros t p Ht. rewrite !L2, !S3. case_decide; [done|]. intros _ Hp.
        assert (p ≠ c) by congruence. by rewrite decide_False.
    - split; [by rewrite L2|]. split; [done|]. intros d _ Hd. by rewrite O2, S5. }
  destruct (peer_ne c s w Hwf Hl) as [Hsc Hs].
  assert (Hs2 : is_Some (w_clients w2 !! s)) by (apply (io_dom w); [by etrans|done]).
  set (w3 := qev_unref s (qev_close s HTTP_DONE w2)).
  assert (I3 : io_same w2 w3) by (unfold w3, qev_unref, qev_close; io_steps).
  assert (L3 : ∀ d, link d w3 = link d w2).
  { intros d. transitivity (link d (qev_close s HTTP_DONE w2));
      by apply (upd_client_proj (λ cl, h_client (c_http cl))). }
  assert (W3 : ∀ d, waiting d w3 = waiting d w2).
  { intros d. transitivity (waiting d (qev_close s HTTP_DONE w2)); by apply upd_client_proj. }
  assert (C3 : ∀ d, closing d w3 = if decide (d = s) then true else closing d w2).
  { intros d. unfold closing, w3, qev_unref, qev_close. at_simpl.
    destruct Hs2 as [sl2 Hs2]. destruct (decide (d = s)) as [->|]; [by rewrite Hs2|done]. }
  split; [split; [by etrans; [exact S2|etrans]| |]|].
  - intros d. unfold w3. rewrite spare_unref by (unfold qev_close; by rewrite upd_client_dom).
    unfold qev_close. rewrite spare_keep, P2, S8 by done. rewrite (decide_ext (Some s = Some d) (d = s)) by (split; congruence).
    lia.
  - apply (poll_wf_open w); [done|by etrans; [exact S2|etrans]|..].
    + intros d e. rewrite L3, L2, S3. by case_decide.
    + intros d Hd. rewrite C3. case_decide; [done|]. apply C2. by rewrite S6.
    + intros d e. rewrite L3, L2, S3, W3. case_decide; [done|]. intros _. by rewrite W2, S4.
    + intros t p Ht. rewrite !C3, !L3, !L2, !S3. destruct (decide (t = c)) as [|Htc]; [done|]. intros Hcl _ Hp.
      rewrite decide_False; [done|]. intros ->. assert (t = s) as -> by congruence.
      rewrite decide_True in Hcl by done. rewrite decide_False in Hcl by done.
      by rewrite C2 in Hcl by (by rewrite S6).
  - split; [by rewrite L3, L2|]. split.
    + intros x [= <-]. rewrite C3. by rewrite decide_True.
    + intros d Hd Hdc. rewrite <- S5, <- O2 by done. unfold out, w3, qev_unref, qev_close. at_simpl.
      by rewrite !(decide_False (P := d = s)) by congruence.
Qed.

(** *** The text of a response *)

Definition response_lines (status : http_status) (is_iframe : bool) (len : Z) : list bytes :=
  [str "HTTP/1.0 " ++ match cut 13 (status_line status) with Some (l, _) => l | None => [] end;
   str "Cache-Control: private, max-age=0"; str "Expires: -1"; str "Connection: Keep-Alive";
   str "Keep-Alive: timeout=60"; str "Content-Length: " ++ dec len;
   str "Content-Type: " ++ if is_iframe then str "text/html" else str "text/plain"].

Lemma response_lines_eq {LO : LibsOk L} status body is_iframe :
  Z.of_nat (length (default [] body)) < 2 ^ 64 →
  _build_response_full status body is_iframe =
    concat (map (.++ CRLF) (response_lines status is_iframe (Z.of_nat (length (default [] body)))))
    ++ CRLF ++ default [] body.
Proof.
  intros Hlen. unfold _build_response_full.
  replace (match body with Some b => Z.of_nat (length b) | None => 0 end)
    with (Z.of_nat (length (default [] body))) by (by destruct body).
  set (n := Z.of_nat _) in *. rewrite qev_uint_dec by lia.
  unfold response_lines, HTTP_COMMON, HTTP_NOCACHE. cbn [concat map]. rewrite <- !app_assoc, app_nil_l.
  by destruct status, is_iframe.
Qed.

Lemma cr_not_in status is_iframe len :
  0 ≤ len → Forall (λ l, l ≠ [] ∧ 13 ∉ l) (response_lines status is_iframe len).
Proof.
  intros Hlen. unfold response_lines.
  assert (Hc : ∀ l : bytes, bool_decide (l ≠ [] ∧ 13 ∉ l) = true → l ≠ [] ∧ 13 ∉ l)
    by (intros l; apply bool_decide_eq_true_1).
  repeat first [apply Forall_nil_2 | apply Forall_cons_2];
    try (apply Hc; by destruct status, is_iframe).
  split; [done|]. rewrite not_elem_of_app. split; [by apply (bool_decide_eq_true_1 (13 ∉ _))|].
  apply digits_not_in; [done|by apply dec_digits].
Qed.


End Poll.

(** ** Responses as a client reads them *)

Module Http1.

(** The lines up to the empty one, and what follows it. *)
Fixpoint lines (fuel : nat) (l : bytes) : option (list bytes * bytes) :=
  match fuel with
  | O => None
  | S fuel =>
      '(line, rest) ← cut 13 l;
      match rest with
      | 10 :: rest =>
          if decide (line = []) then Some ([], rest)
          else '(ls, body) ← lines fuel rest; Some (line :: ls, body)
      | _ => None
      end
  end.

Fixpoint field (k : bytes) (ls : list bytes) : option bytes :=
  match ls with
  | [] => None
  | l :: ls => if has_prefix k l then Some (drop (length k) l) else field k ls
  end.

(** The code of a status line: the version, three digits and a reason. *)
Definition code_of (l : bytes) : option Z :=
  let code := take 3 (drop 9 l) in
  if has_prefix (str "HTTP/1.0 ") l && forallb is_digit code && (length code =? 3)%nat && (rd l 12 =? 32)
  then Some (undec code) else None.

(** The status, the content type, the body and what comes after it. *)
Definition parse (l : bytes) : option (Z * bytes * bytes * bytes) :=
  '(ls, rest) ← lines (S (length l)) l;
  '(line, headers) ← match ls with line :: headers => Some (line, headers) | [] => None end;
  status ← code_of line;
  len ← field (str "Content-Length: ") headers;
  type ← field (str "Content-Type: ") headers;
  let n := Z.to_nat (undec len) in
  if negb (forallb is_digit len) || (length rest <? n)%nat then None
  else Some (status, type, take n rest, drop n rest).

End Http1.

Lemma lines_spec ls fuel rest :
  Forall (λ l : bytes, l ≠ [] ∧ 13 ∉ l) ls → (length ls < fuel)%nat →
  Http1.lines fuel (concat (map (.++ CRLF) ls) ++ CRLF ++ rest) = Some (ls, rest).
Proof.
  intros H. revert fuel. induction H as [|l ls [Hne Hl] _ IH]; intros fuel Hf;
    (destruct fuel as [|fuel]; [simpl in Hf; lia|]); simpl in *; [done|].
  rewrite <- !app_assoc. change (CRLF ++ ?x) with (13 :: 10 :: x). rewrite cut_app by done. simpl.
  rewrite decide_False by done. by rewrite IH by lia.
Qed.

(** ** Properties *)

Section Claims.
Context {L : Libs} {C : Config}.

(** C22. A message for an HTTP client goes out exactly once. Its surrogate's
    poller, when there is one and the surrogate is not in the middle of an
    incoming request, gets it as a complete response and is let go, so that the
    next message waits; otherwise it is appended to the surrogate's buffer, and
    nobody is told anything else. References, pairs and everything that is not
    about sending are left as they were. *)
Theorem http_send_correct s sl ev_path ev_extra server_cb json w :
  poll_wf w → w_clients w !! s = Some sl → c_surrogate sl = true → c_closing sl = false →
  let msg := protocol_raw_format ev_path ev_extra server_cb json ++ [NEWLINE] in
  let w' := protocol_http_send s (protocol_http_frame ev_path ev_extra server_cb json) w in
  polled w w' ∧ w_fault w' = w_fault w ∧
  match link s w with
  | Some p =>
      if h_incoming (c_http sl)
      then ∀ d, out d w' = out d w ++ if decide (d = s) then [OWrite msg] else []
      else
        (∀ d, out d w' = out d w ++
           if decide (d = p) then answer (keeps_alive p w) (_build_response STATUS_200 (Some msg))
           else []) ∧
        link s w' = None ∧ waiting p w' = false
  | None => ∀ d, out d w' = out d w ++ if decide (d = s) then [OWrite msg] else []
  end.
Proof.
  intros Hwf Hs Hsurr Hopen msg w'.
  assert (H1 : is_surrogate s w = true) by (unfold is_surrogate; by rewrite Hs).
  assert (H2 : closing s w = false) by (unfold closing; by rewrite Hs).
  destruct (http_send_spec s sl (_build_response STATUS_200 (Some msg)) msg w Hwf Hs H1)
    as (P1 & P2 & P3 & P4).
  split; [done|]. split; [done|]. unfold http_target in P3. rewrite Hs in P3.
  assert (Hl : link s w = h_client (c_http sl)) by (unfold link; by rewrite Hs).
  rewrite Hl in *. destruct (h_client (c_http sl)) as [p|] eqn:Hp; [|exact P3].
  destruct (pw_pair w Hwf s p H1 ltac:(by rewrite H2) Hl) as [_ Hw]. rewrite Hw, andb_true_r in P3.
  destruct (h_incoming (c_http sl)); [exact P3|]. split; [exact P3|]. destruct P4 as [P4 P5]; [done|].
  auto.
Qed.

(** C23. At the end of a request, the connection [p] that sent it either becomes
    the poller of its surrogate [s] and waits, or is answered, once. With nothing
    to deliver it waits and the previous poller, if any, gets an empty response.
    With messages to deliver, the previous poller takes them and [p] waits in its
    place; without one [p] takes them itself, and the assertion that it can holds.
    When the surrogate or the connection is closing, [p] gets a 403 instead of
    waiting. *)
Theorem http_poll_correct s p msgs w :
  poll_wf w → is_surrogate s w = true → link p w = Some s → waiting p w = true →
  link s w ≠ Some p →
  let w' := match msgs with None => _surr_replace s p w | Some m => _surr_send s p m w end in
  let gone := closing s w || closing p w in
  let served := match msgs with Some _ => negb (polling s w) | None => false end in
  polled w w' ∧ w_fault w' = w_fault w ∧
  waiting p w' = negb served && negb gone ∧
  link s w' = (if served || gone then None else Some p) ∧
  out p w' = out p w ++
    (if served then answer (keeps_alive p w) (_build_response STATUS_200 msgs)
     else if gone then answer (keeps_alive p w) (_status_responses STATUS_403) else []) ∧
  (∀ q, link s w = Some q → waiting q w = true →
     out q w' = out q w ++ answer (keeps_alive q w)
       (match msgs with
        | Some m => _build_response STATUS_200 (Some m)
        | None => _status_responses (if gone then STATUS_403 else STATUS_200)
        end)) ∧
  (∀ d, d ≠ p → (link s w = Some d → waiting d w = false) → out d w' = out d w).
Proof.
  intros Hwf Hs Hlp Hw Hne w' gone served.
  assert (Hother : ∀ o1 o2 o3 : list output, ∀ d, d ≠ p →
    (link s w = Some d → waiting d w = false) →
    o1 = o2 ++ (if decide (d = p) then [] else
      if decide (link s w = Some d ∧ waiting d w = true) then o3 else []) → o1 = o2).
  { intros o1 o2 o3 d Hd Hn ->. rewrite decide_False by done. rewrite decide_False; [by rewrite app_nil_r|].
    intros [E1 E2]. rewrite (Hn E1) in E2. done. }
  destruct msgs as [m|].
  - destruct (surr_send_spec s p m w Hwf Hs Hlp Hw Hne) as (P1 & P2 & P3 & P4 & P5).
    fold gone in P3, P4, P5. fold w' in P1, P2, P3, P4, P5.
    split; [done|]. split; [done|].
    split; [rewrite P4; subst served; by destruct (polling s w)|].
    split; [rewrite P3; subst served; by destruct (polling s w)|].
    split; [rewrite P5, decide_True by done; subst served; by destruct (polling s w)|].
    split.
    + intros q Hq Hwq. rewrite P5, decide_False by congruence. by rewrite decide_True.
    + intros d Hd Hn. eapply (Hother _ _ _ d Hd Hn). rewrite P5, !(decide_False (P := d = p)) by done. done.
  - destruct (surr_replace_spec s p w Hwf Hs Hlp Hw Hne) as (P1 & P2 & P3 & P4 & P5).
    fold gone in P3, P4, P5. fold w' in P1, P2, P3, P4, P5.
    split; [done|]. split; [done|]. split; [done|]. split; [done|].
    split; [rewrite P5, decide_True by done; done|].
    split.
    + intros q Hq Hwq. rewrite P5, decide_False by congruence. by rewrite decide_True.
    + intros d Hd Hn. eapply (Hother _ _ _ d Hd Hn). rewrite P5, !(decide_False (P := d = p)) by done. done.
Qed.

(** The operations on pollers and surrogates, with what their callers see to. *)
Inductive poll_step (w : world) : world → Prop :=
  | step_send s sl frame_def frame_raw :
      w_clients w !! s = Some sl → c_surrogate sl = true →
      poll_step w (protocol_http_send s (mkFrames (Some frame_def) (Some frame_raw)) w)
  | step_poll s p msgs :
      is_surrogate s w = true → link p w = Some s → waiting p w = true → link s w ≠ Some p →
      poll_step w (match msgs with None => _surr_replace s p w | Some m => _surr_send s p m w end)
  | step_error c st :
      is_Some (w_clients w !! c) → poll_step w (_send_error (Some c) st w).2
  | step_heartbeat c hb :
      is_Some (w_clients w !! c) → poll_step w (protocol_http_heartbeat c hb w)
  | step_shut c reason :
      is_Some (w_clients w !! c) → poll_step w (qev_close c reason w)
  | step_close c cl reason :
      w_clients w !! c = Some cl → c_closing cl = true → poll_step w (protocol_http_close c reason w).

(** C6. However sends, polls, errors, heartbeats and closings of surrogates and
    pollers follow one another, links lead from pollers to surrogates and back,
    a poller that points at a surrogate awaits its response, the poller of a
    surrogate points back at it unless both are closing, every reference that is
    taken is given back (the spare references of every client are what they
    were), no assertion fails and no stale pointer is followed. *)
Theorem http_polling_safe w w' :
  poll_wf w → rtc poll_step w w' →
  poll_wf w' ∧ (∀ d, spare d w' = spare d w) ∧ w_fault w' = w_fault w ∧
  (∀ s p, is_surrogate s w' = true → closing s w' && closing p w' = false → link s w' = Some p →
     link p w' = Some s ∧ waiting p w' = true).
Proof.
  intros Hwf H. enough (Hinv : poll_wf w' ∧ (∀ d, spare d w' = spare d w) ∧ w_fault w' = w_fault w)
    by (destruct Hinv as (H1 & H2 & H3); split_and!; [done..|apply H1]).
  induction H as [w|w w1 w2 Hstep _ IH]; [done|].
  enough (Hone : poll_wf w1 ∧ (∀ d, spare d w1 = spare d w) ∧ w_fault w1 = w_fault w).
  { destruct Hone as (H1 & H2 & H3). destruct (IH H1) as (I1 & I2 & I3).
    split; [done|]. split; [intros d; by rewrite I2|by rewrite I3]. }
  assert (Hpo : ∀ w3, polled w w3 → poll_wf w3 ∧ (∀ d, spare d w3 = spare d w) ∧ w_fault w3 = w_fault w)
    by (intros w3 [? ? ?]; split_and!; [done..|by apply io_fault]).
  destruct Hstep as [s sl def raw Hs Hsurr|s p msgs Hs Hl Hw Hne|c st [cl Hc]|c hb [cl Hc]|c reason Hc|c cl reason Hc Hcl].
  - assert (is_surrogate s w = true) by (unfold is_surrogate; by rewrite Hs).
    apply Hpo. by apply (http_send_spec s sl).
  - destruct msgs as [m|]; [destruct (surr_send_spec s p m w) as (P1 & P2 & _)
      |destruct (surr_replace_spec s p w) as (P1 & P2 & _)]; auto.
  - destruct (responded_done c cl st (_status_responses st) w Hwf Hc) as (_ & [R1 _ _ _ _ R2] & R3).
    apply Hpo. by split.
  - apply Hpo. by apply (http_heartbeat_spec c cl).
  - apply Hpo. by apply qev_close_spec.
  - destruct (c_surrogate cl) eqn:Hsurr.
    + destruct (surrogate_close_spec c cl reason w Hwf Hc Hsurr) as [(w3 & -> & [P1 P2 P3]) _].
      split; [by destruct P3; split|]. split; [exact P2|exact (io_fault _ _ P1)].
    + apply Hpo. by apply (poller_close_spec c cl).
Qed.

(** C28. A response is one that a client of HTTP/1.0 can read: it starts with a
    status line of that version with the code asked for, its length is written in
    digits and is that of its body, and reading it leaves exactly what follows it
    on the connection. *)
Theorem http_response_wellformed {LO : LibsOk L} status body is_iframe rest :
  Z.of_nat (length (default [] body)) < 2 ^ 64 →
  Http1.parse (_build_response_full status body is_iframe ++ rest) =
    Some (status_code status, if is_iframe then str "text/html" else str "text/plain",
          default [] body, rest).
Proof.
  intros Hlen. rewrite response_lines_eq by done. set (n := Z.of_nat _) in *.
  rewrite <- !app_assoc. unfold Http1.parse.
  rewrite lines_spec; [|apply cr_not_in; lia|]; cycle 1.
  { rewrite !length_app. cut (length (response_lines status is_iframe n) ≤
      length (concat (map (.++ CRLF) (response_lines status is_iframe n))))%nat; [lia|].
    generalize (response_lines status is_iframe n). intros ls. induction ls as [|l ls IH]; simpl; [done|].
    rewrite !length_app. simpl. lia. }
  cbn [mbind option_bind]. unfold response_lines.
  assert (Hfield : ∀ k l ls, has_prefix k (k ++ l) = true → Http1.field k ((k ++ l) :: ls) = Some l).
  { intros k l ls E. simpl. by rewrite E, drop_app_length. }
  assert (Hskip : ∀ k l ls, has_prefix k l = false → Http1.field k (l :: ls) = Http1.field k ls).
  { intros k l ls E. simpl. by rewrite E. }
  assert (Hpre : ∀ k l : bytes, has_prefix k (k ++ l) = true) by (intros; apply has_prefix_spec; by eexists).
  assert (Hcode : Http1.code_of (str "HTTP/1.0 " ++ match cut 13 (status_line status) with Some (l, _) => l | None => [] end) =
    Some (status_code status)) by (by destruct status).
  cbn beta iota. cbn [mbind option_bind]. cbn beta iota. rewrite Hcode. cbn [mbind option_bind].
  do 4 (rewrite (Hskip (str "Content-Length: ")) by (by destruct status)).
  rewrite Hfield by apply Hpre. cbn [mbind option_bind].
  do 5 (rewrite (Hskip (str "Content-Type: ")) by (by destruct status)).
  rewrite Hfield by apply Hpre. cbn [mbind option_bind].
  assert (Hdig : forallb is_digit (dec n) = true).
  { apply forallb_forall. intros d Hd. apply list_elem_of_In in Hd.
    pose proof (dec_digits n ltac:(lia)) as Hall. rewrite Forall_forall in Hall. by apply Hall. }
  rewrite Hdig, undec_dec by lia. subst n. rewrite Nat2Z.id, length_app.
  rewrite (proj2 (Nat.ltb_ge _ _)) by lia. cbn [negb orb]. by rewrite take_app_length, drop_app_length.
Qed.

End Claims.

(** ** Witnesses *)

#[local] Existing Instance config0.

(** The invariant, decided. *)
Definition poll_wf_at {L : Libs} (w : world) (c : cid) (cl : client) : bool :=
  match h_client (c_http cl) with
  | None => true
  | Some d =>
      match w_clients w !! d with
      | None => false
      | Some dl =>
          Bool.eqb (c_surrogate dl) (negb (c_surrogate cl)) &&
          (if c_surrogate cl then c_closing cl && c_closing dl ||
             bool_decide (h_client (c_http dl) = Some c) && h_in_request (c_http dl)
           else h_in_request (c_http cl))
      end
  end.
Definition poll_wfb {L : Libs} (w : world) : bool :=
  forallb (λ x, poll_wf_at w x.1 x.2) (map_to_list (w_clients w)).

Lemma poll_wfb_ok {L : Libs} w : poll_wfb w = true → poll_wf w.
Proof.
  unfold poll_wfb. rewrite forallb_forall. intros H.
  assert (Hat : ∀ c cl, w_clients w !! c = Some cl → poll_wf_at w c cl = true).
  { intros c cl Hc. apply (H (c, cl)). apply list_elem_of_In. by apply elem_of_map_to_list. }
  unfold poll_wf_at in Hat. split.
  - intros c d Hl. unfold link in Hl. destruct (w_clients w !! c) as [cl|] eqn:Hc; [|done].
    simpl in Hl. specialize (Hat c cl Hc). rewrite Hl in Hat. unfold is_surrogate. rewrite Hc.
    destruct (w_clients w !! d) as [dl|]; [|done]. apply andb_prop in Hat as [E _].
    split; [by eexists|]. by apply Bool.eqb_prop in E.
  - intros c d. unfold is_surrogate, link, waiting. destruct (w_clients w !! c) as [cl|] eqn:Hc; [|done].
    simpl. intros H1 Hl. specialize (Hat c cl Hc). rewrite Hl, H1 in Hat.
    destruct (w_clients w !! d); [|done]. by apply andb_prop in Hat as [_ E].
  - intros s p. unfold is_surrogate, closing, link, waiting. destruct (w_clients w !! s) as [sl|] eqn:Hs; [|done].
    simpl. intros H1 H2 Hl. specialize (Hat s sl Hs). rewrite Hl in Hat.
    destruct (w_clients w !! p) as [pl|]; [|done]. simpl. apply andb_prop in Hat as [_ E].
    rewrite H1, H2 in E. simpl in E. apply andb_prop in E as [E1 E2].
    by apply bool_decide_eq_true_1 in E1.
Qed.

(** A surrogate (1) with a poller (2), and a connection (3) whose request for
    the same surrogate has just been read. *)
Definition demo_http (in_request : bool) (peer : option cid) : http_state :=
  {| h_sid := 7; h_tbl := 7; h_body_len := 0; h_is_post := true; h_iframe_requested := false;
     h_keep_alive := true; h_in_request := in_request; h_incoming := false; h_client := peer |}.
Definition demo_surrogate : client :=
  set_c_handshaked (λ _, true) (set_c_prot (λ _, Some protocol_http)
    (set_c_http (λ _, demo_http false (Some 2%positive)) (set_c_refs (λ _, 2) (qev_client_new true)))).
Definition demo_poller (refs : Z) : client :=
  set_c_handshaked (λ _, true) (set_c_prot (λ _, Some protocol_http)
    (set_c_http (λ _, demo_http true (Some 1%positive)) (set_c_refs (λ _, refs) (qev_client_new false)))).
Definition poll_world : world (L := libs0) :=
  set_w_clients (λ _, <[1%positive := demo_surrogate]> (<[2%positive := demo_poller 1]>
    {[3%positive := demo_poller 0]})) (world0 (Reference.mkPool 8 0)).

Lemma poll_world_wf : poll_wf (L := libs0) poll_world.
Proof. apply poll_wfb_ok. reflexivity. Qed.

Lemma http_send_correct_witness :
  let w' := protocol_http_send (L := libs0) 1 (protocol_http_frame (L := libs0) (str "/a") [] 0 (str "1"))
    poll_world in
  out (L := libs0) 2 w' =
    [OWrite (_build_response (L := libs0) STATUS_200 (Some (str "/a:0=1" ++ [10])))] ∧
  link (L := libs0) 1 w' = None ∧ waiting (L := libs0) 2 w' = false.
Proof.
  destruct (http_send_correct (L := libs0) 1 demo_surrogate (str "/a") [] 0 (str "1") poll_world
    poll_world_wf eq_refl eq_refl eq_refl) as (_ & _ & H1 & H2 & H3).
  split; [exact (H1 2%positive)|]. split; [exact H2|exact H3].
Defined.

Lemma http_poll_correct_witness :
  let w' := _surr_send (L := libs0) 1 3 (str "x") poll_world in
  waiting (L := libs0) 3 w' = true ∧ link (L := libs0) 1 w' = Some 3%positive ∧
  out (L := libs0) 3 w' = [] ∧
  out (L := libs0) 2 w' = [OWrite (_build_response (L := libs0) STATUS_200 (Some (str "x")))].
Proof.
  destruct (http_poll_correct (L := libs0) 1 3 (Some (str "x")) poll_world
    poll_world_wf eq_refl eq_refl eq_refl ltac:(discriminate)) as (_ & _ & H1 & H2 & H3 & H4 & _).
  split; [exact H1|]. split; [exact H2|]. split; [exact H3|]. by apply H4.
Defined.

Lemma http_polling_safe_witness :
  let w' := protocol_http_close (L := libs0) 3 HTTP_BAD_REQUEST
    (qev_close (L := libs0) 3 HTTP_BAD_REQUEST (_surr_replace (L := libs0) 1 3 poll_world)) in
  poll_wf (L := libs0) w' ∧ (∀ d, spare (L := libs0) d w' = spare (L := libs0) d poll_world) ∧
  w_fault w' = false.
Proof.
  destruct (http_polling_safe (L := libs0) poll_world
    (protocol_http_close (L := libs0) 3 HTTP_BAD_REQUEST
       (qev_close (L := libs0) 3 HTTP_BAD_REQUEST (_surr_replace (L := libs0) 1 3 poll_world))) poll_world_wf) as (H1 & H2 & H3 & _).
  - eapply rtc_l; [apply (step_poll (L := libs0) poll_world 1 3 None); [reflexivity..|discriminate]|].
    eapply rtc_l; [apply (step_shut (L := libs0) _ 3 HTTP_BAD_REQUEST); by eexists|].
    apply rtc_once. by eapply step_close.
  - split; [exact H1|]. split; [exact H2|exact H3].
Defined.

Lemma http_response_wellformed_witness :
  Http1.parse (_build_response (L := libs0) STATUS_403 (Some (str "no")) ++ str "HTTP") =
    Some (403, str "text/plain", str "no", str "HTTP").
Proof.
  apply (http_response_wellformed (L := libs0) STATUS_403 (Some (str "no")) false (str "HTTP")).
  simpl. lia.
Defined.
