(* ===== verification/Pages.v ===== *)
(** The pages that the build makes of src/protocols_http_error.html and
    src/protocols_http_iframe.html: src/protocols_http_html_error.c and
    src/protocols_http_html_iframe.c, and what is sent of them. *)
From Stdlib Require Import ZArith Lia String.
From stdpp Require Import base list gmap strings.
From S2P Require Import Prelude Types Libs State Config Poll.

(** ** The arrays *)

Definition src_protocols_http_html_error_c_html : bytes := [
  0x3c; 0x21; 0x44; 0x4f; 0x43; 0x54; 0x59; 0x50; 0x45; 0x20; 0x68; 0x74;
  0x6d; 0x6c; 0x3e; 0x20; 0x3c; 0x68; 0x65; 0x61; 0x64; 0x3e; 0x20; 0x3c;
  0x6d; 0x65; 0x74; 0x61; 0x20; 0x63; 0x68; 0x61; 0x72; 0x73; 0x65; 0x74;
  0x3d; 0x22; 0x55; 0x54; 0x46; 0x2d; 0x38; 0x22; 0x3e; 0x20; 0x3c; 0x73;
  0x63; 0x72; 0x69; 0x70; 0x74; 0x3e; 0x66; 0x75; 0x6e; 0x63; 0x74; 0x69;
  0x6f; 0x6e; 0x20; 0x67; 0x65; 0x74; 0x50; 0x61; 0x72; 0x61; 0x6d; 0x65;
  0x74; 0x65; 0x72; 0x42; 0x79; 0x4e; 0x61; 0x6d; 0x65; 0x28; 0x61; 0x29;
  0x7b; 0x61; 0x3d; 0x61; 0x2e; 0x72; 0x65; 0x70; 0x6c; 0x61; 0x63; 0x65;
  0x28; 0x2f; 0x5b; 0x5c; 0x5b; 0x5d; 0x2f; 0x2c; 0x22; 0x5c; 0x5c; 0x5b;
  0x22; 0x29; 0x2e; 0x72; 0x65; 0x70; 0x6c; 0x61; 0x63; 0x65; 0x28; 0x2f;
  0x5b; 0x5c; 0x5d; 0x5d; 0x2f; 0x2c; 0x22; 0x5c; 0x5c; 0x5d; 0x22; 0x29;
  0x3b; 0x76; 0x61; 0x72; 0x20; 0x63; 0x3d; 0x6e; 0x65; 0x77; 0x20; 0x52;
  0x65; 0x67; 0x45; 0x78; 0x70; 0x28; 0x22; 0x5b; 0x5c; 0x5c; 0x3f; 0x26;
  0x5d; 0x22; 0x2b; 0x61; 0x2b; 0x22; 0x3d; 0x28; 0x5b; 0x5e; 0x26; 0x23;
  0x5d; 0x2a; 0x29; 0x22; 0x29; 0x2c; 0x62; 0x3d; 0x63; 0x2e; 0x65; 0x78;
  0x65; 0x63; 0x28; 0x6c; 0x6f; 0x63; 0x61; 0x74; 0x69; 0x6f; 0x6e; 0x2e;
  0x73; 0x65; 0x61; 0x72; 0x63; 0x68; 0x29; 0x3b; 0x72; 0x65; 0x74; 0x75;
  0x72; 0x6e; 0x20; 0x62; 0x3d; 0x3d; 0x6e; 0x75; 0x6c; 0x6c; 0x3f; 0x22;
  0x22; 0x3a; 0x64; 0x65; 0x63; 0x6f; 0x64; 0x65; 0x55; 0x52; 0x49; 0x43;
  0x6f; 0x6d; 0x70; 0x6f; 0x6e; 0x65; 0x6e; 0x74; 0x28; 0x62; 0x5b; 0x31;
  0x5d; 0x2e; 0x72; 0x65; 0x70; 0x6c; 0x61; 0x63; 0x65; 0x28; 0x2f; 0x5c;
  0x2b; 0x2f; 0x67; 0x2c; 0x22; 0x20; 0x22; 0x29; 0x29; 0x7d; 0x77; 0x69;
  0x6e; 0x64; 0x6f; 0x77; 0x2e; 0x70; 0x61; 0x72; 0x65; 0x6e; 0x74; 0x2e;
  0x70; 0x6f; 0x73; 0x74; 0x4d; 0x65; 0x73; 0x73; 0x61; 0x67; 0x65; 0x28;
  0x7b; 0x66; 0x72; 0x6f; 0x6d; 0x3a; 0x22; 0x51; 0x75; 0x69; 0x63; 0x6b;
  0x49; 0x4f; 0x22; 0x2c; 0x74; 0x79; 0x70; 0x65; 0x3a; 0x22; 0x65; 0x72;
  0x72; 0x6f; 0x72; 0x22; 0x2c; 0x69; 0x6e; 0x73; 0x74; 0x61; 0x6e; 0x63;
  0x65; 0x49; 0x64; 0x3a; 0x70; 0x61; 0x72; 0x73; 0x65; 0x49; 0x6e; 0x74;
  0x28; 0x67; 0x65; 0x74; 0x50; 0x61; 0x72; 0x61; 0x6d; 0x65; 0x74; 0x65;
  0x72; 0x42; 0x79; 0x4e; 0x61; 0x6d; 0x65; 0x28; 0x22; 0x69; 0x6e; 0x73;
  0x74; 0x61; 0x6e; 0x63; 0x65; 0x49; 0x64; 0x22; 0x29; 0x29; 0x2c; 0x64;
  0x61; 0x74; 0x61; 0x3a; 0x6e; 0x75; 0x6c; 0x6c; 0x7d; 0x2c; 0x22; 0x2a;
  0x22; 0x29; 0x3b; 0x3c; 0x2f; 0x73; 0x63; 0x72; 0x69; 0x70; 0x74; 0x3e;
  0x20; 0x3c; 0x2f; 0x68; 0x65; 0x61; 0x64; 0x3e; 0x20; 0x3c; 0x62; 0x6f;
  0x64; 0x79; 0x3e; 0x20; 0x3c; 0x2f; 0x62; 0x6f; 0x64; 0x79; 0x3e
].

Definition src_protocols_http_html_error_c_html_len : Z := 419.

Definition src_protocols_http_html_iframe_c_html : bytes := [
  0x3c; 0x21; 0x44; 0x4f; 0x43; 0x54; 0x59; 0x50; 0x45; 0x20; 0x68; 0x74;
  0x6d; 0x6c; 0x3e; 0x20; 0x3c; 0x68; 0x65; 0x61; 0x64; 0x3e; 0x20; 0x3c;
  0x6d; 0x65; 0x74; 0x61; 0x20; 0x63; 0x68; 0x61; 0x72; 0x73; 0x65; 0x74;
  0x3d; 0x22; 0x55; 0x54; 0x46; 0x2d; 0x38; 0x22; 0x3e; 0x20; 0x3c; 0x73;
  0x63; 0x72; 0x69; 0x70; 0x74; 0x3e; 0x28; 0x66; 0x75; 0x6e; 0x63; 0x74;
  0x69; 0x6f; 0x6e; 0x28; 0x29; 0x7b; 0x76; 0x61; 0x72; 0x20; 0x75; 0x2c;
  0x61; 0x2c; 0x63; 0x3d; 0x22; 0x7b; 0x50; 0x55; 0x42; 0x4c; 0x49; 0x43;
  0x5f; 0x41; 0x44; 0x44; 0x52; 0x45; 0x53; 0x53; 0x7d; 0x22; 0x2c; 0x62;
  0x3d; 0x30; 0x2c; 0x70; 0x3d; 0x2d; 0x31; 0x2c; 0x6e; 0x3d; 0x30; 0x2c;
  0x74; 0x3d; 0x7b; 0x7d; 0x2c; 0x6d; 0x3d; 0x5b; 0x5d; 0x2c; 0x76; 0x3d;
  0x32; 0x30; 0x30; 0x30; 0x2c; 0x69; 0x3d; 0x36; 0x30; 0x2a; 0x31; 0x30;
  0x30; 0x30; 0x2c; 0x6f; 0x3d; 0x22; 0x78; 0x78; 0x78; 0x78; 0x78; 0x78;
  0x78; 0x78; 0x78; 0x78; 0x78; 0x78; 0x78; 0x78; 0x78; 0x78; 0x78; 0x78;
  0x78; 0x78; 0x78; 0x78; 0x78; 0x78; 0x78; 0x78; 0x78; 0x78; 0x78; 0x78;
  0x78; 0x78; 0x22; 0x2e; 0x72; 0x65; 0x70; 0x6c; 0x61; 0x63; 0x65; 0x28;
  0x2f; 0x78; 0x2f; 0x67; 0x2c; 0x66; 0x75; 0x6e; 0x63; 0x74; 0x69; 0x6f;
  0x6e; 0x28; 0x77; 0x29; 0x7b; 0x72; 0x65; 0x74; 0x75; 0x72; 0x6e; 0x28;
  0x4d; 0x61; 0x74; 0x68; 0x2e; 0x66; 0x6c; 0x6f; 0x6f; 0x72; 0x28; 0x4d;
  0x61; 0x74; 0x68; 0x2e; 0x72; 0x61; 0x6e; 0x64; 0x6f; 0x6d; 0x28; 0x29;
  0x2a; 0x31; 0x36; 0x29; 0x29; 0x2e; 0x74; 0x6f; 0x53; 0x74; 0x72; 0x69;
  0x6e; 0x67; 0x28; 0x31; 0x36; 0x29; 0x7d; 0x29; 0x3b; 0x66; 0x75; 0x6e;
  0x63; 0x74; 0x69; 0x6f; 0x6e; 0x20; 0x72; 0x28; 0x77; 0x29; 0x7b; 0x77;
  0x3d; 0x77; 0x2e; 0x72; 0x65; 0x70; 0x6c; 0x61; 0x63; 0x65; 0x28; 0x2f;
  0x5b; 0x5c; 0x5b; 0x5d; 0x2f; 0x2c; 0x22; 0x5c; 0x5c; 0x5b; 0x22; 0x29;
  0x2e; 0x72; 0x65; 0x70; 0x6c; 0x61; 0x63; 0x65; 0x28; 0x2f; 0x5b; 0x5c;
  0x5d; 0x5d; 0x2f; 0x2c; 0x22; 0x5c; 0x5c; 0x5d; 0x22; 0x29; 0x3b; 0x76;
  0x61; 0x72; 0x20; 0x79; 0x3d; 0x6e; 0x65; 0x77; 0x20; 0x52; 0x65; 0x67;
  0x45; 0x78; 0x70; 0x28; 0x22; 0x5b; 0x5c; 0x5c; 0x3f; 0x26; 0x5d; 0x22;
  0x2b; 0x77; 0x2b; 0x22; 0x3d; 0x28; 0x5b; 0x5e; 0x26; 0x23; 0x5d; 0x2a;
  0x29; 0x22; 0x29; 0x2c; 0x78; 0x3d; 0x79; 0x2e; 0x65; 0x78; 0x65; 0x63;
  0x28; 0x6c; 0x6f; 0x63; 0x61; 0x74; 0x69; 0x6f; 0x6e; 0x2e; 0x73; 0x65;
  0x61; 0x72; 0x63; 0x68; 0x29; 0x3b; 0x72; 0x65; 0x74; 0x75; 0x72; 0x6e;
  0x20; 0x78; 0x3d; 0x3d; 0x6e; 0x75; 0x6c; 0x6c; 0x3f; 0x22; 0x22; 0x3a;
  0x64; 0x65; 0x63; 0x6f; 0x64; 0x65; 0x55; 0x52; 0x49; 0x43; 0x6f; 0x6d;
  0x70; 0x6f; 0x6e; 0x65; 0x6e; 0x74; 0x28; 0x78; 0x5b; 0x31; 0x5d; 0x2e;
  0x72; 0x65; 0x70; 0x6c; 0x61; 0x63; 0x65; 0x28; 0x2f; 0x5c; 0x2b; 0x2f;
  0x67; 0x2c; 0x22; 0x20; 0x22; 0x29; 0x29; 0x7d; 0x66; 0x75; 0x6e; 0x63;
  0x74; 0x69; 0x6f; 0x6e; 0x20; 0x6a; 0x28; 0x78; 0x2c; 0x77; 0x29; 0x7b;
  0x69; 0x66; 0x28; 0x77; 0x69; 0x6e; 0x64; 0x6f; 0x77; 0x2e; 0x61; 0x64;
  0x64; 0x45; 0x76; 0x65; 0x6e; 0x74; 0x4c; 0x69; 0x73; 0x74; 0x65; 0x6e;
  0x65; 0x72; 0x29; 0x7b; 0x77; 0x69; 0x6e; 0x64; 0x6f; 0x77; 0x2e; 0x61;
  0x64; 0x64; 0x45; 0x76; 0x65; 0x6e; 0x74; 0x4c; 0x69; 0x73; 0x74; 0x65;
  0x6e; 0x65; 0x72; 0x28; 0x78; 0x2c; 0x77; 0x2c; 0x66; 0x61; 0x6c; 0x73;
  0x65; 0x29; 0x7d; 0x65; 0x6c; 0x73; 0x65; 0x7b; 0x77; 0x69; 0x6e; 0x64;
  0x6f; 0x77; 0x2e; 0x61; 0x74; 0x74; 0x61; 0x63; 0x68; 0x45; 0x76; 0x65;
  0x6e; 0x74; 0x28; 0x22; 0x6f; 0x6e; 0x22; 0x2b; 0x78; 0x2c; 0x77; 0x29;
  0x7d; 0x7d; 0x66; 0x75; 0x6e; 0x63; 0x74; 0x69; 0x6f; 0x6e; 0x20; 0x73;
  0x28; 0x78; 0x2c; 0x77; 0x29; 0x7b; 0x69; 0x66; 0x28; 0x77; 0x69; 0x6e;
  0x64; 0x6f; 0x77; 0x2e; 0x72; 0x65; 0x6d; 0x6f; 0x76; 0x65; 0x45; 0x76;
  0x65; 0x6e; 0x74; 0x4c; 0x69; 0x73; 0x74; 0x65; 0x6e; 0x65; 0x72; 0x29;
  0x7b; 0x77; 0x69; 0x6e; 0x64; 0x6f; 0x77; 0x2e; 0x72; 0x65; 0x6d; 0x6f;
  0x76; 0x65; 0x45; 0x76; 0x65; 0x6e; 0x74; 0x4c; 0x69; 0x73; 0x74; 0x65;
  0x6e; 0x65; 0x72; 0x28; 0x78; 0x2c; 0x77; 0x2c; 0x66; 0x61; 0x6c; 0x73;
  0x65; 0x29; 0x7d; 0x65; 0x6c; 0x73; 0x65; 0x7b; 0x77; 0x69; 0x6e; 0x64;
  0x6f; 0x77; 0x2e; 0x64; 0x65; 0x74; 0x61; 0x63; 0x68; 0x45; 0x76; 0x65;
  0x6e; 0x74; 0x28; 0x22; 0x6f; 0x6e; 0x22; 0x2b; 0x78; 0x2c; 0x77; 0x29;
  0x7d; 0x7d; 0x66; 0x75; 0x6e; 0x63; 0x74; 0x69; 0x6f; 0x6e; 0x20; 0x66;
  0x28; 0x77; 0x2c; 0x78; 0x29; 0x7b; 0x69; 0x66; 0x28; 0x21; 0x75; 0x29;
  0x7b; 0x77; 0x69; 0x6e; 0x64; 0x6f; 0x77; 0x2e; 0x70; 0x61; 0x72; 0x65;
  0x6e; 0x74; 0x2e; 0x70; 0x6f; 0x73; 0x74; 0x4d; 0x65; 0x73; 0x73; 0x61;
  0x67; 0x65; 0x28; 0x4a; 0x53; 0x4f; 0x4e; 0x2e; 0x73; 0x74; 0x72; 0x69;
  0x6e; 0x67; 0x69; 0x66; 0x79; 0x28; 0x7b; 0x66; 0x72; 0x6f; 0x6d; 0x3a;
  0x22; 0x51; 0x75; 0x69; 0x63; 0x6b; 0x49; 0x4f; 0x22; 0x2c; 0x74; 0x79;
  0x70; 0x65; 0x3a; 0x77; 0x2c; 0x69; 0x6e; 0x73; 0x74; 0x61; 0x6e; 0x63;
  0x65; 0x49; 0x64; 0x3a; 0x70; 0x2c; 0x64; 0x61; 0x74; 0x61; 0x3a; 0x78;
  0x7d; 0x29; 0x2c; 0x22; 0x2a; 0x22; 0x29; 0x7d; 0x7d; 0x66; 0x75; 0x6e;
  0x63; 0x74; 0x69; 0x6f; 0x6e; 0x20; 0x65; 0x28; 0x29; 0x7b; 0x66; 0x28;
  0x22; 0x65; 0x72; 0x72; 0x6f; 0x72; 0x22; 0x2c; 0x6e; 0x75; 0x6c; 0x6c;
  0x29; 0x3b; 0x71; 0x28; 0x29; 0x7d; 0x66; 0x75; 0x6e; 0x63; 0x74; 0x69;
  0x6f; 0x6e; 0x20; 0x6c; 0x28; 0x43; 0x2c; 0x79; 0x29; 0x7b; 0x76; 0x61;
  0x72; 0x20; 0x77; 0x2c; 0x7a; 0x2c; 0x42; 0x3d; 0x6e; 0x2b; 0x2b; 0x2c;
  0x41; 0x3d; 0x6e; 0x65; 0x77; 0x20; 0x58; 0x4d; 0x4c; 0x48; 0x74; 0x74;
  0x70; 0x52; 0x65; 0x71; 0x75; 0x65; 0x73; 0x74; 0x28; 0x29; 0x2c; 0x78;
  0x3d; 0x22; 0x2f; 0x3f; 0x73; 0x69; 0x64; 0x3d; 0x22; 0x2b; 0x6f; 0x2b;
  0x28; 0x79; 0x3f; 0x22; 0x26; 0x63; 0x6f; 0x6e; 0x6e; 0x65; 0x63; 0x74;
  0x3d; 0x74; 0x72; 0x75; 0x65; 0x22; 0x3a; 0x22; 0x22; 0x29; 0x3b; 0x41;
  0x2e; 0x6f; 0x70; 0x65; 0x6e; 0x28; 0x22; 0x50; 0x4f; 0x53; 0x54; 0x22;
  0x2c; 0x78; 0x2c; 0x74; 0x72; 0x75; 0x65; 0x29; 0x3b; 0x41; 0x2e; 0x73;
  0x65; 0x74; 0x52; 0x65; 0x71; 0x75; 0x65; 0x73; 0x74; 0x48; 0x65; 0x61;
  0x64; 0x65; 0x72; 0x28; 0x22; 0x43; 0x6f; 0x6e; 0x74; 0x65; 0x6e; 0x74;
  0x2d; 0x54; 0x79; 0x70; 0x65; 0x22; 0x2c; 0x22; 0x74; 0x65; 0x78; 0x74;
  0x2f; 0x70; 0x6c; 0x61; 0x69; 0x6e; 0x22; 0x29; 0x3b; 0x41; 0x2e; 0x73;
  0x65; 0x6e; 0x64; 0x28; 0x43; 0x7c; 0x7c; 0x6e; 0x75; 0x6c; 0x6c; 0x29;
  0x3b; 0x7a; 0x3d; 0x73; 0x65; 0x74; 0x54; 0x69; 0x6d; 0x65; 0x6f; 0x75;
  0x74; 0x28; 0x66; 0x75; 0x6e; 0x63; 0x74; 0x69; 0x6f; 0x6e; 0x28; 0x29;
  0x7b; 0x65; 0x28; 0x29; 0x7d; 0x2c; 0x69; 0x29; 0x3b; 0x77; 0x3d; 0x66;
  0x75; 0x6e; 0x63; 0x74; 0x69; 0x6f; 0x6e; 0x28; 0x45; 0x2c; 0x48; 0x29;
  0x7b; 0x76; 0x61; 0x72; 0x20; 0x47; 0x2c; 0x46; 0x2c; 0x44; 0x3d; 0x5b;
  0x5d; 0x3b; 0x69; 0x66; 0x28; 0x77; 0x26; 0x26; 0x28; 0x48; 0x7c; 0x7c;
  0x41; 0x2e; 0x72; 0x65; 0x61; 0x64; 0x79; 0x53; 0x74; 0x61; 0x74; 0x65;
  0x3d; 0x3d; 0x34; 0x29; 0x29; 0x7b; 0x64; 0x65; 0x6c; 0x65; 0x74; 0x65;
  0x20; 0x74; 0x5b; 0x42; 0x5d; 0x3b; 0x77; 0x3d; 0x6e; 0x75; 0x6c; 0x6c;
  0x3b; 0x41; 0x2e; 0x6f; 0x6e; 0x72; 0x65; 0x61; 0x64; 0x79; 0x73; 0x74;
  0x61; 0x74; 0x65; 0x63; 0x68; 0x61; 0x6e; 0x67; 0x65; 0x3d; 0x6e; 0x75;
  0x6c; 0x6c; 0x3b; 0x63; 0x6c; 0x65; 0x61; 0x72; 0x54; 0x69; 0x6d; 0x65;
  0x6f; 0x75; 0x74; 0x28; 0x7a; 0x29; 0x3b; 0x7a; 0x3d; 0x6e; 0x75; 0x6c;
  0x6c; 0x3b; 0x69; 0x66; 0x28; 0x48; 0x29; 0x7b; 0x69; 0x66; 0x28; 0x41;
  0x2e; 0x72; 0x65; 0x61; 0x64; 0x79; 0x53; 0x74; 0x61; 0x74; 0x65; 0x21;
  0x3d; 0x34; 0x29; 0x7b; 0x41; 0x2e; 0x61; 0x62; 0x6f; 0x72; 0x74; 0x28;
  0x29; 0x7d; 0x7d; 0x65; 0x6c; 0x73; 0x65; 0x7b; 0x69; 0x66; 0x28; 0x41;
  0x2e; 0x73; 0x74; 0x61; 0x74; 0x75; 0x73; 0x3d; 0x3d; 0x32; 0x30; 0x30;
  0x29; 0x7b; 0x46; 0x3d; 0x74; 0x68; 0x69; 0x73; 0x2e; 0x72; 0x65; 0x73;
  0x70; 0x6f; 0x6e; 0x73; 0x65; 0x54; 0x65; 0x78; 0x74; 0x2e; 0x73; 0x70;
  0x6c; 0x69; 0x74; 0x28; 0x22; 0x5c; 0x6e; 0x22; 0x29; 0x3b; 0x66; 0x6f;
  0x72; 0x28; 0x47; 0x3d; 0x30; 0x3b; 0x47; 0x3c; 0x46; 0x2e; 0x6c; 0x65;
  0x6e; 0x67; 0x74; 0x68; 0x3b; 0x47; 0x2b; 0x2b; 0x29; 0x7b; 0x69; 0x66;
  0x28; 0x46; 0x5b; 0x47; 0x5d; 0x29; 0x7b; 0x44; 0x2e; 0x70; 0x75; 0x73;
  0x68; 0x28; 0x46; 0x5b; 0x47; 0x5d; 0x29; 0x7d; 0x7d; 0x69; 0x66; 0x28;
  0x44; 0x2e; 0x6c; 0x65; 0x6e; 0x67; 0x74; 0x68; 0x3e; 0x30; 0x29; 0x7b;
  0x66; 0x28; 0x22; 0x65; 0x76; 0x65; 0x6e; 0x74; 0x73; 0x22; 0x2c; 0x44;
  0x29; 0x7d; 0x7d; 0x65; 0x6c; 0x73; 0x65; 0x7b; 0x65; 0x28; 0x29; 0x7d;
  0x7d; 0x69; 0x66; 0x28; 0x28; 0x2d; 0x2d; 0x62; 0x29; 0x3d; 0x3d; 0x30;
  0x29; 0x7b; 0x68; 0x28; 0x29; 0x7d; 0x7d; 0x7d; 0x3b; 0x74; 0x5b; 0x42;
  0x5d; 0x3d; 0x41; 0x2e; 0x6f; 0x6e; 0x72; 0x65; 0x61; 0x64; 0x79; 0x73;
  0x74; 0x61; 0x74; 0x65; 0x63; 0x68; 0x61; 0x6e; 0x67; 0x65; 0x3d; 0x77;
  0x3b; 0x62; 0x2b; 0x2b; 0x7d; 0x66; 0x75; 0x6e; 0x63; 0x74; 0x69; 0x6f;
  0x6e; 0x20; 0x68; 0x28; 0x29; 0x7b; 0x69; 0x66; 0x28; 0x21; 0x75; 0x26;
  0x26; 0x21; 0x61; 0x29; 0x7b; 0x61; 0x3d; 0x73; 0x65; 0x74; 0x54; 0x69;
  0x6d; 0x65; 0x6f; 0x75; 0x74; 0x28; 0x66; 0x75; 0x6e; 0x63; 0x74; 0x69;
  0x6f; 0x6e; 0x28; 0x29; 0x7b; 0x76; 0x61; 0x72; 0x20; 0x77; 0x3d; 0x6d;
  0x2e; 0x6a; 0x6f; 0x69; 0x6e; 0x28; 0x22; 0x5c; 0x6e; 0x22; 0x29; 0x3b;
  0x6d; 0x3d; 0x5b; 0x5d; 0x3b; 0x6c; 0x28; 0x77; 0x29; 0x3b; 0x61; 0x3d;
  0x6e; 0x75; 0x6c; 0x6c; 0x7d; 0x2c; 0x4d; 0x61; 0x74; 0x68; 0x2e; 0x63;
  0x65; 0x69; 0x6c; 0x28; 0x4d; 0x61; 0x74; 0x68; 0x2e; 0x72; 0x61; 0x6e;
  0x64; 0x6f; 0x6d; 0x28; 0x29; 0x2a; 0x76; 0x29; 0x29; 0x7d; 0x7d; 0x66;
  0x75; 0x6e; 0x63; 0x74; 0x69; 0x6f; 0x6e; 0x20; 0x67; 0x28; 0x77; 0x29;
  0x7b; 0x76; 0x61; 0x72; 0x20; 0x78; 0x3d; 0x4a; 0x53; 0x4f; 0x4e; 0x2e;
  0x70; 0x61; 0x72; 0x73; 0x65; 0x28; 0x77; 0x2e; 0x64; 0x61; 0x74; 0x61;
  0x29; 0x3b; 0x69; 0x66; 0x28; 0x78; 0x2e; 0x66; 0x72; 0x6f; 0x6d; 0x3d;
  0x3d; 0x22; 0x51; 0x75; 0x69; 0x63; 0x6b; 0x49; 0x4f; 0x22; 0x29; 0x7b;
  0x73; 0x77; 0x69; 0x74; 0x63; 0x68; 0x28; 0x78; 0x2e; 0x74; 0x79; 0x70;
  0x65; 0x29; 0x7b; 0x63; 0x61; 0x73; 0x65; 0x22; 0x65; 0x76; 0x65; 0x6e;
  0x74; 0x22; 0x3a; 0x6d; 0x2e; 0x70; 0x75; 0x73; 0x68; 0x28; 0x78; 0x2e;
  0x64; 0x61; 0x74; 0x61; 0x29; 0x3b; 0x68; 0x28; 0x29; 0x3b; 0x62; 0x72;
  0x65; 0x61; 0x6b; 0x3b; 0x63; 0x61; 0x73; 0x65; 0x22; 0x63; 0x6c; 0x6f;
  0x73; 0x65; 0x22; 0x3a; 0x71; 0x28; 0x29; 0x3b; 0x62; 0x72; 0x65; 0x61;
  0x6b; 0x7d; 0x7d; 0x7d; 0x66; 0x75; 0x6e; 0x63; 0x74; 0x69; 0x6f; 0x6e;
  0x20; 0x71; 0x28; 0x29; 0x7b; 0x75; 0x3d; 0x74; 0x72; 0x75; 0x65; 0x3b;
  0x66; 0x6f; 0x72; 0x28; 0x76; 0x61; 0x72; 0x20; 0x77; 0x20; 0x69; 0x6e;
  0x20; 0x74; 0x29; 0x7b; 0x74; 0x5b; 0x77; 0x5d; 0x28; 0x75; 0x6e; 0x64;
  0x65; 0x66; 0x69; 0x6e; 0x65; 0x64; 0x2c; 0x74; 0x72; 0x75; 0x65; 0x29;
  0x7d; 0x73; 0x28; 0x22; 0x6d; 0x65; 0x73; 0x73; 0x61; 0x67; 0x65; 0x22;
  0x2c; 0x67; 0x29; 0x3b; 0x73; 0x28; 0x22; 0x75; 0x6e; 0x6c; 0x6f; 0x61;
  0x64; 0x22; 0x2c; 0x71; 0x29; 0x7d; 0x66; 0x75; 0x6e; 0x63; 0x74; 0x69;
  0x6f; 0x6e; 0x20; 0x64; 0x28; 0x29; 0x7b; 0x6a; 0x28; 0x22; 0x6d; 0x65;
  0x73; 0x73; 0x61; 0x67; 0x65; 0x22; 0x2c; 0x67; 0x29; 0x3b; 0x6a; 0x28;
  0x22; 0x75; 0x6e; 0x6c; 0x6f; 0x61; 0x64; 0x22; 0x2c; 0x71; 0x29; 0x3b;
  0x6c; 0x28; 0x22; 0x22; 0x2c; 0x74; 0x72; 0x75; 0x65; 0x29; 0x3b; 0x66;
  0x28; 0x22; 0x72; 0x65; 0x61; 0x64; 0x79; 0x22; 0x2c; 0x6e; 0x75; 0x6c;
  0x6c; 0x29; 0x7d; 0x66; 0x75; 0x6e; 0x63; 0x74; 0x69; 0x6f; 0x6e; 0x20;
  0x6b; 0x28; 0x29; 0x7b; 0x69; 0x66; 0x28; 0x64; 0x6f; 0x63; 0x75; 0x6d;
  0x65; 0x6e; 0x74; 0x2e; 0x72; 0x65; 0x6d; 0x6f; 0x76; 0x65; 0x45; 0x76;
  0x65; 0x6e; 0x74; 0x4c; 0x69; 0x73; 0x74; 0x65; 0x6e; 0x65; 0x72; 0x29;
  0x7b; 0x64; 0x6f; 0x63; 0x75; 0x6d; 0x65; 0x6e; 0x74; 0x2e; 0x72; 0x65;
  0x6d; 0x6f; 0x76; 0x65; 0x45; 0x76; 0x65; 0x6e; 0x74; 0x4c; 0x69; 0x73;
  0x74; 0x65; 0x6e; 0x65; 0x72; 0x28; 0x22; 0x44; 0x4f; 0x4d; 0x43; 0x6f;
  0x6e; 0x74; 0x65; 0x6e; 0x74; 0x4c; 0x6f; 0x61; 0x64; 0x65; 0x64; 0x22;
  0x2c; 0x6b; 0x2c; 0x66; 0x61; 0x6c; 0x73; 0x65; 0x29; 0x3b; 0x77; 0x69;
  0x6e; 0x64; 0x6f; 0x77; 0x2e; 0x72; 0x65; 0x6d; 0x6f; 0x76; 0x65; 0x45;
  0x76; 0x65; 0x6e; 0x74; 0x4c; 0x69; 0x73; 0x74; 0x65; 0x6e; 0x65; 0x72;
  0x28; 0x22; 0x6c; 0x6f; 0x61; 0x64; 0x22; 0x2c; 0x6b; 0x2c; 0x66; 0x61;
  0x6c; 0x73; 0x65; 0x29; 0x7d; 0x65; 0x6c; 0x73; 0x65; 0x7b; 0x64; 0x6f;
  0x63; 0x75; 0x6d; 0x65; 0x6e; 0x74; 0x2e; 0x64; 0x65; 0x74; 0x61; 0x63;
  0x68; 0x45; 0x76; 0x65; 0x6e; 0x74; 0x28; 0x22; 0x6f; 0x6e; 0x72; 0x65;
  0x61; 0x64; 0x79; 0x73; 0x74; 0x61; 0x74; 0x65; 0x63; 0x68; 0x61; 0x6e;
  0x67; 0x65; 0x22; 0x2c; 0x6b; 0x29; 0x3b; 0x77; 0x69; 0x6e; 0x64; 0x6f;
  0x77; 0x2e; 0x64; 0x65; 0x74; 0x61; 0x63; 0x68; 0x45; 0x76; 0x65; 0x6e;
  0x74; 0x28; 0x22; 0x6f; 0x6e; 0x6c; 0x6f; 0x61; 0x64; 0x22; 0x2c; 0x6b;
  0x29; 0x7d; 0x70; 0x3d; 0x70; 0x61; 0x72; 0x73; 0x65; 0x49; 0x6e; 0x74;
  0x28; 0x72; 0x28; 0x22; 0x69; 0x6e; 0x73; 0x74; 0x61; 0x6e; 0x63; 0x65;
  0x49; 0x64; 0x22; 0x29; 0x29; 0x3b; 0x76; 0x3d; 0x70; 0x61; 0x72; 0x73;
  0x65; 0x49; 0x6e; 0x74; 0x28; 0x72; 0x28; 0x22; 0x70; 0x6f; 0x6c; 0x6c;
  0x46; 0x72; 0x65; 0x71; 0x75; 0x65; 0x6e; 0x63; 0x79; 0x22; 0x29; 0x29;
  0x7c; 0x7c; 0x76; 0x3b; 0x69; 0x3d; 0x70; 0x61; 0x72; 0x73; 0x65; 0x49;
  0x6e; 0x74; 0x28; 0x72; 0x28; 0x22; 0x74; 0x69; 0x6d; 0x65; 0x6f; 0x75;
  0x74; 0x22; 0x29; 0x29; 0x7c; 0x7c; 0x69; 0x3b; 0x69; 0x66; 0x28; 0x77;
  0x69; 0x6e; 0x64; 0x6f; 0x77; 0x2e; 0x6c; 0x6f; 0x63; 0x61; 0x74; 0x69;
  0x6f; 0x6e; 0x2e; 0x68; 0x6f; 0x73; 0x74; 0x6e; 0x61; 0x6d; 0x65; 0x21;
  0x3d; 0x63; 0x29; 0x7b; 0x77; 0x69; 0x6e; 0x64; 0x6f; 0x77; 0x2e; 0x6c;
  0x6f; 0x63; 0x61; 0x74; 0x69; 0x6f; 0x6e; 0x2e; 0x68; 0x6f; 0x73; 0x74;
  0x6e; 0x61; 0x6d; 0x65; 0x3d; 0x63; 0x7d; 0x65; 0x6c; 0x73; 0x65; 0x7b;
  0x64; 0x28; 0x29; 0x7d; 0x7d; 0x69; 0x66; 0x28; 0x64; 0x6f; 0x63; 0x75;
  0x6d; 0x65; 0x6e; 0x74; 0x2e; 0x61; 0x64; 0x64; 0x45; 0x76; 0x65; 0x6e;
  0x74; 0x4c; 0x69; 0x73; 0x74; 0x65; 0x6e; 0x65; 0x72; 0x29; 0x7b; 0x64;
  0x6f; 0x63; 0x75; 0x6d; 0x65; 0x6e; 0x74; 0x2e; 0x61; 0x64; 0x64; 0x45;
  0x76; 0x65; 0x6e; 0x74; 0x4c; 0x69; 0x73; 0x74; 0x65; 0x6e; 0x65; 0x72;
  0x28; 0x22; 0x44; 0x4f; 0x4d; 0x43; 0x6f; 0x6e; 0x74; 0x65; 0x6e; 0x74;
  0x4c; 0x6f; 0x61; 0x64; 0x65; 0x64; 0x22; 0x2c; 0x6b; 0x2c; 0x66; 0x61;
  0x6c; 0x73; 0x65; 0x29; 0x3b; 0x77; 0x69; 0x6e; 0x64; 0x6f; 0x77; 0x2e;
  0x61; 0x64; 0x64; 0x45; 0x76; 0x65; 0x6e; 0x74; 0x4c; 0x69; 0x73; 0x74;
  0x65; 0x6e; 0x65; 0x72; 0x28; 0x22; 0x6c; 0x6f; 0x61; 0x64; 0x22; 0x2c;
  0x6b; 0x2c; 0x66; 0x61; 0x6c; 0x73; 0x65; 0x29; 0x7d; 0x65; 0x6c; 0x73;
  0x65; 0x7b; 0x64; 0x6f; 0x63; 0x75; 0x6d; 0x65; 0x6e; 0x74; 0x2e; 0x61;
  0x74; 0x74; 0x61; 0x63; 0x68; 0x45; 0x76; 0x65; 0x6e; 0x74; 0x28; 0x22;
  0x6f; 0x6e; 0x72; 0x65; 0x61; 0x64; 0x79; 0x73; 0x74; 0x61; 0x74; 0x65;
  0x63; 0x68; 0x61; 0x6e; 0x67; 0x65; 0x22; 0x2c; 0x6b; 0x29; 0x3b; 0x77;
  0x69; 0x6e; 0x64; 0x6f; 0x77; 0x2e; 0x61; 0x74; 0x74; 0x61; 0x63; 0x68;
  0x45; 0x76; 0x65; 0x6e; 0x74; 0x28; 0x22; 0x6f; 0x6e; 0x6c; 0x6f; 0x61;
  0x64; 0x22; 0x2c; 0x6b; 0x29; 0x7d; 0x7d; 0x29; 0x28; 0x29; 0x3b; 0x3c;
  0x2f; 0x73; 0x63; 0x72; 0x69; 0x70; 0x74; 0x3e; 0x20; 0x3c; 0x2f; 0x68;
  0x65; 0x61; 0x64; 0x3e; 0x20; 0x3c; 0x62; 0x6f; 0x64; 0x79; 0x3e; 0x20;
  0x3c; 0x2f; 0x62; 0x6f; 0x64; 0x79; 0x3e
].

Definition src_protocols_http_html_iframe_c_html_len : Z := 2419.

(** A server with these pages, configured by [C] otherwise. *)
Definition with_pages (C : Config) : Config := {|
  cfg_clients_cb_max_age := cfg_clients_cb_max_age;
  cfg_clients_subs_total := cfg_clients_subs_total;
  cfg_clients_subs_pressure := cfg_clients_subs_pressure;
  cfg_clients_subs_min := cfg_clients_subs_min;
  cfg_public_address := cfg_public_address;
  qev_cfg_get_timeout := qev_cfg_get_timeout;
  html_iframe := take (Z.to_nat src_protocols_http_html_iframe_c_html_len) src_protocols_http_html_iframe_c_html;
  html_error := take (Z.to_nat src_protocols_http_html_error_c_html_len) src_protocols_http_html_error_c_html;
|}.

(** ** Replacing text *)

(** What [qev_buffer_replace_str] is documented to do. *)
Definition replaces {L : Libs} : Prop :=
  ∀ l from to, from ≠ [] → qev_buffer_replace_str l from to = Reference.replace_all (length l) l from to.

Lemma replace_none fuel l from to : strstr l from = None → Reference.replace_all fuel l from to = l.
Proof. intros H. destruct fuel; [done|]. simpl. by rewrite H. Qed.

Lemma replace_once fuel l from to r :
  (0 < fuel)%nat → strstr l from = Some r → strstr (drop (length from) r) from = None →
  Reference.replace_all fuel l from to = take (length l - length r) l ++ to ++ drop (length from) r.
Proof. intros Hf H1 H2. destruct fuel; [lia|]. simpl. by rewrite H1, replace_none. Qed.

(** ** The pages *)

Definition PLACEHOLDER : bytes := str "{PUBLIC_ADDRESS}".

(** What stands before the address, and after it. *)
Definition iframe_head : bytes :=
  match strstr src_protocols_http_html_iframe_c_html PLACEHOLDER with
  | Some r => take (length src_protocols_http_html_iframe_c_html - length r) src_protocols_http_html_iframe_c_html
  | None => []
  end.
Definition iframe_tail : bytes :=
  match strstr src_protocols_http_html_iframe_c_html PLACEHOLDER with
  | Some r => drop (length PLACEHOLDER) r
  | None => []
  end.

Definition printable (b : Z) : bool := (32 <=? b) && (b <=? 126).

Lemma pages_text :
  forallb printable src_protocols_http_html_iframe_c_html = true ∧
  forallb printable src_protocols_http_html_error_c_html = true ∧
  Z.of_nat (length src_protocols_http_html_iframe_c_html) = src_protocols_http_html_iframe_c_html_len ∧
  Z.of_nat (length src_protocols_http_html_error_c_html) = src_protocols_http_html_error_c_html_len.
Proof. by vm_compute. Qed.

Lemma iframe_length : length src_protocols_http_html_iframe_c_html = 2419%nat.
Proof. vm_compute. reflexivity. Qed.

Lemma iframe_cut :
  ∃ r, strstr src_protocols_http_html_iframe_c_html PLACEHOLDER = Some r ∧
    iframe_head = take (length src_protocols_http_html_iframe_c_html - length r) src_protocols_http_html_iframe_c_html ∧
    iframe_tail = drop (length PLACEHOLDER) r.
Proof.
  unfold iframe_head, iframe_tail.
  destruct (strstr src_protocols_http_html_iframe_c_html PLACEHOLDER) as [r|] eqn:E; [by exists r|].
  exfalso. by vm_compute in E.
Qed.

Lemma iframe_parts :
  src_protocols_http_html_iframe_c_html = iframe_head ++ PLACEHOLDER ++ iframe_tail ∧
  strstr iframe_tail PLACEHOLDER = None.
Proof. split; vm_compute; reflexivity. Qed.

Section Pages.
Context {L : Libs} {C : Config}.

Lemma whole_pages :
  html_iframe (Config := with_pages C) = src_protocols_http_html_iframe_c_html ∧
  html_error (Config := with_pages C) = src_protocols_http_html_error_c_html.
Proof.
  destruct pages_text as (_ & _ & H1 & H2). cbn. split; (rewrite take_ge; [done|lia]).
Qed.

(** C40. The pages that are sent are those of the sources: the lengths that the
    sources give are those of the arrays, neither less nor more, all of their
    bytes are printable text, and the page for the iframe has one place for the
    server's address, where the response has it; without an address there is
    none. *)
Theorem pages_correct :
  replaces →
  src_protocols_http_html_iframe_c_html_len = Z.of_nat (length src_protocols_http_html_iframe_c_html) ∧
  src_protocols_http_html_error_c_html_len = Z.of_nat (length src_protocols_http_html_error_c_html) ∧
  html_iframe (Config := with_pages C) = src_protocols_http_html_iframe_c_html ∧
  html_error (Config := with_pages C) = src_protocols_http_html_error_c_html ∧
  forallb printable (iframe_head ++ PLACEHOLDER ++ iframe_tail) = true ∧
  forallb printable (html_error (Config := with_pages C)) = true ∧
  html_iframe (Config := with_pages C) = iframe_head ++ PLACEHOLDER ++ iframe_tail ∧
  _status_responses (C := with_pages C) STATUS_501 =
    _build_response STATUS_501 (Some src_protocols_http_html_error_c_html) ∧
  match cfg_public_address with
  | Some addr => _iframe_source (C := with_pages C) =
      Some (_build_response_full STATUS_200 (Some (iframe_head ++ addr ++ iframe_tail)) true)
  | None => _iframe_source (C := with_pages C) = None
  end.
Proof.
  intros Hr. destruct pages_text as (T1 & T2 & T3 & T4). destruct whole_pages as [W1 W2].
  split; [by rewrite T3|]. split; [by rewrite T4|].
  destruct iframe_cut as (r & E1 & E2 & E3). destruct iframe_parts as [P1 P2].
  split; [exact W1|]. split; [exact W2|]. rewrite W1, W2, <- P1.
  split; [exact T1|]. split; [exact T2|]. split; [reflexivity|].
  split; [unfold _status_responses; by rewrite W2|].
  unfold _iframe_source. rewrite W1. cbn [cfg_public_address with_pages].
  destruct cfg_public_address as [addr|]; [|reflexivity]. cbn [mbind option_bind]. do 3 f_equal.
  rewrite Hr by discriminate. fold PLACEHOLDER. rewrite E2, E3 in *.
  apply (replace_once _ _ _ _ r); [rewrite iframe_length; lia|exact E1|exact P2].
Qed.

End Pages.

(** ** Witness *)

Lemma pages_correct_witness :
  _iframe_source (L := libs0) (C := with_pages config0) =
    Some (_build_response_full (L := libs0) STATUS_200 (Some (iframe_head ++ str "localhost" ++ iframe_tail)) true).
Proof.
  apply (pages_correct (L := libs0) (C := config0)). intros l from to _. reflexivity.
Defined.
