(* ===== verification/Send.v ===== *)
(** Sending through a client's protocol: the table [_protocols] and the sending
    half of src/protocols.c. *)
From Stdlib Require Import ZArith Lia.
From stdpp Require Import functions base list gmap strings.
From S2P Require Import Prelude Types Libs EvsQuery State ClientSub Config Raw WebSocket Poll.

(** The order of the table, and the index [protocols_init] stores in [id]. *)
Definition _protocols : list protocol :=
  [protocol_http; protocol_flash; protocol_raw; protocol_rfc6455].
Definition prot_id (p : protocol) : nat :=
  match p with
  | protocol_http => 0 | protocol_flash => 1 | protocol_raw => 2 | protocol_rfc6455 => 3
  end.

Section Send.
Context {L : Libs} {C : Config}.

(** The columns [frame] and [send] of the table. *)
Definition prot_frame (p : protocol) : option (bytes → bytes → Z → bytes → protocol_frames) :=
  match p with
  | protocol_http => Some protocol_http_frame
  | protocol_flash => None
  | protocol_raw => Some protocol_raw_frame
  | protocol_rfc6455 => Some protocol_rfc6455_frame
  end.
Definition prot_send (p : protocol) : option (cid → protocol_frames → world → world) :=
  match p with
  | protocol_http => Some protocol_http_send
  | _ => None
  end.

Definition _send (c : cid) (pframes : protocol_frames) (w : world) : world :=
  let w := touch_send c w in
  match w_clients w !! c with
  | None => fault w
  | Some cl =>
      match c_prot cl with
      | None => fault w
      | Some p =>
          match prot_send p with
          | Some send => send c pframes w
          | None =>
              match fr_def pframes with
              | Some def => qev_write c def w
              | None => w
              end
          end
      end
  end.

Definition _set_handshaked (c : cid) (w : world) : world :=
  qev_timeout_clear c (upd_client c (set_c_handshaked (λ _, true)) (touch_send c w)).

(** A protocol without a [frame] function has a NULL pointer called. *)
Definition protocols_send (c : cid) (ev_path : bytes) (ev_extra : option bytes) (server_cb : Z)
    (json : bytes) (w : world) : world :=
  match w_clients w !! c with
  | None => fault w
  | Some cl =>
      if c_handshaked cl then
        match c_prot cl ≫= prot_frame with
        | None => fault w
        | Some frame => _send c (frame ev_path (default [] ev_extra) server_cb json) w
        end
      else w
  end.

Definition protocols_bcast (ev_path json : bytes) : list protocol_frames :=
  map (λ p, match prot_frame p with
            | Some frame => frame ev_path [] EVS_NO_CALLBACK json
            | None => mkFrames None None
            end) _protocols.

Definition protocols_bcast_write (c : cid) (frames : list protocol_frames) (w : world) : world :=
  match w_clients w !! c with
  | None => fault w
  | Some cl =>
      match c_prot cl with
      | None => fault w
      | Some p =>
          if c_handshaked cl then
            match frames !! prot_id p with
            | Some pframes => _send c pframes w
            | None => fault w
            end
          else w
      end
  end.

(** [memset(&client->protocol.flags, 0, ...)]: no protocol has flags there. *)
Definition protocols_switch (c : cid) (prot : protocol) (w : world) : world :=
  upd_client c (set_c_handshaked (λ _, false)) (upd_client c (set_c_prot (λ _, Some prot)) w).

(** ** What a client is sent *)

(** A client that has shaken hands has a protocol that can frame messages. *)
Definition prot_wf (w : world) : Prop :=
  ∀ c cl, w_clients w !! c = Some cl → c_handshaked cl = true →
    ∃ p, c_prot cl = Some p ∧ p ≠ protocol_flash.

(** Events concern surrogates, never the HTTP connections that poll for them. *)
Definition addressee (c : cid) (w : world) : Prop :=
  ∃ cl, w_clients w !! c = Some cl ∧ (c_prot cl = Some protocol_http → c_surrogate cl = true).

Definition writes (frames : protocol_frames) : list output :=
  match fr_def frames with Some def => [OWrite def] | None => [] end.

(** Where a message for [c] goes and in what form: nowhere before the
    handshake. *)
Definition sent (c : cid) (ev_path ev_extra : bytes) (server_cb : Z) (json : bytes) (w : world) :
    cid * list output :=
  let msg := protocol_raw_format ev_path ev_extra server_cb json in
  match w_clients w !! c with
  | Some cl =>
      if c_handshaked cl then
        match c_prot cl with
        | Some protocol_http =>
            http_target c (_build_response STATUS_200 (Some (msg ++ [NEWLINE]))) (msg ++ [NEWLINE]) w
        | Some protocol_raw =>
            (c, writes (protocol_raw_frame ev_path ev_extra server_cb json))
        | Some protocol_rfc6455 =>
            (c, writes (protocol_rfc6455_frame ev_path ev_extra server_cb json))
        | _ => (c, [])
        end
      else (c, [])
  | None => (c, [])
  end.

(** [w'] is [w] after the outputs [o.2] for [o.1]. *)
Record emitted (o : cid * list output) (w w' : world) : Prop := {
  em_polled : polled w w';
  em_fault : w_fault w' = w_fault w;
  em_out d : out d w' = out d w ++ if decide (d = o.1) then o.2 else [];
}.

Lemma emitted_nothing c w : poll_wf w → emitted (c, []) w w.
Proof. intros H. split; [by apply polled_refl|done|]. intros d. case_decide; by rewrite app_nil_r. Qed.

Lemma emitted_trans c o1 o2 w1 w2 w3 :
  emitted (c, o1) w1 w2 → emitted (c, o2) w2 w3 → emitted (c, o1 ++ o2) w1 w3.
Proof.
  intros [P1 F1 O1] [P2 F2 O2]. split; [by eapply polled_trans|congruence|].
  intros d. rewrite O2, O1, <- app_assoc. simpl. by case_decide.
Qed.

Lemma touch_send_spec c w :
  poll_wf w → is_Some (w_clients w !! c) →
  polled w (touch_send c w) ∧ (∀ d, out d (touch_send c w) = out d w) ∧
  (∀ s def raw, http_target s def raw (touch_send c w) = http_target s def raw w).
Proof.
  intros Hwf Hc.
  assert (Hio : io_same w (touch_send c w)).
  { apply io_upd_some; [done|by intros []]. }
  assert (Hl : ∀ d, link d (touch_send c w) = link d w)
    by (intros d; by apply (upd_client_proj (λ cl, h_client (c_http cl)))).
  assert (Hw : ∀ d, waiting d (touch_send c w) = waiting d w)
    by (intros d; by apply upd_client_proj).
  split; [split; [done|intros d; by apply spare_keep|]|split].
  - apply (poll_wf_same w); [done..|intros d|done]. intros H. rewrite <- H. by apply upd_client_proj.
  - intros d. by apply upd_client_proj.
  - intros s def raw. unfold http_target.
    assert (E : (λ sl, (h_client (c_http sl), h_incoming (c_http sl))) <$> w_clients (touch_send c w) !! s =
      (λ sl, (h_client (c_http sl), h_incoming (c_http sl))) <$> w_clients w !! s).
    { unfold touch_send. rewrite upd_client_at. destruct (w_clients w !! s); case_decide; done. }
    destruct (w_clients (touch_send c w) !! s) as [sl'|], (w_clients w !! s) as [sl|]; try done.
    cbn in E. injection E as -> ->. destruct (h_client (c_http sl)) as [p|]; [|done].
    by rewrite Hw, (io_keeps_alive w).
Qed.

Lemma io_client_field {X} (proj : client → X) c cl cl' w w' :
  io_same w w' → w_clients w !! c = Some cl → w_clients w' !! c = Some cl' →
  (∀ x, proj (io_client x) = proj x) → proj cl' = proj cl.
Proof.
  intros Hio Hc Hc' Hp. apply (io_at _ _ c) in Hio. rewrite Hc, Hc' in Hio.
  apply (inj Some), (f_equal proj) in Hio. by rewrite !Hp in Hio.
Qed.

Lemma send_spec c cl p ev_path ev_extra server_cb json w :
  poll_wf w → w_clients w !! c = Some cl → c_handshaked cl = true →
  (c_prot cl = Some protocol_http → c_surrogate cl = true) →
  c_prot cl = Some p → ∀ frame, prot_frame p = Some frame →
  emitted (sent c ev_path ev_extra server_cb json w) w
    (_send c (frame ev_path ev_extra server_cb json) w).
Proof.
  intros Hwf Hc Hh Hsurr Hp frame Hf. unfold _send, sent.
  destruct (touch_send_spec c w Hwf ltac:(eauto)) as (P1 & P2 & P3).
  destruct (io_some _ _ c cl (po_io _ _ P1) Hc) as (cl1 & Hc1 & _). rewrite Hc, Hc1, Hh.
  assert (Hp1 : c_prot cl1 = Some p).
  { rewrite (io_client_field c_prot c cl cl1 w _ (po_io _ _ P1)); done. }
  rewrite Hp, Hp1. set (msg := protocol_raw_format ev_path ev_extra server_cb json).
  assert (Hwrite : ∀ b, emitted (c, [OWrite b]) w (qev_write c b (touch_send c w))).
  { intros b. destruct (qev_write_spec c b (touch_send c w)) as [W1 W2]; [apply P1|eauto|].
    split; [by eapply polled_trans| |].
    - rewrite (io_fault (touch_send c w)) by apply W1. by apply io_fault, P1.
    - intros d. by rewrite W2, P2. }
  destruct p; cbn [prot_frame prot_send] in *; simplify_eq; [|apply Hwrite..].
  assert (Hs1 : is_surrogate c (touch_send c w) = true).
  { unfold is_surrogate. rewrite Hc1.
    rewrite (io_client_field c_surrogate c cl cl1 w _ (po_io _ _ P1)); auto. }
  destruct (http_send_spec c cl1 (_build_response STATUS_200 (Some (msg ++ [NEWLINE]))) (msg ++ [NEWLINE])
    (touch_send c w) (po_wf _ _ P1) Hc1 Hs1) as (H1 & H2 & H3 & _). fold (protocol_http_frame) in *.
  rewrite P3 in H3. split; [by eapply polled_trans| |].
  - etrans; [exact H2|]. by apply io_fault, P1.
  - intros d. rewrite <- (P2 d). apply H3.
Qed.

Lemma protocols_send_spec c ev_path ev_extra server_cb json w :
  poll_wf w → prot_wf w → addressee c w →
  emitted (sent c ev_path (default [] ev_extra) server_cb json w) w
    (protocols_send c ev_path ev_extra server_cb json w).
Proof.
  intros Hwf Hpw (cl & Hc & Hsurr). unfold protocols_send. rewrite Hc.
  destruct (c_handshaked cl) eqn:Hh; cycle 1.
  { unfold sent. rewrite Hc, Hh. by apply emitted_nothing. }
  destruct (Hpw c cl Hc Hh) as (p & Hp & Hflash). rewrite Hp. cbn.
  destruct p eqn:E; try done; cbn;
    by (eapply send_spec; [done|done|done|done|exact Hp|]).
Qed.

(** A broadcast tells each client what a message of its own would. *)
Lemma bcast_write_send c cl ev_path json w :
  prot_wf w → w_clients w !! c = Some cl → c_prot cl ≠ None →
  protocols_bcast_write c (protocols_bcast ev_path json) w =
    protocols_send c ev_path (Some []) EVS_NO_CALLBACK json w.
Proof.
  intros Hpw Hc Hprot. unfold protocols_bcast_write, protocols_send. rewrite Hc.
  destruct (c_prot cl) as [p|] eqn:Hp; [|done].
  destruct (c_handshaked cl) eqn:Hh; [|done].
  destruct (Hpw c cl Hc Hh) as (p' & Hp' & Hflash). simplify_eq. by destruct p.
Qed.

Lemma prot_wf_io w w' : io_same w w' → prot_wf w → prot_wf w'.
Proof.
  intros Hio Hp c cl' Hc' Hh. pose proof (io_at _ _ c Hio) as E. rewrite Hc' in E.
  destruct (w_clients w !! c) as [cl|] eqn:Hc; [|done].
  rewrite (io_client_field c_prot c cl cl' w w') by done. apply (Hp c); [done|].
  by rewrite <- (io_client_field c_handshaked c cl cl' w w').
Qed.

Lemma addressee_io c w w' : io_same w w' → addressee c w → addressee c w'.
Proof.
  intros Hio (cl & Hc & Hs). destruct (io_some _ _ c cl Hio Hc) as (cl' & Hc' & _).
  exists cl'. split; [done|].
  rewrite (io_client_field c_prot c cl cl' w w'), (io_client_field c_surrogate c cl cl' w w') by done.
  done.
Qed.

End Send.
