(* ===== verification/Quiet.v ===== *)
(** The invariant of the whole server state, and the kinds of steps that keep
    it: steps that only send (Poll.v, Send.v), that only touch callbacks
    (Callbacks.v) or subscriptions (Sub.v, ClientSub.v), and those of
    applications, which are asked to be quiet. *)
From Stdlib Require Import ZArith Lia.
From stdpp Require Import functions base list gmap strings.
From S2P Require Import Prelude Types Libs EvsQuery State Callbacks Sub Apps ClientSub Config Raw WebSocket Poll Send.

Section Quiet.
Context {L : Libs} {C : Config}.

(** Each component's invariant; [ext] is who else holds subscriptions. *)
Record evs_ok (ext : positive → nat) (w : world) : Prop := {
  eo_poll : poll_wf w;
  eo_prot : prot_wf w;
  eo_cbs : cbs_wf w;
  eo_csub : csub_wf ext w;
  eo_tombs : tombs_ok w;
  eo_null : subs_null_ok w;
}.

(** ** Calm steps: nothing is said, and no connection changes its state *)

Definition calm_client (cl : client) : client :=
  set_c_subs (λ _, None) (set_c_data (λ _, None) (set_c_cbs (λ _, []) (set_c_cbs_id (λ _, 0) cl))).

Record calm (w w' : world) : Prop := {
  calm_clients : calm_client <$> w_clients w' = calm_client <$> w_clients w;
  calm_events : w_events w' = w_events w;
  calm_now : w_now w' = w_now w;
  calm_fault : w_fault w' = w_fault w;
}.

#[export] Instance calm_pre : PreOrder calm.
Proof.
  split; [done|]. intros w1 w2 w3 [C1 E1 N1 F1] [C2 E2 N2 F2]. split; congruence.
Qed.

Lemma calm_at c w w' :
  calm w w' → calm_client <$> w_clients w' !! c = calm_client <$> w_clients w !! c.
Proof. intros [H _ _ _]. apply (f_equal (.!! c)) in H. by rewrite !lookup_fmap in H. Qed.

(** A field that calm steps keep. *)
Lemma calm_proj {X} (proj : client → X) (z : X) c w w' :
  calm w w' → (∀ cl, proj (calm_client cl) = proj cl) →
  match w_clients w' !! c with Some cl => proj cl | None => z end =
  match w_clients w !! c with Some cl => proj cl | None => z end.
Proof.
  intros H Hp. apply (calm_at c) in H.
  destruct (w_clients w' !! c), (w_clients w !! c); try done.
  apply (inj Some), (f_equal proj) in H. by rewrite !Hp in H.
Qed.

Lemma calm_some c cl w w' :
  calm w w' → w_clients w !! c = Some cl →
  ∃ cl', w_clients w' !! c = Some cl' ∧ calm_client cl' = calm_client cl.
Proof.
  intros H Hc. apply (calm_at c) in H. rewrite Hc in H.
  destruct (w_clients w' !! c) as [cl'|]; [|done]. apply (inj Some) in H. by exists cl'.
Qed.

Lemma calm_dom c w w' : calm w w' → is_Some (w_clients w' !! c) ↔ is_Some (w_clients w !! c).
Proof. intros H. by rewrite <- (fmap_is_Some calm_client), (calm_at c w w' H), fmap_is_Some. Qed.

Lemma calm_link c w w' : calm w w' → link c w' = link c w.
Proof. intros H. by apply (calm_proj (λ cl, h_client (c_http cl))). Qed.
Lemma calm_out c w w' : calm w w' → out c w' = out c w.
Proof. intros H. by apply calm_proj. Qed.
Lemma calm_waiting c w w' : calm w w' → waiting c w' = waiting c w.
Proof. intros H. by apply calm_proj. Qed.
Lemma calm_keeps_alive c w w' : calm w w' → keeps_alive c w' = keeps_alive c w.
Proof. intros H. by apply calm_proj. Qed.
Lemma calm_closing c w w' : calm w w' → closing c w' = closing c w.
Proof. intros H. by apply calm_proj. Qed.
Lemma calm_surrogate c w w' : calm w w' → is_surrogate c w' = is_surrogate c w.
Proof. intros H. by apply calm_proj. Qed.

Lemma calm_spare d w w' : calm w w' → spare d w' = spare d w.
Proof.
  intros H. unfold spare. f_equal; [by apply (calm_proj c_refs)|]. f_equal. unfold links.
  assert (E : map_items linked (w_clients w') ≡ₚ map_items linked (w_clients w)).
  { apply map_items_ext. intros e. pose proof (calm_at e w w' H) as E.
    destruct (w_clients w' !! e), (w_clients w !! e); try done.
    apply (inj Some), (f_equal linked) in E. exact (f_equal Some E). }
  by rewrite E.
Qed.

Lemma calm_poll w w' : calm w w' → poll_wf w → poll_wf w'.
Proof.
  intros H [P1 P2 P3]. split.
  - intros c d. rewrite (calm_link c w w'), !(calm_surrogate _ w w'), (calm_dom d w w') by done. apply P1.
  - intros c d. rewrite (calm_link c w w'), (calm_surrogate _ w w'), (calm_waiting c w w') by done. apply P2.
  - intros s p. rewrite (calm_surrogate s w w'), !(calm_closing _ w w'), !(calm_link _ w w'),
      (calm_waiting p w w') by done. apply P3.
Qed.

Lemma calm_prot w w' : calm w w' → prot_wf w → prot_wf w'.
Proof.
  intros H Hp c cl' Hc' Hh. pose proof (calm_at c w w' H) as E. rewrite Hc' in E.
  destruct (w_clients w !! c) as [cl|] eqn:Hc; [|done]. apply (inj Some) in E.
  apply (f_equal c_prot) in E as E1. apply (f_equal c_handshaked) in E as E2. simpl in E1, E2.
  rewrite E1. apply (Hp c); congruence.
Qed.

Lemma calm_addressee c w w' : calm w w' → addressee c w → addressee c w'.
Proof.
  intros H (cl & Hc & Hs). destruct (calm_some c cl w w' H Hc) as (cl' & Hc' & E).
  apply (f_equal c_prot) in E as E1. apply (f_equal c_surrogate) in E as E2. simpl in E1, E2.
  exists cl'. split; [done|]. by rewrite E1, E2.
Qed.

Lemma calm_sent c p x cb j w w' : calm w w' → sent c p x cb j w' = sent c p x cb j w.
Proof.
  intros H. unfold sent. pose proof (calm_at c w w' H) as E.
  destruct (w_clients w' !! c) as [cl'|] eqn:Hc', (w_clients w !! c) as [cl|] eqn:Hc; try done.
  apply (inj Some) in E. apply (f_equal c_prot) in E as E1. apply (f_equal c_handshaked) in E as E2.
  apply (f_equal c_http) in E as E3. simpl in E1, E2, E3. rewrite E1, E2.
  destruct (c_handshaked cl); [|done]. destruct (c_prot cl) as [[]|]; try done.
  unfold http_target. rewrite Hc, Hc', E3. destruct (h_client (c_http cl)) as [q|]; [|done].
  by rewrite (calm_waiting q w w'), (calm_keeps_alive q w w').
Qed.

Lemma calm_upd c f w :
  is_Some (w_clients w !! c) → (∀ cl, calm_client (f cl) = calm_client cl) → calm w (upd_client c f w).
Proof.
  intros [cl Hc] Hf. rewrite (upd_client_Some c f cl w Hc). split; try done. simpl.
  rewrite fmap_insert, Hf. apply insert_id. by rewrite lookup_fmap, Hc.
Qed.

Lemma calm_cb_mask w w' : cb_mask w' = cb_mask w → calm w w'.
Proof.
  intros H. split; [|exact (f_equal w_events H)|exact (f_equal w_now H)|exact (f_equal w_fault H)].
  apply (f_equal w_clients), (f_equal (fmap calm_client)) in H. simpl in H.
  by rewrite <- !map_fmap_compose in H.
Qed.

Lemma calm_sub_mask w w' : sub_mask w' = sub_mask w → calm w w'.
Proof.
  intros H. split; [by rewrite (mask_clients _ _ H)|exact (f_equal w_events H)
    |exact (f_equal w_now H)|exact (f_equal w_fault H)].
Qed.

(** ** Quiet steps: calm, and the subscriptions are left alone too *)

Record quiet (w w' : world) : Prop := {
  qu_calm : calm w w';
  qu_subs : same_subs w w';
  qu_cbs : cbs_wf w → cbs_wf w';
}.

#[export] Instance quiet_pre : PreOrder quiet.
Proof.
  split; [intros w; split; [done|by split|done]|].
  intros w1 w2 w3 [C1 [A1 A2 A3 A4 A5 A6] B1] [C2 [A1' A2' A3' A4' A5' A6'] B2].
  split; [by etrans| |auto]. split; [congruence..|intros d; etrans; [apply A4'|apply A4]| |congruence].
  intros k Hk. etrans; [by apply A5'|by apply A5].
Qed.

Lemma quiet_view w w' : quiet w w' → views_same w w'.
Proof. intros [_ S _] d. apply (ss_clients _ _ S). Qed.

Lemma quiet_ok ext w w' : quiet w w' → evs_ok ext w → evs_ok ext w'.
Proof.
  intros Hq [P R B S T N]. pose proof (quiet_view _ _ Hq) as Hv. destruct Hq as [Hc [S1 S2 S3 S4 S5 S6] Hb].
  assert (Hsubs : ∀ d, c_subs <$> w_clients w' !! d = c_subs <$> w_clients w !! d).
  { intros d. specialize (S4 d). destruct (w_clients w' !! d), (w_clients w !! d); try done.
    simpl in *. by injection S4 as -> _. }
  split; [by eapply calm_poll|by eapply calm_prot|auto|..].
  - apply (csub_wf_ext ext w); try done. intros d. specialize (Hsubs d). unfold subs_of.
    destruct (w_clients w' !! d), (w_clients w !! d); try done. simpl in *. by injection Hsubs as ->.
  - intros c s. by rewrite (views_get w w' c s Hv).
  - intros c cl Hcl. specialize (Hsubs c). rewrite Hcl in Hsubs.
    destruct (w_clients w !! c) as [cl0|] eqn:E; [|done]. simpl in Hsubs. injection Hsubs as ->.
    by apply (N c).
Qed.

(** Callback operations are quiet. *)
Lemma quiet_cb c g l w w' :
  cb_step c g l w w' →
  (∀ k, k ∈ [subs_total; clients_subs_added; clients_subs_removed] → w_stats w' k = w_stats w k) →
  quiet w w'.
Proof.
  intros [M W _ _ _] Hst. pose proof M as M'. split; [by apply calm_cb_mask| |done].
  split; [exact (f_equal w_subs M)|exact (f_equal w_ev_subs M)|exact (f_equal w_fair M)| |done
    |exact (f_equal w_fault M)].
  intros d. apply (f_equal w_clients), (f_equal (.!! d)) in M'. simpl in M'. rewrite !lookup_fmap in M'.
  destruct (w_clients w' !! d), (w_clients w !! d); try done. apply (inj Some) in M'.
  apply (f_equal (λ x, (c_subs x, c_closing x))) in M'. exact (f_equal Some M').
Qed.

(** ** Steps that send *)

(** [c] was sent [o], all else that the invariants are about is as it was. *)
Record told (o : cid * list output) (w w' : world) : Prop := {
  to_emitted : emitted o w w';
  to_ok ext : evs_ok ext w → evs_ok ext w';
  to_subs : w_subs w' = w_subs w;
  to_ev_subs : w_ev_subs w' = w_ev_subs w;
  to_get c s : _sub_get c s w' = _sub_get c s w;
  to_cbs c : cb_view c w' = cb_view c w;
  to_addressee c : addressee c w → addressee c w';
}.

Lemma io_c_subs w w' d : io_same w w' → c_subs <$> w_clients w' !! d = c_subs <$> w_clients w !! d.
Proof.
  intros H. apply (io_at _ _ d) in H. destruct (w_clients w' !! d), (w_clients w !! d); try done.
  apply (inj Some) in H. apply (f_equal c_subs) in H. exact (f_equal Some H).
Qed.

Lemma io_get w w' c s : io_same w w' → _sub_get c s w' = _sub_get c s w.
Proof.
  intros Hio. unfold _sub_get. pose proof (io_c_subs w w' c Hio) as E.
  destruct (w_clients w' !! c), (w_clients w !! c); try done. simpl in *. by injection E as ->.
Qed.

Lemma io_cbs w w' c cl : io_same w w' → w_clients w' !! c = Some cl → ∃ cl0, w_clients w !! c = Some cl0 ∧
  c_cbs cl = c_cbs cl0 ∧ c_cbs_id cl = c_cbs_id cl0.
Proof.
  intros Hio Hc. pose proof (io_at _ _ c Hio) as E. rewrite Hc in E.
  destruct (w_clients w !! c) as [cl0|]; [|done]. apply (inj Some) in E. exists cl0. split; [done|].
  split; [exact (f_equal c_cbs E)|exact (f_equal c_cbs_id E)].
Qed.

Lemma io_ok ext w w' : io_same w w' → poll_wf w' → evs_ok ext w → evs_ok ext w'.
Proof.
  intros Hio Hwf [P R B S T N]. pose proof Hio as [M St]. split; [done|by eapply prot_wf_io|..].
  - intros c cl Hc. destruct (io_cbs w w' c cl Hio Hc) as (cl0 & Hc0 & E1 & E2).
    destruct (B c cl0 Hc0) as [B1 B2 B3]. split; rewrite ?E1, ?E2; auto.
  - apply (csub_wf_ext ext w); [exact (f_equal w_subs M)|exact (f_equal w_ev_subs M)
      |exact (f_equal w_fair M)|intros k Hk; apply St; set_solver| |done].
    intros d. pose proof (io_c_subs w w' d Hio) as E. unfold subs_of.
    destruct (w_clients w' !! d), (w_clients w !! d); try done. simpl in *. by injection E as ->.
  - intros c s. by rewrite (io_get w w').
  - intros c cl Hc. pose proof (io_c_subs w w' c Hio) as E. rewrite Hc in E.
    destruct (w_clients w !! c) as [cl0|] eqn:Hc0; [|done]. simpl in E. injection E as ->. by apply (N c).
Qed.

Lemma polled_ok ext w w' : polled w w' → evs_ok ext w → evs_ok ext w'.
Proof. intros [Hio _ Hwf]. by apply io_ok. Qed.

Lemma emitted_told o w w' : emitted o w w' → told o w w'.
Proof.
  intros He. pose proof (em_polled _ _ _ He) as Hp. pose proof (po_io _ _ Hp) as Hio. pose proof Hio as [M St].
  split; [done|intros ext; by apply polled_ok|exact (f_equal w_subs M)|exact (f_equal w_ev_subs M)
    |intros c s; by apply io_get| |intros c; by apply addressee_io].
  intros c. unfold cb_view. destruct (w_clients w' !! c) as [cl|] eqn:Hc.
  - destruct (io_cbs w w' c cl Hio Hc) as (cl0 & -> & -> & _). done.
  - pose proof (io_dom w w' c Hio) as E. rewrite Hc in E.
    destruct (w_clients w !! c); [|done]. exfalso. by destruct (proj2 E ltac:(eauto)).
Qed.

(** ** Steps of subscriptions: calm, and callbacks are left alone *)

Definition cbs_of (cl : client) : list (option client_cb) * Z := (c_cbs cl, c_cbs_id cl).

Record mild (w w' : world) : Prop := {
  mi_calm : calm w w';
  mi_cbs c : cbs_of <$> w_clients w' !! c = cbs_of <$> w_clients w !! c;
}.

#[export] Instance mild_pre : PreOrder mild.
Proof.
  split; [by split|]. intros w1 w2 w3 [C1 B1] [C2 B2]. split; [by etrans|].
  intros c. etrans; [apply B2|apply B1].
Qed.

Lemma mild_cbs_wf w w' : mild w w' → cbs_wf w → cbs_wf w'.
Proof.
  intros [_ B] H c cl Hc. specialize (B c). rewrite Hc in B.
  destruct (w_clients w !! c) as [cl0|] eqn:Hc0; [|done]. apply (inj Some) in B.
  injection B as E1 E2. destruct (H c cl0 Hc0) as [B1 B2 B3]. split; by rewrite ?E1, ?E2.
Qed.

Lemma mild_upd c f w :
  is_Some (w_clients w !! c) →
  (∀ cl, calm_client (f cl) = calm_client cl ∧ cbs_of (f cl) = cbs_of cl) → mild w (upd_client c f w).
Proof.
  intros Hc Hf. split; [apply calm_upd; [done|apply Hf]|]. intros d. rewrite upd_client_at.
  destruct (w_clients w !! d) as [cl|]; case_decide; try done. simpl. by rewrite (proj2 (Hf cl)).
Qed.

Lemma mild_upd_sub s f w : is_Some (w_subs w !! s) → mild w (upd_sub s f w).
Proof. intros [sub Hs]. unfold upd_sub. by rewrite Hs. Qed.

Lemma mild_sub_unref s w : is_Some (w_subs w !! s) → mild w (sub_unref s w).
Proof.
  intros [sub Hs]. unfold sub_unref, upd_sub. rewrite !Hs.
  destruct (negb _); [done|]. by case_decide.
Qed.

End Quiet.

(** Unsubscription handlers run in the middle of an operation on the client's
    table of subscriptions, under the lock on the client: they leave the state of
    the server alone. *)
Class OffCalm {L : Libs} (A : Apps L) : Prop := {
  oc_off f c x w : quiet w (app_off_call f c x w);
  oc_cbs f c x w d :
    cbs_of <$> w_clients (app_off_call f c x w) !! d = cbs_of <$> w_clients w !! d;
}.

#[export] Instance calm_off {L : Libs} (A : Apps L) : OffCalm A → OffQuiet A.
Proof. intros H f c x w. apply qu_subs, oc_off. Qed.

(** Applications whose functions only decide: they send nothing and leave the
    state of the server alone. *)
Class AppsQuiet {L : Libs} (A : Apps L) : Prop := {
  aq_calm :: OffCalm A;
  aq_handler f c x cb j w : quiet w (app_handler_call f c x cb j w).2;
  aq_on f info w : quiet w (app_on_call f info w).2;
  aq_cb f c d cb j w : quiet w (app_cb_call f c d cb j w).2;
}.

#[export] Instance apps0_quiet_all (L : Libs) : AppsQuiet (apps0 L).
Proof. split; [by split|done..]. Qed.

Section Subs.
Context {L : Libs} {C : Config} {A : Apps L} {OC : OffCalm A}.

Lemma same_subs_at s w w' : same_subs w w' → w_subs w' !! s = w_subs w !! s.
Proof. intros H. by rewrite (ss_subs _ _ H). Qed.

Lemma off_mild c s w : is_Some (w_subs w !! s) → mild w (evs_client_off c s w).
Proof.
  intros [sub Hs]. unfold evs_client_off. rewrite Hs. destruct (off_fn (sub_ev sub)) as [f|]; [|done].
  split; [apply oc_off|]. intros d. apply oc_cbs.
Qed.

Lemma cleanup_mild c s b w :
  is_Some (w_clients w !! c) → is_Some (w_subs w !! s) → mild w (_sub_cleanup c s b w).
Proof.
  intros Hc [sub Hs]. unfold _sub_cleanup. set (w1 := upd_sub s _ w).
  assert (M1 : mild w w1) by (by apply mild_upd_sub).
  assert (Hs1 : is_Some (w_subs w1 !! s)).
  { unfold w1, upd_sub. rewrite Hs. simpl. rewrite lookup_insert_eq. by eexists. }
  set (w2 := evs_client_off c s w1). assert (M2 : mild w1 w2) by (by apply off_mild).
  assert (Hs2 : is_Some (w_subs w2 !! s)).
  { destruct Hs1 as [sub1 Hs1]. unfold w2. rewrite (same_subs_at s _ _ (off_same c s sub1 w1 Hs1)). by eexists. }
  assert (M3 : mild w2 (_sub_free w2)) by done.
  assert (M4 : mild w2 (sub_unref s (_sub_free w2))) by (etrans; [exact M3|by apply mild_sub_unref]).
  assert (M : mild w (sub_unref s (_sub_free w2))) by (etrans; [exact M1|by etrans]).
  destruct b; [|done]. etrans; [exact M|]. apply mild_upd; [|by intros []].
  apply (calm_dom c w); [apply M|done].
Qed.

Lemma csub_op_mild c s op w :
  is_Some (w_clients w !! c) → is_Some (w_subs w !! s) →
  mild w (run_csub_op op c s w).2.
Proof.
  intros Hc Hs. destruct op; unfold run_csub_op.
  - unfold client_sub_add. destruct Hc as [cl Hc]. rewrite Hc. destruct (c_closing cl); [done|].
    destruct (_sub_get c s w) as [cs|].
    + cbn [snd]. apply mild_upd; [by eauto|by intros []].
    + unfold _sub_alloc. rewrite Hc. destruct (qev_fair_use _ _ _); [|done]. cbn [snd].
      etrans; [|apply mild_upd; [|by intros []]].
      * transitivity (stat_inc clients_subs_added (set_w_fair (λ _, f) w)); [by repeat split|].
        by apply mild_upd_sub.
      * destruct Hs as [sub Hs]. unfold sub_ref, upd_sub. simpl. rewrite Hs. simpl. eauto.
  - unfold client_sub_accept. destruct (_sub_get c s w) as [cs|]; [|done].
    destruct Hs as [sub Hs]. rewrite Hs. destruct (qev_list_add _ c) as [q|].
    + set (w1 := upd_csub c s (set_pending false) _).
      assert (M1 : mild w w1).
      { etrans; [by apply (mild_upd_sub s (set_subscribers (λ _, q)) w)|].
        apply mild_upd; [|by intros []]. unfold upd_sub. rewrite Hs. exact Hc. }
      destruct (negb (tombstone cs)); [done|]. cbn [snd]. etrans; [exact M1|].
      apply cleanup_mild; [apply (calm_dom c w); [apply M1|done]|].
      unfold w1, upd_csub, upd_client, upd_sub. rewrite Hs. simpl. destruct Hc as [cl ->]. simpl.
      rewrite lookup_insert_eq. by eexists.
    + cbn [snd]. by apply cleanup_mild.
  - unfold client_sub_reject, _sub_remove. cbn [snd]. destruct (_sub_get c s w) as [cs|]; [|done].
    cbn [negb andb snd]. by apply cleanup_mild.
  - unfold client_sub_remove, _sub_remove. destruct (_sub_get c s w) as [cs|]; [|done].
    destruct (negb false && pending cs); cbn [snd]; [|by apply cleanup_mild].
    apply mild_upd; [done|by intros []].
Qed.

End Subs.
