(* ===== verification/Evs.v ===== *)
(** Events: src/evs.c, the built-in events of src/evs_qio.c, and the firing of
    server callbacks in src/client.c. *)
From Stdlib Require Import ZArith Lia String.
From stdpp Require Import functions base list gmap strings.
From S2P Require Import Prelude Types Libs Path EvsQuery State Callbacks Sub Apps ClientSub Config Raw WebSocket Poll Send Quiet.

Section Evs.
Context {L : Libs} {C : Config} {A : Apps L}.

(** ** Answering a client *)

Definition CB_PATH : bytes := str "/qio/callback/".
Definition CB_CODE : bytes := str "{" ++ quoted (str "code") ++ str ":".
Definition CB_DATA : bytes := str "," ++ quoted (str "data") ++ str ":".
Definition CB_ERRMSG : bytes := str "," ++ quoted (str "err_msg") ++ str ":".

Definition JSON_OR_NULL (json : option bytes) : bytes :=
  match json with
  | None | Some [] => str "null"
  | Some json => json
  end.

(** The JSON that [evs_cb_full] builds; the code is an [enum evs_code], of 32
    bits. *)
Definition cb_json (code : Z) (err_msg : option bytes) (json : option bytes) : bytes :=
  CB_CODE ++ qev_uint (u32 code) ++ CB_DATA ++ JSON_OR_NULL json ++
  (if negb (u32 code =? CODE_OK) then CB_ERRMSG ++ qev_json_pack_s err_msg else []) ++
  [RBRACE].

Definition evs_cb_full (c : cid) (client_cb code : Z) (err_msg json : option bytes)
    (fn : option evs_cb_fn) (data free_fn : option nat) (w : world) : world :=
  if client_cb =? 0 then (client_cb_new None None data free_fn w).2
  else
    let '(server_cb, w) :=
      if u32 code =? CODE_OK then client_cb_new (Some c) fn data free_fn w
      else (EVS_NO_CALLBACK, (client_cb_new None None data free_fn w).2) in
    let path := CB_PATH ++ qev_uint client_cb in
    let w := protocols_send c path (Some []) server_cb (cb_json code err_msg json) w in
    stat_inc evs_callbacks_sent w.

Definition evs_cb (c : cid) (client_cb : Z) (json : option bytes) : world → world :=
  evs_cb_full c client_cb CODE_OK None json None None None.

Definition evs_cb_with_cb (c : cid) (client_cb : Z) (json : option bytes)
    (fn : option evs_cb_fn) (data free_fn : option nat) : world → world :=
  evs_cb_full c client_cb CODE_OK None json fn data free_fn.

Definition evs_err_cb (c : cid) (client_cb code : Z) (err_msg json : option bytes) : world → world :=
  evs_cb_full c client_cb code err_msg json None None None.

(** ** Callbacks from clients *)

(** [cb.cb_fn(...)] *)
Definition call_cb (fn : evs_cb_fn) (c : cid) (data : option nat) (client_cb : Z) (json : bytes)
    (w : world) : evs_status * world :=
  match fn with
  | raw_heartbeat_cb => (EVS_STATUS_OK, w)
  | app_cb n => app_cb_call n c data client_cb json w
  end.

Definition client_cb_fire (c : cid) (server_cb client_cb : Z) (json : bytes) (w : world) :
    evs_status * world :=
  let '(cb, w) := client_cb_take c server_cb w in
  match cb with
  | None =>
      (EVS_STATUS_HANDLED,
       evs_err_cb c client_cb CODE_NOT_FOUND (Some (str "callback doesn't exist")) None w)
  | Some cb =>
      let '(status, w) := call_cb (cb_fn cb) c (cb_data cb) client_cb json w in
      let w := _cb_data_free (cb_data cb) (cb_free_fn cb) w in
      (status, stat_inc callbacks_fired w)
  end.

(** ** Subscribing *)

Definition evs_no_on (_ : evs_on_info) : evs_status := EVS_STATUS_ERR.

(** [ev->on_fn(&info)] *)
Definition call_on (fn : evs_on_fn) (info : evs_on_info) (w : world) : evs_status * world :=
  match fn with
  | evs_no_on_ptr => (evs_no_on info, w)
  | app_on n => app_on_call n info w
  end.

Definition evs_on_cb (success : bool) (info : evs_on_info) (w : world) : world :=
  let c := info_client info in
  let s := info_sub info in
  let '(code, w) :=
    if success then
      let '(sstate, w) := client_sub_accept c s w in
      (match sstate with CLIENT_SUB_NULL => CODE_ENHANCE_CALM | _ => CODE_OK end, w)
    else
      match w_subs w !! s with
      | None => (CODE_OK, fault w)
      | Some sub =>
          (if handle_children (sub_ev sub) then CODE_NOT_FOUND else CODE_UNAUTH,
           client_sub_reject c s w)
      end in
  evs_err_cb c (info_client_cb info) code None None w.

Definition evs_on (c : cid) (ev : event) (ev_extra : option bytes) (client_cb : Z)
    (json : option bytes) (w : world) : world :=
  let '(sub, w) := sub_get ev ev_extra true w in
  match sub with
  | None => fault w
  | Some s =>
      let info := mkInfo ev_extra json s c client_cb in
      let '(sstate, w) := client_sub_add c s w in
      let w :=
        match sstate with
        | CLIENT_SUB_PENDING =>
            evs_err_cb c client_cb CODE_ACCEPTED (Some (str "subscription pending")) None w
        | CLIENT_SUB_TOMBSTONED | CLIENT_SUB_NULL =>
            evs_err_cb c client_cb CODE_ENHANCE_CALM None None w
        | CLIENT_SUB_ACTIVE => evs_cb c client_cb None w
        | CLIENT_SUB_CREATED =>
            let '(status, w) :=
              match on_fn ev with
              | Some f => call_on f info w
              | None => (EVS_STATUS_OK, w)
              end in
            match status with
            | EVS_STATUS_HANDLED => w
            | _ => evs_on_cb (bool_decide (status = EVS_STATUS_OK)) info w
            end
        end in
      sub_unref s w
  end.

Definition evs_on_info_copy (info : evs_on_info) (with_ev_extra with_json : bool) (w : world) :
    evs_on_info * world :=
  let w := qev_ref (info_client info) w in
  let w := sub_ref (info_sub info) w in
  (mkInfo (if with_ev_extra then info_ev_extra info else None)
          (if with_json then info_json info else None)
          (info_sub info) (info_client info) (info_client_cb info), w).

Definition evs_on_info_free (info : evs_on_info) (w : world) : world :=
  sub_unref (info_sub info) (qev_unref (info_client info) w).

Definition evs_off (c : cid) (ev : event) (ev_extra : option bytes) (w : world) : world :=
  let '(sub, w) := sub_get ev ev_extra false w in
  match sub with
  | Some s => sub_unref s (client_sub_remove c s w).2
  | None => w
  end.

(** ** Sending events *)

Definition evs_send_sub_full (c : cid) (s : positive) (json : option bytes)
    (fn : option evs_cb_fn) (data free_fn : option nat) (w : world) : world :=
  if client_sub_active c s w then
    match w_subs w !! s with
    | None => fault w
    | Some sub =>
        let '(server_cb, w) := client_cb_new (Some c) fn data free_fn w in
        let w := protocols_send c (ev_path (sub_ev sub)) (Some (sub_ev_extra sub)) server_cb
                   (JSON_OR_NULL json) w in
        stat_inc evs_sent w
    end
  else w.

Definition evs_send_full (c : cid) (ev : event) (ev_extra json : option bytes)
    (fn : option evs_cb_fn) (data free_fn : option nat) (w : world) : world :=
  if negb (handle_children ev) && negb (bool_decide (default [] ev_extra = [])) then w
  else
    let '(sub, w) := sub_get ev ev_extra false w in
    match sub with
    | Some s => sub_unref s (evs_send_sub_full c s json fn data free_fn w)
    | None => w
    end.

Definition evs_send_info_full (info : evs_on_info) (json : option bytes)
    (fn : option evs_cb_fn) (data free_fn : option nat) : world → world :=
  evs_send_sub_full (info_client info) (info_sub info) json fn data free_fn.

Definition evs_send (c : cid) (ev : event) (ev_extra json : option bytes) : world → world :=
  evs_send_full c ev ev_extra json None None None.
Definition evs_send_info (info : evs_on_info) (json : option bytes) : world → world :=
  evs_send_info_full info json None None None.
Definition evs_send_sub (c : cid) (s : positive) (json : option bytes) : world → world :=
  evs_send_sub_full c s json None None None.

Definition evs_send_bruteforce (c : cid) (ev_prefix ev_path ev_extra json : option bytes)
    (fn : option evs_cb_fn) (data free_fn : option nat) (w : world) : world :=
  let '(server_cb, w) := client_cb_new (Some c) fn data free_fn w in
  let path := evs_make_path ev_prefix ev_path ev_extra in
  stat_inc evs_sent (protocols_send c path (Some []) server_cb (JSON_OR_NULL json) w).

(** ** Broadcasting *)

Definition evs_broadcast (ev : event) (ev_extra json : option bytes) (w : world) : world :=
  let '(sub, w) := sub_get ev ev_extra false w in
  match sub with
  | Some s => set_w_broadcasts (λ q, q ++ [(s, JSON_OR_NULL json)]) w
  | None => w
  end.

Definition evs_broadcast_path (path : bytes) (json : option bytes) (w : world) : world :=
  match evs_query (w_events w) path with
  | QFault => fault w
  | QNull => w
  | QEvent ev ev_extra => evs_broadcast ev (Some ev_extra) json w
  end.

Definition _broadcast (frames : list protocol_frames) (w : world) (c : cid) : world :=
  stat_inc evs_broadcasts_events (protocols_bcast_write c frames w).

(** [_broadcast_free]: the JSON is garbage. *)
Definition _broadcast_free (bc : positive * bytes) (w : world) : world := sub_unref bc.1 w.

(** The body of the loop of [evs_broadcast_tick]. [qev_list_foreach] calls
    [_broadcast] for every item, in several threads; the calls are about
    different clients. *)
Definition broadcast_one (bc : positive * bytes) (w : world) : world :=
  match w_subs w !! bc.1 with
  | None => fault w
  | Some sub =>
      let path := ev_path (sub_ev sub) ++ sub_ev_extra sub in
      let frames := protocols_bcast path bc.2 in
      let w := foldl (_broadcast frames) w (qev_list_items (subscribers sub)) in
      stat_inc evs_broadcasts_unique (_broadcast_free bc w)
  end.

(** The loop, [fuel] rounds at most: nothing in it queues a broadcast. *)
Fixpoint broadcast_loop (fuel : nat) (w : world) : option world :=
  match w_broadcasts w with
  | [] => Some w
  | bc :: rest =>
      match fuel with
      | O => None
      | S fuel => broadcast_loop fuel (broadcast_one bc (set_w_broadcasts (λ _, rest) w))
      end
  end.

Definition evs_broadcast_tick (w : world) : option world :=
  broadcast_loop (length (w_broadcasts w)) w.

(** ** The built-in events *)

Definition _callback (c : cid) (ev_extra : bytes) (client_cb : Z) (json : bytes) (w : world) :
    evs_status * world :=
  let '(server_cb, w) :=
    if rd ev_extra 0 =? SLASH then
      let '(n, _, erange) := g_ascii_strtoull (drop 1 ev_extra) in
      (n, set_w_errno (λ e, e || erange) w)
    else (EVS_NO_CALLBACK, w) in
  if server_cb =? EVS_NO_CALLBACK then
    (EVS_STATUS_HANDLED,
     evs_err_cb c client_cb CODE_BAD (Some (str "invalid server callback id")) None w)
  else client_cb_fire c server_cb client_cb json w.

(** [_json_hostname], as [evs_qio_init] sets it. *)
Definition _json_hostname : bytes := qev_json_pack_s cfg_public_address.

Definition _hostname (c : cid) (client_cb : Z) (w : world) : evs_status * world :=
  (EVS_STATUS_HANDLED, evs_cb c client_cb (Some _json_hostname) w).

(** The path and the data that the JSON argument of [_on] names. *)
Definition on_args (json : bytes) : option (bytes * option bytes) :=
  match json with
  | b :: rest =>
      if b =? DQUOTE then Some (rest, None)
      else if b =? LBRACKET then
        '(path, data) ← qev_json_unpack_sa json; Some (path, Some data)
      else None
  | [] => None
  end.

Definition _on (c : cid) (client_cb : Z) (json : bytes) (w : world) : evs_status * world :=
  match on_args json with
  | None =>
      (EVS_STATUS_HANDLED,
       evs_err_cb c client_cb CODE_BAD (Some (str "invalid json ev_path")) None w)
  | Some (path, data) =>
      match evs_query (w_events w) (clean_path path) with
      | QFault => (EVS_STATUS_HANDLED, fault w)
      | QNull => (EVS_STATUS_HANDLED, evs_err_cb c client_cb CODE_NOT_FOUND None None w)
      | QEvent ev ev_extra => (EVS_STATUS_HANDLED, evs_on c ev (Some ev_extra) client_cb data w)
      end
  end.

Definition _off (c : cid) (client_cb : Z) (json : bytes) (w : world) : evs_status * world :=
  if negb (rd json 0 =? DQUOTE) then
    (EVS_STATUS_HANDLED,
     evs_err_cb c client_cb CODE_BAD (Some (str "invalid json ev_path")) None w)
  else
    match evs_query (w_events w) (clean_path (drop 1 json)) with
    | QFault => (EVS_STATUS_HANDLED, fault w)
    | QNull => (EVS_STATUS_HANDLED, evs_err_cb c client_cb CODE_NOT_FOUND None None w)
    | QEvent ev ev_extra => (EVS_STATUS_OK, evs_off c ev (Some ev_extra) w)
    end.

Definition _ping (w : world) : evs_status * world := (EVS_STATUS_OK, w).

(** [ev->handler_fn(client, ev_extra, client_cb, json)] *)
Definition call_handler (fn : evs_handler_fn) (c : cid) (ev_extra : bytes) (client_cb : Z)
    (json : bytes) (w : world) : evs_status * world :=
  match fn with
  | qio_callback => _callback c ev_extra client_cb json w
  | qio_hostname => _hostname c client_cb w
  | qio_on => _on c client_cb json w
  | qio_off => _off c client_cb json w
  | qio_ping => _ping w
  | app_handler n => app_handler_call n c ev_extra client_cb json w
  end.

(** ** Registering and routing *)

(** The event, or NULL when [evs_query_insert] refuses the path. *)
Definition evs_add_handler (prefix path : bytes) (h : option evs_handler_fn) (on : option evs_on_fn)
    (off : option nat) (children : bool) (w : world) : option event * world :=
  match evs_query_insert (w_events w) (evs_make_path (Some prefix) (Some path) None) h on off children with
  | InsFault => (None, fault w)
  | InsNull root => (None, set_w_events (λ _, root) w)
  | InsEvent root ev => (Some ev, set_w_events (λ _, root) w)
  end.

Definition qio_handlers : list (string * evs_handler_fn * bool) :=
  [("/callback", qio_callback, true); ("/hostname", qio_hostname, false); ("/off", qio_off, false);
   ("/on", qio_on, false); ("/ping", qio_ping, false)]%string.

Definition evs_qio_init (w : world) : world :=
  foldl (λ w '(path, h, children),
    (evs_add_handler (str "/qio") (str path) (Some h) (Some evs_no_on_ptr) None children w).2)
    w qio_handlers.

(** The switch at the end of [evs_route]. *)
Definition route_answer (status : evs_status) (code : Z) (c : cid) (client_cb : Z) (w : world) : world :=
  match status with
  | EVS_STATUS_OK => evs_cb c client_cb None w
  | EVS_STATUS_ERR => evs_err_cb c client_cb code None None w
  | EVS_STATUS_HANDLED => w
  end.

Definition evs_route (c : cid) (path : bytes) (client_cb : Z) (json : bytes) (w : world) : world :=
  match evs_query (w_events w) (clean_path path) with
  | QFault => fault w
  | QNull => route_answer EVS_STATUS_ERR CODE_NOT_FOUND c client_cb w
  | QEvent ev ev_extra =>
      let w := stat_inc evs_received w in
      let '(status, w) :=
        match handler_fn ev with
        | Some h => call_handler h c ev_extra client_cb json w
        | None => (EVS_STATUS_ERR, w)
        end in
      route_answer status CODE_UNKNOWN c client_cb w
  end.

(** ** Quiet parts *)

Definition sub_stats : list stat := [subs_total; clients_subs_added; clients_subs_removed].

Lemma stat_add_other k n j w : j ≠ k → w_stats (stat_add k n w) j = w_stats w j.
Proof. intros H. simpl. by rewrite decide_False. Qed.

Lemma cb_remove_stats c i w k : k ∈ sub_stats → w_stats (_cb_remove c i w) k = w_stats w k.
Proof.
  intros Hk. unfold _cb_remove, stat_dec. rewrite stat_add_other, upd_client_stats by set_solver. done.
Qed.

Lemma cb_free_stats c i w k : k ∈ sub_stats → w_stats (_cb_free c i w) k = w_stats w k.
Proof.
  intros Hk. unfold _cb_free. destruct (cb_slot c i w) as [cb|]; [|done].
  rewrite cb_remove_stats by done. unfold _cb_data_free. by destruct (cb_data cb), (cb_free_fn cb).
Qed.

Lemma cb_new_stats c f d fr w k :
  k ∈ sub_stats → w_stats (client_cb_new (Some c) (Some f) d fr w).2 k = w_stats w k.
Proof.
  intros Hk. unfold client_cb_new. destruct (w_clients w !! c) as [cl|]; [|done].
  destruct (if (first_null (c_cbs cl) =? N_CBS)%nat then _ else _) as [i w1] eqn:E.
  assert (Hw1 : w_stats w1 k = w_stats w k).
  { destruct (first_null (c_cbs cl) =? N_CBS)%nat; [|by injection E as _ <-].
    destruct (g_random_int_range _ _ _) as [r s]. injection E as _ <-. unfold stat_inc.
    rewrite stat_add_other, cb_free_stats by set_solver. done. }
  cbn [snd]. unfold stat_inc. rewrite !stat_add_other, !upd_client_stats by set_solver. done.
Qed.

Lemma cb_new_quiet {LO : LibsOk L} c cl f d fr w :
  cbs_wf w → w_clients w !! c = Some cl → quiet w (client_cb_new (Some c) (Some f) d fr w).2.
Proof.
  intros Hwf Hc. destruct (new_spec c cl f d fr w Hwf Hc) as (_ & _ & _ & H & _).
  eapply quiet_cb; [exact H|]. intros k. apply cb_new_stats.
Qed.

Lemma cb_take_quiet c cl v w :
  cbs_wf w → w_clients w !! c = Some cl → quiet w (client_cb_take c v w).2.
Proof.
  intros Hwf Hc. destruct (take_spec c cl v w Hwf Hc) as (_ & _ & H & _).
  eapply quiet_cb; [exact H|]. intros k Hk. unfold client_cb_take. destruct (_ <=? _); [done|].
  rewrite Hc. destruct (mjoin _) as [cb|]; [|done]. destruct (_ =? _); [|done]. by apply cb_remove_stats.
Qed.

Lemma data_free_quiet d fr w : quiet w (_cb_data_free d fr w).
Proof.
  eapply quiet_cb; [apply (step_data_free 1)|]. intros k _. unfold _cb_data_free. by destruct d, fr.
Qed.

Lemma quiet_stat k n w : k ∉ sub_stats → quiet w (stat_add k n w).
Proof.
  intros Hk. split; [by split| |done]. split; try done. intros j Hj. apply stat_add_other. set_solver.
Qed.

(** ** Answering *)

(** The message that answers request [client_cb]; without one nothing is sent. *)
Definition answer_to (c : cid) (client_cb server_cb code : Z) (err_msg json : option bytes) (w : world) :
    cid * list output :=
  if client_cb =? 0 then (c, [])
  else sent c (CB_PATH ++ qev_uint client_cb) [] server_cb (cb_json code err_msg json) w.

(** From a good state, [o.1] is told [o.2], and that is all: the subscriptions
    and the invariants are kept. *)
Record said (ext : positive → nat) (o : cid * list output) (w w' : world) : Prop := {
  sd_ok : evs_ok ext w';
  sd_out d : out d w' = out d w ++ if decide (d = o.1) then o.2 else [];
  sd_fault : w_fault w' = w_fault w;
  sd_addressee c : addressee c w → addressee c w';
  sd_get c s : _sub_get c s w' = _sub_get c s w;
  sd_subs : w_subs w' = w_subs w;
  sd_ev_subs : w_ev_subs w' = w_ev_subs w;
  sd_events : w_events w' = w_events w;
  sd_spare d : spare d w' = spare d w;
}.

Lemma said_quiet ext c w w' : evs_ok ext w → quiet w w' → said ext (c, []) w w'.
Proof.
  intros Hok Hq. split; [by eapply quiet_ok|..].
  - intros d. rewrite (calm_out d w w') by apply Hq. case_decide; by rewrite app_nil_r.
  - apply calm_fault, Hq.
  - intros d. apply calm_addressee, Hq.
  - intros d s. by apply views_get, quiet_view.
  - apply ss_subs, Hq.
  - apply ss_tables, Hq.
  - apply calm_events, Hq.
  - intros d. apply calm_spare, Hq.
Qed.

Lemma said_emitted ext o w w' : evs_ok ext w → emitted o w w' → said ext o w w'.
Proof.
  intros Hok He. destruct (emitted_told o w w' He) as [_ H2 H3 H4 H5 _ H7].
  destruct He as [[[M _] Sp _] F O].
  split; auto. exact (f_equal w_events M).
Qed.

Lemma said_trans_l ext c o w1 w2 w3 :
  said ext (c, []) w1 w2 → said ext o w2 w3 → said ext o w1 w3.
Proof.
  intros [K1 O1 F1 A1 G1 S1 E1 V1 P1] [K2 O2 F2 A2 G2 S2 E2 V2 P2]. split; auto; try congruence.
  intros d. rewrite O2, O1. simpl. case_decide; by rewrite app_nil_r.
Qed.

Lemma said_trans_r ext c o w1 w2 w3 :
  said ext o w1 w2 → said ext (c, []) w2 w3 → said ext o w1 w3.
Proof.
  intros [K1 O1 F1 A1 G1 S1 E1 V1 P1] [K2 O2 F2 A2 G2 S2 E2 V2 P2]. split; auto; try congruence.
  intros d. rewrite O2, O1. simpl. destruct (decide (d = c)); by rewrite !app_nil_r.
Qed.

Lemma said_stat ext o k n w w' : k ∉ sub_stats → said ext o w w' → said ext o w (stat_add k n w').
Proof.
  intros Hk H. eapply (said_trans_r ext 1%positive); [exact H|].
  apply said_quiet; [apply H|by apply quiet_stat].
Qed.

Lemma said_send ext c p x cb j w :
  evs_ok ext w → addressee c w →
  said ext (sent c p (default [] x) cb j w) w (protocols_send c p x cb j w).
Proof. intros Hok Ha. apply said_emitted; [done|]. apply protocols_send_spec; [apply Hok..|done]. Qed.

(** An answer without a server callback. *)
Lemma err_cb_said ext c client_cb code err json w :
  evs_ok ext w → addressee c w →
  said ext (answer_to c client_cb EVS_NO_CALLBACK code err json w) w
    (evs_cb_full c client_cb code err json None None None w).
Proof.
  intros Hok Ha. unfold evs_cb_full, answer_to.
  destruct (client_cb =? 0); [by apply said_quiet|].
  assert (E : (if u32 code =? CODE_OK then client_cb_new (Some c) None None None w
    else (EVS_NO_CALLBACK, (client_cb_new None None None None w).2)) = (EVS_NO_CALLBACK, w))
    by (by destruct (u32 code =? CODE_OK)).
  rewrite E. apply said_stat; [set_solver|]. by apply (said_send ext c _ (Some [])).
Qed.

(** ** Messages that ask for an answer *)

(** What [client_cb_new] does with the function, the data and the destructor it
    is given: a callback is made, or there is none and the data is released. *)
Definition requested (c : cid) (fn : option evs_cb_fn) (data free_fn : option nat)
    (v : Z) (w w' : world) : Prop :=
  match fn with
  | Some f =>
      EVS_NO_CALLBACK < v < 2 ^ 32 ∧
      ∃ m freed, made_room c w m freed ∧ m !! v = None ∧
        cb_view c w' = <[v := mkCb (cb_id_of v) f data free_fn (w_now w)]> m ∧
        w_freed w' = w_freed w ++ freed
  | None =>
      v = EVS_NO_CALLBACK ∧ cb_view c w' = cb_view c w ∧
      w_freed w' = w_freed w ++ owed data free_fn
  end.

Lemma cb_new_requested {LO : LibsOk L} ext c cl fn data free_fn w :
  evs_ok ext w → w_clients w !! c = Some cl →
  let r := client_cb_new (Some c) fn data free_fn w in
  quiet w r.2 ∧ requested c fn data free_fn r.1 w r.2.
Proof.
  intros Hok Hc. destruct fn as [f|].
  - split; [eapply cb_new_quiet; [apply Hok|done]|].
    destruct (new_spec c cl f data free_fn w (eo_cbs _ _ Hok) Hc)
      as (H1 & _ & <- & _ & _ & m & freed & H5 & H6 & H7 & H8). split; [exact H1|].
    exists m, freed. split; [done|]. split; [done|]. split; [|done].
    by rewrite H7.
  - cbn. split; [apply data_free_quiet|]. split; [done|]. split; [|apply data_free_freed].
    unfold cb_view. by rewrite data_free_clients.
Qed.

Lemma requested_emitted c fn data free_fn v o w w1 w2 :
  requested c fn data free_fn v w w1 → emitted o w1 w2 → requested c fn data free_fn v w w2.
Proof.
  intros H He. pose proof (to_cbs _ _ _ (emitted_told _ _ _ He) c) as Hcb.
  destruct He as [[[M _] _ _] _ _]. assert (Hf : w_freed w2 = w_freed w1) by exact (f_equal w_freed M).
  destruct fn; unfold requested; by rewrite Hcb, Hf.
Qed.

(** The data of a callback that is not made is released. *)
Lemma cb_none_requested c data free_fn w :
  requested c None data free_fn EVS_NO_CALLBACK w (client_cb_new None None data free_fn w).2.
Proof.
  split; [done|]. split; [|apply data_free_freed]. unfold cb_view, client_cb_new. simpl.
  by rewrite data_free_clients.
Qed.

Lemma evs_cb_full_said {LO : LibsOk L} ext c client_cb code err json fn data free_fn w :
  evs_ok ext w → addressee c w →
  let w' := evs_cb_full c client_cb code err json fn data free_fn w in
  ∃ server_cb,
    said ext (answer_to c client_cb server_cb code err json w) w w' ∧
    requested c (if (client_cb =? 0) || negb (u32 code =? CODE_OK) then None else fn)
      data free_fn server_cb w w'.
Proof.
  intros Hok Ha w'. subst w'. unfold evs_cb_full, answer_to.
  pose proof (data_free_quiet data free_fn w) as Hfree.
  destruct (client_cb =? 0); cbn [orb].
  { exists EVS_NO_CALLBACK. split; [by apply said_quiet|apply cb_none_requested]. }
  destruct Ha as (cl & Hc & Hs).
  assert (H : ∃ v w1, (if u32 code =? CODE_OK then client_cb_new (Some c) fn data free_fn w
      else (EVS_NO_CALLBACK, (client_cb_new None None data free_fn w).2)) = (v, w1) ∧
    quiet w w1 ∧ requested c (if negb (u32 code =? CODE_OK) then None else fn) data free_fn v w w1).
  { destruct (u32 code =? CODE_OK); cbn [negb].
    - destruct (cb_new_requested ext c cl fn data free_fn w Hok Hc) as [H1 H2].
      destruct (client_cb_new (Some c) fn data free_fn w) as [v w1]. by exists v, w1.
    - eexists _, _. split; [done|]. split; [done|apply cb_none_requested]. }
  destruct H as (v & w1 & -> & Hq & Hr). exists v.
  assert (Hok1 : evs_ok ext w1) by (by eapply quiet_ok).
  assert (Ha1 : addressee c w1) by (apply (calm_addressee c w); [apply Hq|by exists cl]).
  set (path := CB_PATH ++ qev_uint client_cb). set (j := cb_json code err json).
  pose proof (protocols_send_spec c path (Some []) v j w1 (eo_poll _ _ Hok1) (eo_prot _ _ Hok1) Ha1) as He.
  simpl in He. rewrite (calm_sent c path [] v j w w1) in He by apply Hq.
  split; [|by apply (requested_emitted _ _ _ _ _ _ w _ _ Hr He)].
  apply said_stat; [set_solver|]. eapply (said_trans_l ext c); [by apply said_quiet|].
  by apply said_emitted.
Qed.


Lemma evs_send_sub_full_said {LO : LibsOk L} ext c s sub json fn data free_fn w :
  evs_ok ext w → addressee c w → w_subs w !! s = Some sub →
  let w' := evs_send_sub_full c s json fn data free_fn w in
  if decide (status c s w = Active) then
    ∃ server_cb,
      said ext (sent c (ev_path (sub_ev sub)) (sub_ev_extra sub) server_cb (JSON_OR_NULL json) w) w w' ∧
      requested c fn data free_fn server_cb w w'
  else w' = w.
Proof.
  intros Hok Ha Hs w'. subst w'. unfold evs_send_sub_full, client_sub_active, status.
  pose proof (eo_tombs _ _ Hok c s) as Ht.
  destruct (_sub_get c s w) as [cs|]; [|by rewrite decide_False].
  specialize (Ht cs eq_refl). cbn [csub_status]. destruct (pending cs) eqn:Hp; cbn [negb andb].
  { by rewrite decide_False by (by destruct (tombstone cs)). }
  replace (tombstone cs) with false by (destruct (tombstone cs); naive_solver). cbn [negb].
  rewrite decide_True by done. rewrite Hs. destruct Ha as (cl & Hc & Hsurr).
  destruct (cb_new_requested ext c cl fn data free_fn w Hok Hc) as [Hq Hr].
  destruct (client_cb_new (Some c) fn data free_fn w) as [v w1]. cbn [fst snd] in *. exists v.
  assert (Hok1 : evs_ok ext w1) by (by eapply quiet_ok).
  assert (Ha1 : addressee c w1) by (apply (calm_addressee c w); [apply Hq|by exists cl]).
  pose proof (protocols_send_spec c (ev_path (sub_ev sub)) (Some (sub_ev_extra sub)) v (JSON_OR_NULL json) w1
    (eo_poll _ _ Hok1) (eo_prot _ _ Hok1) Ha1) as He.
  simpl in He. rewrite (calm_sent c _ _ v _ w w1) in He by apply Hq.
  split; [|by apply (requested_emitted _ _ _ _ _ _ w _ _ Hr He)].
  apply said_stat; [set_solver|]. eapply (said_trans_l ext c); [by apply said_quiet|].
  by apply said_emitted.
Qed.

(** C24. Sending an event to a subscriber reaches it exactly when its
    subscription is active, neither pending nor cancelled: then as one message
    with the event's path, the extra segments of the subscription and the data,
    and with the id of a new server callback when one was asked for. Otherwise
    nothing happens at all. *)
Theorem evs_send_sub_full_correct {LO : LibsOk L} ext c s sub json fn data free_fn w :
  evs_ok ext w → addressee c w → w_subs w !! s = Some sub →
  let w' := evs_send_sub_full c s json fn data free_fn w in
  if decide (status c s w = Active) then
    ∃ server_cb,
      said ext (sent c (ev_path (sub_ev sub)) (sub_ev_extra sub) server_cb (JSON_OR_NULL json) w) w w' ∧
      requested c fn data free_fn server_cb w w'
  else w' = w.
Proof. exact (evs_send_sub_full_said ext c s sub json fn data free_fn w). Qed.

(** ** The answer to a subscription *)

Lemma csub_wf_eq ext ext' w : (∀ s, ext s = ext' s) → csub_wf ext w → csub_wf ext' w.
Proof. intros E [W R X Al M N F S]. split; try done; intros *; rewrite <- ?E; auto. Qed.

(** One more reference to [s], and one less. *)
Definition ext_inc (s : positive) (ext : positive → nat) : positive → nat :=
  <[s := S (ext s)]> ext.

Lemma ext_inc_dec s ext x : <[s := pred (ext_inc s ext s)]> (ext_inc s ext) x = ext x.
Proof.
  unfold ext_inc. destruct (decide (x = s)) as [->|]; [by rewrite !fn_lookup_insert|].
  by rewrite !fn_lookup_insert_ne.
Qed.

(** An operation on a client's table of subscriptions, in the whole state. *)
Lemma csub_op_ok {LO : LibsOk L} {OC : OffCalm A} ext c cl s sub op w :
  evs_ok ext w → w_clients w !! c = Some cl → w_subs w !! s = Some sub → ext s ≠ 0%nat →
  refs sub < 2 ^ 32 - 1 → (op = Accept → status c s w ≠ Active) →
  let r := run_csub_op op c s w in
  evs_ok ext r.2 ∧ calm w r.2 ∧
  sub_spec (c_closing cl) (permit cl w) (room c sub) op (status c s w) r.1 (status c s r.2) ∧
  (∀ d x, ¬ (d = c ∧ x = s) → status d x r.2 = status d x w).
Proof.
  intros [P R B S T N] Hc Hs Hext Hr Ha r.
  assert (M : mild w r.2) by (apply csub_op_mild; eauto).
  destruct (csub_op_spec ext c s cl sub op w S T N Hc Hs Hext Hr Ha) as (H1 & H2 & H3 & H4 & H5 & _).
  split; [|split; [apply M|done]]. split; try done.
  - by eapply calm_poll; [apply M|].
  - by eapply calm_prot; [apply M|].
  - by eapply mild_cbs_wf.
Qed.

Lemma clients_same_ok ext ext' w w' :
  w_clients w' = w_clients w → calm w w' → csub_wf ext' w' → evs_ok ext w → evs_ok ext' w'.
Proof.
  intros E Hc Hwf [P R B _ T N].
  assert (Hg : ∀ c s, _sub_get c s w' = _sub_get c s w) by (intros; unfold _sub_get; by rewrite E).
  split; [by eapply calm_poll|by eapply calm_prot|intros c; rewrite E; apply B|done
    |intros c s; rewrite Hg; apply T|intros c; rewrite E; apply N].
Qed.

(** Letting go of a subscription that the caller held. *)
Lemma unref_ok ext s w :
  evs_ok (ext_inc s ext) w →
  evs_ok ext (sub_unref s w) ∧ calm w (sub_unref s w) ∧ w_clients (sub_unref s w) = w_clients w.
Proof.
  intros Hok. destruct (csub_wf_unref (ext_inc s ext) s w (eo_csub _ _ Hok)) as [H1 H2].
  { unfold ext_inc. by rewrite fn_lookup_insert. }
  pose proof (mask_clients _ _ H2) as E.
  assert (Hwf : csub_wf ext (sub_unref s w)) by (eapply csub_wf_eq; [apply ext_inc_dec|exact H1]).
  split; [|split; [by apply calm_sub_mask|done]].
  eapply clients_same_ok; [exact E|by apply calm_sub_mask|done|exact Hok].
Qed.

(** Taking hold of one. *)
Lemma get_ok {LO : LibsOk L} ext ev x create w :
  evs_ok ext w → (∀ s, sub_refs s w < 2 ^ 32 - 1) →
  let r := sub_get ev x create w in
  calm w r.2 ∧ w_clients r.2 = w_clients w ∧ w_fair r.2 = w_fair w ∧
  match r.1 with
  | Some s => evs_ok (ext_inc s ext) r.2
  | None => r.2 = w
  end.
Proof.
  intros Hok Hr r. destruct (csub_wf_get ext ev x create w (eo_csub _ _ Hok) Hr) as [H1 H2].
  fold r in H1, H2. pose proof (mask_clients _ _ H2) as E.
  split; [by apply calm_sub_mask|]. split; [done|]. split; [by apply mask_fair|].
  destruct (r.1) as [s|]; [|done].
  eapply clients_same_ok; [exact E|by apply calm_sub_mask|exact H1|exact Hok].
Qed.

(** [o.1] is told [o.2]; subscriptions may have changed. *)
Record spoke (ext : positive → nat) (o : cid * list output) (w w' : world) : Prop := {
  sp_ok : evs_ok ext w';
  sp_out d : out d w' = out d w ++ if decide (d = o.1) then o.2 else [];
  sp_fault : w_fault w' = w_fault w;
  sp_addressee c : addressee c w → addressee c w';
  sp_events : w_events w' = w_events w;
  sp_spare d : spare d w' = spare d w;
}.

Lemma said_spoke ext o w w' : said ext o w w' → spoke ext o w w'.
Proof. intros [? ? ? ? ? ? ? ? ?]. by split. Qed.

Lemma calm_then ext ext' o w w1 w2 : calm w w1 → spoke ext' o w1 w2 → evs_ok ext w2 → spoke ext o w w2.
Proof.
  intros Hc [_ O F Ad Ev Sp] Hok. split; [done|..].
  - intros d. by rewrite O, (calm_out d w w1).
  - rewrite F. by apply calm_fault.
  - intros c Hx. by apply Ad, (calm_addressee c w).
  - rewrite Ev. by apply calm_events.
  - intros d. rewrite Sp. by apply calm_spare.
Qed.

Lemma then_calm ext ext' o w w1 w2 : spoke ext' o w w1 → calm w1 w2 → evs_ok ext w2 → spoke ext o w w2.
Proof.
  intros [_ O F Ad Ev Sp] Hc Hok. split; [done|..].
  - intros d. by rewrite (calm_out d w1 w2).
  - rewrite <- F. by apply calm_fault.
  - intros c Hx. by eapply calm_addressee; [exact Hc|apply Ad].
  - rewrite <- Ev. by apply calm_events.
  - intros d. rewrite <- Sp. by apply calm_spare.
Qed.

Lemma answer_to_calm c cb scb code err json w w' :
  calm w w' → answer_to c cb scb code err json w' = answer_to c cb scb code err json w.
Proof. intros H. unfold answer_to. destruct (cb =? 0); [done|]. by apply calm_sent. Qed.

Lemma said_status ext o c s w w' : said ext o w w' → status c s w' = status c s w.
Proof. intros H. unfold status. by rewrite (sd_get _ _ _ _ H). Qed.

Lemma calm_answered ext c cb code err json w w1 w2 :
  calm w w1 → said ext (answer_to c cb EVS_NO_CALLBACK code err json w1) w1 w2 →
  spoke ext (answer_to c cb EVS_NO_CALLBACK code err json w) w w2.
Proof.
  intros Hc H. rewrite (answer_to_calm c cb _ code err json w w1 Hc) in H.
  eapply calm_then; [exact Hc|by apply said_spoke|apply H].
Qed.

(** The answer to a subscription, and the state the client is left in. *)
Inductive on_cb_spec (room children : bool) : bool → sub_status → Z → sub_status → Prop :=
  | on_cb_accepted : room = true → on_cb_spec room children true Pending CODE_OK Active
  | on_cb_cancelled : room = true → on_cb_spec room children true Tombstoned CODE_OK Absent
  | on_cb_gone : on_cb_spec room children true Absent CODE_ENHANCE_CALM Absent
  | on_cb_no_room st : room = false → st ∈ [Pending; Tombstoned] →
      on_cb_spec room children true st CODE_ENHANCE_CALM Absent
  | on_cb_refused st :
      on_cb_spec room children false st (if children then CODE_NOT_FOUND else CODE_UNAUTH) Absent.

Lemma on_cb_done {LO : LibsOk L} {OC : OffCalm A} ext success info sub w :
  let c := info_client info in
  let s := info_sub info in
  evs_ok ext w → addressee c w → w_subs w !! s = Some sub → ext s ≠ 0%nat →
  refs sub < 2 ^ 32 - 1 → (success = true → status c s w ≠ Active) →
  let w' := evs_on_cb success info w in
  ∃ code,
    on_cb_spec (room c sub) (handle_children (sub_ev sub)) success (status c s w) code (status c s w') ∧
    spoke ext (answer_to c (info_client_cb info) EVS_NO_CALLBACK code None None w) w w' ∧
    (∀ d x, ¬ (d = c ∧ x = s) → status d x w' = status d x w).
Proof.
  intros c s Hok Ha Hs Hext Hr Hact w'. subst w'. unfold evs_on_cb. fold c s.
  pose proof Ha as (cl & Hc & _).
  assert (H : ∀ w1 code,
    evs_ok ext w1 → calm w w1 →
    spoke ext (answer_to c (info_client_cb info) EVS_NO_CALLBACK code None None w) w
      (evs_err_cb c (info_client_cb info) code None None w1) ∧
    (∀ d x, status d x (evs_err_cb c (info_client_cb info) code None None w1) = status d x w1)).
  { intros w1 code Hok1 Hcalm.
    pose proof (err_cb_said ext c (info_client_cb info) code None None w1 Hok1
      (calm_addressee c w w1 Hcalm Ha)) as Hs1.
    split; [by eapply calm_answered|]. intros d x. by eapply said_status. }
  destruct success.
  - destruct (csub_op_ok ext c cl s sub Accept w Hok Hc Hs Hext Hr) as (K1 & K2 & K3 & K4); [auto|].
    unfold run_csub_op in *. destruct (client_sub_accept c s w) as [sstate w1] eqn:E. cbn [fst snd] in *.
    set (code := match sstate with CLIENT_SUB_NULL => _ | _ => _ end).
    destruct (H w1 code) as [H1 H2]; [done..|].
    exists code. split; [|split; [done|intros d x Hd; rewrite H2; by apply K4]].
    rewrite H2. subst code. inversion K3; subst; constructor; try done.
  - rewrite Hs. destruct (csub_op_ok ext c cl s sub Reject w Hok Hc Hs Hext Hr) as (K1 & K2 & K3 & K4); [done|].
    unfold run_csub_op in *. cbn [fst snd] in *.
    destruct (H (client_sub_reject c s w) (if handle_children (sub_ev sub) then CODE_NOT_FOUND
      else CODE_UNAUTH)) as [H1 H2]; [done..|].
    eexists. split; [|split; [exact H1|intros d x Hd; rewrite H2; by apply K4]].
    rewrite H2. inversion K3; subst. constructor.
Qed.

Lemma get_create {LO : LibsOk L} ext ev ox w :
  evs_ok ext w → (∀ s, sub_refs s w < 2 ^ 32 - 3) →
  let x := default [] ox in
  ∃ s w0 sub, sub_get ev ox true w = (Some s, w0) ∧ w_subs w0 !! s = Some sub ∧
    sub = got ev x s w ∧ 0 ≤ refs sub < 2 ^ 32 - 2 ∧
    calm w w0 ∧ w_clients w0 = w_clients w ∧ w_fair w0 = w_fair w ∧ evs_ok (ext_inc s ext) w0.
Proof.
  intros Hok Hr x. assert (Hr' : ∀ s, sub_refs s w < 2 ^ 32 - 1) by (intros s; specialize (Hr s); lia).
  destruct (get_ok ext ev ox true w Hok Hr') as (K1 & K2 & K3 & K4).
  pose proof (sub_get_spec ev ox true w (cw_subs _ _ (eo_csub _ _ Hok)) Hr') as H. cbv zeta in H.
  fold x in H. destruct (ev_sub ev x w) as [s|].
  - destruct H as (sub & Hs & Hn & E). rewrite E in *. cbn [fst snd] in *.
    eexists s, _, (got ev x s w). split; [done|]. split; [simpl; rewrite lookup_insert_eq; unfold got; by rewrite Hs|].
    split; [done|]. split; [|done]. specialize (Hr s). unfold sub_refs, got in *. rewrite Hs in *. simpl. lia.
  - rewrite H in *. cbn [fst snd] in *. set (s := fresh _) in *.
    eexists s, _, (got ev x s w). split; [done|]. assert (E : got ev x s w = mkSub ev x qev_list_new 1).
    { unfold got. unfold s. by rewrite fresh_sub. }
    rewrite E. split; [simpl; by rewrite lookup_insert_eq|]. split; [done|]. split; [simpl; lia|done].
Qed.

(** Adding a subscription takes one reference at most. *)
Lemma add_refs c s sub w :
  w_subs w !! s = Some sub → 0 ≤ refs sub < 2 ^ 32 - 1 →
  ∃ sub', w_subs (client_sub_add c s w).2 !! s = Some sub' ∧
    sub_ev sub' = sub_ev sub ∧ subscribers sub' = subscribers sub ∧ refs sub' ≤ refs sub + 1.
Proof.
  intros Hs Hr.
  assert (Hu : ∀ f w1, w_subs (upd_client c f w1) = w_subs w1)
    by (intros f w1; unfold upd_client; by destruct (w_clients w1 !! c)).
  assert (Hsame : ∀ w1, w_subs w1 = w_subs w → ∃ sub', w_subs w1 !! s = Some sub' ∧
    sub_ev sub' = sub_ev sub ∧ subscribers sub' = subscribers sub ∧ refs sub' ≤ refs sub + 1).
  { intros w1 E. exists sub. rewrite E. repeat split; try done. lia. }
  unfold client_sub_add. destruct (w_clients w !! c) as [cl|] eqn:Hc; [|by apply Hsame].
  destruct (c_closing cl); [by apply Hsame|]. destruct (_sub_get c s w) as [cs|].
  { cbn [snd]. apply Hsame. apply Hu. }
  unfold _sub_alloc. rewrite Hc. destruct (qev_fair_use _ _ _); [|by apply Hsame].
  cbn [snd]. rewrite Hu. unfold sub_ref, upd_sub. simpl. rewrite Hs. simpl. rewrite lookup_insert_eq.
  eexists. split; [done|]. simpl. unfold u32. rewrite Z.mod_small by lia. split; [done|]. split; [done|]. lia.
Qed.


(** What the application says to a new subscription, and the state that it
    leaves: its function may do whatever the server lets it. *)
Definition asked (ev : event) (info : evs_on_info) (w : world) : evs_status * world :=
  match on_fn ev with
  | Some f => call_on f info w
  | None => (EVS_STATUS_OK, w)
  end.

(** A request to subscribe that the server answers itself: the answer, and the
    state of the subscription before and after. *)
Inductive on_spec (closing permit : bool) : sub_status → Z → option bytes → sub_status → Prop :=
  | on_closing st : closing = true → on_spec closing permit st CODE_ENHANCE_CALM None st
  | on_no_permit : closing = false → permit = false →
      on_spec closing permit Absent CODE_ENHANCE_CALM None Absent
  | on_again st : closing = false → st ∈ [Pending; Tombstoned] →
      on_spec closing permit st CODE_ACCEPTED (Some (str "subscription pending")) Pending
  | on_active : closing = false → on_spec closing permit Active CODE_OK None Active.

(** What follows on the application's verdict, which left [w]: nothing when it
    handles the request itself, and one answer otherwise. *)
Definition concluded (ext : positive → nat) (c : cid) (s : positive) (client_cb : Z)
    (verdict : evs_status) (w w' : world) : Prop :=
  match verdict with
  | EVS_STATUS_HANDLED => spoke ext (c, []) w w' ∧ (∀ d x, status d x w' = status d x w)
  | _ => ∃ sub code, w_subs w !! s = Some sub ∧
      on_cb_spec (room c sub) (handle_children (sub_ev sub)) (bool_decide (verdict = EVS_STATUS_OK))
        (status c s w) code (status c s w') ∧
      spoke ext (answer_to c client_cb EVS_NO_CALLBACK code None None w) w w' ∧
      (∀ d x, ¬ (d = c ∧ x = s) → status d x w' = status d x w)
  end.

(** What [evs_on] does with subscription [s]: the server answers; or there is a
    new subscription, which waits, and that is all that has changed when the
    application is asked in [w1]. *)
Inductive on_done (ext : positive → nat) (ev : event) (c : cid) (s : positive) (client_cb : Z)
    (info : evs_on_info) (cl : client) (w1 w w' : world) : Prop :=
  | on_answered code err :
      on_spec (c_closing cl) (permit cl w) (status c s w) code err (status c s w') →
      spoke ext (answer_to c client_cb EVS_NO_CALLBACK code err None w) w w' →
      (∀ d x, ¬ (d = c ∧ x = s) → status d x w' = status d x w) →
      on_done ext ev c s client_cb info cl w1 w w'
  | on_asked :
      c_closing cl = false → permit cl w = true → status c s w = Absent →
      calm w w1 → status c s w1 = Pending →
      (∀ d x, ¬ (d = c ∧ x = s) → status d x w1 = status d x w) →
      concluded ext c s client_cb (asked ev info w1).1 (asked ev info w1).2 w' →
      on_done ext ev c s client_cb info cl w1 w w'.

(** What the application has to leave. *)
Definition acted (ext : positive → nat) (c : cid) (s : positive) (r : evs_status * world) : Prop :=
  evs_ok ext r.2 ∧ addressee c r.2 ∧ sub_refs s r.2 < 2 ^ 32 - 1 ∧
  (r.1 = EVS_STATUS_OK → status c s r.2 ≠ Active).

Lemma spoke_nothing ext c w w' : calm w w' → evs_ok ext w' → spoke ext (c, []) w w'.
Proof.
  intros Hc Hok. split; [done|..].
  - intros d. rewrite (calm_out d w w' Hc). destruct (decide _); by rewrite app_nil_r.
  - by apply calm_fault.
  - intros d. by apply calm_addressee.
  - by apply calm_events.
  - intros d. by apply calm_spare.
Qed.

Lemma spoke_unref ext s o w w' :
  spoke (ext_inc s ext) o w w' → spoke ext o w (sub_unref s w') ∧
  (∀ d x, status d x (sub_unref s w') = status d x w').
Proof.
  intros H. destruct (unref_ok ext s w' (sp_ok _ _ _ _ H)) as (K1 & K2 & K3). split.
  - by eapply then_calm.
  - intros d x. unfold status, _sub_get. by rewrite K3.
Qed.

(** A subscription that was there already, or could not be made. *)
Lemma on_old_done {LO : LibsOk L} ext c cb code err (w w1 : world) :
  calm w w1 → evs_ok ext w1 → addressee c w →
  spoke ext (answer_to c cb EVS_NO_CALLBACK code err None w) w (evs_err_cb c cb code err None w1) ∧
  (∀ d x, status d x (evs_err_cb c cb code err None w1) = status d x w1).
Proof.
  intros Hc Hok Ha. pose proof (err_cb_said ext c cb code err None w1 Hok
    (calm_addressee c w w1 Hc Ha)) as Hs1.
  split; [by eapply calm_answered|]. intros d x. by eapply said_status.
Qed.

Lemma concluded_done {LO : LibsOk L} {OC : OffCalm A} ext info (r : evs_status * world) :
  let c := info_client info in
  let s := info_sub info in
  ext s ≠ 0%nat → acted ext c s r →
  concluded ext c s (info_client_cb info) r.1 r.2 (match r.1 with EVS_STATUS_HANDLED => r.2
    | _ => evs_on_cb (bool_decide (r.1 = EVS_STATUS_OK)) info r.2 end).
Proof.
  intros c s Hext (Hok & Ha & Hr & Hst). destruct r as [verdict w]. cbn [fst snd] in *.
  destruct (cw_ext _ _ (eo_csub _ _ Hok) s Hext) as [sub Hs]. unfold sub_refs in Hr. rewrite Hs in Hr.
  assert (H : ∃ sub code, w_subs w !! s = Some sub ∧
    let w' := evs_on_cb (bool_decide (verdict = EVS_STATUS_OK)) info w in
    on_cb_spec (room c sub) (handle_children (sub_ev sub)) (bool_decide (verdict = EVS_STATUS_OK))
        (status c s w) code (status c s w') ∧
    spoke ext (answer_to c (info_client_cb info) EVS_NO_CALLBACK code None None w) w w' ∧
    (∀ d x, ¬ (d = c ∧ x = s) → status d x w' = status d x w)).
  { destruct (on_cb_done ext (bool_decide (verdict = EVS_STATUS_OK)) info sub w) as (code & K); [done..| |].
    - intros E. apply bool_decide_eq_true_1 in E. by apply Hst.
    - by exists sub, code. }
  destruct verdict; [exact H..|]. split; [by apply spoke_nothing|done].
Qed.

Lemma concluded_unref ext c s cb verdict w w' :
  concluded (ext_inc s ext) c s cb verdict w w' → concluded ext c s cb verdict w (sub_unref s w').
Proof.
  assert (Hu : ∀ o, spoke (ext_inc s ext) o w w' →
    spoke ext o w (sub_unref s w') ∧ ∀ d x, status d x (sub_unref s w') = status d x w') by (intros; by apply spoke_unref).
  destruct verdict; cbn [concluded].
  1, 2: intros (sub & code & H1 & H2 & H3 & H4); destruct (Hu _ H3) as [K1 K2]; exists sub, code; rewrite K2;
    split; [done|]; split; [done|]; split; [done|]; intros d x Hd; rewrite K2; by apply H4.
  intros [H1 H2]. destruct (Hu _ H1) as [K1 K2]. split; [done|]. intros d x. by rewrite K2, H2.
Qed.

Lemma evs_on_done {LO : LibsOk L} {OC : OffCalm A} ext c cl ev ox cb json w :
  evs_ok ext w → addressee c w → w_clients w !! c = Some cl →
  (∀ s, sub_refs s w < 2 ^ 32 - 3) →
  (∀ s w1, let info := mkInfo ox json s c cb in
    evs_ok (ext_inc s ext) w1 → calm w w1 → sub_refs s w1 < 2 ^ 32 - 1 → status c s w1 = Pending →
    acted (ext_inc s ext) c s (asked ev info w1)) →
  let w' := evs_on c ev ox cb json w in
  ∃ s w0,
    sub_get ev ox true w = (Some s, w0) ∧
    on_done ext ev c s cb (mkInfo ox json s c cb) cl (client_sub_add c s w0).2 w w'.
Proof.
  intros Hok Ha Hc Hr Happ w'. subst w'. unfold evs_on.
  destruct (get_create ext ev ox w Hok Hr) as (s & w0 & sub & E & Hs & _ & Hrs & Hc0 & Ec & Ef & Hok0).
  rewrite E. cbv beta iota zeta. exists s, w0. split; [done|].
  assert (Hst : ∀ d y, status d y w0 = status d y w) by (intros; unfold status, _sub_get; by rewrite Ec).
  assert (Hext : ext_inc s ext s ≠ 0%nat) by (unfold ext_inc; by rewrite fn_lookup_insert).
  assert (Hc0' : w_clients w0 !! c = Some cl) by (by rewrite Ec).
  destruct (csub_op_ok (ext_inc s ext) c cl s sub Add w0 Hok0 Hc0' Hs Hext ltac:(lia)) as (K1 & K2 & K3 & K4);
    [done|].
  destruct (add_refs c s sub w0 Hs ltac:(lia)) as (sub1 & Hs1 & _ & _ & E3).
  assert (Hr1 : sub_refs s (client_sub_add c s w0).2 < 2 ^ 32 - 1) by (unfold sub_refs; rewrite Hs1; lia).
  unfold run_csub_op in *. destruct (client_sub_add c s w0) as [sstate w1]. cbn [fst snd] in *.
  rewrite Hst in K3.
  assert (Hc1 : calm w w1) by (by etrans).
  assert (Hother : ∀ d y, ¬ (d = c ∧ y = s) → status d y w1 = status d y w)
    by (intros d y Hd; rewrite K4 by done; apply Hst).
  assert (Ep : permit cl w0 = permit cl w) by (unfold permit; by rewrite Ef). rewrite Ep in K3.
  assert (Hdone : ∀ code err,
    on_spec (c_closing cl) (permit cl w) (status c s w) code err (status c s w1) →
    on_done ext ev c s cb (mkInfo ox json s c cb) cl w1 w (sub_unref s (evs_err_cb c cb code err None w1))).
  { intros code err Hsp. destruct (on_old_done (ext_inc s ext) c cb code err w w1 Hc1 K1 Ha) as [H1 H2].
    destruct (spoke_unref ext s _ _ _ H1) as [J1 J2].
    apply (on_answered _ _ _ _ _ _ _ _ _ _ code err); [by rewrite J2, H2|done|].
    intros d y Hd. rewrite J2, H2. by apply Hother. }
  inversion K3; subst sstate; repeat match goal with E : _ = status _ _ _ |- _ => rewrite <- E in * end;
    try (apply Hdone; by constructor); try (apply (Hdone CODE_OK None); by constructor).
  match goal with H1 : c_closing cl = _, H2 : permit cl w = _ |- _ => apply on_asked; try done end.
  specialize (Happ s w1 K1 Hc1 Hr1 ltac:(done)).
  apply concluded_unref.
  pose proof (concluded_done (ext_inc s ext) (mkInfo ox json s c cb) (asked ev (mkInfo ox json s c cb) w1) Hext Happ) as Hcon.
  cbn [info_client info_sub info_client_cb] in Hcon. unfold asked in Hcon |- *.
  by destruct (match on_fn ev with Some f => _ | None => _ end) as [[] w2].
Qed.

End Evs.

(** ** Witnesses *)

#[local] Existing Instance config0.

(** A state in which nobody has subscribed yet. *)
Definition new_client (cl : client) : Prop :=
  c_subs cl = None ∧ cbs_ok cl ∧ (c_handshaked cl = true → c_prot cl ∈ [Some protocol_http; Some protocol_raw; Some protocol_rfc6455]).

Definition open_world (m : gmap cid client) : world (L := libs0) :=
  set_w_clients (L := libs0) (λ _, m) (world0 (Reference.mkPool 10 0)).

Lemma open_world_ok m :
  map_Forall (λ _, new_client) m → poll_wfb (L := libs0) (open_world m) = true →
  evs_ok (L := libs0) (λ _, 0%nat) (open_world m).
Proof.
  intros Hm Hp. assert (Hg : ∀ c s, _sub_get (L := libs0) c s (open_world m) = None).
  { intros c s. rewrite sub_get_eq. simpl. destruct (m !! c) as [cl|] eqn:E; [|done].
    destruct (Hm c cl E) as (H & _). simpl. unfold subs_of. by rewrite H. }
  split.
  - by apply poll_wfb_ok.
  - intros c cl Hc Hh. destruct (Hm c cl Hc) as (_ & _ & H). specialize (H Hh).
    rewrite !elem_of_cons, elem_of_nil in H. destruct H as [->|[->|[->|[]]]]; by eexists.
  - intros c cl Hc. by apply (Hm c cl Hc).
  - assert (E : all_subs (L := libs0) (open_world m) = []).
    { apply elem_of_nil_inv. intros x Hx. apply map_items_elem in Hx as (c & cl & Hc & Hx).
      unfold held_subs, subs_of in Hx. destruct (Hm c cl Hc) as (H & _). rewrite H in Hx.
      simpl in Hx. rewrite map_to_list_empty in Hx. by apply elem_of_nil in Hx. }
    split; [|done|done| |done|done| | ].
    + by apply (subs_wf_ext (L := libs0) demo_subs); [| | |apply demo_subs_wf].
    + intros c s cs. by rewrite Hg.
    + by rewrite E.
    + by rewrite E.
  - intros c s cs. by rewrite Hg.
  - intros c cl Hc. destruct (Hm c cl Hc) as (-> & _). done.
Qed.

(** A raw connection (1), a surrogate without a poller (2), and one whose
    poller waits (3, 4). *)
Definition raw_client : client :=
  set_c_handshaked (λ _, true) (set_c_prot (λ _, Some protocol_raw) (qev_client_new false)).
Definition http_client (surrogate waiting : bool) (peer : option cid) : client :=
  set_c_handshaked (λ _, true) (set_c_prot (λ _, Some protocol_http)
    (set_c_http (λ _, demo_http waiting peer) (set_c_refs (λ _, if peer then 1 else 0) (qev_client_new surrogate)))).
Definition evs_world : world (L := libs0) :=
  open_world (<[1%positive := raw_client]> (<[2%positive := http_client true false None]>
    (<[3%positive := http_client true false (Some 4%positive)]>
      {[4%positive := http_client false true (Some 3%positive)]}))).

Lemma new_client_ok cl : c_subs cl = None → c_cbs cl = replicate N_CBS None → c_cbs_id cl = 0 →
  (c_handshaked cl = true → c_prot cl ∈ [Some protocol_http; Some protocol_raw; Some protocol_rfc6455]) →
  new_client cl.
Proof.
  intros H1 H2 H3 H4. split; [done|]. split; [|done].
  split; rewrite ?H2, ?H3; [done|done|apply (cbs_ids _ (client_new_cbs_ok false))].
Qed.

Lemma evs_world_ok : evs_ok (L := libs0) (λ _, 0%nat) evs_world.
Proof.
  apply open_world_ok; [|reflexivity].
  repeat apply map_Forall_insert_2; try apply map_Forall_empty;
    (apply new_client_ok; [reflexivity..|intros _; cbn; set_solver]).
Qed.

Lemma evs_world_addressee : addressee (L := libs0) 1 evs_world.
Proof. by exists raw_client. Qed.


(** Client 1 subscribes to an event without a subscription function. *)
Definition evs_world1 : world (L := libs0) :=
  evs_on (L := libs0) (A := apps0 libs0) 1 demo_event (Some (str "/a")) 7 None evs_world.

Lemma evs_world_small s : sub_refs (L := libs0) s evs_world < 2 ^ 32 - 3.
Proof. unfold sub_refs. simpl. by rewrite lookup_empty. Qed.

Lemma evs_world1_done :
  ∃ s w0, sub_get (L := libs0) demo_event (Some (str "/a")) true evs_world = (Some s, w0) ∧
    on_done (L := libs0) (A := apps0 libs0) (λ _, 0%nat) demo_event 1 s 7 (mkInfo (Some (str "/a")) None s 1 7)
      raw_client (client_sub_add (L := libs0) 1 s w0).2 evs_world evs_world1.
Proof.
  apply (evs_on_done (L := libs0) (A := apps0 libs0) (λ _, 0%nat) 1 raw_client demo_event
    (Some (str "/a")) 7 None evs_world evs_world_ok evs_world_addressee eq_refl evs_world_small).
  intros s w1 info Hok Hc Hr Hst. split; [exact Hok|]. split; [exact (calm_addressee 1 _ _ Hc evs_world_addressee)|].
  split; [exact Hr|]. intros _. cbn [asked on_fn demo_event snd]. rewrite Hst. discriminate.
Qed.

Lemma evs_world1_ok :
  evs_ok (L := libs0) (λ _, 0%nat) evs_world1 ∧ addressee (L := libs0) 1 evs_world1.
Proof.
  destruct evs_world1_done as (s & w0 & _ & [code err _ H _|_ _ _ Hc _ _ H]).
  - split; [apply H|]. apply H, evs_world_addressee.
  - cbn [asked on_fn demo_event fst snd concluded] in H. destruct H as (sub & code & _ & _ & H & _).
    split; [apply H|]. apply H. exact (calm_addressee 1 _ _ Hc evs_world_addressee).
Qed.

Lemma evs_send_sub_full_correct_witness :
  out (L := libs0) 1 (evs_send_sub (L := libs0) 1 1 (Some (str "5")) evs_world1) =
    out (L := libs0) 1 evs_world1 ++
    writes (protocol_raw_frame (L := libs0) (ev_path demo_event) (str "/a") 0 (str "5")).
Proof.
  pose proof (evs_send_sub_full_correct (L := libs0) (λ _, 0%nat) 1 1
    (mkSub (L := libs0) demo_event (str "/a") [1%positive] 1) (Some (str "5")) None None None evs_world1
    (proj1 evs_world1_ok) (proj2 evs_world1_ok) eq_refl) as H.
  cbv zeta in H. rewrite decide_True in H by reflexivity. destruct H as (v & Hs & Hr).
  unfold evs_send_sub. rewrite (sd_out _ _ _ _ Hs 1%positive).
  assert (Hv : v = 0) by exact (proj1 Hr). rewrite Hv. reflexivity.
Defined.
