(* ===== verification/Broadcast.v ===== *)
(** The broadcast queue of src/evs.c: [evs_broadcast] puts a subscription and a
    message in it, [evs_broadcast_tick] empties it. *)
From Stdlib Require Import ZArith Lia String.
From stdpp Require Import functions base list gmap strings.
From S2P Require Import Prelude Types Libs EvsQuery State Callbacks Sub Apps ClientSub Config Raw WebSocket Poll Send Quiet Evs.

Section Broadcast.
Context {L : Libs} {C : Config} {A : Apps L}.

(** References that the queue holds. *)
Definition queued (q : list (positive * bytes)) (s : positive) : nat := uses s q.*1.

(** The invariant of the server while [q] is queued. *)
Definition queue_ok (ext : positive → nat) (q : list (positive * bytes)) (w : world) : Prop :=
  evs_ok (λ s, (ext s + queued q s)%nat) w.

(** Subscribers have found their protocol: it is how they sent the request. *)
Definition listener (c : cid) (w : world) : Prop :=
  ∃ cl, w_clients w !! c = Some cl ∧ c_prot cl ≠ None ∧
    (c_prot cl = Some protocol_http → c_surrogate cl = true).
Definition listeners (w : world) : Prop :=
  ∀ c s, status c s w = Active → listener c w.

(** The clients of a list are told one after the other. *)
Inductive told_all (ext : positive → nat) (path json : bytes) : list cid → world → world → Prop :=
  | told_none w : told_all ext path json [] w w
  | told_next c cs w w1 w2 :
      said ext (sent c path [] EVS_NO_CALLBACK json w) w w1 →
      told_all ext path json cs w1 w2 → told_all ext path json (c :: cs) w w2.

(** One broadcast reaches each active subscriber of its subscription once, in
    some order, and no one else. *)
Definition reached (ext : positive → nat) (bc : positive * bytes) (w w' : world) : Prop :=
  ∃ sub cs w1,
    w_subs w !! bc.1 = Some sub ∧ NoDup cs ∧ (∀ c, c ∈ cs ↔ status c bc.1 w = Active) ∧
    told_all ext (ev_path (sub_ev sub) ++ sub_ev_extra sub) bc.2 cs w w1 ∧
    calm w1 w' ∧ (∀ c s, status c s w' = status c s w1).

Inductive reached_all (ext : positive → nat) : list (positive * bytes) → world → world → Prop :=
  | reached_none w w' : w_broadcasts w' = [] → evs_ok ext w' → quiet w w' → reached_all ext [] w w'
  | reached_next bc q w w1 w2 w3 :
      quiet w w1 → reached (λ s, (ext s + queued (bc :: q) s)%nat) bc w1 w2 →
      reached_all ext q w2 w3 → reached_all ext (bc :: q) w w3.

Lemma listener_emitted c o w w' : emitted o w w' → listener c w → listener c w'.
Proof.
  intros He (cl & Hc & Hp & Hs). pose proof (po_io _ _ (em_polled _ _ _ He)) as Hio.
  destruct (io_some _ _ c cl Hio Hc) as (cl' & Hc' & _). exists cl'. split; [done|].
  by rewrite (io_client_field c_prot c cl cl' w w'), (io_client_field c_surrogate c cl cl' w w').
Qed.

Lemma listener_addressee c w : listener c w → addressee c w.
Proof. intros (cl & Hc & _ & Hs). by exists cl. Qed.

Lemma queue_quiet f w : quiet w (set_w_broadcasts f w).
Proof. split; [by split|by split|done]. Qed.

(** One call of [_broadcast]. *)
Lemma broadcast_said ext path json c w :
  evs_ok ext w → listener c w →
  let w' := _broadcast (protocols_bcast path json) w c in
  said ext (sent c path [] EVS_NO_CALLBACK json w) w w' ∧
  (∀ d, listener d w → listener d w') ∧ w_broadcasts w' = w_broadcasts w.
Proof.
  intros Hok Hl w'. subst w'. unfold _broadcast. pose proof Hl as (cl & Hc & Hp & Hs).
  rewrite (bcast_write_send c cl path json w) by (done || apply Hok).
  pose proof (protocols_send_spec c path (Some []) EVS_NO_CALLBACK json w (eo_poll _ _ Hok)
    (eo_prot _ _ Hok) (listener_addressee c w Hl)) as He. simpl in He.
  split; [apply said_stat; [set_solver|by apply said_emitted]|].
  split; [intros d; apply (listener_emitted d _ _ _ He)|].
  exact (f_equal w_broadcasts (io_masks _ _ (po_io _ _ (em_polled _ _ _ He)))).
Qed.

Lemma broadcast_all ext path json cs w :
  evs_ok ext w → (∀ c, c ∈ cs → listener c w) →
  let w' := foldl (_broadcast (protocols_bcast path json)) w cs in
  told_all ext path json cs w w' ∧ evs_ok ext w' ∧ w_broadcasts w' = w_broadcasts w ∧
  (∀ c s, status c s w' = status c s w) ∧ (∀ d, listener d w → listener d w') ∧
  w_fault w' = w_fault w ∧ (∀ d, spare d w' = spare d w).
Proof.
  revert w. induction cs as [|c cs IH]; intros w Hok Hl; [split; [constructor|done]|].
  destruct (broadcast_said ext path json c w Hok) as (H1 & H2 & H3); [apply Hl; by left|].
  destruct (IH (_broadcast (protocols_bcast path json) w c)) as (K1 & K2 & K3 & K4 & K5 & K6 & K7);
    [apply H1|intros d Hd; apply H2, Hl; by right|].
  split; [by econstructor|]. split; [done|]. split; [by rewrite <- H3|].
  split; [intros d s; by rewrite <- (said_status _ _ d s _ _ H1)|].
  split; [auto|]. split; [by rewrite <- (sd_fault _ _ _ _ H1)|]. intros d. by rewrite K7, (sd_spare _ _ _ _ H1).
Qed.

Lemma evs_ok_eq ext ext' w : (∀ s, ext s = ext' s) → evs_ok ext w → evs_ok ext' w.
Proof. intros E [P R B S T N]. split; try done. by eapply csub_wf_eq. Qed.

Lemma queued_cons bc q s : queued (bc :: q) s = ((if decide (bc.1 = s) then 1 else 0) + queued q s)%nat.
Proof. unfold queued. rewrite fmap_cons. apply uses_cons. Qed.

Lemma queued_app q bc s : queued (q ++ [bc]) s = (queued q s + if decide (bc.1 = s) then 1 else 0)%nat.
Proof.
  unfold queued, uses. rewrite fmap_app, filter_app, length_app. f_equal. simpl.
  rewrite filter_cons, filter_nil. by case_decide.
Qed.

(** Taking a broadcast off the queue leaves its reference to be returned. *)
Lemma queue_pop ext bc q s :
  (ext s + queued (bc :: q) s)%nat = ext_inc bc.1 (λ s, (ext s + queued q s)%nat) s.
Proof.
  unfold ext_inc. rewrite queued_cons. destruct (decide (bc.1 = s)) as [<-|H].
  - rewrite fn_lookup_insert. lia.
  - by rewrite fn_lookup_insert_ne.
Qed.

Lemma active_member ext s sub c w :
  csub_wf ext w → w_subs w !! s = Some sub →
  c ∈ qev_list_items (subscribers sub) ↔ status c s w = Active.
Proof.
  intros Hwf Hs. rewrite (cw_members _ _ Hwf s sub c Hs). unfold status. split.
  - intros (cs & -> & Hp). simpl. by rewrite Hp.
  - destruct (_sub_get c s w) as [cs|]; simpl; [|done]. destruct (pending cs) eqn:Hp; [by destruct (tombstone cs)|].
    by exists cs.
Qed.

Lemma broadcast_one_done ext bc q w :
  queue_ok ext (bc :: q) w → listeners w → w_broadcasts w = q →
  let w' := broadcast_one bc w in
  reached (λ s, (ext s + queued (bc :: q) s)%nat) bc w w' ∧
  queue_ok ext q w' ∧ listeners w' ∧ w_broadcasts w' = q ∧ w_fault w' = w_fault w ∧
  (∀ c s, status c s w' = status c s w) ∧ (∀ d, spare d w' = spare d w).
Proof.
  intros Hok Hl Hq w'. subst w'. unfold broadcast_one. pose proof (eo_csub _ _ Hok) as Hwf.
  destruct (cw_ext _ _ Hwf bc.1) as [sub Hs]; [rewrite queued_cons, decide_True by done; lia|].
  rewrite Hs. set (path := ev_path (sub_ev sub) ++ sub_ev_extra sub).
  set (cs := qev_list_items (subscribers sub)).
  assert (Hin : ∀ c, c ∈ cs ↔ status c bc.1 w = Active) by (intros c; by eapply active_member).
  destruct (broadcast_all _ path bc.2 cs w Hok) as (K1 & K2 & K3 & K4 & K5 & K6 & K7).
  { intros c Hc. by apply (Hl c bc.1), Hin. }
  set (w1 := foldl _ w cs) in *. unfold _broadcast_free.
  assert (K2' : evs_ok (ext_inc bc.1 (λ s, (ext s + queued q s)%nat)) w1)
    by (eapply evs_ok_eq; [apply queue_pop|exact K2]).
  destruct (unref_ok _ bc.1 w1 K2') as (U1 & U2 & U3). set (w2 := sub_unref bc.1 w1) in *.
  assert (Hc2 : calm w1 (stat_inc evs_broadcasts_unique w2)) by (etrans; [exact U2|apply quiet_stat; set_solver]).
  assert (Hst : ∀ c s, status c s (stat_inc evs_broadcasts_unique w2) = status c s w1).
  { intros c s. unfold status, _sub_get. simpl. by rewrite U3. }
  assert (Hok2 : queue_ok ext q (stat_inc evs_broadcasts_unique w2)).
  { eapply quiet_ok; [apply quiet_stat; set_solver|exact U1]. }
  split; [|split; [done|split; [|split; [|split; [|split]]]]].
  - exists sub, cs, w1. split; [done|]. split; [by apply (cw_nodup _ _ Hwf bc.1)|]. done.
  - intros c s. rewrite Hst, K4. intros Ha. destruct (K5 c (Hl c s Ha)) as (cl & Hc & Hp).
    exists cl. simpl. by rewrite U3.
  - etrans; [|exact Hq]. etrans; [|exact K3].
    destruct (csub_wf_unref _ bc.1 w1 (eo_csub _ _ K2')) as [_ M]; [by unfold ext_inc; rewrite fn_lookup_insert|].
    exact (f_equal w_broadcasts M).
  - etrans; [apply (calm_fault _ _ Hc2)|done].
  - intros c s. by rewrite Hst, K4.
  - intros d. by rewrite (calm_spare d _ _ Hc2).
Qed.

Lemma broadcast_loop_done ext q w :
  w_broadcasts w = q → queue_ok ext q w → listeners w →
  ∃ w', broadcast_loop (length q) w = Some w' ∧ reached_all ext q w w' ∧ w_broadcasts w' = [] ∧
    evs_ok ext w' ∧ listeners w' ∧ w_fault w' = w_fault w ∧
    (∀ c s, status c s w' = status c s w) ∧ (∀ d, spare d w' = spare d w).
Proof.
  revert w. induction q as [|bc q IH]; intros w Hq Hok Hl.
  - assert (Hok' : evs_ok ext w) by (eapply evs_ok_eq; [|exact Hok]; intros s; unfold queued, uses; simpl; lia).
    exists w. simpl. rewrite Hq. split; [done|]. split; [by constructor|]. done.
  - simpl. rewrite Hq. pose proof (queue_quiet (λ _, q) w) as Hqu. set (w1 := set_w_broadcasts (λ _, q) w) in *.
    destruct (broadcast_one_done ext bc q w1) as (H1 & H2 & H3 & H4 & H5 & H6 & H7);
      [by eapply quiet_ok|done|done|].
    destruct (IH (broadcast_one bc w1) H4 H2 H3) as (w' & K1 & K2 & K3 & K4 & K5 & K6 & K7 & K8).
    exists w'. split; [done|]. split; [by econstructor|]. split; [done|]. split; [done|]. split; [done|].
    split; [by rewrite K6, H5|]. split; [intros c s; by rewrite K7, H6|].
    intros d. rewrite K8, H7. apply calm_spare, Hqu.
Qed.

(** C11. [evs_broadcast_tick] ends: it empties the queue, however long it is.
    Each broadcast is delivered once, as one message with the event's path and
    the subscription's extra segments, to every client whose subscription is
    active then, whatever its protocol, and to no other. The references that
    the queue held are returned, so that a subscription nobody else uses is
    freed, and the invariants of the server are kept. *)
Theorem evs_broadcast_tick_correct {LO : LibsOk L} ext w :
  queue_ok ext (w_broadcasts w) w → listeners w →
  ∃ w', evs_broadcast_tick w = Some w' ∧ reached_all ext (w_broadcasts w) w w' ∧
    w_broadcasts w' = [] ∧ evs_ok ext w' ∧ listeners w' ∧ w_fault w' = w_fault w.
Proof.
  intros Hok Hl. destruct (broadcast_loop_done ext _ w eq_refl Hok Hl) as (w' & H1 & H2 & H3 & H4 & H5 & H6 & _).
  by exists w'.
Qed.

Lemma evs_broadcast_done {LO : LibsOk L} ext ev ox json w :
  queue_ok ext (w_broadcasts w) w → (∀ s, sub_refs s w < 2 ^ 32 - 1) →
  let w' := evs_broadcast ev ox json w in
  queue_ok ext (w_broadcasts w') w' ∧
  calm w w' ∧ (∀ c s, status c s w' = status c s w) ∧
  match ev_sub ev (default [] ox) w with
  | Some s => w_broadcasts w' = w_broadcasts w ++ [(s, JSON_OR_NULL json)] ∧ sub_refs s w' = sub_refs s w + 1
  | None => w' = w
  end.
Proof.
  intros Hok Hr w'. subst w'. unfold evs_broadcast.
  pose proof (sub_get_spec ev ox false w (cw_subs _ _ (eo_csub _ _ Hok)) Hr) as H.
  destruct (get_ok _ ev ox false w Hok Hr) as (K1 & K2 & K3 & K4).
  cbv zeta in H. destruct (ev_sub ev (default [] ox) w) as [s|]; [|by rewrite H].
  destruct H as (sub & Hs & _ & E). rewrite E in *. cbn [fst snd] in *.
  set (w1 := set_w_subs _ w) in *. pose proof (queue_quiet (λ q, q ++ [(s, JSON_OR_NULL json)]) w1) as Hq.
  split; [|split; [etrans; [exact K1|apply Hq]|split; [done|split; [done|]]]].
  - eapply evs_ok_eq; [|eapply quiet_ok; [exact Hq|exact K4]]. intros x. simpl.
    rewrite queued_app. unfold ext_inc. simpl. destruct (decide (s = x)) as [<-|].
    + rewrite fn_lookup_insert. lia.
    + rewrite fn_lookup_insert_ne by done. lia.
  - unfold sub_refs. simpl. by rewrite lookup_insert_eq, Hs.
Qed.

(** [evs_broadcast] queues the message exactly when the event has a
    subscription for these extra segments; the queue then holds a reference to
    it, which keeps it alive until the next tick. Nothing is sent yet. *)
Theorem evs_broadcast_correct {LO : LibsOk L} ext ev ox json w :
  queue_ok ext (w_broadcasts w) w → (∀ s, sub_refs s w < 2 ^ 32 - 1) →
  let w' := evs_broadcast ev ox json w in
  queue_ok ext (w_broadcasts w') w' ∧
  calm w w' ∧ (∀ c s, status c s w' = status c s w) ∧
  match ev_sub ev (default [] ox) w with
  | Some s => w_broadcasts w' = w_broadcasts w ++ [(s, JSON_OR_NULL json)] ∧ sub_refs s w' = sub_refs s w + 1
  | None => w' = w
  end.
Proof. intros Hok Hr. by apply evs_broadcast_done. Qed.

End Broadcast.

(** ** Witnesses *)

#[local] Existing Instance config0.

Definition listeners_b {L : Libs} (w : world) : bool :=
  forallb (λ x, match c_subs x.2 with
    | None => true
    | Some _ => match c_prot x.2 with
      | None => false
      | Some protocol_http => c_surrogate x.2
      | _ => true
      end
    end) (map_to_list (w_clients w)).

Lemma listeners_b_ok {L : Libs} w : listeners_b w = true → listeners w.
Proof.
  unfold listeners_b. rewrite forallb_forall. intros H c s Ha. unfold status in Ha.
  rewrite sub_get_eq in Ha. destruct (w_clients w !! c) as [cl|] eqn:Hc; [|done].
  exists cl. split; [done|]. specialize (H (c, cl)). simpl in H.
  unfold subs_of in Ha. simpl in Ha. destruct (c_subs cl); [|done].
  assert (Hin : In (c, cl) (map_to_list (w_clients w)))
    by (apply list_elem_of_In; by apply elem_of_map_to_list).
  specialize (H Hin). destruct (c_prot cl) as [[]|]; done.
Qed.

(** A message to the subscribers of the event is queued. *)
Definition bc_world : world (L := libs0) :=
  evs_broadcast (L := libs0) demo_event (Some (str "/a")) (Some (str "9")) evs_world1.

Lemma evs_world1_refs s : sub_refs (L := libs0) s evs_world1 < 2 ^ 32 - 1.
Proof.
  unfold sub_refs. destruct (w_subs (L := libs0) evs_world1 !! s) as [sub|] eqn:E; [|done].
  assert (Ew : w_subs (L := libs0) evs_world1 =
    {[1%positive := mkSub (L := libs0) demo_event (str "/a") [1%positive] 1]}) by reflexivity.
  rewrite Ew, lookup_singleton in E. case_decide; [|done]. apply (inj Some) in E. by rewrite <- E.
Qed.

Lemma evs_world1_queue : queue_ok (L := libs0) (λ _, 0%nat) (w_broadcasts evs_world1) evs_world1.
Proof. apply (evs_ok_eq (L := libs0) (λ _, 0%nat)); [reflexivity|apply evs_world1_ok]. Qed.

Lemma evs_broadcast_correct_witness :
  w_broadcasts bc_world = [(1%positive, str "9")] ∧ sub_refs (L := libs0) 1 bc_world = 2.
Proof.
  destruct (evs_broadcast_correct (L := libs0) (λ _, 0%nat) demo_event (Some (str "/a")) (Some (str "9"))
    evs_world1 evs_world1_queue evs_world1_refs) as (_ & _ & _ & H).
  assert (E : ev_sub (L := libs0) demo_event (str "/a") evs_world1 = Some 1%positive) by reflexivity.
  change (default [] (Some (str "/a"))) with (str "/a") in H. rewrite E in H. exact H.
Defined.

Lemma evs_broadcast_tick_correct_witness :
  ∃ w', evs_broadcast_tick (L := libs0) bc_world = Some w' ∧ w_broadcasts w' = [] ∧
    w_fault w' = false ∧
    out (L := libs0) 1 w' = out (L := libs0) 1 bc_world ++
      writes (protocol_raw_frame (L := libs0) (ev_path demo_event ++ str "/a") [] 0 (str "9")).
Proof.
  destruct (evs_broadcast_tick_correct (L := libs0) (λ _, 0%nat) bc_world) as (w' & H1 & _ & H2 & _ & _ & H3).
  - exact (proj1 (evs_broadcast_done (L := libs0) (λ _, 0%nat) demo_event (Some (str "/a")) (Some (str "9"))
      evs_world1 evs_world1_queue evs_world1_refs)).
  - apply listeners_b_ok. reflexivity.
  - exists w'. split; [exact H1|]. split; [exact H2|]. split; [exact H3|].
    enough (E : out (L := libs0) 1 <$> evs_broadcast_tick (L := libs0) bc_world =
      Some (out (L := libs0) 1 bc_world ++
        writes (protocol_raw_frame (L := libs0) (ev_path demo_event ++ str "/a") [] 0 (str "9")))).
    { rewrite H1 in E. by apply (inj Some) in E. }
    reflexivity.
Defined.
