(* ===== verification/Buffers.v ===== *)
(** The buffers of messages on their way out: protocols.c, evs.c and the
    framing functions, with every buffer that they get from the pool of
    quick-event and put back. The other files take what a buffer holds for the
    buffer; here the two are shown to agree. *)
From Stdlib Require Import ZArith Lia String.
From stdpp Require Import functions base list gmap strings.
From S2P Require Import Prelude Types Libs Path EvsQuery State Callbacks Sub Apps ClientSub Config Raw WebSocket Poll Send Evs.

(** ** The pool *)

(** The pool of quick-event hands out buffers that nobody has. *)
Class BufferPool := {
  qev_buffer_pick : gset positive → positive;
  pick_fresh X : qev_buffer_pick X ∉ X;
}.

#[export] Instance pool0 : BufferPool := {| qev_buffer_pick := fresh; pick_fresh := is_fresh |}.

(** The buffers that are handed out, with what they hold, and whether one was
    touched or put back that was not. *)
Record buffers := mkBuffers { lent : gmap positive bytes; misused : bool }.

Definition misuse (p : buffers) : buffers := mkBuffers (lent p) true.

Section Pool.
Context {BP : BufferPool}.

Definition qev_buffer_get (p : buffers) : positive * buffers :=
  let b := qev_buffer_pick (dom (lent p)) in (b, mkBuffers (<[b := []]> (lent p)) (misused p)).

(** NULL may be put back. *)
Definition qev_buffer_put (b : option positive) (p : buffers) : buffers :=
  match b with
  | None => p
  | Some b => if decide (is_Some (lent p !! b)) then mkBuffers (delete b (lent p)) (misused p) else misuse p
  end.

Definition edit (b : positive) (f : bytes → bytes) (p : buffers) : buffers :=
  match lent p !! b with
  | Some s => mkBuffers (<[b := f s]> (lent p)) (misused p)
  | None => misuse p
  end.

(** What [b] points to. *)
Definition deref (b : option positive) (p : buffers) : option bytes * buffers :=
  match b with
  | None => (None, p)
  | Some b => match lent p !! b with Some s => (Some s, p) | None => (None, misuse p) end
  end.

Definition g_string_append (b : positive) (s : bytes) : buffers → buffers := edit b (λ t, t ++ s).
Definition g_string_prepend (b : positive) (s : bytes) : buffers → buffers := edit b (λ t, s ++ t).
Definition g_string_assign (b : positive) (s : bytes) : buffers → buffers := edit b (λ _, s).

Definition qev_buffer_append_buff (b src : positive) (p : buffers) : buffers :=
  let '(s, p) := deref (Some src) p in g_string_append b (default [] s) p.

(** ** What is handed out on top of what was *)

Definition lend (b : positive) (s : bytes) (p : buffers) : buffers :=
  mkBuffers (<[b := s]> (lent p)) (misused p).

Definition idle_buf (b : positive) (p : buffers) : Prop := lent p !! b = None.

Lemma get_spec p : ∃ b, idle_buf b p ∧ qev_buffer_get p = (b, lend b [] p).
Proof.
  exists (qev_buffer_pick (dom (lent p))). split; [|done]. apply not_elem_of_dom, pick_fresh.
Qed.

Lemma edit_lend b f s p : edit b f (lend b s p) = lend b (f s) p.
Proof. unfold edit, lend. simpl. by rewrite lookup_insert_eq, insert_insert_eq. Qed.

Lemma put_lend b s p : idle_buf b p → qev_buffer_put (Some b) (lend b s p) = p.
Proof.
  intros H. unfold qev_buffer_put, lend. simpl. rewrite lookup_insert_eq, decide_True by eauto.
  rewrite delete_insert_id by done. by destruct p.
Qed.

Lemma deref_lend b s p : deref (Some b) (lend b s p) = (Some s, lend b s p).
Proof. unfold deref, lend. simpl. by rewrite lookup_insert_eq. Qed.

Lemma lend_comm b c s t p : b ≠ c → lend b s (lend c t p) = lend c t (lend b s p).
Proof. intros H. unfold lend. simpl. by rewrite insert_insert_ne by done. Qed.

Lemma idle_lend b c s p : idle_buf b (lend c s p) ↔ b ≠ c ∧ idle_buf b p.
Proof. unfold idle_buf, lend. simpl. rewrite lookup_insert_None. naive_solver. Qed.

(** Several, the first on top. *)
Definition lend_all (l : list (positive * bytes)) (p : buffers) : buffers :=
  foldr (λ c, lend c.1 c.2) p l.

(** They are different, and were idle. *)
Definition spread (l : list (positive * bytes)) (p : buffers) : Prop :=
  NoDup l.*1 ∧ Forall (λ b, idle_buf b p) l.*1.

Lemma lend_all_app l k p : lend_all (l ++ k) p = lend_all l (lend_all k p).
Proof. apply foldr_app. Qed.

Lemma idle_all b l p : idle_buf b (lend_all l p) ↔ b ∉ l.*1 ∧ idle_buf b p.
Proof.
  induction l as [|[c s] l IH]; simpl; [set_solver|]. rewrite idle_lend, IH, not_elem_of_cons. tauto.
Qed.

Lemma lend_below b s l p : b ∉ l.*1 → lend b s (lend_all l p) = lend_all l (lend b s p).
Proof.
  induction l as [|[c t] l IH]; simpl; [done|]. intros [H1 H2]%not_elem_of_cons.
  by rewrite lend_comm, IH.
Qed.

Lemma spread_snoc l b s p : spread l p → b ∉ l.*1 → idle_buf b p → spread (l ++ [(b, s)]) p.
Proof.
  intros [H1 H2] Hb Hi. unfold spread. rewrite fmap_app. simpl. split.
  - apply NoDup_app. split; [done|]. split; [set_solver|apply NoDup_singleton].
  - apply Forall_app. split; [done|]. by apply Forall_singleton.
Qed.

Lemma lookup_all b s l p : NoDup l.*1 → (b, s) ∈ l → lent (lend_all l p) !! b = Some s.
Proof.
  induction l as [|[c t] l IH]; simpl; [intros _ H; by apply not_elem_of_nil in H|].
  intros [H1 H2]%NoDup_cons [[= -> ->]|H]%elem_of_cons; [by rewrite lookup_insert_eq|].
  rewrite lookup_insert_ne; [by apply IH|]. intros ->. apply H1. apply list_elem_of_fmap. by exists (b, s).
Qed.

(** Putting all of them back, from the first. *)
Lemma put_all l p :
  spread l p → foldl (λ p b, qev_buffer_put (Some b) p) (lend_all l p) l.*1 = p.
Proof.
  induction l as [|[b s] l IH]; [done|]. unfold spread. rewrite fmap_cons. cbn [foldl lend_all foldr fst snd].
  intros [[H1 H2]%NoDup_cons [H3 H4]%Forall_cons]. rewrite put_lend; [by apply IH|]. by apply idle_all.
Qed.

End Pool.

(** ** The sources, with their buffers *)

(** [struct protocol_frames]: pointers, one of which may be NULL. *)
Record frame_ptrs := mkPtrs { pt_def : option positive; pt_raw : option positive }.

Module Buf.
Section Buf.
Context {L : Libs} {C : Config} {BP : BufferPool}.

Definition protocol_raw_format (ev_path ev_extra : bytes) (server_cb : Z) (json : bytes) (p : buffers) :
    positive * buffers :=
  let '(buff, p) := qev_buffer_get p in
  let p := g_string_append buff ev_path p in
  let p := g_string_append buff ev_extra p in
  let p := g_string_append buff [COLON] p in
  let p := g_string_append buff (qev_uint server_cb) p in
  let p := g_string_append buff [EQUALS] p in
  (buff, g_string_append buff json p).

Definition protocol_raw_frame (ev_path ev_extra : bytes) (server_cb : Z) (json : bytes) (p : buffers) :
    frame_ptrs * buffers :=
  let '(buff, p) := protocol_raw_format ev_path ev_extra server_cb json p in
  let '(s, p) := deref (Some buff) p in
  let size := be_split 8 (Z.of_nat (length (default [] s))) in
  (mkPtrs (Some buff) None, g_string_prepend buff size p).

Definition protocol_rfc6455_frame (ev_path ev_extra : bytes) (server_cb : Z) (json : bytes) (p : buffers) :
    frame_ptrs * buffers :=
  let '(def, p) := qev_buffer_get p in
  let '(raw, p) := protocol_raw_format ev_path ev_extra server_cb json p in
  let '(s, p) := deref (Some raw) p in
  let len := Z.of_nat (length (default [] s)) in
  let p := g_string_append def [129] p in
  let p :=
    if len <=? PAYLOAD_SHORT then g_string_append def [u8 len] p
    else if len <=? 65535 then
      g_string_append def (be_split 2 len) (g_string_append def [PAYLOAD_MEDIUM] p)
    else g_string_append def (be_split 8 len) (g_string_append def [PAYLOAD_LONG] p) in
  let p := qev_buffer_append_buff def raw p in
  (mkPtrs (Some def) None, qev_buffer_put (Some raw) p).

Definition _build_response_full (status : http_status) (body : option positive) (is_iframe : bool)
    (p : buffers) : positive * buffers :=
  let '(buff, p) := qev_buffer_get p in
  let '(s, p) := deref body p in
  let len := match s with Some s => Z.of_nat (length s) | None => 0 end in
  let p := g_string_append buff (str "HTTP/1.0 ") p in
  let p := g_string_append buff (status_line status) p in
  let p := g_string_append buff (HTTP_COMMON ++ str HTTP_CONTENT_LENGTH ++ str ": ") p in
  let p := g_string_append buff (qev_uint len) p in
  let p := g_string_append buff
    (CRLF ++ str "Content-Type: " ++ (if is_iframe then str "text/html" else str "text/plain") ++ CRLF ++ CRLF) p in
  let p := match body with Some body => qev_buffer_append_buff buff body p | None => p end in
  (buff, p).

Definition _build_response (status : http_status) (body : option positive) : buffers → positive * buffers :=
  _build_response_full status body false.

Definition protocol_http_frame (ev_path ev_extra : bytes) (server_cb : Z) (json : bytes) (p : buffers) :
    frame_ptrs * buffers :=
  let '(raw, p) := protocol_raw_format ev_path ev_extra server_cb json p in
  let p := g_string_append raw [NEWLINE] p in
  let '(def, p) := _build_response STATUS_200 (Some raw) p in
  (mkPtrs (Some def) (Some raw), p).

Definition prot_frame (p : protocol) : option (bytes → bytes → Z → bytes → buffers → frame_ptrs * buffers) :=
  match p with
  | protocol_http => Some protocol_http_frame
  | protocol_flash => None
  | protocol_raw => Some protocol_raw_frame
  | protocol_rfc6455 => Some protocol_rfc6455_frame
  end.

(** What the frames hold, for those who only read them. *)
Definition frames_of (pt : frame_ptrs) (p : buffers) : protocol_frames * buffers :=
  let '(def, p) := deref (pt_def pt) p in
  let '(raw, p) := deref (pt_raw pt) p in
  (mkFrames def raw, p).

Definition put_frames (p : buffers) (pt : frame_ptrs) : buffers :=
  qev_buffer_put (pt_raw pt) (qev_buffer_put (pt_def pt) p).

Definition protocols_send (c : cid) (ev_path : bytes) (ev_extra : option bytes) (server_cb : Z)
    (json : bytes) (w : world) (p : buffers) : world * buffers :=
  match w_clients w !! c with
  | None => (fault w, p)
  | Some cl =>
      if c_handshaked cl then
        match c_prot cl ≫= prot_frame with
        | None => (fault w, p)
        | Some frame =>
            let '(pframes, p) := frame ev_path (default [] ev_extra) server_cb json p in
            let '(fr, p) := frames_of pframes p in
            (_send c fr w, put_frames p pframes)
        end
      else (w, p)
  end.

Definition protocols_bcast (ev_path json : bytes) (p : buffers) : list frame_ptrs * buffers :=
  foldl (λ '(frames, p) prot,
    let '(pframes, p) :=
      match prot_frame prot with
      | Some frame => frame ev_path [] EVS_NO_CALLBACK json p
      | None => (mkPtrs None None, p)
      end in
    (frames ++ [pframes], p)) ([], p) _protocols.

Definition protocols_bcast_write (c : cid) (frames : list frame_ptrs) (w : world) (p : buffers) :
    world * buffers :=
  match w_clients w !! c with
  | None => (fault w, p)
  | Some cl =>
      match c_prot cl with
      | None => (fault w, p)
      | Some prot =>
          if c_handshaked cl then
            match frames !! prot_id prot with
            | Some pframes => let '(fr, p) := frames_of pframes p in (_send c fr w, p)
            | None => (fault w, p)
            end
          else (w, p)
      end
  end.

Definition protocols_bcast_free (frames : list frame_ptrs) (p : buffers) : buffers :=
  foldl put_frames p frames.

(** [evs_make_path] returns the buffer that it cleans in place. *)
Definition evs_make_path (ev_prefix ev_path ev_extra : option bytes) (p : buffers) : positive * buffers :=
  let '(b, p) := qev_buffer_get p in
  let p := g_string_assign b
    (default [] ev_prefix ++ [SLASH] ++ default [] ev_path ++ [SLASH] ++ default [] ev_extra) p in
  let '(s, p) := deref (Some b) p in
  let p := if rd (default [] s) 0 =? SLASH then p else g_string_prepend b [SLASH] p in
  (b, edit b clean_path p).

Definition evs_send_bruteforce (c : cid) (ev_prefix ev_path ev_extra json : option bytes)
    (fn : option evs_cb_fn) (data free_fn : option nat) (w : world) (p : buffers) : world * buffers :=
  let '(server_cb, w) := client_cb_new (Some c) fn data free_fn w in
  let '(path, p) := evs_make_path ev_prefix ev_path ev_extra p in
  let '(s, p) := deref (Some path) p in
  let '(w, p) := protocols_send c (default [] s) (Some []) server_cb (JSON_OR_NULL json) w p in
  (stat_inc evs_sent w, qev_buffer_put (Some path) p).

Definition evs_cb_full (c : cid) (client_cb code : Z) (err_msg json : option bytes)
    (fn : option evs_cb_fn) (data free_fn : option nat) (w : world) (p : buffers) : world * buffers :=
  if client_cb =? 0 then ((client_cb_new None None data free_fn w).2, p)
  else
    let '(server_cb, w) :=
      if u32 code =? CODE_OK then client_cb_new (Some c) fn data free_fn w
      else (EVS_NO_CALLBACK, (client_cb_new None None data free_fn w).2) in
    let '(path, p) := qev_buffer_get p in
    let '(jbuff, p) := qev_buffer_get p in
    let p := g_string_append path CB_PATH p in
    let p := g_string_append path (qev_uint client_cb) p in
    let p := g_string_append jbuff CB_CODE p in
    let p := g_string_append jbuff (qev_uint (u32 code)) p in
    let p := g_string_append jbuff CB_DATA p in
    let p := g_string_append jbuff (JSON_OR_NULL json) p in
    let p :=
      if negb (u32 code =? CODE_OK) then
        g_string_append jbuff (qev_json_pack_s err_msg) (g_string_append jbuff CB_ERRMSG p)
      else p in
    let p := g_string_append jbuff [RBRACE] p in
    let '(s, p) := deref (Some path) p in
    let '(j, p) := deref (Some jbuff) p in
    let '(w, p) := protocols_send c (default [] s) (Some []) server_cb (default [] j) w p in
    (stat_inc evs_callbacks_sent w, qev_buffer_put (Some jbuff) (qev_buffer_put (Some path) p)).

(** The responses that are kept for the life of the server, and the page: the
    part of [protocol_http_init] that makes them, and of [_cleanup] that puts
    them back. *)
Definition http_response_of (buff : positive) (rsp : list positive * buffers) (status : http_status) :
    list positive * buffers :=
  let p := g_string_assign buff (str "responses." ++ qev_uint (status_code status)) rsp.2 in
  let p := g_string_assign buff [] p in
  let '(b, p) := _build_response status None p in
  (rsp.1 ++ [b], p).

Definition protocol_http_init (p : buffers) : list positive * option positive * buffers :=
  let '(buff, p) := qev_buffer_get p in
  let '(responses, p) := foldl (http_response_of buff) ([], p) HTTP_STATUSES in
  let p := qev_buffer_put (responses !! 7%nat) p in
  let p := g_string_append buff html_error p in
  let '(b, p) := _build_response STATUS_501 (Some buff) p in
  let responses := <[7%nat := b]> responses in
  let p := g_string_assign buff [] p in
  let '(iframe, p) :=
    match cfg_public_address with
    | None => (None, p)
    | Some addr =>
        let p := g_string_append buff html_iframe p in
        let p := edit buff (λ s, qev_buffer_replace_str s (str "{PUBLIC_ADDRESS}") addr) p in
        let '(b, p) := _build_response_full STATUS_200 (Some buff) true p in
        (Some b, g_string_assign buff [] p)
    end in
  (responses, iframe, qev_buffer_put (Some buff) p).

Definition _cleanup (responses : list positive) (iframe : option positive) (p : buffers) : buffers :=
  qev_buffer_put iframe (foldl (λ p b, qev_buffer_put (Some b) p) p responses).

Definition _broadcast (frames : list frame_ptrs) (wp : world * buffers) (c : cid) : world * buffers :=
  let '(w, p) := protocols_bcast_write c frames wp.1 wp.2 in
  (stat_inc evs_broadcasts_events w, p).

Definition broadcast_one (path : positive) (bc : positive * bytes) (w : world) (p : buffers) : world * buffers :=
  match w_subs w !! bc.1 with
  | None => (fault w, p)
  | Some sub =>
      let p := g_string_assign path (ev_path (sub_ev sub) ++ sub_ev_extra sub) p in
      let '(s, p) := deref (Some path) p in
      let '(frames, p) := protocols_bcast (default [] s) bc.2 p in
      let '(w, p) := foldl (_broadcast frames) (w, p) (qev_list_items (subscribers sub)) in
      let p := protocols_bcast_free frames p in
      (stat_inc evs_broadcasts_unique (_broadcast_free bc w), p)
  end.

Fixpoint broadcast_loop (fuel : nat) (path : positive) (w : world) (p : buffers) : option (world * buffers) :=
  match w_broadcasts w with
  | [] => Some (w, p)
  | bc :: rest =>
      match fuel with
      | O => None
      | S fuel =>
          let '(w, p) := broadcast_one path bc (set_w_broadcasts (λ _, rest) w) p in
          broadcast_loop fuel path w p
      end
  end.

Definition evs_broadcast_tick (w : world) (p : buffers) : option (world * buffers) :=
  let '(path, p) := qev_buffer_get p in
  '(w, p) ← broadcast_loop (length (w_broadcasts w)) path w p;
  Some (w, qev_buffer_put (Some path) p).

End Buf.
End Buf.

(** ** What the framing functions hand out *)

Section Frames.
Context {L : Libs} {C : Config} {BP : BufferPool}.

Definition cell (b : option positive) (s : option bytes) : list (positive * bytes) :=
  match b, s with Some b, Some s => [(b, s)] | _, _ => [] end.
Definition cells (pt : frame_ptrs) (fr : protocol_frames) : list (positive * bytes) :=
  cell (pt_def pt) (fr_def fr) ++ cell (pt_raw pt) (fr_raw fr).

Definition same_shape {X Y} (b : option X) (s : option Y) : Prop :=
  match b, s with Some _, Some _ | None, None => True | _, _ => False end.
Definition shaped (pt : frame_ptrs) (fr : protocol_frames) : Prop :=
  same_shape (pt_def pt) (fr_def fr) ∧ same_shape (pt_raw pt) (fr_raw fr).

(** [f] hands out frames that hold [fr]. *)
Definition makes (f : buffers → frame_ptrs * buffers) (fr : protocol_frames) : Prop :=
  ∀ p, ∃ pt, shaped pt fr ∧ spread (cells pt fr) p ∧ f p = (pt, lend_all (cells pt fr) p).

Ltac edits := unfold g_string_append, g_string_prepend, g_string_assign; rewrite ?edit_lend.

Lemma format_makes x y cb j p :
  ∃ b, idle_buf b p ∧ Buf.protocol_raw_format x y cb j p = (b, lend b (protocol_raw_format x y cb j) p).
Proof.
  unfold Buf.protocol_raw_format. destruct (get_spec p) as (b & Hb & ->). exists b. split; [done|]. edits.
  do 2 f_equal. unfold protocol_raw_format. by rewrite <- !app_assoc.
Qed.

Lemma raw_makes x y cb j : makes (Buf.protocol_raw_frame x y cb j) (protocol_raw_frame x y cb j).
Proof.
  intros p. unfold Buf.protocol_raw_frame. destruct (format_makes x y cb j p) as (b & Hb & ->).
  rewrite deref_lend. edits. exists (mkPtrs (Some b) None). split; [done|]. split; [|done].
  split; simpl; [apply NoDup_singleton|by apply Forall_singleton].
Qed.

Lemma append_buff_lend b c s t p :
  b ≠ c → qev_buffer_append_buff b c (lend b s (lend c t p)) = lend b (s ++ t) (lend c t p).
Proof.
  intros H. unfold qev_buffer_append_buff. rewrite lend_comm, deref_lend by done. cbn [default].
  rewrite <- lend_comm by done. by edits.
Qed.

Lemma rfc6455_makes x y cb j : makes (Buf.protocol_rfc6455_frame x y cb j) (protocol_rfc6455_frame x y cb j).
Proof.
  intros p. unfold Buf.protocol_rfc6455_frame. destruct (get_spec p) as (b & Hb & ->).
  destruct (format_makes x y cb j (lend b [] p)) as (c & Hc & ->). apply idle_lend in Hc as [Hn Hc].
  rewrite deref_lend. cbn [default]. unfold protocol_rfc6455_frame. set (raw := protocol_raw_format x y cb j).
  change (Z.of_nat (length (id raw))) with (Z.of_nat (length raw)).
  set (len := Z.of_nat (length raw)). rewrite lend_comm by done. edits.
  match goal with |- context [qev_buffer_append_buff b c ?P] =>
    assert (E : ∃ h, P = lend b ([129] ++ h) (lend c raw p) ∧
      h = if len <=? PAYLOAD_SHORT then [u8 len]
          else if len <=? 65535 then PAYLOAD_MEDIUM :: be_split 2 len else PAYLOAD_LONG :: be_split 8 len) end.
  { eexists. split; [|reflexivity]. destruct (len <=? PAYLOAD_SHORT); [by edits|].
    destruct (len <=? 65535); edits; by rewrite <- app_assoc. }
  destruct E as (h & -> & E). rewrite append_buff_lend by done. rewrite lend_comm by done.
  rewrite put_lend by (by apply idle_lend). rewrite <- E. exists (mkPtrs (Some b) None).
  split; [done|]. split; [split; simpl; [apply NoDup_singleton|by apply Forall_singleton]|].
  by rewrite <- app_assoc.
Qed.

Lemma response_makes st s c t p :
  lent p !! c = Some t →
  ∃ b, idle_buf b p ∧ Buf._build_response_full st (Some c) s p = (b, lend b (_build_response_full st (Some t) s) p).
Proof.
  intros Hc. unfold Buf._build_response_full. destruct (get_spec p) as (b & Hb & ->).
  assert (Hn : c ≠ b) by (intros ->; by rewrite Hb in Hc).
  assert (Hd : ∀ u, deref (Some c) (lend b u p) = (Some t, lend b u p)).
  { intros u. unfold deref, lend. simpl. by rewrite lookup_insert_ne, Hc by done. }
  rewrite Hd. edits. unfold qev_buffer_append_buff. rewrite Hd. cbn [default]. edits. exists b. split; [done|].
  do 2 f_equal. unfold _build_response_full. cbn [default]. by rewrite <- !app_assoc.
Qed.

Lemma http_makes x y cb j : makes (Buf.protocol_http_frame x y cb j) (protocol_http_frame x y cb j).
Proof.
  intros p. unfold Buf.protocol_http_frame. destruct (format_makes x y cb j p) as (c & Hc & ->). edits.
  set (raw := protocol_raw_format x y cb j ++ [NEWLINE]).
  destruct (response_makes STATUS_200 false c raw (lend c raw p)) as (b & Hb & E); [apply lookup_insert_eq|].
  unfold Buf._build_response. rewrite E. apply idle_lend in Hb as [Hn Hb].
  exists (mkPtrs (Some b) (Some c)). split; [done|]. split; [|done].
  split; simpl; [|by repeat constructor]. constructor; [by rewrite list_elem_of_singleton|apply NoDup_singleton].
Qed.

(** Every protocol that frames messages does so in buffers as well. *)
Lemma prot_makes p x y cb j :
  match Buf.prot_frame p, prot_frame p with
  | Some f, Some g => makes (f x y cb j) (g x y cb j)
  | None, None => True
  | _, _ => False
  end.
Proof. destruct p; [apply http_makes|done|apply raw_makes|apply rfc6455_makes]. Qed.

End Frames.

(** ** The buffers change nothing else *)

Section Refine.
Context {L : Libs} {C : Config} {BP : BufferPool}.

Lemma deref_all b s l p : NoDup l.*1 → (b, s) ∈ l → deref (Some b) (lend_all l p) = (Some s, lend_all l p).
Proof. intros H1 H2. unfold deref. by rewrite (lookup_all b s). Qed.

Lemma deref_none p : deref None p = (None, p).
Proof. done. Qed.

Lemma frames_held pt fr l p :
  shaped pt fr → NoDup l.*1 → cells pt fr ⊆ l → Buf.frames_of pt (lend_all l p) = (fr, lend_all l p).
Proof.
  intros [H1 H2] Hd Hl. unfold Buf.frames_of, cells in *. destruct pt as [[b|] [c|]], fr as [[s|] [t|]];
    try done; cbn [pt_def pt_raw fr_def fr_raw cell app] in *;
    rewrite ?deref_none, ?(deref_all b s) by (done || set_solver); rewrite ?(deref_all c t) by (done || set_solver); done.
Qed.

Lemma put_cells pt fr p :
  shaped pt fr → spread (cells pt fr) p → Buf.put_frames (lend_all (cells pt fr) p) pt = p.
Proof.
  intros [H1 H2] Hs. apply put_all in Hs. unfold Buf.put_frames, cells in *.
  destruct pt as [[b|] [c|]], fr as [[s|] [t|]]; try done.
Qed.

Lemma send_buffers c x o cb j w p : Buf.protocols_send c x o cb j w p = (protocols_send c x o cb j w, p).
Proof.
  unfold Buf.protocols_send, protocols_send. destruct (w_clients w !! c) as [cl|]; [|done].
  destruct (c_handshaked cl); [|done]. destruct (c_prot cl) as [q|]; [|done]. simpl.
  pose proof (prot_makes q x (default [] o) cb j) as H.
  destruct (Buf.prot_frame q) as [f|], (prot_frame q) as [g|]; try done.
  destruct (H p) as (pt & H1 & H2 & ->). rewrite (frames_held pt (g x (default [] o) cb j)) by (done || apply H2). by rewrite put_cells.
Qed.

(** *** Broadcasts *)

Lemma lend_swap k l p :
  spread l p → spread k (lend_all l p) → lend_all k (lend_all l p) = lend_all (l ++ k) p ∧ spread (l ++ k) p.
Proof.
  intros [L1 L2] [K1 K2]. rewrite Forall_forall in K2.
  assert (K : ∀ b, b ∈ k.*1 → b ∉ l.*1 ∧ idle_buf b p) by (intros b Hb; by apply idle_all, K2).
  split.
  - rewrite lend_all_app. clear K1 K2. induction k as [|[b s] k IH]; [done|]. simpl.
    rewrite IH by (intros b' Hb'; apply K; by right). apply lend_below. apply K. by left.
  - unfold spread. rewrite fmap_app. split; [|apply Forall_app; split; [done|]].
    + apply NoDup_app. split; [done|]. split; [|done]. intros b Hl Hk. by apply (K b).
    + apply Forall_forall. intros b Hb. by apply K.
Qed.

(** All frames of a broadcast. *)
Definition all_cells (pts : list frame_ptrs) (frs : list protocol_frames) : list (positive * bytes) :=
  mjoin (zip_with cells pts frs).

Definition frames_made (pts : list frame_ptrs) (frs : list protocol_frames) (p : buffers) : Prop :=
  Forall2 shaped pts frs ∧ spread (all_cells pts frs) p.

Lemma all_cells_snoc pts frs pt fr :
  length pts = length frs → all_cells (pts ++ [pt]) (frs ++ [fr]) = all_cells pts frs ++ cells pt fr.
Proof.
  intros H. unfold all_cells. rewrite zip_with_app by done. rewrite join_app. simpl. by rewrite app_nil_r.
Qed.

Lemma bcast_makes x j p :
  ∃ pts, frames_made pts (protocols_bcast x j) p ∧
    Buf.protocols_bcast x j p = (pts, lend_all (all_cells pts (protocols_bcast x j)) p).
Proof.
  unfold Buf.protocols_bcast, protocols_bcast.
  match goal with |- context [foldl ?f ([], p) _protocols] => set (step := f) end.
  match goal with |- context [map ?g _protocols] => set (pure := g) end.
  assert (H : ∀ ps pts frs, frames_made pts frs p → ∃ pts',
    frames_made pts' (frs ++ map pure ps) p ∧
    foldl step (pts, lend_all (all_cells pts frs) p) ps = (pts', lend_all (all_cells pts' (frs ++ map pure ps)) p)).
  { intros ps. induction ps as [|q ps IH]; intros pts frs [H1 H2]; cbn [map foldl].
    - exists pts. by rewrite app_nil_r.
    - set (p1 := lend_all (all_cells pts frs) p).
      assert (Hq : ∃ pt, shaped pt (pure q) ∧ spread (cells pt (pure q)) p1 ∧
        step (pts, p1) q = (pts ++ [pt], lend_all (cells pt (pure q)) p1)).
      { unfold step, pure. pose proof (prot_makes q x [] EVS_NO_CALLBACK j) as Hm.
        destruct (Buf.prot_frame q) as [f|], (prot_frame q) as [g|]; try done.
        - destruct (Hm p1) as (pt & M1 & M2 & ->). by exists pt.
        - exists (mkPtrs None None). split; [done|]. split; [|done]. split; [apply NoDup_nil_2|done]. }
      destruct Hq as (pt & Q1 & Q2 & Q3).
      rewrite Q3.
      destruct (lend_swap _ _ _ H2 Q2) as [S1 S2]. fold p1 in S1. rewrite S1.
      rewrite <- all_cells_snoc in S2 |- * by (by eapply Forall2_length).
      destruct (IH (pts ++ [pt]) (frs ++ [pure q])) as (pts' & R1 & R2).
      { split; [|done]. apply Forall2_app; [done|]. constructor; [exact Q1|constructor]. }
      rewrite <- !app_assoc in *. by exists pts'. }
  apply (H _protocols [] []). split; [constructor|]. split; [apply NoDup_nil_2|constructor].
Qed.

Lemma free_makes pts frs p :
  frames_made pts frs p → Buf.protocols_bcast_free pts (lend_all (all_cells pts frs) p) = p.
Proof.
  intros [H1 H2]. unfold Buf.protocols_bcast_free. revert H2.
  induction H1 as [|pt fr pts frs Hs Hl IH]; intros H2; [done|].
  unfold all_cells, spread in H2. simpl in H2. rewrite fmap_app in H2. destruct H2 as [N F].
  apply NoDup_app in N as (N1 & N2 & N3). apply Forall_app in F as [F1 F2].
  unfold all_cells. simpl. rewrite lend_all_app, put_cells; [|done|].
  - by apply IH.
  - split; [done|]. apply Forall_forall. intros b Hb. apply idle_all. split; [by apply N2|].
    rewrite Forall_forall in F1. by apply F1.
Qed.

Lemma bcast_write_buffers c pts frs w p :
  frames_made pts frs p → let q := lend_all (all_cells pts frs) p in
  Buf.protocols_bcast_write c pts w q = (protocols_bcast_write c frs w, q).
Proof.
  intros [H1 [H2 _]] q. unfold Buf.protocols_bcast_write, protocols_bcast_write.
  destruct (w_clients w !! c) as [cl|]; [|done]. destruct (c_prot cl) as [pr|]; [|done].
  destruct (c_handshaked cl); [|done].
  destruct (frs !! prot_id pr) as [fr|] eqn:Hf.
  - destruct (Forall2_lookup_r _ _ _ _ _ H1 Hf) as (pt & Hp & Hs). rewrite Hp.
    unfold q. rewrite (frames_held pt fr); [done|done|done|].
    intros x Hx. apply list_elem_of_join. exists (cells pt fr). split; [done|].
    apply list_elem_of_lookup. exists (prot_id pr). rewrite lookup_zip_with, Hp. simpl. by rewrite Hf.
  - assert (E : pts !! prot_id pr = None).
    { apply lookup_ge_None. apply lookup_ge_None in Hf. by rewrite (Forall2_length _ _ _ H1). }
    by rewrite E.
Qed.

Lemma each_buffers pts frs items w p :
  frames_made pts frs p → let q := lend_all (all_cells pts frs) p in
  foldl (Buf._broadcast pts) (w, q) items = (foldl (_broadcast frs) w items, q).
Proof.
  intros H q. revert w. induction items as [|c items IH]; intros w; [done|]. cbn [foldl].
  unfold Buf._broadcast at 2. cbn [fst snd]. unfold q. rewrite (bcast_write_buffers c pts frs w p H).
  apply IH.
Qed.

Lemma one_buffers path s bc w p :
  idle_buf path p → ∃ s',
    Buf.broadcast_one path bc w (lend path s p) = (broadcast_one bc w, lend path s' p).
Proof.
  intros Hp. unfold Buf.broadcast_one, broadcast_one. destruct (w_subs w !! bc.1) as [sub|]; [|by exists s].
  unfold g_string_assign. rewrite edit_lend, deref_lend. cbn [default].
  set (x := ev_path (sub_ev sub) ++ sub_ev_extra sub). change (id x) with x. exists x.
  destruct (bcast_makes x bc.2 (lend path x p)) as (pts & Hm & ->).
  rewrite (each_buffers pts _ _ w _ Hm). by rewrite free_makes.
Qed.

Lemma loop_buffers fuel path s w p :
  idle_buf path p →
  match Buf.broadcast_loop fuel path w (lend path s p), broadcast_loop fuel w with
  | Some (w1, p1), Some w2 => w1 = w2 ∧ ∃ s', p1 = lend path s' p
  | None, None => True
  | _, _ => False
  end.
Proof.
  intros Hp. revert s w. induction fuel as [|fuel IH]; intros s w; simpl;
    destruct (w_broadcasts w) as [|bc rest]; try done; [by eauto..|].
  destruct (one_buffers path s bc (set_w_broadcasts (λ _, rest) w) p Hp) as (s' & ->). apply IH.
Qed.

(** *** What is kept *)

Lemma lend_above b s k t l p :
  b ≠ k → b ∉ l.*1 → lend b s (lend k t (lend_all l p)) = lend k t (lend_all (l ++ [(b, s)]) p).
Proof. intros H1 H2. by rewrite lend_all_app, lend_comm, lend_below by done. Qed.

Lemma response_new st body t i q :
  match body with Some c => ∃ s, t = Some s ∧ lent q !! c = Some s | None => t = None end →
  ∃ b, idle_buf b q ∧ Buf._build_response_full st body i q = (b, lend b (_build_response_full st t i) q).
Proof.
  destruct body as [c|]; [intros (s & -> & Hc); by apply response_makes|intros ->].
  unfold Buf._build_response_full. destruct (get_spec q) as (b & Hb & ->). exists b. split; [done|].
  rewrite deref_none. unfold g_string_append. rewrite !edit_lend. do 2 f_equal.
  unfold _build_response_full. cbn [default]. by rewrite app_nil_r, <- !app_assoc.
Qed.

(** One more that is kept, while [buff] is in use. *)
Lemma response_kept st body t i buff u l p :
  spread l p → idle_buf buff p → buff ∉ l.*1 →
  match body with Some c => c = buff ∧ t = Some u | None => t = None end →
  let x := _build_response_full st t i in
  ∃ b, spread (l ++ [(b, x)]) p ∧ buff ∉ (l ++ [(b, x)]).*1 ∧
    idle_buf b (lend buff u (lend_all l p)) ∧
    Buf._build_response_full st body i (lend buff u (lend_all l p)) = (b, lend buff u (lend_all (l ++ [(b, x)]) p)).
Proof.
  intros Hs Hb Hn Ht x. destruct (response_new st body t i (lend buff u (lend_all l p))) as (b & Hi & E).
  { destruct body as [c|]; [|done]. destruct Ht as [-> ->]. exists u. split; [done|]. apply lookup_insert_eq. }
  fold x in E. exists b. pose proof Hi as [H1 [H2 H3]%idle_all]%idle_lend.
  split; [by apply spread_snoc|]. split; [|split; [done|by rewrite <- lend_above]].
  rewrite fmap_app. simpl. rewrite elem_of_app, list_elem_of_singleton. naive_solver.
Qed.

Lemma responses_kept sts buff l p :
  spread l p → idle_buf buff p → buff ∉ l.*1 → ∀ rs, ∃ k,
  let l' := l ++ k in
  k.*2 = (λ st, _build_response st None) <$> sts ∧ spread l' p ∧ buff ∉ l'.*1 ∧
  foldl (Buf.http_response_of buff) (rs, lend buff [] (lend_all l p)) sts =
    (rs ++ k.*1, lend buff [] (lend_all l' p)).
Proof.
  revert l. induction sts as [|st sts IH]; intros l Hs Hb Hn rs.
  - exists []. cbn [fmap list_fmap foldl]. by rewrite !app_nil_r.
  - cbn [foldl]. unfold Buf.http_response_of at 2. cbn [fst snd]. unfold g_string_assign. rewrite !edit_lend.
    destruct (response_kept st None None false buff [] l p Hs Hb Hn eq_refl) as (b & S1 & N1 & _ & E).
    unfold Buf._build_response. rewrite E. set (x := _build_response_full st None false) in *.
    destruct (IH (l ++ [(b, x)]) S1 Hb N1 (rs ++ [b])) as (k & K1 & K2 & K3 & K4).
    exists ((b, x) :: k). rewrite <- app_assoc in *. cbn [app] in *. split; [by rewrite !fmap_cons, K1|].
    split; [done|]. split; [done|]. rewrite K4. by rewrite <- app_assoc.
Qed.

(** What [protocol_http_init] leaves is what is sent, and is put back. *)
Lemma init_kept p :
  ∃ l o, let r := Buf.protocol_http_init p in
    r = (l.*1, fst <$> o, lend_all (l ++ option_list o) p) ∧ spread (l ++ option_list o) p ∧
    l.*2 = _status_responses <$> HTTP_STATUSES ∧ snd <$> o = _iframe_source.
Proof.
  unfold Buf.protocol_http_init. destruct (get_spec p) as (buff & Hb & ->).
  set (first := [STATUS_200; STATUS_400; STATUS_403; STATUS_405; STATUS_411; STATUS_413; STATUS_426]).
  change HTTP_STATUSES with (first ++ [STATUS_501]). rewrite foldl_app.
  assert (S0 : spread [] p) by (split; [apply NoDup_nil_2|constructor]).
  destruct (responses_kept first buff [] p S0 Hb ltac:(by apply not_elem_of_nil) []) as (k & K1 & K2 & K3 & K4).
  cbn [app] in K2, K3, K4. change (lend_all [] p) with p in K4. rewrite K4. cbn [foldl]. unfold Buf.http_response_of. cbn [fst snd].
  unfold g_string_assign, g_string_append. rewrite !edit_lend.
  destruct (response_kept STATUS_501 None None false buff [] k p K2 Hb K3 eq_refl) as (b7 & _ & N7 & I7 & E7).
  unfold Buf._build_response. rewrite E7.
  assert (Hlen : length k.*1 = 7%nat) by (rewrite length_fmap, <- (length_fmap snd), K1; done).
  rewrite lookup_app_r, Hlen by lia. cbn [Nat.sub lookup list_lookup].
  pose proof I7 as [H1 [H2 H3]%idle_all]%idle_lend.
  rewrite <- lend_above, put_lend, edit_lend by done. cbn [app].
  destruct (response_kept STATUS_501 (Some buff) (Some html_error) false buff html_error k p K2 Hb K3 (conj eq_refl eq_refl))
    as (b & S1 & N1 & _ & E1).
  rewrite E1, edit_lend, insert_app_r_alt, Hlen by lia. cbn [Nat.sub insert list_insert].
  match type of S1 with spread ?x _ => set (l := x) in * end.
  assert (El : k.*1 ++ [b] = l.*1) by (unfold l; by rewrite fmap_app). rewrite El.
  assert (Hl2 : l.*2 = _status_responses <$> HTTP_STATUSES) by (unfold l; rewrite fmap_app, K1; done).
  unfold _iframe_source. destruct cfg_public_address as [addr|].
  - rewrite !edit_lend. cbn [app].
    destruct (response_kept STATUS_200 (Some buff) (Some (qev_buffer_replace_str html_iframe (str "{PUBLIC_ADDRESS}") addr))
      true buff _ l p S1 Hb N1 (conj eq_refl eq_refl)) as (b' & S2 & N2 & _ & E2).
    rewrite E2, edit_lend. rewrite put_lend by (by apply idle_all).
    set (x := _build_response_full STATUS_200 _ true) in *. exists l, (Some (b', x)). split; [done|]. by split.
  - rewrite put_lend by (by apply idle_all). exists l, None. cbn [option_list]. rewrite app_nil_r. done.
Qed.

(** *** The operations *)

Lemma bruteforce_buffers c x y z j fn d fr w p :
  Buf.evs_send_bruteforce c x y z j fn d fr w p = (evs_send_bruteforce c x y z j fn d fr w, p).
Proof.
  unfold Buf.evs_send_bruteforce, evs_send_bruteforce, Buf.evs_make_path.
  destruct (client_cb_new _ _ _ _ w) as [server_cb w1]. destruct (get_spec p) as (b & Hb & ->).
  unfold g_string_assign, g_string_prepend. rewrite edit_lend, deref_lend. cbn [default]. rewrite edit_lend.
  match goal with |- context [edit b clean_path ?P] =>
    assert (E : edit b clean_path P = lend b (evs_make_path x y z) p) end.
  { unfold evs_make_path. destruct (_ =? SLASH); by rewrite edit_lend. }
  rewrite E, deref_lend, send_buffers. cbn [default]. by rewrite put_lend.
Qed.

Lemma cb_buffers c cb code err j fn d fr w p :
  Buf.evs_cb_full c cb code err j fn d fr w p = (evs_cb_full c cb code err j fn d fr w, p).
Proof.
  unfold Buf.evs_cb_full, evs_cb_full. destruct (cb =? 0); [done|].
  destruct (if u32 code =? CODE_OK then _ else _) as [server_cb w1].
  destruct (get_spec p) as (b & Hb & ->). destruct (get_spec (lend b [] p)) as (k & Hk & ->).
  apply idle_lend in Hk as [Hn Hk]. unfold g_string_append.
  rewrite (lend_comm k b) by done. rewrite !edit_lend, (lend_comm b k) by done. rewrite !edit_lend.
  set (jb := cb_json code err j).
  match goal with |- context [edit k ?f ?P] => assert (E : edit k f P = lend k jb (lend b (CB_PATH ++ qev_uint cb) p)) end.
  { unfold jb, cb_json. destruct (negb _); rewrite !edit_lend; by rewrite <- ?app_assoc. }
  rewrite E. rewrite <- lend_comm, deref_lend, lend_comm, deref_lend, send_buffers by done. cbn [default].
  rewrite <- lend_comm by done. rewrite put_lend by (by apply idle_lend). by rewrite put_lend.
Qed.

Lemma tick_buffers w p : Buf.evs_broadcast_tick w p = (w' ← evs_broadcast_tick w; Some (w', p)).
Proof.
  unfold Buf.evs_broadcast_tick, evs_broadcast_tick. destruct (get_spec p) as (b & Hb & ->).
  pose proof (loop_buffers (length (w_broadcasts w)) b [] w p Hb) as H.
  destruct (Buf.broadcast_loop _ b w _) as [[w1 p1]|], (broadcast_loop _ w) as [w2|]; try done.
  destruct H as [-> [s ->]]. cbn [mbind option_bind]. by rewrite put_lend.
Qed.

Lemma responses_buffers p :
  let '(responses, iframe, p') := Buf.protocol_http_init p in
  (∀ i st, HTTP_STATUSES !! i = Some st →
     ∃ b, responses !! i = Some b ∧ lent p' !! b = Some (_status_responses st)) ∧
  deref iframe p' = (_iframe_source, p') ∧
  Buf._cleanup responses iframe p' = p.
Proof.
  destruct (init_kept p) as (l & o & E & Hs & Hl & Ho). rewrite E. split; [|split].
  + intros i st Hi. assert (Hx : l.*2 !! i = Some (_status_responses st)) by (by rewrite Hl, list_lookup_fmap, Hi).
    rewrite list_lookup_fmap in Hx. destruct (l !! i) as [[b t]|] eqn:Hb; [|done]. injection Hx as Hx. simpl in Hx.
    subst t. exists b. rewrite list_lookup_fmap, Hb. split; [done|]. apply lookup_all; [apply Hs|].
    apply elem_of_app. left. by eapply list_elem_of_lookup_2.
  + rewrite <- Ho. destruct o as [[b t]|]; [|done]. apply deref_all; [apply Hs|]. apply elem_of_app. right. by left.
  + unfold Buf._cleanup. pose proof (put_all _ _ Hs) as Hp. rewrite fmap_app, foldl_app in Hp.
    destruct o as [[b t]|]; exact Hp.
Qed.

End Refine.

Section Main.
Context {L : Libs} {C : Config} {BP : BufferPool}.

(** C13. Whatever buffers the pool hands out, sending an event or a callback
    and the tick of the broadcasts put back every buffer that they get, once,
    touch no other, and what goes out is what the model without buffers says.
    The responses that are prepared at start-up are kept in buffers of their
    own until the server exits, which puts all of them back. *)
Theorem buffers_balanced p :
  (∀ c x o cb j w, Buf.protocols_send c x o cb j w p = (protocols_send c x o cb j w, p)) ∧
  (∀ c x y z j fn d fr w, Buf.evs_send_bruteforce c x y z j fn d fr w p =
     (evs_send_bruteforce c x y z j fn d fr w, p)) ∧
  (∀ c cb code err j fn d fr w, Buf.evs_cb_full c cb code err j fn d fr w p =
     (evs_cb_full c cb code err j fn d fr w, p)) ∧
  (∀ w, Buf.evs_broadcast_tick w p = (w' ← evs_broadcast_tick w; Some (w', p))) ∧
  (let '(responses, iframe, p') := Buf.protocol_http_init p in
   (∀ i st, HTTP_STATUSES !! i = Some st →
      ∃ b, responses !! i = Some b ∧ lent p' !! b = Some (_status_responses st)) ∧
   deref iframe p' = (_iframe_source, p') ∧
   Buf._cleanup responses iframe p' = p).
Proof.
  split; [intros; apply send_buffers|]. split; [intros; apply bruteforce_buffers|].
  split; [intros; apply cb_buffers|]. split; [intros; apply tick_buffers|apply responses_buffers].
Qed.

End Main.

(** ** Witness *)

#[local] Existing Instance config0.

Lemma buffers_balanced_witness :
  let p := mkBuffers (<[1%positive := str "held"]> ∅) false in
  let w := set_w_broadcasts (L := libs0) (λ _, [(1%positive, str "5")]) evs_world1 in
  Buf.evs_broadcast_tick (L := libs0) w p = (w' ← evs_broadcast_tick (L := libs0) w; Some (w', p)) ∧
  (let '(r, i, q) := Buf.protocol_http_init (L := libs0) p in size (lent q)) = 10%nat.
Proof.
  intros p w. split; [|vm_compute; reflexivity].
  exact (proj1 (proj2 (proj2 (proj2 (buffers_balanced (L := libs0) p)))) w).
Defined.
