(* ===== verification/Route.v ===== *)
(** Looking up the event that a message names, leaving an event, and registering
    the built-in events of src/evs_qio.c. *)
From Stdlib Require Import ZArith Lia String.
From stdpp Require Import functions base list gmap strings.
From S2P Require Import Prelude Types Libs Path EvsQuery State Callbacks Sub Apps ClientSub Config Raw WebSocket Poll Send Quiet Evs.

Section Route.
Context {L : Libs} {C : Config} {A : Apps L}.

(** A subscription after the client has cancelled it. *)
Definition off_status (st : sub_status) : sub_status :=
  match st with
  | Pending | Tombstoned => Tombstoned
  | _ => Absent
  end.

Context (tbl : EventTable.table).

Lemma clean_path_ok p : bytes_ok p → path_ok (skip_slash (clean_path p)).
Proof.
  intros Hp. assert (H : path_ok (clean_path p)).
  { eapply Forall_impl; [eapply shape_bytes, (clean_path_shape p Hp)|apply path_char_range]. }
  unfold skip_slash. destruct (clean_path p) as [|b l]; [done|]. case_decide || destruct (b =? SLASH); try done.
  all: by inversion H.
Qed.

Lemma query_spec w path :
  represents tbl (w_events w) → bytes_ok path →
  evs_query (w_events w) (clean_path path) = EventTable.query tbl (clean_path path) ∧
  EventTable.query tbl (clean_path path) ≠ QFault.
Proof.
  intros Hr Hp. split; [by apply evs_query_spec, clean_path_ok|].
  unfold EventTable.query. case_decide; [by destruct (tbl !! _)|]. unfold query_child.
  repeat case_match; done.
Qed.

Lemma evs_off_done {LO : LibsOk L} {OC : OffCalm A} ext c cl e x w :
  evs_ok ext w → w_clients w !! c = Some cl → (∀ s, sub_refs s w < 2 ^ 32 - 2) →
  let w' := evs_off c e (Some x) w in
  evs_ok ext w' ∧ calm w w' ∧
  (∀ d s, status d s w' =
     if decide (d = c ∧ ev_sub e x w = Some s) then off_status (status d s w) else status d s w).
Proof.
  intros Hok Hc Hr w'. subst w'. unfold evs_off.
  assert (Hr' : ∀ s, sub_refs s w < 2 ^ 32 - 1) by (intros s; specialize (Hr s); lia).
  pose proof (sub_get_spec e (Some x) false w (cw_subs _ _ (eo_csub _ _ Hok)) Hr') as H.
  destruct (get_ok _ e (Some x) false w Hok Hr') as (K1 & K2 & K3 & K4). cbv zeta in H.
  change (default [] (Some x)) with x in H. destruct (ev_sub e x w) as [s|] eqn:E.
  2: { rewrite H. split; [done|]. split; [done|]. intros d s. rewrite decide_False; [done|naive_solver]. }
  destruct H as (sub & Hs & Hn & Eg). rewrite Eg in *. cbn [fst snd] in *.
  set (w0 := set_w_subs _ w) in *. set (sub0 := set_refs (λ n, n + 1) sub).
  assert (Hs0 : w_subs w0 !! s = Some sub0) by (apply lookup_insert_eq).
  destruct (csub_op_ok (ext_inc s ext) c cl s sub0 Remove w0 K4 Hc Hs0) as (J1 & J2 & J3 & J4).
  { unfold ext_inc. by rewrite fn_lookup_insert. }
  { specialize (Hr s). unfold sub_refs in Hr. rewrite Hs in Hr. simpl. lia. }
  { done. }
  unfold run_csub_op in *. destruct (client_sub_remove c s w0) as [b w1]. cbn [fst snd] in *.
  destruct (unref_ok ext s w1 J1) as (U1 & U2 & U3). split; [done|].
  split; [by etrans; [exact K1|etrans]|].
  assert (Hst : ∀ d z, status d z (sub_unref s w1) = status d z w1) by (intros; unfold status, _sub_get; by rewrite U3).
  intros d z. rewrite Hst. destruct (decide _) as [[-> Ez]|Hne].
  - injection Ez as <-. change (status c s w) with (status c s w0). inversion J3; subst; try done.
    by match goal with X : _ ∈ [Pending; Tombstoned] |- _ => rewrite !elem_of_cons, elem_of_nil in X;
      destruct X as [->|[->|[]]] end.
  - apply J4. naive_solver.
Qed.

Lemma quiet_status w w' d s : quiet w w' → status d s w' = status d s w.
Proof. intros H. unfold status. by rewrite (views_get _ _ d s (quiet_view _ _ H)). Qed.

Lemma on_args_bytes {LO : LibsOk L} json path data :
  bytes_ok json → on_args json = Some (path, data) → bytes_ok path.
Proof.
  unfold on_args. destruct json as [|b rest]; [done|]. intros Hb.
  destruct (b =? DQUOTE); [intros [= <- <-]; by apply Forall_inv_tail in Hb|].
  destruct (b =? LBRACKET); [|done].
  destruct (qev_json_unpack_sa (b :: rest)) as [[p d]|] eqn:E; [|done]. simpl. intros [= <- <-].
  by eapply json_unpack_bytes.
Qed.

(** Registering an event. *)
Lemma add_handler_done prefix path h on off ch w :
  represents tbl (w_events w) → bytes_ok prefix → bytes_ok path →
  let p := evs_make_path (Some prefix) (Some path) None in
  let e := event_init p h on off ch in
  let r := evs_add_handler prefix path h on off ch w in
  let i := EventTable.insert tbl p e in
  represents i.1 (w_events r.2) ∧ r.1 = (if i.2 then Some e else None) ∧
  r.2 = set_w_events (λ _, w_events r.2) w.
Proof.
  intros Ht H1 H2 p e r i. subst r. unfold evs_add_handler. fold p.
  assert (Hp : path_ok (skip_slash p)).
  { unfold p, evs_make_path. apply clean_path_ok. cbn [default].
    assert (H : bytes_ok (prefix ++ [SLASH] ++ path ++ [SLASH] ++ [])).
    { rewrite !Forall_app. repeat split; try done; by repeat constructor. }
    destruct (_ =? _); [done|]. by constructor. }
  pose proof (evs_query_insert_refines tbl (w_events w) p h on off ch Ht Hp) as H. cbv zeta in H.
  fold e in H. subst i. destruct (EventTable.insert tbl p e) as [tbl' ok].
  destruct H as (t' & -> & Ht'). by destruct ok.
Qed.


End Route.

Section Init.
Context {L : Libs} {C : Config} {A : Apps L}.

(** The built-in events. *)
Definition qio_events : list event :=
  (λ '(path, h, children),
     event_init (evs_make_path (Some (str "/qio")) (Some (str path)) None) (Some h) (Some evs_no_on_ptr) None
       children) <$> qio_handlers.

Lemma str_bytes s : bytes_ok (str s).
Proof.
  induction s as [|a s IH]; [constructor|]. constructor; [|done].
  unfold byte_ok. destruct a as [[] [] [] [] [] [] [] []]; vm_compute; split; congruence.
Qed.

Lemma qio_init_done tbl w :
  represents tbl (w_events w) →
  let w' := evs_qio_init w in
  represents (spec_all tbl qio_events).1 (w_events w') ∧ w' = set_w_events (λ _, w_events w') w.
Proof.
  unfold evs_qio_init, qio_events. revert tbl w.
  induction qio_handlers as [|[[path h] ch] hs IH]; intros tbl w Ht; [by destruct w|].
  destruct (add_handler_done tbl (str "/qio") (str path) (Some h) (Some evs_no_on_ptr) None ch w Ht)
    as (H1 & _ & H3); [apply str_bytes..|].
  cbn [foldl fmap list_fmap spec_all fst]. cbv zeta in H1. 
  destruct (IH _ _ H1) as [K1 K2]. split; [exact K1|]. etrans; [exact K2|]. rewrite H3. done.
Qed.

(** [evs_qio_init] registers exactly the five built-in events, for the
    paths /qio/callback, /qio/hostname, /qio/off, /qio/on and /qio/ping, next to
    whatever is registered: an event that has one of the paths already keeps it. *)
Theorem evs_qio_init_correct tbl w :
  represents tbl (w_events w) →
  let w' := evs_qio_init w in
  represents (spec_all tbl qio_events).1 (w_events w') ∧ w' = set_w_events (λ _, w_events w') w.
Proof. intros Ht. by apply qio_init_done. Qed.

End Init.

(** ** Witnesses *)

#[local] Existing Instance config0.

Lemma events_ok_set {L : Libs} ext t w : evs_ok ext w → evs_ok ext (set_w_events (λ _, t) w).
Proof.
  intros [[P1 P2] R B S T N]. split; [by split|done|done|by apply (csub_wf_ext ext w)|done|done].
Qed.

(** The server of Evs.v with the built-in events. *)
Definition route_world : world (L := libs0) := evs_qio_init (L := libs0) evs_world.
Definition qio_table : EventTable.table := (spec_all ∅ qio_events).1.

Lemma evs_qio_init_correct_witness :
  represents qio_table (w_events route_world) ∧
  evs_query (w_events route_world) (str "/qio/callback/7") =
    QEvent (event_init (str "/qio/callback") (Some qio_callback) (Some evs_no_on_ptr) None true) (str "/7").
Proof.
  split; [|vm_compute; reflexivity].
  exact (proj1 (evs_qio_init_correct (L := libs0) ∅ evs_world represents_init)).
Defined.

Lemma route_world_ok :
  represents qio_table (w_events route_world) ∧ evs_ok (L := libs0) (λ _, 0%nat) route_world.
Proof.
  destruct (qio_init_done (L := libs0) ∅ evs_world represents_init) as [H E].
  split; [exact H|]. unfold route_world. rewrite E. apply events_ok_set, evs_world_ok.
Qed.
