(* ===== verification/Receive.v ===== *)
(** Reading events from raw, WebSocket and flash connections: the receiving
    halves of src/protocols_raw.c, src/protocols_rfc6455.c and
    src/protocols_flash.c.

    An operation that reads takes the position [used] in the client's buffer and
    gives a status, the new position and the new state. What the sources
    overwrite in the part of the buffer that they are done with, a path that
    is cleaned in place, is not tracked. *)
From Stdlib Require Import ZArith Lia String.
From stdpp Require Import functions base list gmap strings.
From S2P Require Import Prelude Types Libs Path EvsQuery State Callbacks Sub Apps ClientSub Config Raw WebSocket Poll Send Quiet Evs Route.

Section Receive.
Context {L : Libs} {C : Config} {A : Apps L}.

(** [client->qev_client.rbuff] *)
Definition rbuff (c : cid) (w : world) : bytes :=
  match w_clients w !! c with Some cl => c_rbuff cl | None => [] end.
Definition set_rbuff (c : cid) (b : bytes) : world → world := upd_client c (set_c_rbuff (λ _, b)).

(** ** protocols_raw.c *)

(** [g_strcmp0(str, HANDSHAKE)] reads the buffer as a C string. *)
Definition protocol_raw_handles (rbuff : bytes) : protocol_handles :=
  if bool_decide (cstr rbuff = HANDSHAKE) then PROT_YES
  else if has_prefix (cstr rbuff) HANDSHAKE then PROT_MAYBE
  else PROT_NO.

Definition protocol_raw_handshake (c : cid) (w : world) : protocol_status * world :=
  let w := qev_write c HANDSHAKE w in
  let w := set_rbuff c [] w in
  (PROT_OK, stat_inc raw_handshakes w).

Definition protocol_raw_handle (c : cid) (event : bytes) (w : world) : protocol_status * world :=
  let '(parsed, errno) := raw_parse (w_errno w) event in
  let w := set_w_errno (λ _, errno) w in
  match parsed with
  | None => (PROT_FATAL, qev_close c RAW_INVALID_EVENT_FORMAT w)
  | Some (ev_path, client_cb, json) => (PROT_OK, evs_route c ev_path client_cb json w)
  end.

Definition protocol_raw_route (c : cid) (used : nat) (w : world) : protocol_status * nat * world :=
  match raw_extract (rbuff c w) used with
  | XAgain => (PROT_AGAIN, used, w)
  | XFatal => (PROT_FATAL, used, w)
  | XEvent event buf total_len =>
      let '(status, w) := protocol_raw_handle c event (set_rbuff c buf w) in
      (status, (used + Z.to_nat total_len)%nat, w)
  end.

Definition protocol_raw_check_handshake (c : cid) (w : world) : bool * world :=
  (bool_decide (cstr (rbuff c w) = HANDSHAKE), set_rbuff c [] w).

Definition protocol_raw_do_heartbeat (c : cid) (hb : protocol_heartbeat) (heartbeat : bytes)
    (w : world) : world :=
  match w_clients w !! c with
  | None => fault w
  | Some cl =>
      if c_last_recv cl <? hb_dead hb then qev_close c RAW_HEARTATTACK w
      else if c_last_recv cl <? hb_challenge hb then
        evs_send_bruteforce c (Some (str "/qio")) (Some (str "/heartbeat")) None None
          (Some raw_heartbeat_cb) None None w
      else if c_last_send cl <? hb_heartbeat hb then touch_send c (qev_write c heartbeat w)
      else w
  end.

Definition protocol_raw_heartbeat (c : cid) (hb : protocol_heartbeat) : world → world :=
  protocol_raw_do_heartbeat c hb RAW_HEARTBEAT.

(** ** protocols_rfc6455.c *)

(** [_decode], with its calls of [qev_close]: the lengths on success. *)
Definition rfc6455_decode (c : cid) (offset : nat) (w : world) :
    protocol_status * (nat * nat) * world :=
  let '(r, buf) := _decode (rbuff c w) offset in
  let w := set_rbuff c buf w in
  match r with
  | DAgain => (PROT_AGAIN, (0, 0)%nat, w)
  | DFatal None => (PROT_FATAL, (0, 0)%nat, w)
  | DFatal (Some reason) => (PROT_FATAL, (0, 0)%nat, qev_close c reason w)
  | DOk len frame_len => (PROT_OK, (Z.to_nat len, Z.to_nat frame_len), w)
  end.

Definition protocol_rfc6455_handles (rbuff : bytes) : protocol_handles := PROT_NO.

Definition protocol_rfc6455_handshake (c : cid) (w : world) : protocol_status * world :=
  let '(status, _, w) := rfc6455_decode c 0 w in
  match status with
  | PROT_OK =>
      let '(good, w) := protocol_raw_check_handshake c w in
      if good then (PROT_OK, qev_write c QIO_HANDSHAKE (stat_inc rfc6455_handshakes_good w))
      else (PROT_FATAL, qev_close c QIO_CLOSE_INVALID_HANDSHAKE (stat_inc rfc6455_handshakes_bad w))
  | status => (status, w)
  end.

Definition protocol_rfc6455_route (c : cid) (used : nat) (w : world) : protocol_status * nat * world :=
  let '(status, (len, frame_len), w) := rfc6455_decode c used w in
  match status with
  | PROT_OK =>
      let buf := wr (rbuff c w) (used + len) NUL in
      let '(status, w) := protocol_raw_handle c (cstr (drop used buf)) (set_rbuff c buf w) in
      (status, (used + frame_len)%nat, w)
  | status => (status, used, w)
  end.

Definition protocol_rfc6455_heartbeat (c : cid) (hb : protocol_heartbeat) : world → world :=
  protocol_raw_do_heartbeat c hb WS_HEARTBEAT.

Definition protocol_rfc6455_close (c : cid) (reason : close_reason) : world → world :=
  qev_write c (close_frame reason).

Definition protocol_rfc6455_upgrade (c : cid) (key : bytes) (w : world) : world :=
  let w := qev_write c (upgrade_response key) w in
  let w := protocols_switch c protocol_rfc6455 w in
  stat_inc rfc6455_upgrades w.

(** ** protocols_flash.c *)

Definition FLASH_POLICY_REQUEST : bytes := str "<policy-file-request/>".
Definition FLASH_POLICY_RESPONSE : bytes :=
  str "<cross-domain-policy><allow-access-from domain=" ++ quoted (str "*") ++
  str " to-ports=" ++ quoted (str "*") ++ str " /></cross-domain-policy>".

Definition protocol_flash_handles (rbuff : bytes) : protocol_handles :=
  if bool_decide (cstr rbuff = FLASH_POLICY_REQUEST) then PROT_YES
  else if rd rbuff 0 =? 60 then PROT_MAYBE
  else PROT_NO.

Definition protocol_flash_handshake (c : cid) (w : world) : protocol_status * world :=
  let w := set_rbuff c [] w in
  let w := qev_write c FLASH_POLICY_RESPONSE w in
  let w := qev_close c QIO_CLOSE_DONE w in
  (PROT_FATAL, stat_inc flash_handshakes w).

End Receive.
