(* ===== verification/Http.v ===== *)
(** Reading HTTP requests: the receiving half of src/protocols_http.c, with
    [protocols_new_surrogate] of src/protocols.c. *)
From Stdlib Require Import ZArith Lia String.
From stdpp Require Import functions base list gmap strings.
From S2P Require Import Prelude Types Libs Path EvsQuery State Callbacks Sub Apps ClientSub Config Raw WebSocket Poll Send Quiet Evs Route Receive.

Section Http.
Context {L : Libs} {C : Config} {A : Apps L}.

(** ** The C library *)

Definition lower (c : Z) : Z := if (65 <=? c) && (c <=? 90) then c + 32 else c.
(** [strcasestr(l, p) != NULL] *)
Definition strcasestr (l p : bytes) : bool :=
  if strstr (map lower l) (map lower p) then true else false.

(** The tokens that [strtok_r] finds in [l]; [cur] is the one being read. *)
Fixpoint tokens (delim : Z) (cur l : bytes) : list bytes :=
  let emit := match cur with [] => [] | _ => [cur] end in
  match l with
  | [] => emit
  | b :: l => if b =? delim then emit ++ tokens delim [] l else tokens delim (cur ++ [b]) l
  end.

(** The string at [l] after [strtok(l, delims)]: it ends where the first token
    ends. *)
Fixpoint span (p : Z → bool) (l : bytes) : bytes * bytes :=
  match l with
  | b :: l' => if p b then let '(x, y) := span p l' in (b :: x, y) else ([], l)
  | [] => ([], [])
  end.
Definition strtok_cut (is_delim : Z → bool) (l : bytes) : bytes :=
  let '(lead, rest) := span is_delim l in
  let '(token, _) := span (λ b, negb (is_delim b)) rest in
  match token with [] => l | _ => lead ++ token end.

(** ** Surrogates *)

Definition protocols_new_surrogate (prot : protocol) (w : world) : option cid * world :=
  match qev_surrogate_new (dom (w_clients w)) with
  | None => (None, w)
  | Some c =>
      let w := set_w_clients <[c := qev_client_new true]> w in
      let w := upd_client c (set_c_prot (λ _, Some prot)) w in
      (Some c, _set_handshaked c w)
  end.

Definition surr_lookup (sid : Z) (w : world) : option cid :=
  w_tables w !! Z.to_nat (sid mod Z.of_nat N_TABLES) ≫= lookup sid.

Definition _surr_find (sid : Z) (or_create : bool) (w : world) : option cid * world :=
  let which := sid mod Z.of_nat N_TABLES in
  match surr_lookup sid w with
  | Some s => (Some s, w)
  | None =>
      if or_create then
        let '(surrogate, w) := protocols_new_surrogate protocol_http w in
        match surrogate with
        | None => (None, w)
        | Some s =>
            let w := touch_send s w in
            let w := upd_http s (λ h, set_h_tbl (λ _, which) (set_h_sid (λ _, sid) h)) w in
            let w := set_w_tables (alter <[sid := s]> (Z.to_nat which)) w in
            (Some s, stat_inc http_surrogates_opened w)
        end
      else (None, w)
  end.

(** The loop of [_get_surrogate], from digit [i], [n] digits to go. *)
Fixpoint parse_sid (n i : nat) (sid : bytes) (uuid : Z) : option Z :=
  match n with
  | O => Some uuid
  | S n =>
      if g_ascii_isxdigit (rd sid i) then
        parse_sid n (S i) sid
          (Z.lor uuid (Z.shiftl (g_ascii_xdigit_value (rd sid i)) (4 * Z.of_nat i)))
      else None
  end.

(** What a URL asks for: the session id and whether it may be new. *)
Definition url_sid (url : bytes) : option (Z * bool) :=
  sid ← strstr url (str "sid=");
  let new_client := if strstr url (str "connect=true") then true else false in
  uuid ← parse_sid 32 0 (strtok_cut (λ b, (b =? 32) || (b =? 38)) (drop 4 sid)) 0;
  Some (uuid, new_client).

(** The URL that [_get_surrogate] leaves. *)
Definition url_left (url : bytes) : bytes :=
  match strstr url (str "sid=") with
  | None => url
  | Some sid =>
      take (length url - length sid + 4) url ++
      strtok_cut (λ b, (b =? 32) || (b =? 38)) (drop 4 sid)
  end.

Definition _get_surrogate (url : bytes) (w : world) : option cid * world :=
  match url_sid url with
  | None => (None, w)
  | Some (uuid, new_client) => _surr_find uuid new_client w
  end.

(** ** Bodies *)

Fixpoint surr_messages (surrogate : cid) (msgs : list bytes) (w : world) : bool * world :=
  match msgs with
  | [] => (true, w)
  | msg :: msgs =>
      let '(status, w) := protocol_raw_handle surrogate msg w in
      match status with
      | PROT_OK => surr_messages surrogate msgs w
      | _ => (false, w)
      end
  end.

Definition _surr_route (surrogate from : cid) (body : bytes) (w : world) : world :=
  let w := upd_http surrogate (set_h_incoming (λ _, true)) w in
  let '(ok, w) := surr_messages surrogate (tokens NEWLINE [] (cstr body)) w in
  if negb ok then (_send_error (Some from) STATUS_400 w).2
  else
    let w := upd_http surrogate (set_h_incoming (λ _, false)) w in
    match w_clients w !! surrogate with
    | None => fault w
    | Some sl =>
        let '(msgs, out) := qev_surrogate_flush (c_out sl) in
        let w := upd_client surrogate (set_c_out (λ _, out)) w in
        match msgs with
        | None => stat_inc http_requests_poll (_surr_replace surrogate from w)
        | Some msgs => stat_inc http_requests_immediate_response (_surr_send surrogate from msgs w)
        end
    end.

Definition _do_body (c : cid) (start : bytes) (w : world) : world :=
  match w_clients w !! c with
  | None => fault w
  | Some cl =>
      (* [_iframe_source] is there exactly when [cfg_public_address] is *)
      match _iframe_source with
      | None => (_send_error (Some c) STATUS_501 w).2
      | Some page =>
          if h_iframe_requested (c_http cl) then
            stat_inc http_requests_iframe (_send_response (Some c) STATUS_200 page w).2
          else if negb (h_is_post (c_http cl)) then
            stat_inc http_requests_invalid_method (_send_error (Some c) STATUS_405 w).2
          else
            match h_client (c_http cl) with
            | None => (_send_error (Some c) STATUS_403 w).2
            | Some surrogate => _surr_route surrogate c start w
            end
      end
  end.

(** ** Headers *)

Definition HTTP_VERSION_KEY : string := "Sec-WebSocket-Version".
Definition HTTP_CHALLENGE_KEY : string := "Sec-WebSocket-Key".
Definition HTTP_PROTOCOL_KEY : string := "Sec-WebSocket-Protocol".
Definition HTTP_CONNECTION : string := "Connection".
Definition HTTP_UPGRADE : string := "Upgrade".

Definition _do_headers_websocket (c : cid) (headers : http_request) (connection key : option bytes)
    (w : world) : protocol_status * world :=
  let protocol := hr_header headers HTTP_PROTOCOL_KEY in
  let upgrade := hr_header headers HTTP_UPGRADE in
  let version := hr_header headers HTTP_VERSION_KEY in
  let upgrading := match connection with Some v => strcasestr v (str "Upgrade") | None => false end in
  if bool_decide (upgrade = None) || negb upgrading then
    (PROT_OK, (_send_error (Some c) STATUS_426 (stat_inc http_upgrade_missing w)).2)
  else
    match key with
    | Some key =>
        if negb (bool_decide (protocol = Some (str "quickio"))) ||
           negb (bool_decide (version = Some (str "13")))
        then (PROT_OK, (_send_error (Some c) STATUS_400 (stat_inc http_upgrade_invalid w)).2)
        else (PROT_AGAIN, protocol_rfc6455_upgrade c key w)
    | None => (PROT_OK, (_send_error (Some c) STATUS_400 (stat_inc http_upgrade_invalid w)).2)
    end.

(** The end of [_do_headers_http], once the length is known. *)
Definition headers_body (c : cid) (headers : http_request) (is_post : bool) (body_len : Z) (w : world) :
    protocol_status * world :=
  let '(surrogate, w) := _get_surrogate (hr_url headers) w in
  let w :=
    match surrogate with
    | None => w
    | Some s =>
        match w_clients w !! s, w_clients w !! c with
        | Some sl, Some cl =>
            if negb (c_closing sl) && negb (c_closing cl) then
              upd_http c (set_h_client (λ _, Some s)) (qev_ref s w)
            else w
        | _, _ => fault w
        end
    end in
  let w := upd_http c (λ h, set_h_body_len (λ _, body_len) (set_h_is_post (λ _, is_post)
             (set_h_iframe_requested (λ _, has_prefix (str "/iframe") (url_left (hr_url headers))) h))) w in
  (PROT_OK, w).

Definition _do_headers_http (c : cid) (headers : http_request) (w : world) : protocol_status * world :=
  let is_post := bool_decide (hr_method headers = str "POST") in
  match hr_header headers HTTP_CONTENT_LENGTH with
  | Some content_len =>
      match qev_safe_strtoull content_len with
      | None => (PROT_FATAL, w)
      | Some body_len => headers_body c headers is_post body_len w
      end
  | None =>
      if is_post then (PROT_FATAL, qev_close c HTTP_LENGTH_REQUIRED w)
      else headers_body c headers is_post 0 w
  end.

(** ** The protocol *)

Definition _has_complete_header (rbuff : bytes) : bool :=
  if strstr (cstr rbuff) [13; 10; 13; 10] then true
  else if strstr (cstr rbuff) [10; 10] then true else false.

Definition HTTP_METHODS : list string :=
  ["GET /"; "POST /"; "OPTIONS /"; "PUT /"; "HEAD /"; "DELETE /"]%string.

Definition protocol_http_handles (rbuff : bytes) : protocol_handles :=
  if negb (_has_complete_header rbuff) then PROT_MAYBE
  else if existsb (λ m, has_prefix (str m) rbuff) HTTP_METHODS then PROT_YES
  else PROT_NO.

(** Whether the connection stays open after the response. *)
Definition stays_open (headers : http_request) : bool :=
  let keep_alive := hr_version headers =? 1 in
  match hr_header headers HTTP_CONNECTION with
  | Some v => if keep_alive then negb (strcasestr v (str "close")) else strcasestr v (str "keep-alive")
  | None => keep_alive
  end.

(** The part of [protocol_http_route] that reads the headers. *)
Definition http_headers (c : cid) (used : nat) (w : world) : protocol_status * nat * world :=
  let buf := rbuff c w in
  let headers := qev_http_request_parse (drop used buf) in
  if negb (hr_ok headers) && hr_incomplete headers then (PROT_AGAIN, used, w)
  else
    let w := (_send_error (Some c) STATUS_200 w).2 in
    let key := hr_header headers HTTP_CHALLENGE_KEY in
    let connection := hr_header headers HTTP_CONNECTION in
    let w := upd_http c (λ h, set_h_keep_alive (λ _, stays_open headers) (set_h_in_request (λ _, true) h)) w in
    let '(status, used, w) :=
      if hr_ok headers then
        match key with
        | Some _ =>
            let '(status, w) := _do_headers_websocket c headers connection key w in
            (status, length buf, w)
        | None =>
            let '(status, w) := _do_headers_http c headers w in
            (status, (used + hr_body headers)%nat, w)
        end
      else (PROT_FATAL, used, w) in
    match status with
    | PROT_FATAL => (status, used, qev_close c HTTP_BAD_REQUEST w)
    | _ => (status, used, w)
    end.

(** The part that waits for the body. *)
Definition http_body_part (c : cid) (used : nat) (w : world) : protocol_status * nat * world :=
  match w_clients w !! c with
  | None => (PROT_FATAL, used, fault w)
  | Some cl =>
      let body_len := h_body_len (c_http cl) in
      match qev_safe_uadd body_len (Z.of_nat used) with
      | None => (PROT_FATAL, used, w)
      | Some len =>
          if Z.of_nat (length (c_rbuff cl)) <? len then (PROT_AGAIN, used, w)
          else
            let w := _do_body c (take (Z.to_nat body_len) (drop used (c_rbuff cl))) w in
            (PROT_OK, (used + Z.to_nat body_len)%nat, upd_http c (set_h_body_len (λ _, 0)) w)
      end
  end.

Definition protocol_http_route (c : cid) (used : nat) (w : world) : protocol_status * nat * world :=
  match w_clients w !! c with
  | None => (PROT_FATAL, used, fault w)
  | Some cl =>
      let w := touch_send c w in
      let '(status, used, w) :=
        if h_body_len (c_http cl) =? 0 then http_headers c used w else (PROT_OK, used, w) in
      match w_clients w !! c with
      | None => (PROT_FATAL, used, fault w)
      | Some cl =>
          if bool_decide (c_prot cl = Some protocol_http) && bool_decide (status = PROT_OK)
          then http_body_part c used w
          else (status, used, w)
      end
  end.

(** ** Session ids *)

(** A session id in the URL: 32 hexadecimal digits, the least significant
    first. *)
Definition sid_text (uuid : Z) : bytes :=
  (λ i, hex_digit (uuid / 16 ^ Z.of_nat i mod 16)) <$> seq 0 32.

Lemma lor_nibble a d k : 0 ≤ a < 2 ^ k → 0 ≤ k → Z.lor a (Z.shiftl d k) = a + d * 2 ^ k.
Proof.
  intros Ha Hk. rewrite Z.shiftl_mul_pow2 by done. symmetry. apply Z.add_nocarry_lor.
  apply Z.bits_inj'. intros n Hn. rewrite Z.land_spec, Z.bits_0.
  destruct (Z.lt_ge_cases n k).
  - rewrite Z.mul_pow2_bits_low by done. apply andb_false_r.
  - rewrite <- (Z.mod_small a (2 ^ k)) by done. by rewrite Z.mod_pow2_bits_high by lia.
Qed.

Lemma parse_sid_bound {LO : LibsOk L} n i sid acc u :
  0 ≤ acc < 16 ^ Z.of_nat i → parse_sid n i sid acc = Some u → 0 ≤ u < 16 ^ Z.of_nat (i + n).
Proof.
  revert i acc. induction n as [|n IH]; intros i acc Ha; simpl.
  - intros [= <-]. by rewrite Nat.add_0_r.
  - destruct (g_ascii_isxdigit _) eqn:E; [|done]. apply xdigit_range in E.
    intros H. rewrite <- Nat.add_succ_comm. eapply IH; [|exact H].
    assert (E2 : 2 ^ (4 * Z.of_nat i) = 16 ^ Z.of_nat i) by (by rewrite Z.pow_mul_r by lia).
    rewrite lor_nibble by (rewrite ?E2; lia). rewrite E2, Nat2Z.inj_succ, Z.pow_succ_r by lia. nia.
Qed.

Lemma parse_sid_digits {LO : LibsOk L} n i uuid rest :
  0 ≤ uuid → (i + n = 32)%nat →
  parse_sid n i (sid_text uuid ++ rest) (uuid mod 16 ^ Z.of_nat i) = Some (uuid mod 16 ^ 32).
Proof.
  intros Hu. revert i. induction n as [|n IH]; intros i Hi; cbn [parse_sid].
  { by replace i with 32%nat by lia. }
  assert (Hrd : rd (sid_text uuid ++ rest) i = hex_digit (uuid / 16 ^ Z.of_nat i mod 16)).
  { unfold rd, sid_text. rewrite lookup_app_l by (rewrite length_fmap, length_seq; lia).
    by rewrite list_lookup_fmap, lookup_seq_lt by lia. }
  rewrite Hrd. set (d := uuid / 16 ^ Z.of_nat i mod 16).
  assert (Hd : 0 ≤ d < 16) by (apply Z.mod_pos_bound; lia).
  destruct (xdigit_hex d Hd) as [-> ->].
  assert (E2 : 2 ^ (4 * Z.of_nat i) = 16 ^ Z.of_nat i) by (by rewrite Z.pow_mul_r by lia).
  pose proof (Z.pow_pos_nonneg 16 (Z.of_nat i) ltac:(lia) ltac:(lia)) as Hp.
  rewrite lor_nibble by (rewrite ?E2; try lia; by apply Z.mod_pos_bound). rewrite E2.
  rewrite <- (IH (S i)) by lia. f_equal. rewrite Nat2Z.inj_succ, Z.pow_succ_r by lia.
  rewrite (Z.mul_comm 16), Z.rem_mul_r by lia. unfold d. lia.
Qed.

Lemma span_app p x y : Forall (λ b, p b = true) x → span p (x ++ y) = (x ++ (span p y).1, (span p y).2).
Proof.
  induction 1 as [|b x Hb Hx IH]; simpl; [by destruct (span p y)|]. by rewrite Hb, IH.
Qed.

(** [strtok] leaves the digits and whatever belongs to the same token. *)
Lemma strtok_digits uuid rest :
  ∃ more, strtok_cut (λ b, (b =? 32) || (b =? 38)) (sid_text uuid ++ rest) = sid_text uuid ++ more.
Proof.
  assert (Hx : ∀ i, let b := hex_digit (uuid / 16 ^ Z.of_nat i mod 16) in (b =? 32) || (b =? 38) = false).
  { intros i. pose proof (Z.mod_pos_bound (uuid / 16 ^ Z.of_nat i) 16 ltac:(lia)).
    unfold hex_digit. case_match; lia. }
  assert (Hall : Forall (λ b, negb ((b =? 32) || (b =? 38)) = true) (sid_text uuid)).
  { apply Forall_fmap, Forall_forall. intros i _. simpl. by rewrite Hx. }
  unfold strtok_cut. assert (Hs : span (λ b, (b =? 32) || (b =? 38)) (sid_text uuid ++ rest) = ([], sid_text uuid ++ rest)).
  { change (sid_text uuid) with (hex_digit (uuid / 16 ^ Z.of_nat 0 mod 16) :: tail (sid_text uuid)).
    simpl app. cbn [span]. by rewrite Hx. }
  rewrite Hs, span_app by done. exists (span (λ b, negb ((b =? 32) || (b =? 38))) rest).1.
  destruct (sid_text uuid ++ _) eqn:E; [done|]. done.
Qed.

(** C35. The session id of a URL is the 128-bit number that its 32 hexadecimal
    digits after "sid=" stand for, least significant first: every number is
    read back from its text, and whatever is read is in range, so that the
    table it selects is one of the 64. Text after the 32nd digit does not
    matter, although it makes the id longer than 32 characters. *)
Theorem url_sid_correct {LO : LibsOk L} url :
  (∀ uuid rest, 0 ≤ uuid < 2 ^ 128 → strstr url (str "sid=") = Some (str "sid=" ++ sid_text uuid ++ rest) →
     url_sid url = Some (uuid, if strstr url (str "connect=true") then true else false)) ∧
  (∀ uuid new_client, url_sid url = Some (uuid, new_client) →
     0 ≤ uuid < 2 ^ 128 ∧ (Z.to_nat (uuid mod Z.of_nat N_TABLES) < N_TABLES)%nat).
Proof.
  unfold url_sid. split.
  - intros uuid rest Hu Es. rewrite Es. cbn [mbind option_bind].
    change (drop 4 (str "sid=" ++ sid_text uuid ++ rest)) with (sid_text uuid ++ rest).
    destruct (strtok_digits uuid rest) as [more ->].
    pose proof (parse_sid_digits 32 0 uuid more ltac:(lia) eq_refl) as H.
    change (16 ^ Z.of_nat 0) with 1 in H. rewrite Z.mod_1_r in H. rewrite H.
    change (16 ^ 32) with (2 ^ 128). by rewrite Z.mod_small.
  - intros uuid new_client. destruct (strstr url (str "sid=")) as [sid|]; [|done]. cbn [mbind option_bind].
    destruct (parse_sid 32 0 _ 0) as [u|] eqn:E; [|done]. simpl. intros [= <- <-].
    apply parse_sid_bound in E; [|simpl; lia]. split; [exact E|].
    pose proof (Z.mod_pos_bound u (Z.of_nat N_TABLES) ltac:(unfold N_TABLES; lia)). lia.
Qed.

End Http.

(** ** Witnesses *)

Definition demo_url : bytes := str "/?sid=fedcba98765432100123456789abcdef0&connect=true".

Lemma url_sid_correct_witness :
  url_sid (L := libs0) demo_url = Some (338770000845734292516042252062085074415, true) ∧
  (Z.to_nat (338770000845734292516042252062085074415 mod Z.of_nat N_TABLES) < N_TABLES)%nat.
Proof.
  destruct (url_sid_correct (L := libs0) demo_url) as [H1 H2].
  assert (E : url_sid (L := libs0) demo_url = Some (338770000845734292516042252062085074415, true)).
  { rewrite (H1 338770000845734292516042252062085074415 (str "0&connect=true")); [reflexivity|lia|reflexivity]. }
  split; [exact E|]. exact (proj2 (H2 _ _ E)).
Defined.
