(* ===== verification/Keep.v ===== *)
(** What the operations leave alone. A frame is a relation between states that
    allows everything message handling does to any client except through its
    protocol: outputs, references, times, subscriptions, data and callbacks may
    change, and a client may be told to close. The lemmas here say of every
    operation behind [evs_route] that it stays within each frame. So no operation
    but those that read from a client's connection touches its buffer, none but
    those that shake hands changes its protocol, and while the messages of a
    poll are handled no poller comes or goes. *)
From Stdlib Require Import ZArith Lia String.
From stdpp Require Import functions base list gmap strings.
From S2P Require Import Prelude Types Libs Path EvsQuery State Callbacks Sub Apps ClientSub Config Raw WebSocket Poll Send Quiet Evs Route Receive Http.

(** ** Frames *)

(** What message handling may change of a client. *)
Definition message_mask (cl : client) : client :=
  set_c_out (λ _, []) (set_c_closing (λ _, false) (set_c_refs (λ _, 0)
    (set_c_last_send (λ _, 0) (set_c_last_recv (λ _, 0) (set_c_timeout (λ _, false)
    (set_c_subs (λ _, None) (set_c_data (λ _, None) (set_c_cbs (λ _, []) (set_c_cbs_id (λ _, 0) cl))))))))).

Definition inert (f : client → client) : Prop :=
  ∀ cl, message_mask (f cl) = message_mask cl ∧ (c_closing cl = true → c_closing (f cl) = true).

(** An update that takes links and pending requests away. *)
Definition unlinking (f : http_state → http_state) : Prop :=
  ∀ h, f h = set_h_client (λ _, None) h ∨ f h = set_h_in_request (λ _, false) h.

(** The global state that message handling leaves alone. *)
Definition globals {L : Libs} (w : world) :=
  (w_events w, w_broadcasts w, w_tables w, w_now w).

Class Frame {L : Libs} (R : world → world → Prop) : Prop := {
  frame_refl w : R w w;
  frame_trans w1 w2 w3 : R w1 w2 → R w2 w3 → R w1 w3;
  frame_upd c f w : inert f → R w (upd_client c f w);
  frame_world w w' : w_clients w' = w_clients w → globals w' = globals w → R w w';
}.

(** Frames in which pollers may be answered, and in which [p] may become the
    poller of a surrogate that is open. *)
Class Unlinks {L : Libs} (R : world → world → Prop) : Prop :=
  frame_unlink c f w : unlinking f → R w (upd_http c f w).
Class Links {L : Libs} (R : world → world → Prop) (p : cid) : Prop :=
  frame_link s w : closing s w = false → R w (upd_http s (set_h_client (λ _, Some p)) w).

(** Applications stay within the frame. *)
Class AppsSee {L : Libs} (R : world → world → Prop) (A : Apps L) : Prop := {
  as_handler f c x cb j w : R w (app_handler_call f c x cb j w).2;
  as_on f info w : R w (app_on_call f info w).2;
  as_off f c x w : R w (app_off_call f c x w);
  as_cb f c x cb j w : R w (app_cb_call f c x cb j w).2;
}.

#[export] Instance apps0_see (L : Libs) R : Frame R → AppsSee R (apps0 L).
Proof. intros H. split; intros; apply frame_refl. Qed.

(** [w'] is reached from [w] within the frame [R]. *)
Definition kept {L : Libs} (R : world → world → Prop) (w w' : world) : Prop := R w w'.

(** Sending to the HTTP client [s] stays within the frame of [w]. *)
Class SendOk {L : Libs} {C : Config} (R : world → world → Prop) (w : world) (s : cid) : Prop :=
  send_ok frames w1 : kept R w w1 → kept R w (protocol_http_send s frames w1).

Section Frame.
Context {L : Libs} (R : world → world → Prop) {F : Frame R}.

Lemma kept_refl w : kept R w w.
Proof. apply frame_refl. Qed.
Lemma kept_then w w1 w2 : R w1 w2 → kept R w w1 → kept R w w2.
Proof. intros H1 H2. by eapply frame_trans. Qed.
Lemma kept_upd w c f w1 : inert f → kept R w w1 → kept R w (upd_client c f w1).
Proof. intros Hf. by apply kept_then, frame_upd. Qed.
Lemma kept_world w w1 w2 : w_clients w2 = w_clients w1 → globals w2 = globals w1 → kept R w w1 → kept R w w2.
Proof. intros E1 E2. by apply kept_then, frame_world. Qed.
Lemma kept_unlink {U : Unlinks R} w c f w1 : unlinking f → kept R w w1 → kept R w (upd_http c f w1).
Proof. intros Hf. by apply kept_then, frame_unlink. Qed.
Lemma kept_link w s p {K : Links R p} w1 :
  closing s w1 = false → kept R w w1 → kept R w (upd_http s (set_h_client (λ _, Some p)) w1).
Proof. intros Hs. by apply kept_then, frame_link. Qed.
Lemma kept_fault w w1 : kept R w w1 → kept R w (fault w1).
Proof. by apply kept_world. Qed.
Lemma kept_stat w k n w1 : kept R w w1 → kept R w (stat_add k n w1).
Proof. by apply kept_world. Qed.
Lemma kept_sub w s f w1 : kept R w w1 → kept R w (upd_sub s f w1).
Proof. unfold upd_sub. destruct (w_subs w1 !! s); [by apply kept_world|by apply kept_fault]. Qed.

End Frame.

Create HintDb kept.
#[export] Hint Extern 5 (kept _ _ _) => refine (kept_refl _ _) : kept.
#[export] Hint Extern 1 (Frame _) => apply _ : kept.
#[export] Hint Extern 1 (Unlinks _) => apply _ : kept.
#[export] Hint Extern 1 (Links _ _) => apply _ : kept.
#[export] Hint Extern 1 (AppsSee _ _) => apply _ : kept.
#[export] Hint Extern 1 (SendOk _ _ _) => apply _ : kept.
#[export] Hint Resolve kept_fault kept_stat kept_sub : kept.
#[export] Hint Extern 1 (kept _ _ (upd_client _ _ _)) => refine (kept_upd _ _ _ _ _ _ _); [by intros []|] : kept.
#[export] Hint Extern 2 (kept _ _ (upd_http _ _ _)) =>
  refine (kept_unlink _ _ _ _ _ _ _); [by (intros []; auto)|] : kept.
#[export] Hint Extern 1 (kept _ _ (stat_inc _ _)) => refine (kept_stat _ _ _ _ _ _) : kept.
#[export] Hint Extern 1 (kept _ _ (stat_dec _ _)) => refine (kept_stat _ _ _ _ _ _) : kept.
#[export] Hint Extern 2 (kept _ _ (set_w_subs _ ?w)) => refine (kept_world _ _ w _ _ _ _); [done|done|] : kept.
#[export] Hint Extern 2 (kept _ _ (set_w_ev_subs _ ?w)) => refine (kept_world _ _ w _ _ _ _); [done|done|] : kept.
#[export] Hint Extern 2 (kept _ _ (set_ev_sub _ _ _ ?w)) => refine (kept_world _ _ w _ _ _ _); [done|done|] : kept.
#[export] Hint Extern 2 (kept _ _ (set_w_fair _ ?w)) => refine (kept_world _ _ w _ _ _ _); [done|done|] : kept.
#[export] Hint Extern 2 (kept _ _ (set_w_errno _ ?w)) => refine (kept_world _ _ w _ _ _ _); [done|done|] : kept.
#[export] Hint Extern 2 (kept _ _ (set_w_rand _ ?w)) => refine (kept_world _ _ w _ _ _ _); [done|done|] : kept.
#[export] Hint Extern 2 (kept _ _ (set_w_freed _ ?w)) => refine (kept_world _ _ w _ _ _ _); [done|done|] : kept.
#[export] Hint Extern 1 (kept _ _ (qev_unref _ _)) => unfold qev_unref : kept.
#[export] Hint Extern 1 (kept _ _ (qev_ref _ _)) => unfold qev_ref : kept.
#[export] Hint Extern 1 (kept _ _ (qev_write _ _ _)) => unfold qev_write : kept.
#[export] Hint Extern 1 (kept _ _ (qev_close _ _ _)) => unfold qev_close : kept.
#[export] Hint Extern 1 (kept _ _ (touch_send _ _)) => unfold touch_send : kept.
#[export] Hint Extern 1 (kept _ _ (touch_recv _ _)) => unfold touch_recv : kept.
#[export] Hint Extern 1 (kept _ _ (qev_timeout _ _)) => unfold qev_timeout : kept.
#[export] Hint Extern 1 (kept _ _ (qev_timeout_clear _ _)) => unfold qev_timeout_clear : kept.
#[export] Hint Extern 1 (kept _ _ (upd_csub _ _ _ _)) => unfold upd_csub : kept.

(** Goes through every branch of an operation, and leaves its calls to hints. *)
Ltac keep :=
  repeat (case_match; repeat match goal with
    | E : _ = (_, ?w) |- _ => is_var w; apply (f_equal snd) in E; cbn [snd] in E; subst w
    end);
  cbn [snd fst]; eauto 20 with kept.

#[export] Hint Extern 1 (kept _ _ (app_off_call _ _ _ _)) => refine (kept_then _ _ _ _ (as_off _ _ _ _) _) : kept.
#[export] Hint Extern 1 (kept _ _ (app_on_call _ _ _).2) => refine (kept_then _ _ _ _ (as_on _ _ _) _) : kept.
#[export] Hint Extern 1 (kept _ _ (app_handler_call _ _ _ _ _ _).2) => refine (kept_then _ _ _ _ (as_handler _ _ _ _ _ _) _) : kept.
#[export] Hint Extern 1 (kept _ _ (app_cb_call _ _ _ _ _ _).2) => refine (kept_then _ _ _ _ (as_cb _ _ _ _ _ _) _) : kept.

Section Operations.
Context {L : Libs} {C : Config} {A : Apps L} (R : world → world → Prop) {F : Frame R} {AS : AppsSee R A}.

Lemma keep_cb_data_free w d f w1 : kept R w w1 → kept R w (_cb_data_free d f w1).
Proof. intros H. unfold _cb_data_free. keep. Qed.
#[local] Hint Resolve keep_cb_data_free : kept.
Lemma keep_cb_remove w c i w1 : kept R w w1 → kept R w (_cb_remove c i w1).
Proof. intros H. unfold _cb_remove. keep. Qed.
#[local] Hint Resolve keep_cb_remove : kept.
Lemma keep_cb_free w c i w1 : kept R w w1 → kept R w (_cb_free c i w1).
Proof. intros H. unfold _cb_free. keep. Qed.
#[local] Hint Resolve keep_cb_free : kept.
Lemma keep_cb_new w c f d fr w1 : kept R w w1 → kept R w (client_cb_new c f d fr w1).2.
Proof. intros H. unfold client_cb_new. keep. Qed.
#[local] Hint Resolve keep_cb_new : kept.
Lemma keep_cb_take w c id w1 : kept R w w1 → kept R w (client_cb_take c id w1).2.
Proof. intros H. unfold client_cb_take. keep. Qed.
#[local] Hint Resolve keep_cb_take : kept.
Lemma keep_unref_opt w c w1 : kept R w w1 → kept R w (qev_unref_opt c w1).
Proof. intros H. unfold qev_unref_opt. keep. Qed.
#[local] Hint Resolve keep_unref_opt : kept.
Section Links.
Context {U : Unlinks R}.

Lemma keep_steal w c w1 : kept R w w1 → kept R w (_steal_client c w1).2.
Proof. intros H. unfold _steal_client. keep. Qed.
#[local] Hint Resolve keep_steal : kept.
Lemma keep_release w s c w1 : kept R w w1 → kept R w (_surr_release_client s c w1).
Proof. intros H. unfold _surr_release_client. keep. Qed.
#[local] Hint Resolve keep_release : kept.
Lemma keep_response w c st r w1 : kept R w w1 → kept R w (_send_response c st r w1).2.
Proof. intros H. unfold _send_response. keep. Qed.
#[local] Hint Resolve keep_response : kept.
Lemma keep_error w c st w1 : kept R w w1 → kept R w (_send_error c st w1).2.
Proof. intros H. unfold _send_error. keep. Qed.
#[local] Hint Resolve keep_error : kept.
Lemma keep_replace w s p {K : Links R p} w1 : kept R w w1 → kept R w (_surr_replace s p w1).
Proof.
  intros H. unfold _surr_replace. destruct (w_clients w1 !! s) as [sl|] eqn:Hs; [|eauto with kept].
  destruct (w_clients w1 !! p) as [pl|]; [|eauto with kept].
  set (w2 := upd_http s _ w1). assert (H2 : kept R w w2) by (subst w2; eauto with kept).
  assert (Hc : closing s (qev_ref p w2) = c_closing sl).
  { transitivity (closing s w1); [|unfold closing; by rewrite Hs]. transitivity (closing s w2); by apply upd_client_proj. }
  assert (H3 : c_closing sl || c_closing pl = false →
    kept R w (upd_http s (set_h_client (λ _, Some p)) (qev_ref p w2))).
  { intros E. apply orb_false_elim in E as [E _]. refine (kept_link _ _ _ _ _ _ _); [by rewrite Hc|eauto with kept]. }
  destruct (c_closing sl || c_closing pl); cbn [negb]; keep.
Qed.
#[local] Hint Resolve keep_replace : kept.
Lemma keep_surr_send w s p {K : Links R p} m w1 : kept R w w1 → kept R w (_surr_send s p m w1).
Proof. intros H. unfold _surr_send. keep. Qed.
#[local] Hint Resolve keep_surr_send : kept.
Lemma keep_http_send w s f w1 : kept R w w1 → kept R w (protocol_http_send s f w1).
Proof. intros H. unfold protocol_http_send. keep. Qed.
#[local] Hint Resolve keep_http_send : kept.

End Links.
#[local] Hint Resolve keep_error : kept.

Lemma keep_send w c f w1 : SendOk R w c → kept R w w1 → kept R w (_send c f w1).
Proof. intros S H. unfold _send, prot_send. keep; simplify_eq; eauto 10 with kept. Qed.
#[local] Hint Resolve keep_send : kept.
Lemma keep_protocols_send w c p x cb j w1 : SendOk R w c → kept R w w1 → kept R w (protocols_send c p x cb j w1).
Proof. intros S H. unfold protocols_send. keep. Qed.
#[local] Hint Resolve keep_protocols_send : kept.
Lemma keep_cb_full w c cb code e j f d fr w1 : SendOk R w c → kept R w w1 → kept R w (evs_cb_full c cb code e j f d fr w1).
Proof. intros S H. unfold evs_cb_full. keep. Qed.
#[local] Hint Resolve keep_cb_full : kept.
Lemma keep_sub_get_if w e x w1 : kept R w w1 → kept R w (_get_if_exists e x w1).2.
Proof. intros H. unfold _get_if_exists. keep. Qed.
#[local] Hint Resolve keep_sub_get_if : kept.
Lemma keep_sub_get w e x b w1 : kept R w w1 → kept R w (sub_get e x b w1).2.
Proof. intros H. unfold sub_get. keep. Qed.
#[local] Hint Resolve keep_sub_get : kept.
Lemma keep_sub_ref w s w1 : kept R w w1 → kept R w (sub_ref s w1).
Proof. intros H. unfold sub_ref. keep. Qed.
#[local] Hint Resolve keep_sub_ref : kept.
Lemma keep_sub_unref w s w1 : kept R w w1 → kept R w (sub_unref s w1).
Proof. intros H. unfold sub_unref. keep. Qed.
#[local] Hint Resolve keep_sub_unref : kept.
Lemma keep_client_off w c s w1 : kept R w w1 → kept R w (evs_client_off c s w1).
Proof. intros H. unfold evs_client_off. keep. Qed.
#[local] Hint Resolve keep_client_off : kept.
Lemma keep_sub_alloc w c w1 : kept R w w1 → kept R w (_sub_alloc c w1).2.
Proof. intros H. unfold _sub_alloc. keep. Qed.
#[local] Hint Resolve keep_sub_alloc : kept.
Lemma keep_sub_free w w1 : kept R w w1 → kept R w (_sub_free w1).
Proof. intros H. unfold _sub_free. keep. Qed.
#[local] Hint Resolve keep_sub_free : kept.
Lemma keep_cleanup w c s b w1 : kept R w w1 → kept R w (_sub_cleanup c s b w1).
Proof. intros H. unfold _sub_cleanup. keep. Qed.
#[local] Hint Resolve keep_cleanup : kept.
Lemma keep_sub_add w c s w1 : kept R w w1 → kept R w (client_sub_add c s w1).2.
Proof. intros H. unfold client_sub_add. keep. Qed.
#[local] Hint Resolve keep_sub_add : kept.
Lemma keep_sub_accept w c s w1 : kept R w w1 → kept R w (client_sub_accept c s w1).2.
Proof. intros H. unfold client_sub_accept. keep. Qed.
#[local] Hint Resolve keep_sub_accept : kept.
Lemma keep_sub_remove' w c s b w1 : kept R w w1 → kept R w (_sub_remove c s b w1).2.
Proof. intros H. unfold _sub_remove. keep. Qed.
#[local] Hint Resolve keep_sub_remove' : kept.
Lemma keep_sub_remove w c s w1 : kept R w w1 → kept R w (client_sub_remove c s w1).2.
Proof. intros H. unfold client_sub_remove. keep. Qed.
#[local] Hint Resolve keep_sub_remove : kept.
Lemma keep_sub_reject w c s w1 : kept R w w1 → kept R w (client_sub_reject c s w1).
Proof. intros H. unfold client_sub_reject. keep. Qed.
#[local] Hint Resolve keep_sub_reject : kept.
Lemma keep_call_cb w f c d cb j w1 : kept R w w1 → kept R w (call_cb f c d cb j w1).2.
Proof. intros H. unfold call_cb. keep. Qed.
#[local] Hint Resolve keep_call_cb : kept.
Lemma keep_fire w c id cb j w1 : SendOk R w c → kept R w w1 → kept R w (client_cb_fire c id cb j w1).2.
Proof. intros S H. unfold client_cb_fire. keep. Qed.
#[local] Hint Resolve keep_fire : kept.
Lemma keep_call_on w f i w1 : kept R w w1 → kept R w (call_on f i w1).2.
Proof. intros H. unfold call_on. keep. Qed.
#[local] Hint Resolve keep_call_on : kept.
Lemma keep_on_cb w b i w1 : SendOk R w (info_client i) → kept R w w1 → kept R w (evs_on_cb b i w1).
Proof. intros S H. unfold evs_on_cb. keep. Qed.
#[local] Hint Resolve keep_on_cb : kept.
Lemma keep_on w c e x cb j w1 : SendOk R w c → kept R w w1 → kept R w (evs_on c e x cb j w1).
Proof. intros S H. unfold evs_on. keep. Qed.
#[local] Hint Resolve keep_on : kept.
Lemma keep_off w c e x w1 : kept R w w1 → kept R w (evs_off c e x w1).
Proof. intros H. unfold evs_off. keep. Qed.
#[local] Hint Resolve keep_off : kept.
Lemma keep_callback w c x cb j w1 : SendOk R w c → kept R w w1 → kept R w (_callback c x cb j w1).2.
Proof. intros S H. unfold _callback. keep. Qed.
#[local] Hint Resolve keep_callback : kept.
Lemma keep_hostname w c cb w1 : SendOk R w c → kept R w w1 → kept R w (_hostname c cb w1).2.
Proof. intros S H. unfold _hostname. keep. Qed.
#[local] Hint Resolve keep_hostname : kept.
Lemma keep_qio_on w c cb j w1 : SendOk R w c → kept R w w1 → kept R w (_on c cb j w1).2.
Proof. intros S H. unfold _on. keep. Qed.
#[local] Hint Resolve keep_qio_on : kept.
Lemma keep_qio_off w c cb j w1 : SendOk R w c → kept R w w1 → kept R w (_off c cb j w1).2.
Proof. intros S H. unfold _off. keep. Qed.
#[local] Hint Resolve keep_qio_off : kept.
Lemma keep_call_handler w f c x cb j w1 : SendOk R w c → kept R w w1 → kept R w (call_handler f c x cb j w1).2.
Proof. intros S H. unfold call_handler. keep. Qed.
#[local] Hint Resolve keep_call_handler : kept.
Lemma keep_answer w st code c cb w1 : SendOk R w c → kept R w w1 → kept R w (route_answer st code c cb w1).
Proof. intros S H. unfold route_answer. keep. Qed.
#[local] Hint Resolve keep_answer : kept.
Lemma keep_route w c p cb j w1 : SendOk R w c → kept R w w1 → kept R w (evs_route c p cb j w1).
Proof. intros S H. unfold evs_route. keep. Qed.
#[local] Hint Resolve keep_route : kept.
Lemma keep_raw_handle w c e w1 : SendOk R w c → kept R w w1 → kept R w (protocol_raw_handle c e w1).2.
Proof. intros S H. unfold protocol_raw_handle. keep. Qed.
#[local] Hint Resolve keep_raw_handle : kept.
Lemma keep_messages w s msgs w1 : SendOk R w s → kept R w w1 → kept R w (surr_messages s msgs w1).2.
Proof. intros S. revert w1. induction msgs as [|m msgs IH]; intros w1 H; simpl; keep. Qed.
Lemma keep_slots (f : cid → world → nat → world) w c l w1 :
  (∀ w1 i, kept R w w1 → kept R w (f c w1 i)) → kept R w w1 → kept R w (foldl (f c) w1 l).
Proof. intros Hf. revert w1. induction l as [|i l IH]; intros w1 H; simpl; auto. Qed.
Lemma keep_prune w c b w1 : kept R w w1 → kept R w (client_cb_prune c b w1).
Proof.
  intros H. unfold client_cb_prune. keep. apply (keep_slots (λ c, prune_slot c b)); [|done].
  intros w2 i H2. unfold prune_slot. keep.
Qed.
#[local] Hint Resolve keep_prune : kept.
Lemma keep_free_all w c w1 : kept R w w1 → kept R w (client_free_all c w1).
Proof.
  intros H. unfold client_free_all. refine (kept_upd _ _ _ _ _ _ _); [by intros []|].
  apply (keep_slots free_slot); [|done]. intros w2 i H2. unfold free_slot. keep.
Qed.
#[local] Hint Resolve keep_free_all : kept.
Lemma keep_client_closed w c w1 : kept R w w1 → kept R w (client_closed c w1).
Proof.
  intros H. unfold client_closed, client_closed_in. generalize (default [] (cl ← w_clients w1 !! c; Some (map_to_list (subs_of cl)).*1)).
  intros order. destruct (w_clients w1 !! c) as [cl|]; [|eauto with kept]. destruct (c_subs cl); [|done].
  refine (kept_upd _ _ _ _ _ _ _); [by intros []|]. clear cl. revert w1 H.
  induction order as [|s order IH]; intros w1 H; simpl; [done|]. apply IH. unfold close_sub. eauto with kept.
Qed.
Lemma keep_bruteforce w c p x y j f d fr w1 :
  SendOk R w c → kept R w w1 → kept R w (evs_send_bruteforce c p x y j f d fr w1).
Proof. intros S H. unfold evs_send_bruteforce. keep. Qed.
#[local] Hint Resolve keep_bruteforce : kept.
Lemma keep_send_sub w c s j f d fr w1 :
  SendOk R w c → kept R w w1 → kept R w (evs_send_sub_full c s j f d fr w1).
Proof. intros S H. unfold evs_send_sub_full. keep. Qed.
Lemma keep_raw_heartbeat w c hb b w1 :
  SendOk R w c → kept R w w1 → kept R w (protocol_raw_do_heartbeat c hb b w1).
Proof. intros S H. unfold protocol_raw_do_heartbeat. keep. Qed.
Lemma keep_http_heartbeat {U : Unlinks R} w c hb w1 : kept R w w1 → kept R w (protocol_http_heartbeat c hb w1).
Proof. intros H. unfold protocol_http_heartbeat. keep. Qed.
Lemma keep_bcast_write w c fs w1 : SendOk R w c → kept R w w1 → kept R w (protocols_bcast_write c fs w1).
Proof. intros S H. unfold protocols_bcast_write. keep. Qed.

End Operations.

#[export] Hint Resolve keep_cb_data_free keep_cb_remove keep_cb_free keep_cb_new keep_cb_take
  keep_unref_opt keep_steal keep_release keep_response keep_error keep_replace keep_surr_send
  keep_http_send keep_send keep_protocols_send keep_cb_full keep_sub_get_if keep_sub_get
  keep_sub_ref keep_sub_unref keep_client_off keep_sub_alloc keep_sub_free keep_cleanup keep_sub_add
  keep_sub_accept keep_sub_remove' keep_sub_remove keep_sub_reject keep_call_cb keep_fire
  keep_call_on keep_on_cb keep_on keep_off keep_callback keep_hostname keep_qio_on keep_qio_off
  keep_call_handler keep_answer keep_route keep_raw_handle keep_messages keep_prune keep_free_all
  keep_client_closed keep_bruteforce keep_send_sub keep_raw_heartbeat keep_http_heartbeat keep_bcast_write : kept.


(** ** Views

    A view is what one looks at of a client; what does not show messages is a
    frame. *)

Section Views.
Context {L : Libs} {X : Type} (v : client → X).

(** An address without a client looks like a client that has just come. *)
Definition seen (d : cid) (w : world) : X := v (default (qev_client_new false) (w_clients w !! d)).

(** All clients look the same. *)
Definition same (w w' : world) : Prop := ∀ d, seen d w' = seen d w.

Class View : Prop := view_mask cl : v (message_mask cl) = v cl.

(** Views that do not show who polls for whom. *)
Class NoLinks : Prop := {
  view_client o cl : v (set_c_http (set_h_client (λ _, o)) cl) = v cl;
  view_request b cl : v (set_c_http (set_h_in_request (λ _, b)) cl) = v cl;
}.

Lemma same_refl w : same w w.
Proof. done. Qed.

Lemma same_clients w w' : w_clients w' = w_clients w → same w w'.
Proof. intros E d. unfold seen. by rewrite E. Qed.

Lemma same_upd c f w : (∀ cl, v (f cl) = v cl) → same w (upd_client c f w).
Proof.
  intros Hf d. unfold seen. rewrite upd_client_at.
  destruct (w_clients w !! d); case_decide; simpl; by rewrite ?Hf.
Qed.

#[export] Instance same_frame : View → Frame same.
Proof.
  intros V. split; [done|..].
  - intros w1 w2 w3 H1 H2 d. by rewrite H2, H1.
  - intros c f w Hf. apply same_upd. intros cl. by rewrite <- view_mask, (proj1 (Hf cl)), view_mask.
  - intros w w' E _. by apply same_clients.
Qed.

#[export] Instance same_unlinks : NoLinks → Unlinks same.
Proof.
  intros N c f w Hf. apply same_upd. intros cl.
  destruct (Hf (c_http cl)) as [E|E]; unfold set_c_http; rewrite E; [apply (view_client None cl)|apply (view_request false cl)].
Qed.

#[export] Instance same_links p : NoLinks → Links same p.
Proof. intros N s w _. apply same_upd. intros cl. apply view_client. Qed.

(** Calm steps change what no view shows. *)
Lemma calm_same {V : View} w w' : calm w w' → same w w'.
Proof.
  intros H d. unfold seen. pose proof (calm_at d w w' H) as E.
  destruct (w_clients w' !! d) as [cl'|], (w_clients w !! d) as [cl|]; try done. apply (inj Some) in E. simpl.
  apply (f_equal message_mask) in E. rewrite <- (view_mask cl'), <- (view_mask cl). f_equal. exact E.
Qed.

#[export] Instance quiet_see (A : Apps L) {V : View} : AppsQuiet A → AppsSee same A.
Proof. intros H. split; intros; apply calm_same; [apply aq_handler|apply aq_on|apply oc_off|apply aq_cb]. Qed.

#[export] Instance nolinks_send {C : Config} w s : View → NoLinks → SendOk same w s.
Proof. intros V N f w1 H. by apply (keep_http_send same). Qed.

End Views.

#[export] Hint Extern 3 (kept (same _) _ (upd_http _ _ _)) =>
  refine (kept_then _ _ _ _ (same_upd _ _ _ _ _) _); [by intros []|] : kept.
#[export] Hint Extern 2 (kept (same _) _ (set_w_tables _ ?w)) =>
  refine (kept_then _ _ w _ _ _); [by apply same_clients|] : kept.
#[export] Hint Extern 1 (kept (same _) _ (_set_handshaked _ _)) => unfold _set_handshaked : kept.
#[export] Hint Extern 1 (kept (same _) _ (protocols_switch _ _ _)) => unfold protocols_switch : kept.
#[export] Hint Extern 3 (kept (same _) _ (upd_client _ _ _)) =>
  refine (kept_then _ _ _ _ (same_upd _ _ _ _ _) _); [by intros []|] : kept.

(** ** What reading is about *)

(** A client's buffer and how much of an HTTP body is still to come. *)
Definition inbox_view (cl : client) : bytes * Z := (c_rbuff cl, h_body_len (c_http cl)).
#[export] Instance inbox_is_view : View inbox_view.
Proof. done. Qed.
#[export] Instance inbox_no_links : NoLinks inbox_view.
Proof. done. Qed.

Abbreviation inbox := (seen inbox_view).
Abbreviation AppsKeep := (AppsSee (same inbox_view)).
Abbreviation rbs := (kept (same inbox_view)).

(** Which protocol a client speaks, and whether it has shaken hands. *)
Definition prot_view (cl : client) : option protocol * bool * bool :=
  (c_prot cl, c_handshaked cl, c_surrogate cl).
#[export] Instance prot_is_view : View prot_view.
Proof. done. Qed.
#[export] Instance prot_no_links : NoLinks prot_view.
Proof. done. Qed.

(** A message for a surrogate whose own messages are being read stays with it:
    polls and pollers are left alone. *)
Definition poll_view (cl : client) : http_state := c_http cl.
#[export] Instance poll_is_view : View poll_view.
Proof. done. Qed.

Lemma incoming_send {L : Libs} {C : Config} w s :
  h_incoming (seen poll_view s w) = true → SendOk (same poll_view) w s.
Proof.
  intros Hi frames w1 H. unfold protocol_http_send.
  destruct (w_clients w1 !! s) as [sl|] eqn:E; [|eauto with kept].
  pose proof (H s) as Hs. rewrite <- Hs in Hi. unfold seen, poll_view in Hi. rewrite E in Hi. simpl in Hi.
  rewrite Hi. cbn [negb]. keep.
Qed.

(** ** Reading *)

(** Frames in which surrogates come, and in which everything may change of any
    client but its buffer and the length of its body. *)
Class Reads {L : Libs} (R : world → world → Prop) : Prop := {
  reads_frame :: Frame R;
  reads_new s w : w_clients w !! s = None → R w (set_w_clients <[s := qev_client_new true]> w);
  reads_tables f w : R w (set_w_tables f w);
  reads_upd s f w : (∀ cl, inbox_view (f cl) = inbox_view cl) → R w (upd_client s f w);
}.

(** Frames in which [c] may do anything to itself. *)
Class Owns {L : Libs} (R : world → world → Prop) (c : cid) : Prop :=
  owns_upd f w : R w (upd_client c f w).

Section Reading.
Context {L : Libs} {C : Config} {A : Apps L} {LO : LibsOk L}.
Context (R : world → world → Prop) {RD : Reads R} {AR : AppsSee R A}.

#[export] Instance reads_unlinks : Unlinks R.
Proof. intros c f w Hf. apply reads_upd. intros cl. unfold inbox_view, set_c_http. simpl.
  by destruct (Hf (c_http cl)) as [E|E]; rewrite E.
Qed.
#[export] Instance reads_links p : Links R p.
Proof. intros s w _. by apply reads_upd. Qed.
#[export] Instance reads_send w s : SendOk R w s.
Proof. intros f w1 H. by apply (keep_http_send R). Qed.

Lemma kept_reads w s f w1 : (∀ cl, inbox_view (f cl) = inbox_view cl) → kept R w w1 → kept R w (upd_client s f w1).
Proof. intros Hf. exact (kept_then R _ _ _ (reads_upd _ _ _ Hf)). Qed.
Lemma kept_tables w f w1 : kept R w w1 → kept R w (set_w_tables f w1).
Proof. exact (kept_then R _ _ _ (reads_tables _ _)). Qed.
#[local] Hint Extern 3 (kept _ _ (upd_client _ _ _)) => refine (kept_reads _ _ _ _ _ _); [by intros []|] : kept.
#[local] Hint Extern 3 (kept _ _ (upd_http _ _ _)) => refine (kept_reads _ _ _ _ _ _); [by intros []|] : kept.
#[local] Hint Extern 1 (kept _ _ (_set_handshaked _ _)) => unfold _set_handshaked : kept.
#[local] Hint Extern 1 (kept _ _ (protocols_switch _ _ _)) => unfold protocols_switch : kept.
#[local] Hint Resolve kept_tables : kept.

Lemma keep_new_surrogate w p w1 : kept R w w1 → kept R w (protocols_new_surrogate p w1).2.
Proof.
  intros H. unfold protocols_new_surrogate. destruct (qev_surrogate_new _) as [s|] eqn:E; [|done].
  apply surrogate_fresh, not_elem_of_dom in E.
  pose proof (kept_then R _ _ _ (reads_new s w1 E) H) as H1. keep.
Qed.
#[local] Hint Resolve keep_new_surrogate : kept.
Lemma keep_surr_find w sid b w1 : kept R w w1 → kept R w (_surr_find sid b w1).2.
Proof. intros H. unfold _surr_find. keep. Qed.
#[local] Hint Resolve keep_surr_find : kept.
Lemma keep_get_surrogate w url w1 : kept R w w1 → kept R w (_get_surrogate url w1).2.
Proof. intros H. unfold _get_surrogate. keep. Qed.
#[local] Hint Resolve keep_get_surrogate : kept.
Lemma keep_surr_route w s c body w1 : kept R w w1 → kept R w (_surr_route s c body w1).
Proof. intros H. unfold _surr_route. keep. Qed.
#[local] Hint Resolve keep_surr_route : kept.
Lemma keep_do_body w c start w1 : kept R w w1 → kept R w (_do_body c start w1).
Proof. intros H. unfold _do_body. keep. Qed.
#[local] Hint Resolve keep_do_body : kept.
Lemma keep_headers_websocket w c h x k w1 : kept R w w1 → kept R w (_do_headers_websocket c h x k w1).2.
Proof. intros H. unfold _do_headers_websocket, protocol_rfc6455_upgrade. keep. Qed.
#[local] Hint Resolve keep_headers_websocket : kept.

Section Own.
Context (c : cid) {OW : Owns R c}.

Lemma kept_own w f w1 : kept R w w1 → kept R w (upd_client c f w1).
Proof. exact (kept_then R _ _ _ (owns_upd _ _)). Qed.
#[local] Hint Extern 2 (kept _ _ (upd_client c _ _)) => refine (kept_own _ _ _ _) : kept.
#[local] Hint Extern 2 (kept _ _ (upd_http c _ _)) => refine (kept_own _ _ _ _) : kept.
#[local] Hint Extern 1 (kept _ _ (set_rbuff c _ _)) => refine (kept_own _ _ _ _) : kept.

Lemma keep_raw_route w used w1 : kept R w w1 → kept R w (protocol_raw_route c used w1).2.
Proof. intros H. unfold protocol_raw_route. keep. Qed.
Lemma keep_decode w used w1 : kept R w w1 → kept R w (rfc6455_decode c used w1).2.
Proof. intros H. unfold rfc6455_decode. keep. Qed.
#[local] Hint Resolve keep_decode : kept.
Lemma keep_ws_route w used w1 : kept R w w1 → kept R w (protocol_rfc6455_route c used w1).2.
Proof. intros H. unfold protocol_rfc6455_route. keep. Qed.
Lemma keep_headers_body w h p n w1 : kept R w w1 → kept R w (headers_body c h p n w1).2.
Proof. intros H. unfold headers_body. keep. Qed.
#[local] Hint Resolve keep_headers_body : kept.
Lemma keep_headers_http w h w1 : kept R w w1 → kept R w (_do_headers_http c h w1).2.
Proof. intros H. unfold _do_headers_http. keep. Qed.
#[local] Hint Resolve keep_headers_http : kept.
Lemma keep_http_headers w used w1 : kept R w w1 → kept R w (http_headers c used w1).2.
Proof. intros H. unfold http_headers. keep. Qed.
#[local] Hint Resolve keep_http_headers : kept.
Lemma keep_http_body w used w1 : kept R w w1 → kept R w (http_body_part c used w1).2.
Proof. intros H. unfold http_body_part. keep. Qed.
#[local] Hint Resolve keep_http_body : kept.
Lemma keep_http_route w used w1 : kept R w w1 → kept R w (protocol_http_route c used w1).2.
Proof. intros H. unfold protocol_http_route. keep. Qed.

End Own.
End Reading.

#[export] Instance inbox_reads (L : Libs) : Reads (same inbox_view).
Proof.
  split; [apply _|..].
  - intros s w E d. unfold seen. simpl. rewrite lookup_insert. case_decide; [|done]. subst d. by rewrite E.
  - intros f w. by apply same_clients.
  - intros s f w Hf. by apply same_upd.
Qed.

(** The reader: everyone else's buffer stays as it is, nobody leaves, and
    nothing is queued. *)
Record reader {L : Libs} (c : cid) (w w' : world) : Prop := {
  re_inbox d : d ≠ c → inbox d w' = inbox d w;
  re_dom d : is_Some (w_clients w !! d) → is_Some (w_clients w' !! d);
  re_queue : w_broadcasts w' = w_broadcasts w;
}.

(** Nothing happens outside the clients and the subscriptions. *)
Definition local {L : Libs} (w w' : world) : Prop := globals w' = globals w.
Abbreviation AppsLocal := (AppsSee local).

Lemma upd_client_globals {L : Libs} c f w : globals (upd_client c f w) = globals w.
Proof. unfold upd_client. by destruct (w_clients w !! c). Qed.

#[export] Instance local_frame (L : Libs) : Frame local.
Proof.
  split; [done|by unfold local; intros w1 w2 w3 <-| |done]. intros c f w _. apply upd_client_globals.
Qed.
#[export] Instance local_unlinks (L : Libs) : Unlinks local.
Proof. intros c f w _. apply upd_client_globals. Qed.
#[export] Instance local_links (L : Libs) p : Links local p.
Proof. intros s w _. apply upd_client_globals. Qed.
#[export] Instance local_send {L : Libs} {C : Config} w s : SendOk local w s.
Proof. intros f w1 H. by apply (keep_http_send local). Qed.

Section Reader.
Context {L : Libs} (c : cid).

Lemma reader_upd d f w :
  (d = c ∨ ∀ cl, inbox_view (f cl) = inbox_view cl) → reader c w (upd_client d f w).
Proof.
  intros Hf. split.
  - intros e He. unfold seen. rewrite upd_client_at. case_decide; [|done]. subst e.
    destruct Hf as [|Hf]; [done|]. destruct (w_clients w !! d); [apply Hf|done].
  - intros e. by rewrite upd_client_dom.
  - unfold upd_client. by destruct (w_clients w !! d).
Qed.

#[export] Instance reader_reads : Reads (reader c).
Proof.
  split; [split|..].
  - by split.
  - intros w1 w2 w3 [I1 D1 Q1] [I2 D2 Q2]. split; [|auto|congruence]. intros d Hd. by rewrite I2, I1.
  - intros d f w Hf. apply reader_upd. right. intros cl. by rewrite <- view_mask, (proj1 (Hf cl)), view_mask.
  - intros w w' E G. split; [intros d _; unfold seen|intros d|]; rewrite ?E; [done..|].
    by injection G.
  - intros s w Hs. split; [| |done].
    + intros d _. unfold seen. simpl. rewrite lookup_insert. case_decide; [|done]. subst d. by rewrite Hs.
    + intros d. simpl. rewrite lookup_insert. by case_decide.
  - intros f w. by split.
  - intros d f w Hf. apply reader_upd. by right.
Qed.

#[export] Instance reader_owns : Owns (reader c) c.
Proof. intros f w. apply reader_upd. by left. Qed.

#[export] Instance reader_see (A : Apps L) : AppsLocal A → AppsQuiet A → AppsSee (reader c) A.
Proof.
  intros K1 K2. assert (H : ∀ w w', calm w w' → local w w' → reader c w w').
  { intros w w' Hc Hl. split; [intros d _; by apply calm_same|intros d; by rewrite (calm_dom d w w' Hc)|by injection Hl]. }
  split; intros; apply H; try apply K1; apply K2.
Qed.

End Reader.
