(* ===== verification/Steady.v ===== *)
(** Steps that leave clients their place: most of what the server does changes
    neither a client's protocol nor its session, and takes links away only. *)
From Stdlib Require Import ZArith Lia String.
From stdpp Require Import functions base list gmap strings relations.
From S2P Require Import Prelude Types Libs Path EvsQuery State Callbacks Sub Apps ClientSub Config Raw WebSocket Poll Send Quiet Evs Broadcast Route Receive Http Keep.

Section Steady.
Context {L : Libs} {C : Config} {A : Apps L}.

(** ** Steady steps

    Most steps leave a client its protocol and its session. Links go away, but for
    those to or from the connection [b] whose request is being read. *)

Definition station (cl : client) : bool * option protocol * bool * (Z * Z * Z) :=
  (c_surrogate cl, c_prot cl, c_handshaked cl,
   (h_sid (c_http cl), h_tbl (c_http cl), h_body_len (c_http cl))).

Record steady (b : option cid) (w w' : world) : Prop := {
  st_station d : station <$> w_clients w' !! d = station <$> w_clients w !! d;
  st_closing d : closing d w = true → closing d w' = true;
  st_link d e : link d w' = Some e →
    link d w = Some e ∨ (closing d w = false ∧ (Some e = b ∨ Some d = b));
  st_events : w_events w' = w_events w;
  st_tables : w_tables w' = w_tables w;
}.

Lemma steady_upd b c f w :
  (∀ cl, station (f cl) = station cl) → (∀ cl, c_closing cl = true → c_closing (f cl) = true) →
  (∀ cl, h_client (c_http (f cl)) = h_client (c_http cl) ∨ h_client (c_http (f cl)) = None) →
  steady b w (upd_client c f w).
Proof.
  intros H1 H2 H3. split.
  - intros d. rewrite upd_client_at. destruct (w_clients w !! d); case_decide; simpl; by rewrite ?H1.
  - intros d. unfold closing. rewrite upd_client_at.
    destruct (w_clients w !! d); case_decide; simpl; auto.
  - intros d e. unfold link. rewrite upd_client_at.
    destruct (w_clients w !! d) as [cl|]; case_decide; simpl; try (by left).
    destruct (H3 cl) as [-> | ->]; [by left|done].
  - unfold upd_client. by destruct (w_clients w !! c).
  - unfold upd_client. by destruct (w_clients w !! c).
Qed.

#[export] Instance steady_frame b : Frame (steady b).
Proof.
  assert (Hst : ∀ cl cl', message_mask cl' = message_mask cl → station cl' = station cl ∧ h_client (c_http cl') = h_client (c_http cl)).
  { intros cl cl' E. split; [exact (f_equal station E)|exact (f_equal (λ x, h_client (c_http x)) E)]. }
  split.
  - intros w. split; auto.
  - intros w1 w2 w3 [S1 C1 L1 E1 T1] [S2 C2 L2 E2 T2]. split; [congruence|auto| |congruence..].
    intros d e H. destruct (L2 d e H) as [H2|[H2 H3]]; [by apply L1|]. right. split; [|done].
    destruct (closing d w1) eqn:E; [|done]. by rewrite C1 in H2.
  - intros c f w Hf. apply steady_upd; intros cl; destruct (Hf cl) as [H1 H2]; destruct (Hst cl (f cl) H1); auto.
  - intros w w' E G. injection G as G1 _ G3 _. split; [intros d|intros d|intros d e| |]; unfold closing, link; rewrite ?E; auto.
Qed.

#[export] Instance steady_unlinks b : Unlinks (steady b).
Proof.
  intros c f w Hf. apply steady_upd; intros cl; unfold set_c_http, station; simpl;
    destruct (Hf (c_http cl)) as [E|E]; rewrite ?E; auto.
Qed.

#[export] Instance steady_links p : Links (steady (Some p)) p.
Proof.
  intros s w Hs. split.
  - intros d. unfold upd_http. rewrite upd_client_at. destruct (w_clients w !! d); by case_decide.
  - intros d. intros H. rewrite <- H. by apply upd_client_proj.
  - intros d e. unfold link, upd_http. rewrite upd_client_at.
    destruct (w_clients w !! d) as [cl|] eqn:E; case_decide; simpl; auto. subst d. intros [= <-]. auto.
  - unfold upd_http, upd_client. by destruct (w_clients w !! s).
  - unfold upd_http, upd_client. by destruct (w_clients w !! s).
Qed.

#[export] Instance steady_send b w s : SendOk (steady b) w s.
Proof. intros f w1 H. by apply (keep_http_send (steady b)). Qed.

Lemma steady_calm b w w' : calm w w' → local w w' → steady b w w'.
Proof.
  intros H Hl. injection Hl as H1 _ H3 _. split; [|..|done|done].
  - intros d. pose proof (calm_at d w w' H) as E. destruct (w_clients w' !! d), (w_clients w !! d); try done.
    apply (inj Some) in E. exact (f_equal (λ x, Some (station x)) E).
  - intros d. by rewrite (calm_closing d w w').
  - intros d e. rewrite (calm_link d w w') by done. by left.
Qed.

#[export] Instance steady_see b : AppsQuiet A → AppsLocal A → AppsSee (steady b) A.
Proof. intros K1 K2. split; intros; (apply steady_calm; [apply K1|apply K2]). Qed.

Lemma steady_some b w w' c cl : steady b w w' → w_clients w !! c = Some cl →
  ∃ cl', w_clients w' !! c = Some cl' ∧ station cl' = station cl.
Proof.
  intros H Hc. pose proof (st_station _ _ _ H c) as E. rewrite Hc in E.
  destruct (w_clients w' !! c) as [cl'|]; [|done]. apply (inj Some) in E. by exists cl'.
Qed.

Lemma steady_field {X} (proj : client → X) (z : X) b w w' c :
  steady b w w' → (∀ cl cl', station cl' = station cl → proj cl' = proj cl) →
  match w_clients w' !! c with Some cl => proj cl | None => z end =
  match w_clients w !! c with Some cl => proj cl | None => z end.
Proof.
  intros H Hp. pose proof (st_station _ _ _ H c) as E.
  destruct (w_clients w' !! c), (w_clients w !! c); try done. apply (inj Some) in E. by apply Hp.
Qed.

Lemma steady_surrogate b w w' c : steady b w w' → is_surrogate c w' = is_surrogate c w.
Proof. intros H. apply (steady_field _ _ b); [done|]. intros cl cl' E. exact (f_equal (λ x, x.1.1.1) E). Qed.

Lemma steady_listener b w w' c : steady b w w' → listener c w → listener c w'.
Proof.
  intros H (cl & Hc & Hp & Hs). destruct (steady_some b w w' c cl H Hc) as (cl' & Hc' & E).
  exists cl'. injection E as -> -> _ _ _ _. done.
Qed.

(** ** Updates of one client *)

Lemma upd_at c cl f d w : w_clients w !! c = Some cl →
  w_clients (upd_client c f w) !! d = if decide (d = c) then Some (f cl) else w_clients w !! d.
Proof. intros Hc. rewrite upd_client_at. case_decide; [subst; by rewrite Hc|done]. Qed.

Lemma upd_field {X} (proj : client → X) (z : X) c cl f d w :
  w_clients w !! c = Some cl → proj (f cl) = proj cl →
  match w_clients (upd_client c f w) !! d with Some x => proj x | None => z end =
  match w_clients w !! d with Some x => proj x | None => z end.
Proof. intros Hc Hf. rewrite (upd_at c cl) by done. case_decide; [subst; by rewrite Hc|done]. Qed.

Lemma poll_wf_upd c cl f w :
  poll_wf w → w_clients w !! c = Some cl →
  c_surrogate (f cl) = c_surrogate cl → h_client (c_http (f cl)) = h_client (c_http cl) →
  (c_closing cl = true → c_closing (f cl) = true) →
  (h_in_request (c_http cl) = true → h_in_request (c_http (f cl)) = true) →
  poll_wf (upd_client c f w).
Proof.
  intros [P1 P2 P3] Hc H1 H2 H3 H4.
  assert (Hs : ∀ d, is_surrogate d (upd_client c f w) = is_surrogate d w)
    by (intros d; by apply (upd_field c_surrogate false c cl)).
  assert (Hl : ∀ d, link d (upd_client c f w) = link d w)
    by (intros d; by apply (upd_field (λ x, h_client (c_http x)) None c cl)).
  assert (Hcl : ∀ d, closing d w = true → closing d (upd_client c f w) = true).
  { intros d. unfold closing. rewrite (upd_at c cl) by done. case_decide; [subst; rewrite Hc; apply H3|done]. }
  assert (Hw : ∀ d, waiting d w = true → waiting d (upd_client c f w) = true).
  { intros d. unfold waiting. rewrite (upd_at c cl) by done. case_decide; [subst; rewrite Hc; apply H4|done]. }
  split.
  - intros d e. rewrite Hl, !Hs, upd_client_dom. apply P1.
  - intros d e. rewrite Hl, Hs. intros E1 E2. by eapply Hw, P2.
  - intros s p. rewrite !Hl, Hs. intros E1 E2 E3. destruct (P3 s p E1) as [E4 E5]; [|done|auto].
    destruct (closing s w) eqn:E; [|done]. destruct (closing p w) eqn:E'; [|done]. by rewrite !Hcl in E2.
Qed.

(** A connection of HTTP. *)
Definition requesting (c : cid) (w : world) : Prop :=
  ∃ cl, w_clients w !! c = Some cl ∧ c_surrogate cl = false ∧ c_prot cl = Some protocol_http.

Lemma requesting_steady b c w w' : steady b w w' → requesting c w → requesting c w'.
Proof.
  intros H (cl & Hc & H1 & H2). destruct (steady_some b w w' c cl H Hc) as (cl' & Hc' & E).
  exists cl'. split; [done|]. by injection E as -> -> _ _ _ _.
Qed.

(** ** Away from one connection

    What leaves the link and the request of [c] alone, and links nobody to it. *)
Record away (c : cid) (w w' : world) : Prop := {
  aw_link : link c w' = link c w;
  aw_waiting : waiting c w' = waiting c w;
  aw_links x : link x w' = Some c → link x w = Some c;
}.

Lemma away_upd c d f w :
  (∀ cl, d = c → h_client (c_http (f cl)) = h_client (c_http cl) ∧
    h_in_request (c_http (f cl)) = h_in_request (c_http cl)) →
  (∀ cl, h_client (c_http (f cl)) = Some c → h_client (c_http cl) = Some c) →
  away c w (upd_client d f w).
Proof.
  intros H1 H2. split; [..|intros x]; unfold link, waiting; rewrite upd_client_at;
    (case_decide; [subst|done]); destruct (w_clients w !! _); simpl; try done; auto; by apply H1.
Qed.

#[export] Instance away_frame c : Frame (away c).
Proof.
  split.
  - by intros w.
  - intros w1 w2 w3 [L1 W1 X1] [L2 W2 X2]. split; [congruence..|auto].
  - intros d f w Hf.
    assert (E : ∀ cl, c_http (f cl) = c_http cl) by (intros cl; exact (f_equal c_http (proj1 (Hf cl)))).
    apply away_upd; intros cl; by rewrite E.
  - intros w w' E _. unfold link, waiting. split; [..|intros x]; unfold link, waiting; by rewrite E.
Qed.

Lemma away_unlink c d f w w1 : d ≠ c → unlinking f → kept (away c) w w1 → kept (away c) w (upd_http d f w1).
Proof.
  intros Hd Hf H. apply (frame_trans (R := away c) _ _ _ H). apply away_upd; intros cl; [done|]. unfold set_c_http. simpl.
  by destruct (Hf (c_http cl)) as [-> | ->].
Qed.

(** A response to somebody else. *)
Lemma response_away c o st r w w1 :
  (∀ x, link x w ≠ Some c) → o ≠ Some c → kept (away c) w w1 → kept (away c) w (_send_response o st r w1).2.
Proof.
  intros Hn Ho H. unfold _send_response. destruct o as [p|]; [|done].
  assert (Hp : p ≠ c) by congruence. unfold _steal_client.
  destruct (w_clients w1 !! p) as [pl|] eqn:Hpl; cycle 1.
  { cbn. rewrite Hpl. cbn. eauto with kept. }
  assert (Hs : h_client (c_http pl) ≠ Some c).
  { intros E. apply (Hn p), (aw_links _ _ _ H). unfold link. by rewrite Hpl. }
  set (w2 := upd_http p _ w1). assert (H2 : kept (away c) w w2).
  { apply away_unlink; [done|by intros []; left|done]. }
  destruct (w_clients w2 !! p) as [pl2|]; [|eauto with kept].
  match goal with |- context [let '(_, _) := ?t in _] => set (t1 := t) end.
  assert (H3 : kept (away c) w t1.2).
  { subst t1. destruct (h_in_request _); [|done]. cbn [snd].
    assert (H3 : kept (away c) w (upd_http p (set_h_in_request (λ _, false)) w2)).
    { apply away_unlink; [done|by intros []; right|done]. }
    destruct (negb _); destruct (h_client (c_http pl)); eauto 10 with kept. }
  destruct t1 as [sent w3]. cbn [snd] in H3.
  assert (H4 : kept (away c) w (_surr_release_client (h_client (c_http pl)) p w3)).
  { unfold _surr_release_client. destruct (h_client (c_http pl)) as [s|]; [|done].
    destruct (w_clients w3 !! s) as [sl|]; [|eauto with kept]. case_decide; [|done].
    assert (H4 : kept (away c) w (upd_http s (set_h_client (λ _, None)) w3)).
    { apply away_unlink; [congruence|by intros []; left|done]. }
    eauto with kept. }
  destruct sent; cbn [snd]; unfold qev_unref_opt; destruct (h_client (c_http pl)); eauto with kept.
Qed.

Lemma http_send_away c s f w w1 :
  (∀ x, link x w ≠ Some c) → s ≠ c → kept (away c) w w1 → kept (away c) w (protocol_http_send s f w1).
Proof.
  intros Hn Hs H. unfold protocol_http_send.
  destruct (w_clients w1 !! s) as [sl|] eqn:Hsl; [|eauto with kept].
  destruct (fr_def f) as [def|]; [|eauto with kept]. destruct (fr_raw f) as [raw|]; [|eauto with kept].
  match goal with |- context [let '(_, _) := ?t in _] => set (t1 := t) end.
  assert (H3 : kept (away c) w t1.2).
  { subst t1. destruct (negb _); [|done]. unfold _steal_client. rewrite Hsl. cbv beta iota zeta.
    assert (Hp : h_client (c_http sl) ≠ Some c).
    { intros E. apply (Hn s), (aw_links _ _ _ H). unfold link. by rewrite Hsl. }
    assert (H2 : kept (away c) w (upd_http s (set_h_client (λ _, None)) w1)).
    { apply away_unlink; [done|by intros []; left|done]. }
    pose proof (response_away c _ STATUS_200 def _ _ Hn Hp H2) as H4.
    destruct (_send_response _ _ _ _) as [sent w2]. cbn [snd] in *.
    unfold qev_unref_opt. destruct (h_client (c_http sl)); eauto with kept. }
  destruct t1 as [sent w3]. cbn [snd] in H3. destruct (negb sent); eauto with kept.
Qed.

(** Connections whose request awaits its response, and that nobody polls with,
    keep waiting. *)
Definition settled (w w' : world) : Prop :=
  ∀ c, requesting c w → (∀ x, link x w ≠ Some c) → away c w w'.

Definition posed (w w' : world) : Prop := steady None w w' ∧ settled w w'.

#[export] Instance posed_frame : Frame posed.
Proof.
  split.
  - intros w. split; [apply frame_refl|]. intros c _ _. apply frame_refl.
  - intros w1 w2 w3 [S1 A1] [S2 A2]. split; [by eapply frame_trans|]. intros c Hc Hn.
    pose proof (A1 c Hc Hn) as H1. apply (frame_trans (R := away c) _ _ _ H1). apply A2.
    + by eapply requesting_steady.
    + intros x E. by apply (Hn x), (aw_links _ _ _ H1).
  - intros c f w Hf. split; [by apply frame_upd|]. intros d _ _. by apply frame_upd.
  - intros w w' E G. split; [by apply frame_world|]. intros d _ _. by apply frame_world.
Qed.

#[export] Instance posed_send w s : addressee s w → SendOk posed w s.
Proof.
  intros (sl & Hs & Ha) f w1 H. apply (frame_trans (R := posed) _ _ _ H). destruct H as [H _].
  split; [exact (keep_http_send (steady None) w1 s f w1 (kept_refl _ w1))|]. intros c (cl & Hc & H1 & H2) Hn.
  apply http_send_away; [done| |apply kept_refl, _]. intros ->.
  destruct (steady_some None w w1 c sl H Hs) as (sl' & Hs' & E). rewrite Hc in Hs'. injection Hs' as <-.
  injection E as E1 E2 _ _ _ _. rewrite E1 in H1. rewrite E2 in H2. by rewrite (Ha H2) in H1.
Qed.

End Steady.
