(* ===== verification/Works.v ===== *)
(** Applications that use the server: what their functions may do while the
    server handles a message, and that all of message handling stays within the
    same bounds when it calls them. *)
From Stdlib Require Import ZArith Lia String.
From stdpp Require Import functions base list gmap strings relations.
From S2P Require Import Prelude Types Libs Path EvsQuery State Callbacks Sub Apps ClientSub Config Raw WebSocket Poll Send Quiet Evs Broadcast Route Receive Http Keep Steady.

(** ** Tame steps

    They may send, close, subscribe and make callbacks; they leave each client's
    place, its buffer and the global tables as they are, and make no link. *)

Section Tame.
Context {L : Libs}.

Record tame (w w' : world) : Prop := {
  ta_steady : steady None w w';
  ta_local : local w w';
  ta_inbox : same inbox_view w w';
}.

#[export] Instance tame_frame : Frame tame.
Proof.
  split.
  - intros w. split; apply frame_refl.
  - intros w1 w2 w3 [S1 L1 I1] [S2 L2 I2]. split; by eapply frame_trans.
  - intros c f w Hf. split; by apply frame_upd.
  - intros w w' E G. split; by apply frame_world.
Qed.

#[export] Instance tame_unlinks : Unlinks tame.
Proof. intros c f w Hf. split; by apply frame_unlink. Qed.

#[export] Instance tame_send {C : Config} w s : SendOk tame w s.
Proof. intros f w1 H. by apply (keep_http_send tame). Qed.

Lemma steady_none b w w' : steady None w w' → steady b w w'.
Proof. intros [S K Li E T]. split; try done. intros d e H. destruct (Li d e H) as [|[_ [|]]]; [by left|done..]. Qed.

Lemma tame_quiet w w' : quiet w w' → local w w' → tame w w'.
Proof. intros Hq Hl. split; [by apply steady_calm, Hl; apply Hq|done|by apply calm_same, Hq]. Qed.

Lemma tame_dom d w w' : tame w w' → is_Some (w_clients w' !! d) ↔ is_Some (w_clients w !! d).
Proof.
  intros H. rewrite <- (fmap_is_Some station), (st_station _ _ _ (ta_steady _ _ H)). apply fmap_is_Some.
Qed.

Lemma tame_size w w' : tame w w' → size (w_clients w') = size (w_clients w).
Proof.
  intros H. rewrite <- !size_dom. f_equal. apply set_eq. intros d. rewrite !elem_of_dom. by apply tame_dom.
Qed.

Lemma tame_listener c w w' : tame w w' → listener c w' ↔ listener c w.
Proof.
  intros H. split; [|by eapply steady_listener, ta_steady]. intros (cl & Hc & H1 & H2).
  pose proof (st_station _ _ _ (ta_steady _ _ H) c) as E. rewrite Hc in E.
  destruct (w_clients w !! c) as [cl0|] eqn:Hc0; [|done]. apply (inj Some) in E. exists cl0. split; [done|].
  injection E as <- <- _ _ _ _. done.
Qed.

Lemma tame_closing c w w' : tame w w' → closing c w' = false → closing c w = false.
Proof.
  intros H Hc. destruct (closing c w) eqn:E; [|done].
  by rewrite (st_closing _ _ _ (ta_steady _ _ H) c E) in Hc.
Qed.

(** ** Steps of applications *)

(** The step's outcome, where [ext] counts who else holds subscriptions: the
    invariants hold, nothing undefined was accessed, no reference to a client
    was lost, connections that await their response still do, and only clients
    that are open and listen have new subscriptions. *)
Record works (ext : positive → nat) (w w' : world) : Prop := {
  wk_tame : tame w w';
  wk_settled : settled w w';
  wk_ok : evs_ok ext w';
  wk_fault : w_fault w' = w_fault w;
  wk_spare d : spare d w' = spare d w;
  wk_status d s : status d s w' ≠ Absent → status d s w ≠ Absent ∨ listener d w ∧ closing d w = false;
}.

Lemma works_refl ext w : evs_ok ext w → works ext w w.
Proof. intros H. split; [apply frame_refl|intros c _ _; apply frame_refl|done..|by left]. Qed.

Lemma works_eq ext ext' w w' : (∀ s, ext s = ext' s) → works ext w w' → works ext' w w'.
Proof. intros E [T P O F S N]. split; try done. by eapply evs_ok_eq. Qed.

Lemma works_trans ext ext' w w1 w2 : works ext w w1 → works ext' w1 w2 → works ext' w w2.
Proof.
  intros [T1 P1 _ F1 S1 N1] [T2 P2 O2 F2 S2 N2]. split; [by eapply frame_trans| |done|congruence| |].
  - apply (frame_trans (R := posed) w w1 w2); (split; [|done]); [apply T1|apply T2].
  - intros d. by rewrite S2, S1.
  - intros d s Hs. destruct (N2 d s Hs) as [H|[H1 H2]]; [by apply N1|]. right.
    split; [by apply (tame_listener d w w1)|by apply (tame_closing d w w1)].
Qed.

(** Calm steps after which no more subscriptions are there. *)
Lemma works_calm ext w w' :
  calm w w' → local w w' → evs_ok ext w' →
  (∀ d s, status d s w' ≠ Absent → status d s w ≠ Absent ∨ listener d w ∧ closing d w = false) →
  works ext w w'.
Proof.
  intros Hc Hl Hok Hst. split; [| |done|by apply calm_fault|intros d; by apply calm_spare|done].
  - split; [by apply steady_calm|done|by apply calm_same].
  - intros c _ _. split; [by apply calm_link|by apply calm_waiting|]. intros x. by rewrite (calm_link x w w').
Qed.

Lemma works_quiet ext w w' : quiet w w' → local w w' → evs_ok ext w → works ext w w'.
Proof.
  intros Hq Hl Hok. apply works_calm; [apply Hq|done|by eapply quiet_ok|].
  intros d s. rewrite (quiet_status w w') by done. by left.
Qed.

Lemma works_said ext o w w' : said ext o w w' → tame w w' → posed w w' → works ext w w'.
Proof.
  intros H Ht [_ Hp]. split; [done|done|apply H|by eapply sd_fault|intros d; by eapply sd_spare|].
  intros d s. rewrite (said_status ext o d s w w') by done. by left.
Qed.

(** ** Room for references

    [k] more can be taken of each subscription. *)
Definition roomy (k : Z) (ext : positive → nat) (w : world) : Prop :=
  ∀ s, Z.of_nat (ext s + size (w_clients w)) + k < 2 ^ 32.

Lemma uses_clients s (m : gmap cid client) : (uses s (map_items held_subs m) ≤ size m)%nat.
Proof.
  induction m as [|c cl m Hc IH] using map_ind; [done|].
  rewrite map_items_fresh, map_size_insert_None by done. unfold uses in *. rewrite filter_app, length_app.
  assert (H : ∀ l : list positive, NoDup l → (length (filter (.= s) l) ≤ 1)%nat).
  { intros l Hl. apply (NoDup_filter (.= s)) in Hl.
    assert (Hf : ∀ y, y ∈ filter (.= s) l → y = s) by (intros y Hy; by apply list_elem_of_filter in Hy as [-> _]).
    destruct (filter (.= s) l) as [|x [|y l']]; simpl; [lia..|].
    apply NoDup_cons in Hl as [Hl _]. exfalso. apply Hl. rewrite (Hf x), (Hf y) by set_solver. by left. }
  specialize (H (held_subs cl) ltac:(apply NoDup_fst_map_to_list)). lia.
Qed.

Lemma roomy_refs k ext w s : evs_ok ext w → roomy k ext w → 0 ≤ k → sub_refs s w < 2 ^ 32 - k.
Proof.
  intros H Hr Hk. specialize (Hr s). unfold sub_refs. destruct (w_subs w !! s) as [sub|] eqn:Hs; [|lia].
  rewrite (cw_refs _ _ (eo_csub _ _ H) s sub Hs). pose proof (uses_clients s (w_clients w)) as H1.
  fold (all_subs w) in H1. lia.
Qed.

Lemma roomy_tame k ext w w' : tame w w' → roomy k ext w → roomy k ext w'.
Proof. intros H Hr s. rewrite (tame_size w w' H). apply Hr. Qed.

Lemma roomy_inc k s ext w : roomy (k + 1) ext w → roomy k (ext_inc s ext) w.
Proof.
  intros Hr x. specialize (Hr x). unfold ext_inc. destruct (decide (x = s)) as [->|].
  - rewrite fn_lookup_insert. lia.
  - rewrite fn_lookup_insert_ne by done. lia.
Qed.

End Tame.

(** Applications whose functions use the server as its interface allows. They
    are called with what the server passes them, while it holds no more than 8
    references of their kind; one that accepts a subscription itself says that it
    has been handled. *)
Class AppsSound {L : Libs} {C : Config} (A : Apps L) : Prop := {
  sd_off :: OffCalm A;
  sd_see :: AppsSee tame A;
  sd_handler ext f c x cb j w :
    evs_ok ext w → listener c w → roomy 8 ext w → works ext w (app_handler_call f c x cb j w).2;
  sd_on ext f info w :
    evs_ok ext w → listener (info_client info) w → roomy 8 ext w →
    ext (info_sub info) ≠ 0%nat → status (info_client info) (info_sub info) w = Pending →
    let r := app_on_call f info w in
    works ext w r.2 ∧
    (r.1 = EVS_STATUS_OK → status (info_client info) (info_sub info) r.2 ≠ Active);
  sd_cb ext f c d cb j w :
    evs_ok ext w → listener c w → roomy 8 ext w → works ext w (app_cb_call f c d cb j w).2;
}.

(** Those that only decide do. *)
Lemma quiet_sound {L : Libs} {C : Config} (A : Apps L) : AppsQuiet A → AppsLocal A → AppsSound A.
Proof.
  intros Q Lo. split; [apply _|..].
  - split; intros; (apply tame_quiet; [apply Q|apply Lo]).
  - intros. apply works_quiet; [apply Q|apply Lo|done].
  - intros ext f info w Hok _ _ _ Hst. pose proof (aq_on f info w) as Hq. split.
    + apply works_quiet; [done|apply Lo|done].
    + intros _. by rewrite (quiet_status w _), Hst.
  - intros. apply works_quiet; [apply Q|apply Lo|done].
Qed.

#[export] Instance apps0_sound (L : Libs) (C : Config) : AppsSound (apps0 L).
Proof. apply quiet_sound; apply _. Qed.

(** Sound applications stay within the frames that the server is proved in. *)
Section See.
Context {L : Libs} {C : Config} {A : Apps L} {AS : AppsSound A}.

Lemma see_weaken (R R' : world → world → Prop) :
  (∀ w w', R w w' → R' w w') → AppsSee R A → AppsSee R' A.
Proof. intros H [H1 H2 H3 H4]. split; auto. Qed.

#[export] Instance sound_local : AppsLocal A.
Proof. apply (see_weaken tame); [by intros w w' []|apply sd_see]. Qed.
#[export] Instance sound_steady b : AppsSee (steady b) A.
Proof. apply (see_weaken tame); [|apply sd_see]. intros w w' [H _ _]. by apply steady_none. Qed.
#[export] Instance sound_inbox : AppsKeep A.
Proof. apply (see_weaken tame); [by intros w w' []|apply sd_see]. Qed.
#[export] Instance sound_prot : AppsSee (same prot_view) A.
Proof.
  apply (see_weaken tame); [|apply sd_see]. intros w w' H d. unfold seen.
  pose proof (st_station _ _ _ (ta_steady _ _ H) d) as E.
  destruct (w_clients w' !! d), (w_clients w !! d); try done. apply (inj Some) in E.
  exact (f_equal (λ x, (x.1.1.2, x.1.2, x.1.1.1)) E).
Qed.
#[export] Instance sound_reader c : AppsSee (reader c) A.
Proof.
  apply (see_weaken tame); [|apply sd_see]. intros w w' H. split.
  - intros d _. apply H.
  - intros d. by apply tame_dom.
  - pose proof (ta_local _ _ H) as Hl. by injection Hl.
Qed.

End See.

Section Works.
Context {L : Libs} {C : Config} {A : Apps L} {LO : LibsOk L}.

(** ** What applications may call *)

Lemma cb_full_works ext c cb code err j fn d fr w :
  evs_ok ext w → addressee c w → works ext w (evs_cb_full c cb code err j fn d fr w).
Proof.
  intros Hok Ha. destruct (evs_cb_full_said ext c cb code err j fn d fr w Hok Ha) as (v & H & _).
  apply (works_said _ _ _ _ H); [exact (keep_cb_full tame w c cb code err j fn d fr w _ (kept_refl _ w))|].
  exact (keep_cb_full posed w c cb code err j fn d fr w (posed_send w c Ha) (kept_refl _ w)).
Qed.

Lemma send_sub_works ext c s j fn d fr w :
  evs_ok ext w → addressee c w → is_Some (w_subs w !! s) →
  works ext w (evs_send_sub_full c s j fn d fr w).
Proof.
  intros Hok Ha [sub Hs]. pose proof (evs_send_sub_full_said ext c s sub j fn d fr w Hok Ha Hs) as H.
  cbv zeta in H. case_decide; [|rewrite H; by apply works_refl]. destruct H as (v & H & _).
  apply (works_said _ _ _ _ H); [exact (keep_send_sub tame w c s j fn d fr w _ (kept_refl _ w))|].
  exact (keep_send_sub posed w c s j fn d fr w (posed_send w c Ha) (kept_refl _ w)).
Qed.

Lemma protocols_send_works ext c p x cb j w :
  evs_ok ext w → addressee c w → works ext w (protocols_send c p x cb j w).
Proof.
  intros Hok Ha.
  pose proof (protocols_send_spec c p x cb j w (eo_poll _ _ Hok) (eo_prot _ _ Hok) Ha) as He.
  apply (works_said _ _ _ _ (said_emitted _ _ _ _ Hok He)).
  - exact (keep_protocols_send tame w c p x cb j w _ (kept_refl _ w)).
  - exact (keep_protocols_send posed w c p x cb j w (posed_send w c Ha) (kept_refl _ w)).
Qed.

Lemma cb_new_works ext c fn d fr w :
  evs_ok ext w → is_Some (w_clients w !! c) → works ext w (client_cb_new (Some c) fn d fr w).2.
Proof.
  intros Hok [cl Hc]. apply works_quiet; [by eapply cb_new_requested| |done].
  exact (keep_cb_new local w (Some c) fn d fr w (kept_refl _ w)).
Qed.

Lemma works_stat ext k n w : k ∉ sub_stats → evs_ok ext w → works ext w (stat_add k n w).
Proof. intros Hk. by apply works_quiet; [apply quiet_stat|]. Qed.

Lemma works_addressee ext c w w' : works ext w w' → addressee c w → addressee c w'.
Proof.
  intros H (cl & Hc & Ha). destruct (steady_some None w w' c cl) as (cl' & Hc' & E); [apply H|done|].
  exists cl'. split; [done|]. by injection E as -> -> _ _ _ _.
Qed.

Lemma works_listener ext c w w' : works ext w w' → listener c w → listener c w'.
Proof. intros H. by apply tame_listener, H. Qed.

Lemma listener_some c w : listener c w → is_Some (w_clients w !! c).
Proof. intros (cl & -> & _). eauto. Qed.

Lemma works_roomy ext ext' k w w' : works ext' w w' → roomy k ext w → roomy k ext w'.
Proof. intros H. by apply roomy_tame, H. Qed.

Lemma bruteforce_works ext c p x y j fn d fr w :
  evs_ok ext w → addressee c w → works ext w (evs_send_bruteforce c p x y j fn d fr w).
Proof.
  intros Hok Ha. unfold evs_send_bruteforce. pose proof Ha as (cl & Hc & _).
  pose proof (cb_new_works ext c fn d fr w Hok ltac:(by eexists)) as H1.
  destruct (client_cb_new (Some c) fn d fr w) as [v w1]. cbn [snd] in H1.
  set (w2 := protocols_send c _ _ v _ w1).
  assert (H2 : works ext w1 w2) by (apply protocols_send_works; [apply H1|by eapply works_addressee]).
  eapply works_trans; [exact H1|]. eapply works_trans; [exact H2|]. apply works_stat; [set_solver|apply H2].
Qed.

(** What else an application may do to a client: close it, and attach data. *)
Definition own_mask (cl : client) : client :=
  set_c_out (λ _, []) (set_c_closing (λ _, false) (set_c_data (λ _, None) cl)).

Lemma own_works ext c f w :
  is_Some (w_clients w !! c) →
  (∀ cl, own_mask (f cl) = own_mask cl ∧ (c_closing cl = true → c_closing (f cl) = true)) →
  evs_ok ext w → works ext w (upd_client c f w).
Proof.
  intros [cl Hc] Hf [P R B S T N]. destruct (Hf cl) as [H1 H2].
  assert (E : ∀ {Y} (proj : client → Y), (∀ x, proj (own_mask x) = proj x) → proj (f cl) = proj cl).
  { intros Y proj Hp. by rewrite <- Hp, H1, Hp. }
  assert (Eh : c_http (f cl) = c_http cl) by (by apply E).
  assert (Hg : ∀ d s, _sub_get d s (upd_client c f w) = _sub_get d s w).
  { intros d s. unfold _sub_get. rewrite (upd_at c cl) by done. case_decide; [|done]. subst. rewrite Hc.
    simpl. by rewrite (E _ c_subs). }
  split.
  - apply frame_upd. intros x. destruct (Hf x) as [K1 K2]. split; [|done].
    exact (f_equal message_mask K1).
  - intros d _ _. assert (Ef : ∀ x, c_http (f x) = c_http x) by (intros x; exact (f_equal c_http (proj1 (Hf x)))).
    apply away_upd; intros x; by rewrite Ef.
  - split.
    + apply (poll_wf_upd c cl); [done..|by apply E|by rewrite Eh|done|by rewrite Eh].
    + intros d dl. rewrite (upd_at c cl) by done. case_decide; [|apply R]. intros [= <-].
      rewrite (E _ c_handshaked), (E _ c_prot) by done. by apply (R c).
    + intros d dl. rewrite (upd_at c cl) by done. case_decide; [|apply B]. intros [= <-].
      destruct (B c cl Hc) as [B1 B2 B3]. by split; rewrite ?(E _ c_cbs), ?(E _ c_cbs_id).
    + rewrite (upd_client_Some c f cl) by done. apply (csub_wf_ext ext w); try done. intros d. simpl.
      rewrite lookup_insert. case_decide; [|done]. subst. rewrite Hc. simpl. unfold subs_of. by rewrite (E _ c_subs).
    + intros d s. by rewrite Hg.
    + intros d dl. rewrite (upd_at c cl) by done. case_decide; [|apply N]. intros [= <-].
      rewrite (E _ c_subs) by done. by apply (N c).
  - by rewrite (upd_client_Some c f cl).
  - intros d. rewrite (spare_upd c cl) by done. rewrite (E _ c_refs), Eh by done. repeat case_decide; lia.
  - intros d s. unfold status. rewrite Hg. by left.
Qed.

Lemma close_works ext c r w : evs_ok ext w → is_Some (w_clients w !! c) → works ext w (qev_close c r w).
Proof. intros Hok Hc. apply own_works; [done|by intros []|done]. Qed.

Lemma client_set_works ext c k v w : evs_ok ext w → is_Some (w_clients w !! c) → works ext w (client_set c k v w).
Proof. intros Hok Hc. destruct v as [v|]; [|by apply works_refl]. apply own_works; [done|by intros []|done]. Qed.

Lemma client_del_works ext c k w : evs_ok ext w → is_Some (w_clients w !! c) → works ext w (client_del c k w).
Proof. intros Hok Hc. apply own_works; [done|by intros []|done]. Qed.


(** ** Subscriptions *)

Section Off.
Context {OC : OffCalm A} {AL : AppsLocal A}.

Lemma sub_spec_new clo pe ro op st r st' :
  sub_spec clo pe ro op st r st' → st' ≠ Absent → st ≠ Absent ∨ op = Add ∧ clo = false.
Proof.
  destruct 1; intros Hn; auto; left; try done;
    intros ->; match goal with X : Absent ∈ _ |- _ => by apply list_elem_of_In in X as [|[|[]]] end.
Qed.

(** What an operation on a client's table of subscriptions does to the client. *)
Lemma csub_works ext c cl s sub op w :
  evs_ok ext w → w_clients w !! c = Some cl → w_subs w !! s = Some sub → ext s ≠ 0%nat →
  refs sub < 2 ^ 32 - 1 → (op = Accept → status c s w ≠ Active) → (op = Add → listener c w) →
  local w (run_csub_op op c s w).2 → works ext w (run_csub_op op c s w).2.
Proof.
  intros Hok Hc Hs Hext Hr Ha Hl Hlo.
  destruct (csub_op_ok ext c cl s sub op w Hok Hc Hs Hext Hr Ha) as (K1 & K2 & K3 & K4).
  apply works_calm; [done..|]. intros d x Hx. destruct (decide (d = c ∧ x = s)) as [[-> ->]|Hn]; cycle 1.
  { left. by rewrite <- K4. }
  unfold closing. rewrite Hc.
  destruct (sub_spec_new _ _ _ _ _ _ _ K3 Hx) as [|[-> Hcl]]; [by left|right; auto].
Qed.

(** The answer to a subscription that the caller holds. *)
Lemma on_cb_works ext success info sub w :
  let c := info_client info in
  let s := info_sub info in
  evs_ok ext w → addressee c w → w_subs w !! s = Some sub → ext s ≠ 0%nat →
  refs sub < 2 ^ 32 - 1 → (success = true → status c s w ≠ Active) →
  works ext w (evs_on_cb success info w).
Proof.
  intros c s Hok Ha Hs Hext Hr Hact. unfold evs_on_cb. fold c s. pose proof Ha as (cl & Hc & _).
  assert (H : ∀ code w1, works ext w w1 →
    works ext w (evs_err_cb c (info_client_cb info) code None None w1)).
  { intros code w1 H1. eapply works_trans; [exact H1|]. apply cb_full_works; [apply H1|by eapply works_addressee]. }
  destruct success.
  - pose proof (csub_works ext c cl s sub Accept w Hok Hc Hs Hext Hr ltac:(auto) ltac:(done)) as K.
    pose proof (keep_sub_accept local w c s w (kept_refl _ w)) as Hlo.
    unfold run_csub_op in K. destruct (client_sub_accept c s w) as [st w1]. cbn [snd] in *. by apply H, K.
  - rewrite Hs. apply H.
    apply (csub_works ext c cl s sub Reject w Hok Hc Hs Hext Hr ltac:(done) ltac:(done)).
    exact (keep_sub_reject local w c s w (kept_refl _ w)).
Qed.

End Off.


Lemma ext_inc_at s ext x : ext_inc s ext x = ((if decide (s = x) then 1 else 0) + ext x)%nat.
Proof. unfold ext_inc. case_decide; [subst; by rewrite fn_lookup_insert|by rewrite fn_lookup_insert_ne]. Qed.

(** Taking hold of a subscription, and letting go of it. *)
Lemma unref_works ext s w : evs_ok (ext_inc s ext) w → works ext w (sub_unref s w).
Proof.
  intros Hok. destruct (unref_ok ext s w Hok) as (K1 & K2 & K3).
  apply works_calm; [done|exact (keep_sub_unref local w s w (kept_refl _ w))|done|].
  intros d x. unfold status, _sub_get. rewrite K3. by left.
Qed.

Lemma get_works ext ev x create w :
  evs_ok ext w → roomy 2 ext w →
  let r := sub_get ev x create w in
  match r.1 with Some s => works (ext_inc s ext) w r.2 | None => r.2 = w end.
Proof.
  intros Hok Hr r. assert (Hr1 : ∀ s, sub_refs s w < 2 ^ 32 - 1).
  { intros s. pose proof (roomy_refs 2 ext w s Hok Hr). lia. }
  destruct (get_ok ext ev x create w Hok Hr1) as (K1 & K2 & _ & K4). fold r in K1, K2, K4.
  pose proof (keep_sub_get local w ev x create w (kept_refl _ w)) as Hlo. fold r in Hlo.
  destruct (r.1) as [s|]; [|done]. apply works_calm; [done..|].
  intros d y. unfold status, _sub_get. rewrite K2. by left.
Qed.

(** One more reference to a subscription. *)
Lemma ref_works ext s w :
  evs_ok ext w → roomy 2 ext w → is_Some (w_subs w !! s) → works (ext_inc s ext) w (sub_ref s w).
Proof.
  intros Hok Hr [sub Hs].
  assert (Hr1 : ∀ s, sub_refs s w < 2 ^ 32 - 1).
  { intros z. pose proof (roomy_refs 2 ext w z Hok Hr). lia. }
  pose proof (cw_subs _ _ (eo_csub _ _ Hok)) as Hwf.
  pose proof (get_works ext (sub_ev sub) (Some (sub_ev_extra sub)) false w Hok Hr) as Hg.
  pose proof (sub_get_spec (sub_ev sub) (Some (sub_ev_extra sub)) false w Hwf Hr1) as H. cbv zeta in H.
  cbn [default id] in H. rewrite (subs_in w Hwf s sub Hs) in H. destruct H as (sub' & Hs' & Hn & E).
  rewrite Hs in Hs'. injection Hs' as <-. rewrite E in Hg. cbn [fst snd] in Hg.
  unfold sub_ref, upd_sub. rewrite Hs. specialize (Hr1 s). unfold sub_refs in Hr1. rewrite Hs in Hr1.
  assert (Eu : set_refs (λ n, u32 (n + 1)) sub = set_refs (λ n, n + 1) sub).
  { unfold set_refs. f_equal. unfold u32. apply Z.mod_small. lia. }
  by rewrite Eu.
Qed.

(** While a subscription is held it is there, and there is room for its count. *)
Lemma held_sub ext s w :
  evs_ok ext w → roomy 2 ext w → ext s ≠ 0%nat → ∃ sub, w_subs w !! s = Some sub ∧ refs sub < 2 ^ 32 - 1.
Proof.
  intros Hok Hr Hs. destruct (cw_ext _ _ (eo_csub _ _ Hok) s Hs) as [sub Hsub]. exists sub. split; [done|].
  pose proof (roomy_refs 2 ext w s Hok Hr) as H. unfold sub_refs in H. rewrite Hsub in H. lia.
Qed.

Lemma roomy_le k k' ext w : k' ≤ k → roomy k ext w → roomy k' ext w.
Proof. intros Hk Hr s. specialize (Hr s). lia. Qed.

Lemma ext_inc_held s ext : ext_inc s ext s ≠ 0%nat.
Proof. unfold ext_inc. by rewrite fn_lookup_insert. Qed.

Lemma send_full_works ext c ev x j fn d fr w :
  evs_ok ext w → addressee c w → roomy 3 ext w → works ext w (evs_send_full c ev x j fn d fr w).
Proof.
  intros Hok Ha Hr. unfold evs_send_full. destruct (_ && _); [by apply works_refl|].
  pose proof (get_works ext ev x false w Hok (roomy_le 3 2 ext w ltac:(lia) Hr)) as Hg.
  destruct (sub_get ev x false w) as [[s|] w1]; cbn [fst snd] in Hg; [|subst; by apply works_refl].
  assert (Hr1 : roomy 2 (ext_inc s ext) w1) by (apply roomy_inc; by eapply works_roomy).
  pose proof (wk_ok _ _ _ Hg) as Hok1.
  destruct (held_sub (ext_inc s ext) s w1 Hok1 Hr1 (ext_inc_held s ext)) as (sub & Hs & _).
  assert (H2 : works (ext_inc s ext) w1 (evs_send_sub_full c s j fn d fr w1)).
  { apply send_sub_works; [done|by eapply works_addressee|by eexists]. }
  eapply works_trans; [exact Hg|]. eapply works_trans; [exact H2|]. apply unref_works, H2.
Qed.

(** ** Message handling *)

Section Handling.
Context {AS : AppsSound A}.

(** The application is asked whether a client may subscribe. *)
Lemma on_call_works ext ev info w :
  evs_ok ext w → listener (info_client info) w → roomy 8 ext w →
  ext (info_sub info) ≠ 0%nat → status (info_client info) (info_sub info) w = Pending →
  let r := match on_fn ev with Some f => call_on f info w | None => (EVS_STATUS_OK, w) end in
  works ext w r.2 ∧ (r.1 = EVS_STATUS_OK → status (info_client info) (info_sub info) r.2 ≠ Active).
Proof.
  intros Hok Hl Hr Hs Hst. destruct (on_fn ev) as [[|f]|].
  - split; [by apply works_refl|done].
  - by apply sd_on.
  - split; [by apply works_refl|]. intros _. simpl. by rewrite Hst.
Qed.

Lemma on_cb_done_works ext success info w :
  evs_ok ext w → listener (info_client info) w → roomy 2 ext w → ext (info_sub info) ≠ 0%nat →
  (success = true → status (info_client info) (info_sub info) w ≠ Active) →
  works ext w (evs_on_cb success info w).
Proof.
  intros Hok Hl Hr Hs Hst. destruct (held_sub ext (info_sub info) w Hok Hr Hs) as (sub & Hsub & Hrefs).
  eapply on_cb_works; try done. by apply listener_addressee.
Qed.

Lemma on_works ext c ev ox cb json w :
  evs_ok ext w → listener c w → roomy 9 ext w → works ext w (evs_on c ev ox cb json w).
Proof.
  intros Hok Hl Hr. unfold evs_on.
  assert (Hr3 : ∀ s, sub_refs s w < 2 ^ 32 - 3) by (intros s; pose proof (roomy_refs 9 ext w s Hok Hr); lia).
  pose proof (get_works ext ev ox true w Hok (roomy_le 9 2 ext w ltac:(lia) Hr)) as Hg.
  destruct (get_create ext ev ox w Hok Hr3) as (s & w0 & sub & E & Hs & _ & Hrs & _). rewrite E in *.
  cbn [fst snd] in Hg. cbv beta iota zeta. set (ext1 := ext_inc s ext) in *.
  assert (Hr0 : roomy 8 ext1 w0) by (apply roomy_inc; by eapply works_roomy).
  assert (Hl0 : listener c w0) by (by eapply works_listener).
  pose proof (wk_ok _ _ _ Hg) as Hok0. pose proof Hl0 as (cl & Hc & _).
  assert (Hext : ext1 s ≠ 0%nat) by apply ext_inc_held.
  pose proof (csub_works ext1 c cl s sub Add w0 Hok0 Hc Hs Hext ltac:(lia) ltac:(done) ltac:(done)) as Hadd.
  destruct (csub_op_ok ext1 c cl s sub Add w0 Hok0 Hc Hs Hext ltac:(lia)) as (_ & _ & Hspec & _); [done|].
  pose proof (keep_sub_add local w0 c s w0 (kept_refl _ w0)) as Hlo.
  unfold run_csub_op in *. destruct (client_sub_add c s w0) as [sstate w1]. cbn [fst snd] in *.
  specialize (Hadd Hlo). pose proof (wk_ok _ _ _ Hadd) as Hok1.
  assert (Hl1 : listener c w1) by (by eapply works_listener).
  match goal with |- context [sub_unref s ?W] => assert (H : works ext1 w1 W) end.
  2: { eapply works_trans; [exact Hg|]. eapply works_trans; [exact Hadd|]. eapply works_trans; [exact H|].
       apply unref_works, H. }
  assert (He : ∀ code err j, works ext1 w1 (evs_cb_full c cb code err j None None None w1)).
  { intros. apply cb_full_works; [done|by apply listener_addressee]. }
  destruct sstate; try apply He.
  set (info := mkInfo ox json s c cb).
  assert (Hr1 : roomy 8 ext1 w1) by (by eapply works_roomy).
  assert (Hp : status c s w1 = Pending) by (by inversion Hspec).
  destruct (on_call_works ext1 ev info w1 Hok1 Hl1 Hr1 Hext Hp) as [H1 H2].
  destruct (match on_fn ev with Some f => _ | None => _ end) as [verdict w2]. cbn [fst snd] in *.
  assert (Hcb : verdict ≠ EVS_STATUS_HANDLED → works ext1 w1 (evs_on_cb (bool_decide (verdict = EVS_STATUS_OK)) info w2)).
  { intros _. eapply works_trans; [exact H1|]. apply on_cb_done_works; [apply H1|by eapply works_listener| |done|].
    - eapply works_roomy; [exact H1|]. by eapply roomy_le; [|exact Hr1].
    - intros Hv. apply H2. by apply bool_decide_eq_true_1 in Hv. }
  by destruct verdict; [apply Hcb..|].
Qed.

Lemma off_works ext c ev x w :
  evs_ok ext w → listener c w → roomy 9 ext w → works ext w (evs_off c ev (Some x) w).
Proof.
  intros Hok Hl Hr. pose proof Hl as (cl & Hc & _).
  assert (Hr2 : ∀ s, sub_refs s w < 2 ^ 32 - 2) by (intros s; pose proof (roomy_refs 9 ext w s Hok Hr); lia).
  destruct (evs_off_done ext c cl ev x w Hok Hc Hr2) as (H1 & H2 & H3).
  apply works_calm; [done|exact (keep_off local w c ev (Some x) w (kept_refl _ w))|done|].
  intros d s. rewrite H3. case_decide as Hd; [|by left]. intros Hs. left. intros E. by rewrite E in Hs.
Qed.

Lemma call_cb_works ext fn c d cb json w :
  evs_ok ext w → listener c w → roomy 8 ext w → works ext w (call_cb fn c d cb json w).2.
Proof. intros Hok Hl Hr. destruct fn; [by apply works_refl|by apply sd_cb]. Qed.

Lemma fire_works ext c id cb json w :
  evs_ok ext w → listener c w → roomy 8 ext w → works ext w (client_cb_fire c id cb json w).2.
Proof.
  intros Hok Hl Hr. pose proof Hl as (cl & Hc & _). unfold client_cb_fire.
  assert (H1 : works ext w (client_cb_take c id w).2).
  { apply works_quiet; [by eapply cb_take_quiet; [apply Hok|]|exact (keep_cb_take local w c id w (kept_refl _ w))|done]. }
  destruct (client_cb_take c id w) as [x w1]. cbn [snd] in H1. destruct x as [x|]; cbn [snd].
  - pose proof (call_cb_works ext (cb_fn x) c (cb_data x) cb json w1 (wk_ok _ _ _ H1)
      (works_listener _ _ _ _ H1 Hl) (works_roomy _ _ _ _ _ H1 Hr)) as H2.
    destruct (call_cb (cb_fn x) c (cb_data x) cb json w1) as [st w2]. cbn [snd] in *.
    eapply works_trans; [exact H1|]. eapply works_trans; [exact H2|].
    assert (H3 : works ext w2 (_cb_data_free (cb_data x) (cb_free_fn x) w2)).
    { apply works_quiet; [apply data_free_quiet|exact (keep_cb_data_free local w2 _ _ w2 (kept_refl _ w2))|apply H2]. }
    eapply works_trans; [exact H3|]. apply works_stat; [set_solver|apply H3].
  - eapply works_trans; [exact H1|]. apply cb_full_works; [apply H1|].
    by eapply works_addressee; [exact H1|apply listener_addressee].
Qed.

Context (tbl : gmap bytes event).

Lemma call_handler_works ext h c x cb json w :
  evs_ok ext w → listener c w → roomy 9 ext w → represents tbl (w_events w) → bytes_ok json →
  works ext w (call_handler h c x cb json w).2.
Proof.
  intros Hok Hl Hr Ht Hj. pose proof (listener_addressee c w Hl) as Ha.
  assert (He : ∀ code err j, works ext w (evs_cb_full c cb code err j None None None w))
    by (intros; by apply cb_full_works).
  assert (Hr8 : roomy 8 ext w) by (by eapply roomy_le; [|exact Hr]).
  destruct h; cbn [call_handler].
  - unfold _callback.
    set (p := if rd x 0 =? SLASH then _ else _).
    assert (Hp : works ext w p.2).
    { unfold p. destruct (rd x 0 =? SLASH); [|by apply works_refl].
      destruct (g_ascii_strtoull (drop 1 x)) as [[n len] e].
      apply works_quiet; [split; [by split|by split|done]|done|done]. }
    destruct p as [id w1]. cbn [snd] in Hp. eapply works_trans; [exact Hp|].
    assert (Hl1 : listener c w1) by (by eapply works_listener). destruct (id =? EVS_NO_CALLBACK).
    + apply cb_full_works; [apply Hp|by apply listener_addressee].
    + apply fire_works; [apply Hp|done|by eapply works_roomy].
  - apply He.
  - unfold _off. destruct (negb _); [apply He|].
    destruct (query_spec tbl w (drop 1 json) Ht) as [-> Hq]; [by apply Forall_drop|].
    destruct (EventTable.query tbl _) as [| |e y]; [done|apply He|by apply off_works].
  - unfold _on. destruct (on_args json) as [[path data]|] eqn:Ea; [|apply He].
    destruct (query_spec tbl w path Ht) as [-> Hq]; [by eapply on_args_bytes|].
    destruct (EventTable.query tbl _) as [| |e y]; [done|apply He|by apply on_works].
  - by apply works_refl.
  - by apply sd_handler.
Qed.

(** Whatever event a client sends. *)
Lemma route_works ext c path cb json w :
  evs_ok ext w → listener c w → roomy 9 ext w → represents tbl (w_events w) →
  bytes_ok path → bytes_ok json → works ext w (evs_route c path cb json w).
Proof.
  intros Hok Hl Hr Ht Hp Hj. unfold evs_route.
  destruct (query_spec tbl w path Ht Hp) as [-> Hq].
  destruct (EventTable.query tbl (clean_path path)) as [| |e x]; [done|..].
  - apply cb_full_works; [done|by apply listener_addressee].
  - assert (H1 : works ext w (stat_inc evs_received w)) by (apply works_stat; [set_solver|done]).
    eapply works_trans; [exact H1|]. set (w1 := stat_inc evs_received w) in *.
    set (r := match handler_fn e with Some h => _ | None => _ end).
    assert (H2 : works ext w1 r.2).
    { subst r. destruct (handler_fn e) as [h|]; [|by apply works_refl, H1].
      apply call_handler_works; [apply H1|done|by eapply works_roomy|done|done]. }
    destruct r as [st w2]. cbn [snd] in H2. eapply works_trans; [exact H2|].
    assert (Ha : addressee c w2) by (by eapply works_addressee; [exact H2|apply listener_addressee]).
    destruct st; cbn [route_answer]; [apply cb_full_works; [apply H2|done]..|by apply works_refl, H2].
Qed.

End Handling.

End Works.
