(* ===== verification/Protocols.v ===== *)
(** The dispatcher of src/protocols.c: finding a client's protocol, the
    handshake, the loop that routes what is in the buffer, heartbeats and
    closing; and what quick-event calls: src/qev.c and src/periodic.c. *)
From Stdlib Require Import ZArith Lia String.
From stdpp Require Import functions base list gmap strings.
From S2P Require Import Prelude Types Libs Path EvsQuery State Callbacks Sub Apps ClientSub Config Raw WebSocket Poll Send Quiet Evs Route Receive Http.

Section Protocols.
Context {L : Libs} {C : Config} {A : Apps L}.

(** ** The columns of [_protocols] *)

Definition prot_handles (p : protocol) : bytes → protocol_handles :=
  match p with
  | protocol_http => protocol_http_handles
  | protocol_flash => protocol_flash_handles
  | protocol_raw => protocol_raw_handles
  | protocol_rfc6455 => protocol_rfc6455_handles
  end.

Definition prot_handshake (p : protocol) : option (cid → world → protocol_status * world) :=
  match p with
  | protocol_http => None
  | protocol_flash => Some protocol_flash_handshake
  | protocol_raw => Some protocol_raw_handshake
  | protocol_rfc6455 => Some protocol_rfc6455_handshake
  end.

Definition prot_route (p : protocol) : option (cid → nat → world → protocol_status * nat * world) :=
  match p with
  | protocol_http => Some protocol_http_route
  | protocol_flash => None
  | protocol_raw => Some protocol_raw_route
  | protocol_rfc6455 => Some protocol_rfc6455_route
  end.

Definition prot_heartbeat (p : protocol) : option (cid → protocol_heartbeat → world → world) :=
  match p with
  | protocol_http => Some protocol_http_heartbeat
  | protocol_flash => None
  | protocol_raw => Some protocol_raw_heartbeat
  | protocol_rfc6455 => Some protocol_rfc6455_heartbeat
  end.

Definition prot_close (p : protocol) : option (cid → close_reason → world → world) :=
  match p with
  | protocol_http => Some protocol_http_close
  | protocol_rfc6455 => Some protocol_rfc6455_close
  | _ => None
  end.

(** ** Finding the protocol *)

(** The loop: the first protocol that says yes, or whether one said maybe. *)
Fixpoint find_loop (ps : list protocol) (rbuff : bytes) (supported : bool) : protocol + bool :=
  match ps with
  | [] => inr supported
  | p :: ps =>
      match prot_handles p rbuff with
      | PROT_YES => inl p
      | PROT_MAYBE => find_loop ps rbuff true
      | PROT_NO => find_loop ps rbuff supported
      end
  end.

Definition _find_handler (c : cid) (w : world) : bool * world :=
  match find_loop _protocols (rbuff c w) false with
  | inl p => (true, upd_client c (set_c_prot (λ _, Some p)) w)
  | inr supported => (false, if supported then w else qev_close c QIO_CLOSE_NOT_SUPPORTED w)
  end.

Definition _handshake (c : cid) (handshake : cid → world → protocol_status * world) (w : world) : world :=
  let '(status, w) := handshake c w in
  match status with
  | PROT_OK => _set_handshaked c w
  | PROT_AGAIN => w
  | PROT_FATAL => qev_close c QIO_CLOSE_NOT_SUPPORTED w
  end.

(** ** Routing *)

(** [client->protocol.prot->route(client, &used)], when there is one. *)
Definition prot_step (c : cid) (used : nat) (w : world) : protocol_status * nat * world :=
  match w_clients w !! c with
  | None => (PROT_FATAL, used, fault w)
  | Some cl =>
      match c_prot cl with
      | None => (PROT_FATAL, used, fault w)
      | Some p =>
          match prot_route p with
          | Some route => route c used w
          | None => (PROT_FATAL, used, w)
          end
      end
  end.

(** The loop of [_route], [fuel] rounds at most: the end of [used]. *)
Fixpoint route_loop (fuel : nat) (c : cid) (used : nat) (w : world) : option (nat * world) :=
  match fuel with
  | O => None
  | S fuel =>
      let '(status, used, w) := prot_step c used w in
      match status with
      | PROT_OK =>
          let w := qev_timeout_clear c (touch_recv c w) in
          if (used <? length (rbuff c w))%nat then route_loop fuel c used w else Some (used, w)
      | PROT_AGAIN => Some (used, qev_timeout c w)
      | PROT_FATAL => Some (used, qev_close c QIO_CLOSE_UNKNOWN_ERROR w)
      end
  end.

(** [g_string_erase(rbuff, 0, used)] requires [used <= rbuff->len]. *)
Definition erase (c : cid) (used : nat) (w : world) : world :=
  if (used <=? length (rbuff c w))%nat then set_rbuff c (drop used (rbuff c w)) w else fault w.

Definition _route (c : cid) (w : world) : option world :=
  '(used, w) ← route_loop (S (length (rbuff c w))) c 0 w; Some (erase c used w).

Definition protocols_route (c : cid) (w : world) : option world :=
  let w := touch_recv c w in
  match w_clients w !! c with
  | None => Some w
  | Some cl =>
      let '(found, w) := match c_prot cl with Some _ => (true, w) | None => _find_handler c w end in
      if negb found then Some w
      else if negb (c_handshaked cl) then
        match w_clients w !! c with
        | Some cl =>
            match c_prot cl ≫= prot_handshake with
            | Some handshake => Some (_handshake c handshake w)
            | None => _route c (_set_handshaked c w)
            end
        | None => Some w
        end
      else _route c w
  end.

(** ** Heartbeats and closing *)

Definition HEARTBEAT_POLL : Z := qev_sec_to_usec 55.
Definition HEARTBEAT_INTERVAL : Z := qev_sec_to_usec 61.
Definition HEARTBEAT_CHALLENGE_INTERVAL : Z := qev_sec_to_usec (60 * 15).
Definition HEARTBEAT_DEAD : Z := HEARTBEAT_CHALLENGE_INTERVAL + qev_sec_to_usec 60.
Definition PERIODIC_INTERVAL_USEC : Z := qev_sec_to_usec 10.

Definition protocols_heartbeat_get_intervals (w : world) : protocol_heartbeat :=
  let now := w_now w in
  {| hb_timeout := now - qev_ms_to_usec qev_cfg_get_timeout;
     hb_poll := now - HEARTBEAT_POLL + PERIODIC_INTERVAL_USEC;
     hb_heartbeat := now - HEARTBEAT_INTERVAL + PERIODIC_INTERVAL_USEC;
     hb_challenge := now - HEARTBEAT_CHALLENGE_INTERVAL;
     hb_dead := now - HEARTBEAT_DEAD |}.

Definition protocols_heartbeat (c : cid) (hb : protocol_heartbeat) (w : world) : world :=
  match w_clients w !! c with
  | None => fault w
  | Some cl =>
      if c_handshaked cl then
        match c_prot cl with
        | None => fault w
        | Some p => match prot_heartbeat p with Some f => f c hb w | None => w end
        end
      else w
  end.

(** The [memset] clears a union that has no members. *)
Definition protocols_closed (c : cid) (reason : close_reason) (w : world) : world :=
  match w_clients w !! c with
  | None => fault w
  | Some cl =>
      match c_prot cl ≫= prot_close with
      | Some close => close c reason w
      | None => w
      end
  end.

(** ** qev.c and periodic.c *)

Definition qev_on_open (c : cid) (w : world) : world :=
  match w_clients w !! c with
  | None => fault w
  | Some cl => if negb (c_surrogate cl) then qev_timeout c w else w
  end.

Definition qev_on_close (c : cid) (reason : close_reason) (w : world) : world :=
  client_closed c (protocols_closed c reason (qev_timeout_clear c w)).

Definition qev_on_read (c : cid) (w : world) : option world := protocols_route c w.
Definition qev_on_tick (w : world) : option world := evs_broadcast_tick w.

(** [qev_client_free]: the address is free again. *)
Definition qev_client_free (c : cid) (w : world) : world :=
  set_w_clients (delete c) (client_free_all c w).

Definition _foreach_cb (hb : protocol_heartbeat) (cb : Z) (w : world) (c : cid) : world :=
  client_cb_prune c cb (protocols_heartbeat c hb w).

(** [qev_foreach] calls [_foreach_cb] for every client, in several threads; the
    calls are about different clients. [order] is one order of them. *)
Definition periodic_run (order : list cid) (w : world) : world :=
  let hb := protocols_heartbeat_get_intervals w in
  let cb := client_cb_prune_get_before cfg_clients_cb_max_age w in
  foldl (_foreach_cb hb cb) w order.

End Protocols.
