(* ===== verification/Startup.v ===== *)
(** Start-up: [qio_main] of src/quickio.c and the initialisers that it calls, in
    their order, with what they set up in quick-event; where in it applications
    are loaded, and the events that they register then. *)
From Stdlib Require Import ZArith Lia String.
From stdpp Require Import functions base list gmap strings.
From S2P Require Import Prelude Types Libs Path EvsQuery State Callbacks Sub Apps ClientSub Config Raw WebSocket Poll Send Quiet Evs Broadcast Route Receive Http Protocols.

Section Startup.
Context {L : Libs} {C : Config}.

(** ** The options of config.c *)

Inductive cfg_val := VUint64 (n : Z) | VBool (b : bool) | VStr (s : option bytes) | VStrv (l : list bytes).

Inductive cfg_type := QEV_CFG_UINT64 | QEV_CFG_BOOL | QEV_CFG_STR | QEV_CFG_STRV.

Definition val_type (v : cfg_val) : cfg_type :=
  match v with
  | VUint64 _ => QEV_CFG_UINT64 | VBool _ => QEV_CFG_BOOL
  | VStr _ => QEV_CFG_STR | VStrv _ => QEV_CFG_STRV
  end.

(** The variables of config.h that the options set. *)
Inductive cfg_var :=
  | var_broadcast_threads | var_clients_cb_max_age | var_clients_subs_total | var_clients_subs_pressure
  | var_clients_subs_min | var_periodic_threads | var_public_address | var_run_app_tests | var_sub_min_size.

(** The validators and the callbacks; the model of each is in Config.v. *)
Inductive cfg_validate := check_client_cb_max_age | check_public_address | check_sub_min_size.
Inductive cfg_cb := update_client_subs_total | update_client_subs_pressure | update_client_subs_min.

(** [struct qev_cfg] *)
Record qev_cfg := mkCfg {
  cfg_name : bytes;
  cfg_ty : cfg_type;
  cfg_ptr : option cfg_var;
  cfg_defval : cfg_val;
  cfg_check : option cfg_validate;
  cfg_update : option cfg_cb;
  cfg_read_only : bool;
}.

Definition _overrides : list qev_cfg :=
  [mkCfg (str "listen") QEV_CFG_STRV None (VStrv [str "[::]:8080"]) None None false].

Definition _cfg : list qev_cfg :=
  [mkCfg (str "broadcast-threads") QEV_CFG_UINT64 (Some var_broadcast_threads) (VUint64 2) None None false;
   mkCfg (str "clients-cb-max-age") QEV_CFG_UINT64 (Some var_clients_cb_max_age) (VUint64 15)
     (Some check_client_cb_max_age) None false;
   mkCfg (str "clients-subs-total") QEV_CFG_UINT64 (Some var_clients_subs_total) (VUint64 4194304)
     None (Some update_client_subs_total) false;
   mkCfg (str "clients-subs-pressure") QEV_CFG_UINT64 (Some var_clients_subs_pressure) (VUint64 60)
     None (Some update_client_subs_pressure) false;
   mkCfg (str "clients-subs-min") QEV_CFG_UINT64 (Some var_clients_subs_min) (VUint64 128)
     None (Some update_client_subs_min) false;
   mkCfg (str "periodic-threads") QEV_CFG_UINT64 (Some var_periodic_threads) (VUint64 8) None None false;
   mkCfg (str "public-address") QEV_CFG_STR (Some var_public_address) (VStr None)
     (Some check_public_address) None true;
   mkCfg (str "run-app-tests") QEV_CFG_BOOL (Some var_run_app_tests) (VBool false) None None true;
   mkCfg (str "sub-min-size") QEV_CFG_UINT64 (Some var_sub_min_size) (VUint64 8192)
     (Some check_sub_min_size) None false].

(** What a validator says of a value of its type: the value that is kept, and
    whether it is an error. *)
Definition validate (resolves : bytes → bool) (max_clients : Z) (o : qev_cfg) (v : cfg_val) : cfg_val * bool :=
  match cfg_check o, v with
  | Some check_client_cb_max_age, VUint64 n => (v, _validate_client_cb_max_age n)
  | Some check_sub_min_size, VUint64 n => (v, _validate_sub_min_size max_clients n)
  | Some check_public_address, VStr s =>
      let '(s, err) := _validate_public_address resolves s in (VStr s, err)
  | _, _ => (v, false)
  end.

(** ** What start-up leaves behind *)

Inductive resource := res_events | res_broadcasts | res_hostname | res_http | res_fair | res_apps.

(** What timers call; the model of [periodic_run] is in Upkeep.v. *)
Inductive timer_fn := periodic_run_ptr.

(** Calls of quick-event, in order. *)
Inductive boot_action :=
  | qev_init (name : bytes)
  | qev_cleanup (r : resource)
  | qev_cfg_override_defaults (l : list qev_cfg)
  | qev_cfg_add (section : bytes) (l : list qev_cfg)
  | qev_cfg_listen (section : bytes)
  | qev_stats_counter (s : stat) (group name : bytes) (rate : bool)
  | qev_stats_timer (group name : bytes)
  | qev_timer (ms : Z) (fn : timer_fn).

Record boot := mkBoot {
  b_world : world;
  (** [_status_responses], [_iframe_source] and [_json_hostname] *)
  b_responses : list bytes;
  b_iframe : option bytes;
  b_hostname : option bytes;
  (** [id] of the entries of [_protocols] *)
  b_ids : list (protocol * nat);
  b_calls : list boot_action;
}.

Definition set_world (f : world → world) (b : boot) : boot :=
  mkBoot (f (b_world b)) (b_responses b) (b_iframe b) (b_hostname b) (b_ids b) (b_calls b).
Definition calls (l : list boot_action) (b : boot) : boot :=
  mkBoot (b_world b) (b_responses b) (b_iframe b) (b_hostname b) (b_ids b) (b_calls b ++ l).
Definition set_hostname (s : bytes) (b : boot) : boot :=
  mkBoot (b_world b) (b_responses b) (b_iframe b) (Some s) (b_ids b) (b_calls b).
Definition set_pages (l : list bytes) (iframe : option bytes) (b : boot) : boot :=
  mkBoot (b_world b) l iframe (b_hostname b) (b_ids b) (b_calls b).
Definition set_id (p : protocol) (i : nat) (b : boot) : boot :=
  mkBoot (b_world b) (b_responses b) (b_iframe b) (b_hostname b) (b_ids b ++ [(p, i)]) (b_calls b).

(** ** The initialisers *)

(** evs_query.c *)
Definition evs_query_init : boot → boot := calls [qev_cleanup res_events].

(** evs.c *)
Definition evs_pre_init (b : boot) : boot :=
  evs_query_init (calls [qev_cleanup res_broadcasts] (set_world (set_w_broadcasts (λ _, [])) b)).

Definition evs_init (b : boot) : boot :=
  calls
    [qev_stats_counter evs_sent (str "evs") (str "sent") true;
     qev_stats_counter evs_callbacks_sent (str "evs") (str "callbacks_sent") true;
     qev_stats_counter evs_received (str "evs") (str "received") true;
     qev_stats_counter evs_broadcasts_unique (str "evs.broadcasts") (str "unique") true;
     qev_stats_counter evs_broadcasts_events (str "evs.broadcasts") (str "events") true]
    (set_world evs_qio_init (calls [qev_cleanup res_hostname] (set_hostname _json_hostname b))).

(** config.c *)
Definition config_init : boot → boot :=
  calls [qev_cfg_override_defaults _overrides; qev_cfg_add (str "quick.io") _cfg].

(** sub.c *)
Definition sub_init : boot → boot :=
  calls
    [qev_stats_counter subs_total (str "subs") (str "total") false;
     qev_stats_counter subs_added (str "subs") (str "added") true;
     qev_stats_counter subs_removed (str "subs") (str "removed") true].

(** protocols_http.c *)
Definition protocol_http_init (b : boot) : boot :=
  let b := set_world (set_w_tables (λ _, replicate N_TABLES ∅)) b in
  let b := calls ((λ st, qev_stats_counter (http_responses (status_code st)) (str "protocol.http")
                     (str "responses." ++ dec (status_code st)) true) <$> HTTP_STATUSES) b in
  let responses := (λ st, _build_response st None) <$> HTTP_STATUSES in
  let b := calls [qev_cleanup res_http] b in
  let responses := <[7%nat := _build_response STATUS_501 (Some html_error)]> responses in
  let iframe :=
    match cfg_public_address with
    | None => None
    | Some addr => Some (_build_response_full STATUS_200
        (Some (qev_buffer_replace_str html_iframe (str "{PUBLIC_ADDRESS}") addr)) true)
    end in
  calls
    [qev_stats_counter http_requests_iframe (str "protocol.http") (str "requests.iframe") true;
     qev_stats_counter http_requests_invalid_method (str "protocol.http") (str "requests.invalid_method") true;
     qev_stats_counter http_requests_poll (str "protocol.http") (str "requests.poll") true;
     qev_stats_counter http_requests_immediate_response (str "protocol.http") (str "requests.immediate_response") true;
     qev_stats_counter http_upgrade_invalid (str "protocol.http") (str "upgrade.invalid") true;
     qev_stats_counter http_upgrade_missing (str "protocol.http") (str "upgrade.missing") true;
     qev_stats_counter http_surrogates_opened (str "protocol.http") (str "surrogates.opened") true;
     qev_stats_counter http_surrogates_closed (str "protocol.http") (str "surrogates.closed") true;
     qev_stats_timer (str "protocol.http") (str "route")]
    (set_pages responses iframe b).

(** protocols_flash.c, protocols_raw.c, protocols_rfc6455.c *)
Definition protocol_flash_init : boot → boot :=
  calls [qev_stats_counter flash_handshakes (str "protocol.flash") (str "handshakes") true].

Definition protocol_raw_init : boot → boot :=
  calls [qev_stats_counter raw_handshakes (str "protocol.raw") (str "handshakes") true;
         qev_stats_timer (str "protocol.raw") (str "route")].

Definition protocol_rfc6455_init : boot → boot :=
  calls [qev_stats_counter rfc6455_upgrades (str "protocol.rfc6455") (str "upgrades") true;
         qev_stats_counter rfc6455_handshakes_good (str "protocol.rfc6455") (str "handshakes.good") true;
         qev_stats_counter rfc6455_handshakes_bad (str "protocol.rfc6455") (str "handshakes.bad") true;
         qev_stats_timer (str "protocol.rfc6455") (str "route")].

(** The column [init] of [_protocols]. *)
Definition prot_init (p : protocol) : boot → boot :=
  match p with
  | protocol_http => protocol_http_init
  | protocol_flash => protocol_flash_init
  | protocol_raw => protocol_raw_init
  | protocol_rfc6455 => protocol_rfc6455_init
  end.

(** protocols.c *)
Definition protocols_init (b : boot) : boot :=
  foldl (λ b '(i, p), prot_init p (set_id p i b)) b (imap pair _protocols).

(** client.c *)
Definition client_init (b : boot) : boot :=
  calls
    [qev_stats_counter clients_subs_added (str "clients.subs") (str "added") true;
     qev_stats_counter clients_subs_removed (str "clients.subs") (str "removed") true;
     qev_stats_counter callbacks_total (str "clients.callbacks") (str "total") false;
     qev_stats_counter callbacks_created (str "clients.callbacks") (str "created") true;
     qev_stats_counter callbacks_fired (str "clients.callbacks") (str "fired") true;
     qev_stats_counter callbacks_evicted (str "clients.callbacks") (str "evicted") true;
     qev_cleanup res_fair]
    (set_world (set_w_fair (λ _,
      qev_fair_new cfg_clients_subs_total cfg_clients_subs_pressure cfg_clients_subs_min)) b).

(** periodic.c *)
Definition periodic_init : boot → boot := calls [qev_timer (10 * 1000) periodic_run_ptr].

(** quickio.c, up to [qev_run] *)
Definition qio_setup (b : boot) : boot :=
  let b := evs_pre_init b in
  let b := calls [qev_init (str "quickio")] b in
  let b := config_init b in
  let b := evs_init b in
  let b := sub_init b in
  let b := protocols_init b in
  let b := client_init b in
  periodic_init b.

Section Load.

(** What the listener to the section of applications does with the applications
    of the configuration: it ends the process, or gives [_apps] (AppLoad.v). *)
Context {E X : Type} (load : world → E + X * world).

(** apps.c; quick-event calls the listener for what the configuration has. *)
Definition apps_init (b : boot) : E + X * boot :=
  let b := calls [qev_cfg_listen (str "quick.io-apps")] b in
  match load (b_world b) with
  | inl e => inl e
  | inr (_apps, w) => inr (_apps, calls [qev_cleanup res_apps] (set_world (λ _, w) b))
  end.

(** qev.c; called by [qev_run] *)
Definition qev_on_before_run (b : boot) : E + X * boot := apps_init b.

(** quickio.c *)
Definition qio_main (b : boot) : E + X * boot :=
  let b := qio_setup b in
  qev_on_before_run b.

End Load.

(** ** The state after start-up *)

(** The memory of the process before [main]: the structures that start-up makes
    are not there yet, and what stands for them is junk. *)
Definition junk_queue : list (positive * bytes) := [(1%positive, [])].

Definition blank (f : fair) (seed now : Z) : world :=
  {| w_events := _events; w_ev_subs := ∅; w_subs := ∅; w_clients := ∅; w_fair := f;
     w_broadcasts := junk_queue; w_tables := []; w_stats := λ _, 0; w_freed := [];
     w_errno := false; w_now := now; w_rand := seed; w_fault := false |}.

Definition boot0 (f : fair) (seed now : Z) : boot := mkBoot (blank f seed now) [] None None [] [].

(** Nobody is connected, and the events are those of [events]. *)
Definition started (events : ptrie) (f : fair) (seed now : Z) : world :=
  {| w_events := events; w_ev_subs := ∅; w_subs := ∅; w_clients := ∅; w_fair := f;
     w_broadcasts := []; w_tables := replicate N_TABLES ∅; w_stats := λ _, 0; w_freed := [];
     w_errno := false; w_now := now; w_rand := seed; w_fault := false |}.

(** The arguments of a call of [evs_add_handler]. *)
Record registration := mkReg {
  reg_prefix : bytes;
  reg_path : bytes;
  reg_handler : option evs_handler_fn;
  reg_on : option evs_on_fn;
  reg_off : option evs_off_fn;
  reg_children : bool;
}.

Definition reg_ok (r : registration) : Prop := bytes_ok (reg_prefix r) ∧ bytes_ok (reg_path r).

Definition reg_event (r : registration) : event :=
  event_init (evs_make_path (Some (reg_prefix r)) (Some (reg_path r)) None)
    (reg_handler r) (reg_on r) (reg_off r) (reg_children r).

(** Applications register their events when they are loaded, one after the
    other. *)
Definition register (rs : list registration) (w : world) : world :=
  foldl (λ w r, (evs_add_handler (reg_prefix r) (reg_path r) (reg_handler r) (reg_on r) (reg_off r)
    (reg_children r) w).2) w rs.

(** Start-up with applications that register [rs]; nothing ends it. *)
Definition qio_started (rs : list registration) (f : fair) (seed now : Z) : boot :=
  match qio_main (E := Empty_set) (X := unit) (λ w, inr ((), register rs w)) (boot0 f seed now) with
  | inl e => match e with end
  | inr (_, b) => b
  end.

(** The server when quick-event starts to accept connections. *)
Definition served (rs : list registration) (f : fair) (seed now : Z) : world :=
  b_world (qio_started rs f seed now).

(** The events that exist then. *)
Definition served_events (rs : list registration) : gmap bytes event :=
  (spec_all ∅ (qio_events ++ (reg_event <$> rs))).1.

Definition permits : fair :=
  qev_fair_new cfg_clients_subs_total cfg_clients_subs_pressure cfg_clients_subs_min.

Lemma spec_all_app tbl es es' : (spec_all tbl (es ++ es')).1 = (spec_all (spec_all tbl es).1 es').1.
Proof. revert tbl. induction es as [|e es IH]; intros tbl; [done|]. simpl. apply IH. Qed.

Lemma register_done tbl rs w :
  represents tbl (w_events w) → Forall reg_ok rs →
  let w' := register rs w in
  represents (spec_all tbl (reg_event <$> rs)).1 (w_events w') ∧ w' = set_w_events (λ _, w_events w') w.
Proof.
  revert tbl w. induction rs as [|r rs IH]; intros tbl w Ht Hr; [by destruct w|].
  apply Forall_cons in Hr as [[H1 H2] Hr].
  destruct (add_handler_done tbl _ _ (reg_handler r) (reg_on r) (reg_off r) (reg_children r) w Ht H1 H2)
    as (K1 & _ & K3).
  unfold register. cbn [foldl fmap list_fmap spec_all fst]. cbv zeta in K1.
  destruct (IH _ _ K1 Hr) as [J1 J2]. split; [exact J1|]. etrans; [exact J2|]. rewrite K3. done.
Qed.

(** Before applications are loaded, everything is where its initialiser has put
    it. *)
Lemma setup_world f seed now :
  let w := b_world (qio_setup (boot0 f seed now)) in
  represents (spec_all ∅ qio_events).1 (w_events w) ∧ w = started (w_events w) permits seed now.
Proof.
  set (wi := set_w_broadcasts (λ _, []) (blank f seed now)).
  destruct (qio_init_done ∅ wi represents_init) as [H1 H2]. set (w0 := evs_qio_init wi) in *.
  assert (E : b_world (qio_setup (boot0 f seed now)) =
    set_w_fair (λ _, permits) (set_w_tables (λ _, replicate N_TABLES ∅) w0)) by done.
  rewrite E. split; [exact H1|]. rewrite H2. done.
Qed.

(** Applications are loaded at the end of start-up. *)
Lemma loaded_last {E X} (load : world → E + X * world) b x w :
  load (b_world b) = inr (x, w) →
  qev_on_before_run load b =
  inr (x, calls [qev_cleanup res_apps] (set_world (λ _, w) (calls [qev_cfg_listen (str "quick.io-apps")] b))).
Proof. intros H. unfold qev_on_before_run, apps_init. cbn [b_world calls]. by rewrite H. Qed.

Lemma main_loads {E X} (load : world → E + X * world) f seed now x w :
  let b := qio_setup (boot0 f seed now) in
  load (b_world b) = inr (x, w) →
  qio_main load (boot0 f seed now) =
  inr (x, calls [qev_cleanup res_apps] (set_world (λ _, w) (calls [qev_cfg_listen (str "quick.io-apps")] b))).
Proof. apply loaded_last. Qed.

Lemma started_eq rs f seed now :
  let b := qio_setup (boot0 f seed now) in
  qio_started rs f seed now =
  calls [qev_cleanup res_apps] (set_world (λ _, register rs (b_world b)) (calls [qev_cfg_listen (str "quick.io-apps")] b)).
Proof. unfold qio_started. by rewrite (main_loads _ f seed now () (register rs (b_world (qio_setup (boot0 f seed now))))). Qed.

Lemma served_eq rs f seed now :
  served rs f seed now = register rs (b_world (qio_setup (boot0 f seed now))).
Proof. unfold served. by rewrite started_eq. Qed.

Lemma register_app rs1 rs2 w : register (rs1 ++ rs2) w = register rs2 (register rs1 w).
Proof. apply foldl_app. Qed.

Lemma served_app rs1 rs2 f seed now : served (rs1 ++ rs2) f seed now = register rs2 (served rs1 f seed now).
Proof. by rewrite !served_eq, register_app. Qed.

Lemma served_done rs f seed now :
  Forall reg_ok rs →
  let w := served rs f seed now in
  represents (served_events rs) (w_events w) ∧ w = started (w_events w) permits seed now.
Proof.
  intros Hr. destruct (setup_world f seed now) as [H1 H2]. rewrite served_eq.
  set (w := b_world (qio_setup (boot0 f seed now))) in *.
  destruct (register_done _ rs w H1 Hr) as [J1 J2]. cbv zeta. unfold served_events. rewrite spec_all_app.
  split; [exact J1|]. etrans; [exact J2|]. rewrite H2 at 1. done.
Qed.

Lemma qio_kept rs e : e ∈ qio_events → served_events rs !! skip_slash (ev_path e) = Some e.
Proof.
  intros He. unfold served_events. rewrite spec_all_app. apply spec_all_keeps.
  apply list_elem_of_lookup in He as [i Hi]. apply (spec_all_true ∅ qio_events i e Hi).
  assert (E : (spec_all ∅ qio_events).2 = [true; true; true; true; true]) by reflexivity.
  assert (Hlt : (i < 5)%nat) by (apply lookup_lt_Some in Hi; exact Hi).
  rewrite E. by destruct i as [|[|[|[|[|i]]]]]; [..|lia].
Qed.

(** ** What start-up registers with quick-event *)

Section Calls.
Context (l : list boot_action).

Definition counters : list (stat * (bytes * bytes) * bool) :=
  omap (λ a, match a with qev_stats_counter s group name rate => Some (s, (group, name), rate) | _ => None end) l.
Definition stats_timers : list (bytes * bytes) :=
  omap (λ a, match a with qev_stats_timer group name => Some (group, name) | _ => None end) l.
Definition cleanups : list resource :=
  omap (λ a, match a with qev_cleanup r => Some r | _ => None end) l.
Definition timers : list (Z * timer_fn) :=
  omap (λ a, match a with qev_timer ms fn => Some (ms, fn) | _ => None end) l.

(** The counters that the sources count with. *)
Definition counted (s : stat) : Prop :=
  match s with http_responses n => n ∈ status_code <$> HTTP_STATUSES | _ => True end.

(** Each counter is registered, once, under a name of its own; what has to be
    released at exit is registered for it, once; the options are there, those of
    the server last; and one timer runs the periodic tasks, at the interval that
    the heartbeats count with. *)
Record registers_all : Prop := {
  ra_counted s : counted s → s ∈ counters.*1.*1;
  ra_once : NoDup counters.*1.*1;
  ra_names : NoDup (counters.*1.*2 ++ stats_timers);
  ra_cleanups r : r ∈ cleanups;
  ra_cleaned_once : NoDup cleanups;
  ra_overrides : qev_cfg_override_defaults _overrides ∈ l;
  ra_options : qev_cfg_add (str "quick.io") _cfg ∈ l;
  ra_timer : ∃ ms, timers = [(ms, periodic_run_ptr)] ∧ qev_ms_to_usec ms = PERIODIC_INTERVAL_USEC;
}.

End Calls.

#[export] Instance resource_eq_dec : EqDecision resource.
Proof. solve_decision. Defined.
#[export] Instance cfg_var_eq_dec : EqDecision cfg_var.
Proof. solve_decision. Defined.

(** Nothing that start-up registers depends on the state it starts in, or on the
    applications. *)
Definition boot_calls : list boot_action := b_calls (qio_started [] permits 0 0).

Lemma started_calls rs f seed now : b_calls (qio_started rs f seed now) =
  (b_calls (qio_setup (boot0 f seed now)) ++ [qev_cfg_listen (str "quick.io-apps")]) ++ [qev_cleanup res_apps].
Proof. by rewrite started_eq. Qed.

Lemma boot_calls_eq rs f seed now : b_calls (qio_started rs f seed now) = boot_calls.
Proof. unfold boot_calls. by rewrite !started_calls. Qed.

Definition counter_list : list (stat * (bytes * bytes) * bool) := Eval lazy -[str] in counters boot_calls.
Lemma counters_eq : counters boot_calls = counter_list.
Proof. reflexivity. Qed.

Lemma counters_all s : counted s → s ∈ counter_list.*1.*1.
Proof.
  assert (Hb : ∀ s, bool_decide (s ∈ counter_list.*1.*1) = true → s ∈ counter_list.*1.*1)
    by (intros t Ht; by apply bool_decide_eq_true_1 in Ht).
  destruct s; simpl; try (intros _; apply Hb; vm_compute; reflexivity).
  intros Hc. repeat (apply elem_of_cons in Hc as [->|Hc]; [apply Hb; vm_compute; reflexivity|]).
  by apply elem_of_nil in Hc.
Qed.

Lemma boot_registers {LO : LibsOk L} : registers_all boot_calls.
Proof.
  assert (Ht : stats_timers boot_calls = [(str "protocol.http", str "route"); (str "protocol.raw", str "route");
    (str "protocol.rfc6455", str "route")]) by reflexivity.
  assert (Hc : cleanups boot_calls = [res_broadcasts; res_events; res_hostname; res_http; res_fair; res_apps])
    by reflexivity.
  assert (Hp : ∀ a, a ∈ [qev_cfg_override_defaults _overrides; qev_cfg_add (str "quick.io") _cfg] → a ∈ boot_calls).
  { intros a Ha. assert (E : ∃ l1 l2, boot_calls =
      l1 ++ [qev_cfg_override_defaults _overrides; qev_cfg_add (str "quick.io") _cfg] ++ l2).
    { eexists [_; _; _], _. reflexivity. }
    destruct E as (l1 & l2 & ->). apply elem_of_app. right. apply elem_of_app. by left. }
  split; rewrite ?counters_eq, ?Ht, ?Hc.
  - exact counters_all.
  - apply (bool_decide_eq_true_1 (NoDup counter_list.*1.*1)). vm_compute. reflexivity.
  - apply (bool_decide_eq_true_1 (NoDup (counter_list.*1.*2 ++ _))). vm_compute. reflexivity.
  - intros []; set_solver.
  - apply (bool_decide_eq_true_1 (NoDup _)). vm_compute. reflexivity.
  - apply Hp. set_solver.
  - apply Hp. set_solver.
  - exists (10 * 1000). split; [reflexivity|]. unfold PERIODIC_INTERVAL_USEC. by rewrite ms_to_usec, sec_to_usec.
Qed.

(** The options fit together: names and variables are distinct, and each default
    has the option's type. *)
Lemma options_wellformed :
  NoDup (cfg_name <$> _overrides ++ _cfg) ∧ NoDup (omap cfg_ptr (_overrides ++ _cfg)) ∧
  Forall (λ o, val_type (cfg_defval o) = cfg_ty o) (_overrides ++ _cfg).
Proof.
  split; [apply (bool_decide_eq_true_1 (NoDup (cfg_name <$> _))); vm_compute; reflexivity|].
  split; [apply (bool_decide_eq_true_1 (NoDup (omap cfg_ptr _))); vm_compute; reflexivity|].
  repeat constructor.
Qed.

(** Each default passes its option's check, when enough clients may connect. *)
Lemma defaults_valid resolves max_clients o :
  8192 ≤ max_clients → o ∈ _overrides ++ _cfg →
  validate resolves max_clients o (cfg_defval o) = (cfg_defval o, false).
Proof.
  intros Hm Ho. repeat (apply elem_of_cons in Ho as [->|Ho]; [try reflexivity|]); [|by apply elem_of_nil in Ho].
  unfold validate, _validate_sub_min_size. simpl. f_equal. lia.
Qed.

(** C2. Start-up leaves the server ready. When quick-event begins to accept
    connections every structure that the server dereferences has been made: the
    queue, the session tables, the permits, the responses for each status, the
    page for browsers when there is a public address. Each protocol has its
    place in the table as its number. Every counter that the server counts with
    is registered once under a name of its own, every option is added, every
    structure is registered for release, and exactly one timer runs the periodic
    tasks, at the interval that the heartbeats count with. Applications are
    loaded last: whatever events they register, those of the server itself were
    there first, stay, and are still found. *)
Theorem startup_correct {LO : LibsOk L} rs f seed now :
  Forall reg_ok rs →
  let b := qio_started rs f seed now in
  let w := served rs f seed now in
  w = started (w_events w) permits seed now ∧ qev_fair_used permits = 0 ∧
  represents (served_events rs) (w_events w) ∧
  (∀ e, e ∈ qio_events → evs_query (w_events w) (ev_path e) = QEvent e []) ∧
  (∀ i st, HTTP_STATUSES !! i = Some st → b_responses b !! i = Some (_status_responses st)) ∧
  b_iframe b = _iframe_source ∧ b_hostname b = Some _json_hostname ∧
  (∀ i p, (p, i) ∈ b_ids b ↔ _protocols !! i = Some p) ∧
  registers_all (b_calls b).
Proof.
  intros Hr b w. destruct (served_done rs f seed now Hr) as [H1 H2]. fold w in H1, H2.
  split; [done|]. split; [apply fair_new|]. split; [done|]. split; [|split; [|split; [|split; [done|split]]]].
  - intros e He. pose proof (qio_kept rs e He) as Hk.
    rewrite (evs_query_spec _ _ (ev_path e) H1); [|exact (rep_keys _ _ H1 _ _ Hk)].
    unfold EventTable.query. rewrite decide_True by (by eapply is_node_key). by rewrite Hk.
  - intros i st. unfold HTTP_STATUSES. intros Hi.
    do 8 (destruct i as [|i]; [by injection Hi as <-|]). done.
  - unfold _iframe_source. change (b_iframe b) with (match cfg_public_address with
      | None => None | Some addr => Some (_build_response_full STATUS_200
        (Some (qev_buffer_replace_str html_iframe (str "{PUBLIC_ADDRESS}") addr)) true) end).
    by destruct cfg_public_address.
  - intros i p. change (b_ids b) with [(protocol_http, 0%nat); (protocol_flash, 1%nat); (protocol_raw, 2%nat); (protocol_rfc6455, 3%nat)].
    unfold _protocols. split.
    + rewrite !elem_of_cons. intros [[= -> ->]|[[= -> ->]|[[= -> ->]|[[= -> ->]|H]]]]; [done..|]. by apply elem_of_nil in H.
    + do 4 (destruct i as [|i]; [intros [= <-]; set_solver|]). done.
  - unfold b. rewrite boot_calls_eq. apply boot_registers.
Qed.

End Startup.

(** ** Witnesses *)

#[local] Existing Instance config0.

(** An application that registers an event of its own, and tries to take one of
    the server's. *)
Definition demo_regs : list registration :=
  [mkReg (str "/app") (str "/news") None None None false;
   mkReg (str "/qio") (str "//ping/") (Some (app_handler 0)) None None true].

Lemma startup_correct_witness :
  let w := served (L := libs0) demo_regs (Reference.mkPool 0 0) 7 0 in
  evs_query (w_events (L := libs0) w) (str "/qio/ping") =
    QEvent (event_init (str "/qio/ping") (Some qio_ping) (Some evs_no_on_ptr) None false) [] ∧
  w_tables (L := libs0) w = replicate N_TABLES ∅.
Proof.
  assert (Hr : Forall reg_ok demo_regs) by (repeat (constructor; [split; apply str_bytes|]); constructor).
  destruct (startup_correct (L := libs0) demo_regs (Reference.mkPool 0 0) 7 0 Hr) as (Hw & _ & _ & He & _).
  split.
  - apply (He (event_init (str "/qio/ping") (Some qio_ping) (Some evs_no_on_ptr) None false)).
    apply list_elem_of_lookup. by exists 4%nat.
  - rewrite Hw. reflexivity.
Defined.
