(* ===== verification/AppLoad.v ===== *)
(** Applications: src/apps.c loads them, calls them at exit, and runs their
    tests; src/main.c chooses between serving and testing. *)
From Stdlib Require Import ZArith Lia String.
From stdpp Require Import base list gmap strings.
From S2P Require Import Prelude Types Libs Path EvsQuery State Callbacks Sub Apps ClientSub Config Raw WebSocket Poll Send Quiet Evs Broadcast Route Receive Http Protocols Startup.

(** GModule: the handle of a library, which is the same each time that the
    library is opened, and the symbols in it. An application's functions run
    inside the server. *)
Class Modules (L : Libs) := {
  module : Type;
  module_eq_dec :: EqDecision module;
  g_module_open : bytes → option module;
  (** what [__qio_is_app] points to *)
  module_magic : module → option Z;
  (** the functions [__qio_app_init], [__qio_app_exit] and [__qio_app_test] *)
  module_symbol : module → bytes → option (world → bool * world);
}.

Definition QIO_MAGIC_NUM : Z := 0xfc63e18a.
Definition PATH_STARTERS : bytes := str "./\~".
Definition PATH_LIB_DIR : bytes := str "/usr/lib/quickio".

Section Apps.
Context {L : Libs} {M : Modules L}.

Definition qio_app_cb : Type := world → bool * world.

(** [struct app] *)
Record app := mkApp {
  app_name : bytes;
  app_mod : module;
  app_init : qio_app_cb;
  app_exit : qio_app_cb;
}.

(** A failed [ASSERT] ends the process. *)
Inductive fatal :=
  | could_not_open | duplicate_app | not_an_app | missing_function (name : bytes)
  | init_failed | exit_failed | no_test | tests_failed.

Definition result (X : Type) : Type := fatal + X.

Definition assert_some {X Y} (o : option X) (e : fatal) (k : X → result Y) : result Y :=
  match o with Some x => k x | None => inl e end.
Definition assert_true {Y} (b : bool) (e : fatal) (k : result Y) : result Y :=
  if b then k else inl e.

(** Where a library is looked for: [strspn(path, PATH_STARTERS) == 0] holds when
    the first character is none of [PATH_STARTERS]. *)
Definition full_path (path : bytes) : bytes :=
  match path with
  | c :: _ => if bool_decide (c ∈ PATH_STARTERS) then path else PATH_LIB_DIR ++ str "/" ++ path
  | [] => PATH_LIB_DIR ++ str "/" ++ path
  end.

(** [_apps], and the rest of the server. *)
Definition apps_state : Type := list app * world.

Definition _add_app (name path : bytes) (s : apps_state) : result apps_state :=
  let '(_apps, w) := s in
  assert_some (g_module_open (full_path path)) could_not_open (λ m,
  assert_true (forallb (λ oapp, negb (bool_decide (m = app_mod oapp))) _apps) duplicate_app (
  assert_true (bool_decide (module_magic m = Some QIO_MAGIC_NUM)) not_an_app (
  assert_some (module_symbol m (str "__qio_app_init")) (missing_function (str "__qio_app_init")) (λ init,
  assert_some (module_symbol m (str "__qio_app_exit")) (missing_function (str "__qio_app_exit")) (λ exit,
  let '(ok, w) := init w in
  assert_true ok init_failed (inr (_apps ++ [mkApp name m init exit], w))))))).

(** quick-event calls [_add_app] for each application of the configuration. *)
Fixpoint load_apps (l : list (bytes * bytes)) (s : apps_state) : result apps_state :=
  match l with
  | [] => inr s
  | (name, path) :: l =>
      match _add_app name path s with inl e => inl e | inr s => load_apps l s end
  end.

Fixpoint exit_apps (_apps : list app) (w : world) : result world :=
  match _apps with
  | [] => inr w
  | app :: _apps =>
      let '(ok, w) := app_exit app w in
      assert_true ok exit_failed (exit_apps _apps w)
  end.

(** [_apps] is NULL afterwards. *)
Definition _cleanup (s : apps_state) : result apps_state :=
  match exit_apps s.1 s.2 with inl e => inl e | inr w => inr ([], w) end.

Fixpoint apps_test (_apps : list app) (w : world) : result world :=
  match _apps with
  | [] => inr w
  | app :: _apps =>
      assert_some (module_symbol (app_mod app) (str "__qio_app_test")) no_test (λ test,
      let '(ok, w) := test w in
      assert_true ok tests_failed (apps_test _apps w))
  end.

(** ** What the functions of a list of applications do, one after the other *)

(** All of [fs] succeed, in turn. *)
Inductive run_all : list qio_app_cb → world → world → Prop :=
  | run_none w : run_all [] w w
  | run_next f fs w w1 w2 : f w = (true, w1) → run_all fs w1 w2 → run_all (f :: fs) w w2.

(** Those before the first that fails succeed. *)
Definition first_fails (fs : list qio_app_cb) (w : world) : Prop :=
  ∃ f fs1 fs2 w1 w2, fs = fs1 ++ f :: fs2 ∧ run_all fs1 w w1 ∧ f w1 = (false, w2).

Lemma run_all_det fs w w1 w2 : run_all fs w w1 → run_all fs w w2 → w1 = w2.
Proof.
  intros H. revert w2. induction H as [w|f fs w w0 w1 Hf H IH]; intros w2; inversion 1; subst; [done|].
  apply IH. congruence.
Qed.

Lemma run_all_app fs1 fs2 w w' : run_all (fs1 ++ fs2) w w' ↔ ∃ w1, run_all fs1 w w1 ∧ run_all fs2 w1 w'.
Proof.
  revert w. induction fs1 as [|f fs1 IH]; intros w; simpl.
  - split; [intros H; exists w; split; [constructor|done]|]. intros (w1 & H1 & H2). by inversion H1; subst.
  - split.
    + inversion 1; subst. apply IH in H5 as (w2 & H6 & H7). exists w2. split; [by econstructor|done].
    + intros (w1 & H1 & H2). inversion H1; subst. econstructor; [done|]. apply IH. by exists w1.
Qed.

(** A loaded application is what its library says. *)
Record app_ok (path : bytes) (a : app) : Prop := {
  ao_open : g_module_open (full_path path) = Some (app_mod a);
  ao_magic : module_magic (app_mod a) = Some QIO_MAGIC_NUM;
  ao_init : module_symbol (app_mod a) (str "__qio_app_init") = Some (app_init a);
  ao_exit : module_symbol (app_mod a) (str "__qio_app_exit") = Some (app_exit a);
}.

Lemma add_app_spec name path apps w :
  match _add_app name path (apps, w) with
  | inr (apps', w') => ∃ a, apps' = apps ++ [a] ∧ app_name a = name ∧ app_ok path a ∧
      app_mod a ∉ app_mod <$> apps ∧ app_init a w = (true, w')
  | inl could_not_open => g_module_open (full_path path) = None
  | inl duplicate_app => ∃ m, g_module_open (full_path path) = Some m ∧ m ∈ app_mod <$> apps
  | inl not_an_app => ∃ m, g_module_open (full_path path) = Some m ∧ module_magic m ≠ Some QIO_MAGIC_NUM
  | inl (missing_function f) => ∃ m, g_module_open (full_path path) = Some m ∧ module_symbol m f = None
  | inl init_failed => ∃ m init w', g_module_open (full_path path) = Some m ∧
      module_symbol m (str "__qio_app_init") = Some init ∧ init w = (false, w')
  | inl _ => False
  end.
Proof.
  unfold _add_app, assert_some, assert_true. destruct (g_module_open _) as [m|] eqn:Ho; [|done].
  destruct (forallb _ apps) eqn:Hd; cycle 1.
  { exists m. split; [done|]. apply not_true_iff_false in Hd. apply dec_stable. intros Hn. apply Hd.
    apply forallb_forall. intros a Ha. apply negb_true_iff, bool_decide_eq_false_2. intros ->. apply Hn.
    apply list_elem_of_fmap. exists a. split; [done|]. by apply list_elem_of_In. }
  assert (Hn : m ∉ app_mod <$> apps).
  { intros Hin. apply list_elem_of_fmap in Hin as (a & -> & Ha). rewrite forallb_forall in Hd.
    apply list_elem_of_In, Hd in Ha. by rewrite bool_decide_eq_true_2 in Ha. }
  case_bool_decide as Hm; [|by exists m].
  destruct (module_symbol m (str "__qio_app_init")) as [init|] eqn:Hi; [|by exists m].
  destruct (module_symbol m (str "__qio_app_exit")) as [exit|] eqn:He; [|by exists m].
  destruct (init w) as [[] w'] eqn:Hw; [|by exists m, init, w'].
  exists (mkApp name m init exit). split; [done|]. split; [done|]. by repeat split.
Qed.

(** Loading many: the applications are new, each is its own library's, and their
    initialisers have run in order. *)
Lemma load_apps_spec l apps w apps' w' :
  NoDup (app_mod <$> apps) → load_apps l (apps, w) = inr (apps', w') →
  ∃ new, apps' = apps ++ new ∧ app_name <$> new = l.*1 ∧ Forall2 app_ok l.*2 new ∧
    NoDup (app_mod <$> apps') ∧ run_all (app_init <$> new) w w'.
Proof.
  revert apps w. induction l as [|[name path] l IH]; intros apps w Hnd; cbn [load_apps].
  { intros [= <- <-]. exists []. rewrite app_nil_r. split; [done|]. split; [done|]. split; [constructor|].
    split; [done|constructor]. }
  pose proof (add_app_spec name path apps w) as Ha.
  destruct (_add_app name path (apps, w)) as [e|[apps1 w1]]; [done|].
  destruct Ha as (a & -> & Hn & Hok & Hfresh & Hi). intros Hl.
  destruct (IH (apps ++ [a]) w1) as (new & -> & H1 & H2 & H3 & H4); [|done|].
  { rewrite fmap_app. apply NoDup_app. split; [done|]. split; [|apply NoDup_singleton].
    intros m Hm Hm2. apply list_elem_of_singleton in Hm2 as ->. done. }
  exists (a :: new). rewrite <- app_assoc in *. split; [done|]. split; [cbn; by rewrite Hn, H1|].
  split; [by constructor|]. split; [done|]. by econstructor.
Qed.

Lemma exit_apps_spec apps w :
  match exit_apps apps w with
  | inr w' => run_all (app_exit <$> apps) w w'
  | inl e => e = exit_failed ∧ first_fails (app_exit <$> apps) w
  end.
Proof.
  revert w. induction apps as [|a apps IH]; intros w; simpl; [constructor|].
  destruct (app_exit a w) as [[] w1] eqn:Hw; simpl.
  - specialize (IH w1). destruct (exit_apps apps w1) as [e|w'].
    + destruct IH as [-> (f & fs1 & fs2 & w2 & w3 & E & H1 & H2)]. split; [done|].
      exists f, (app_exit a :: fs1), fs2, w2, w3. split; [cbn; by rewrite <- E|]. split; [by econstructor|done].
    + by econstructor.
  - split; [done|]. exists (app_exit a), [], (app_exit <$> apps), w, w1. split; [done|]. split; [constructor|done].
Qed.

(** What [apps_test] asks of an application. *)
Definition test_of (a : app) (test : qio_app_cb) : Prop :=
  module_symbol (app_mod a) (str "__qio_app_test") = Some test.

Lemma apps_test_spec apps w :
  match apps_test apps w with
  | inr w' => ∃ tests, Forall2 test_of apps tests ∧ run_all tests w w'
  | inl e => ∃ apps1 a apps2 tests w1, apps = apps1 ++ a :: apps2 ∧ Forall2 test_of apps1 tests ∧
      run_all tests w w1 ∧
      (e = no_test ∧ module_symbol (app_mod a) (str "__qio_app_test") = None ∨
       e = tests_failed ∧ ∃ test w2, test_of a test ∧ test w1 = (false, w2))
  end.
Proof.
  revert w. induction apps as [|a apps IH]; intros w; simpl; [exists []; split; constructor|].
  unfold assert_some. destruct (module_symbol _ _) as [test|] eqn:Ht; cycle 1.
  { exists [], a, apps, [], w. split; [done|]. split; [constructor|]. split; [constructor|]. by left. }
  destruct (test w) as [[] w1] eqn:Hw; simpl; cycle 1.
  { exists [], a, apps, [], w. split; [done|]. split; [constructor|]. split; [constructor|]. right.
    split; [done|]. by exists test, w1. }
  specialize (IH w1). destruct (apps_test apps w1) as [e|w'].
  - destruct IH as (apps1 & b & apps2 & tests & w2 & -> & H1 & H2 & H3).
    exists (a :: apps1), b, apps2, (test :: tests), w2. split; [done|]. split; [by constructor|].
    split; [by econstructor|done].
  - destruct IH as (tests & H1 & H2). exists (test :: tests). split; [by constructor|]. by econstructor.
Qed.

(** Why an application could not be loaded when [apps] were, in state [w]. *)
Definition rejected (e : fatal) (path : bytes) (apps : list app) (w : world) : Prop :=
  match e, g_module_open (full_path path) with
  | could_not_open, None => True
  | duplicate_app, Some m => m ∈ app_mod <$> apps
  | not_an_app, Some m => module_magic m ≠ Some QIO_MAGIC_NUM
  | missing_function f, Some m => module_symbol m f = None
  | init_failed, Some m => ∃ init w', module_symbol m (str "__qio_app_init") = Some init ∧ init w = (false, w')
  | _, _ => False
  end.

Lemma load_apps_fails l apps w e :
  load_apps l (apps, w) = inl e →
  ∃ l1 name path l2 apps1 w1, l = l1 ++ (name, path) :: l2 ∧ load_apps l1 (apps, w) = inr (apps1, w1) ∧
    rejected e path apps1 w1.
Proof.
  revert apps w. induction l as [|[name path] l IH]; intros apps w; cbn [load_apps]; [done|].
  pose proof (add_app_spec name path apps w) as Ha.
  destruct (_add_app name path (apps, w)) as [e'|[apps1 w1]] eqn:E.
  - intros [= ->]. exists [], name, path, l, apps, w. split; [done|]. split; [done|]. unfold rejected.
    destruct e; try done.
    + by rewrite Ha.
    + by destruct Ha as (m & -> & ?).
    + by destruct Ha as (m & -> & ?).
    + by destruct Ha as (m & -> & ?).
    + destruct Ha as (m & init & w' & -> & H1 & H2). by exists init, w'.
  - intros Hl. destruct (IH apps1 w1 Hl) as (l1 & n & p & l2 & apps2 & w2 & -> & H1 & H2).
    exists ((name, path) :: l1), n, p, l2, apps2, w2. split; [done|]. split; [|done].
    cbn [load_apps]. by rewrite E.
Qed.

(** C37. The life of the applications. Loading them either gives all those of the
    configuration, in its order and under its names, each the library that the
    configuration names, no library twice, after each has initialised itself
    once, in order; or it ends the process at the first that cannot be opened, is
    there already, is no application, lacks a function or fails to initialise.
    At exit each leaves once, in the same order, and none is left; their tests
    run in the same order, up to the first that is missing or fails. *)
Theorem apps_lifecycle l w :
  match load_apps l ([], w) with
  | inl e => ∃ l1 name path l2 apps w1, l = l1 ++ (name, path) :: l2 ∧
      load_apps l1 ([], w) = inr (apps, w1) ∧ rejected e path apps w1
  | inr (apps, w1) =>
      app_name <$> apps = l.*1 ∧ Forall2 app_ok l.*2 apps ∧ NoDup (app_mod <$> apps) ∧
      run_all (app_init <$> apps) w w1 ∧
      (∀ w2, match _cleanup (apps, w2) with
        | inr s => s.1 = [] ∧ run_all (app_exit <$> apps) w2 s.2
        | inl e => e = exit_failed ∧ first_fails (app_exit <$> apps) w2
        end) ∧
      ∀ w2, match apps_test apps w2 with
        | inr w3 => ∃ tests, Forall2 test_of apps tests ∧ run_all tests w2 w3
        | inl e => ∃ apps1 a apps2 tests w3, apps = apps1 ++ a :: apps2 ∧ Forall2 test_of apps1 tests ∧
            run_all tests w2 w3 ∧
            (e = no_test ∧ module_symbol (app_mod a) (str "__qio_app_test") = None ∨
             e = tests_failed ∧ ∃ test w4, test_of a test ∧ test w3 = (false, w4))
        end
  end.
Proof.
  destruct (load_apps l ([], w)) as [e|[apps w1]] eqn:E; [by apply load_apps_fails|].
  destruct (load_apps_spec l [] w apps w1 NoDup_nil_2 E) as (new & -> & H1 & H2 & H3 & H4).
  rewrite app_nil_l in *. do 4 (split; [done|]). split; intros w2; [|apply apps_test_spec].
  unfold _cleanup. pose proof (exit_apps_spec new w2) as H. cbn [fst snd].
  by destruct (exit_apps new w2).
Qed.

End Apps.

(** ** main.c *)

Section Main.
Context {L : Libs} {M : Modules L} {C : Config}.

(** quick-event hands the applications of the configuration, [conf], to the
    listener of [apps_init]; [qev_wait_for_exit] is what happens until the server
    is told to exit. *)
Definition main (cfg_run_app_tests : bool) (conf : list (bytes * bytes)) (qev_wait_for_exit : world → world)
    (f : fair) (seed now : Z) : result apps_state :=
  match qio_main (λ w, load_apps conf ([], w)) (boot0 f seed now) with
  | inl e => inl e
  | inr (_apps, b) =>
      if cfg_run_app_tests
      then match apps_test _apps (b_world b) with inl e => inl e | inr w => inr (_apps, w) end
      else inr (_apps, qev_wait_for_exit (b_world b))
  end.

(** [m] is a library, found at [path], whose initialiser registers [rs]. *)
Record library_of (rs : list registration) (path : bytes) (m : module) : Prop := {
  lib_open : g_module_open (full_path path) = Some m;
  lib_magic : module_magic m = Some QIO_MAGIC_NUM;
  lib_init : ∃ init, module_symbol m (str "__qio_app_init") = Some init ∧ ∀ w, init w = (true, register rs w);
  lib_exit : is_Some (module_symbol m (str "__qio_app_exit"));
}.

(** The libraries [ms] of the configuration [conf]. *)
Inductive libraries : list (bytes * bytes) → list (list registration) → list module → Prop :=
  | libraries_nil : libraries [] [] []
  | libraries_cons name path rs m conf rss ms :
      library_of rs path m → libraries conf rss ms →
      libraries ((name, path) :: conf) (rs :: rss) (m :: ms).

Lemma load_libraries conf rss ms apps w :
  libraries conf rss ms → NoDup ((app_mod <$> apps) ++ ms) →
  ∃ new, load_apps conf (apps, w) = inr (apps ++ new, register (concat rss) w) ∧
    app_mod <$> new = ms ∧ app_name <$> new = conf.*1.
Proof.
  intros H. revert apps w.
  induction H as [|name path rs m conf rss ms [Ho Hm (init & Hi & Hf) [exit He]] H IH]; intros apps w Hnd.
  { exists []. by rewrite app_nil_r. }
  set (a := mkApp name m init exit). destruct (IH (apps ++ [a]) (register rs w)) as (new & E & E1 & E2).
  { rewrite fmap_app, <- app_assoc. exact Hnd. }
  exists (a :: new). split; [|by rewrite !fmap_cons, E1, E2].
  cbn [load_apps]. unfold _add_app, assert_some, assert_true. rewrite Ho, Hm, Hi, He, Hf.
  rewrite (bool_decide_eq_true_2 (Some QIO_MAGIC_NUM = _)) by done.
  assert (Hd : forallb (λ oapp, negb (bool_decide (m = app_mod oapp))) apps = true).
  { apply forallb_forall. intros b Hb. apply negb_true_iff, bool_decide_eq_false_2. intros ->.
    apply NoDup_app in Hnd as (_ & Hnd & _). apply (Hnd (app_mod b)); [|by left].
    apply list_elem_of_fmap. exists b. split; [done|]. by apply list_elem_of_In. }
  rewrite Hd. fold a. rewrite E, <- app_assoc. simpl. by rewrite register_app.
Qed.

(** C16. The server comes up. When the configuration names libraries that are
    applications, each a different one, and their initialisers register events,
    then all are loaded, and what quick-event serves until the exit is exactly the
    state that start-up and these registrations, in the configuration's order,
    give. *)
Theorem main_serves conf rss ms qev_wait_for_exit f seed now :
  libraries conf rss ms → NoDup ms →
  ∃ apps, main false conf qev_wait_for_exit f seed now =
      inr (apps, qev_wait_for_exit (served (concat rss) f seed now)) ∧
    app_mod <$> apps = ms ∧ app_name <$> apps = conf.*1.
Proof.
  intros H Hnd.
  destruct (load_libraries conf rss ms [] (b_world (qio_setup (boot0 f seed now))) H) as (apps & E & E1 & E2); [done|].
  exists apps. unfold main. by rewrite (main_loads _ f seed now apps _ E), served_eq.
Qed.

End Main.

(** ** Witness *)

#[local] Existing Instance config0.

(** Two libraries, one of them in the usual place. *)
Definition demo_modules : Modules libs0 := {|
  module := bool;
  module_eq_dec := _;
  g_module_open := λ path,
    if bool_decide (path = str "/usr/lib/quickio/news") then Some true
    else if bool_decide (path = str "./other") then Some false else None;
  module_magic := λ _, Some 4234404234;
  module_symbol := λ m name,
    if bool_decide (name = str "__qio_app_init")
    then Some (λ w, (true, register (L := libs0) (if m then demo_regs else []) w))
    else if bool_decide (name = str "__qio_app_exit") then Some (λ w, (true, w)) else None;
|}.

Lemma main_serves_witness :
  ∃ apps w, main (L := libs0) (M := demo_modules) false
      [(str "a", str "news"); (str "b", str "./other")] (λ w, w) (Reference.mkPool 0 0) 7 0 = inr (apps, w) ∧
    app_name (M := demo_modules) <$> apps = [str "a"; str "b"].
Proof.
  destruct (main_serves (L := libs0) (M := demo_modules) [(str "a", str "news"); (str "b", str "./other")]
    [demo_regs; []] [true; false] (λ w, w) (Reference.mkPool 0 0) 7 0) as (apps & E & _ & E2).
  - constructor; [|constructor; [|constructor]]; (split; [reflexivity|reflexivity|eexists; split; [reflexivity|done]|by eexists]).
  - repeat constructor; set_solver.
  - eauto.
Defined.
