(* ===== verification/ClientTest.v ===== *)
(** The application that client libraries are tested against:
    src/quickio-clienttest.c. *)
From Stdlib Require Import ZArith Lia String.
From stdpp Require Import functions base list gmap strings.
From S2P Require Import Prelude Types Libs Path EvsQuery State Callbacks Sub Apps ClientSub Config Raw WebSocket Poll Send Quiet Evs Broadcast Route Receive Http Keep Steady Works Protocols Startup.

(** What else it uses of GLib and quick-event. *)
Class TestLibs := {
  (** [g_ascii_strtoll(p, NULL, 10)] *)
  g_ascii_strtoll : bytes → Z;
  (** [qev_json_unpack(json, NULL, "%d", &i)], when it is QEV_JSON_OK *)
  qev_json_unpack_d : option bytes → option Z;
  (** [G_DEFINE_QUARK] *)
  heartbeat_challenge_cb_quark : Z;
  in_progress_callback_quark : Z;
}.

Section ClientTest.
Context {L : Libs} {C : Config} {T : TestLibs}.

Definition EV_PREFIX : bytes := str "/clienttest".

(** A C string in double quotes. *)
Definition quote (s : string) : bytes := [DQUOTE] ++ str s ++ [DQUOTE].

(** ["%ld"] *)
Definition ld (n : Z) : bytes := if n <? 0 then 45 :: dec (- n) else dec n.

(** Set once, when the application is loaded. [evs_on_cb] may call
    unsubscription handlers; this application has none, as [apps0]. *)
Record statics := mkStatics { _ev_broadcast : option event; _ev_in_progress : option event }.

Definition _close_handler (client : cid) (ev_extra : bytes) (client_cb : Z) (json : bytes) (w : world) :
    evs_status * world :=
  (EVS_STATUS_HANDLED, qev_close client (CLOSE_OTHER 0) w).

Definition _drop_callback_handler (client : cid) (ev_extra : bytes) (client_cb : Z) (json : bytes)
    (w : world) : evs_status * world := (EVS_STATUS_HANDLED, w).

(** Its number as a callback. *)
Definition _echo_cb_ptr : evs_cb_fn := app_cb 0.

Definition _echo_cb (client : cid) (data : option nat) (client_cb : Z) (json : bytes) (w : world) :
    evs_status * world :=
  (EVS_STATUS_HANDLED, evs_cb_with_cb client client_cb (Some json) (Some _echo_cb_ptr) None None w).

Definition _echo_handler (client : cid) (ev_extra : bytes) (client_cb : Z) (json : bytes) (w : world) :
    evs_status * world :=
  _echo_cb client None client_cb json w.

(** The code becomes an [enum evs_code] of 32 bits. *)
Definition _error_handler (client : cid) (ev_extra : bytes) (client_cb : Z) (json : bytes) (w : world) :
    evs_status * world :=
  let '(code, msg) :=
    if rd ev_extra 0 =? SLASH then
      let code := g_ascii_strtoll (drop 1 ev_extra) in (code, ld code ++ str "s are fun!")
    else (0, []) in
  (EVS_STATUS_HANDLED,
   evs_cb_full client client_cb (u32 code) (Some msg) (Some (quote "you requested an error?")) None None None w).

Definition _heartbeat_challenge_cb_ptr : evs_cb_fn := app_cb 1.

Definition _heartbeat_challenge_cb (client : cid) (data : option nat) (client_cb : Z) (json : bytes)
    (w : world) : evs_status * world :=
  match client_get client heartbeat_challenge_cb_quark w with
  | Some v =>
      let w := evs_cb client v None w in
      (EVS_STATUS_OK, client_del client heartbeat_challenge_cb_quark w)
  | None => (EVS_STATUS_OK, w)
  end.

Definition _heartbeat_challenge_handler (client : cid) (ev_extra : bytes) (client_cb : Z) (json : bytes)
    (w : world) : evs_status * world :=
  let w := client_set client heartbeat_challenge_cb_quark (Some client_cb) w in
  (EVS_STATUS_HANDLED,
   evs_send_bruteforce client (Some (str "/qio")) (Some (str "/heartbeat")) None None
     (Some _heartbeat_challenge_cb_ptr) None None w).

Definition _in_progress_handler (st : statics) (client : cid) (ev_extra : bytes) (client_cb : Z)
    (json : bytes) (w : world) : evs_status * world :=
  match client_get client in_progress_callback_quark w with
  | Some cb =>
      match _ev_in_progress st with
      | None => (EVS_STATUS_OK, fault w)
      | Some ev =>
          let '(sub, w) := sub_get ev None true w in
          match sub with
          | None => (EVS_STATUS_OK, fault w)
          | Some sub =>
              let sub_info := mkInfo None None sub client cb in
              let w := evs_on_cb (A := apps0 L) true sub_info w in
              let w := sub_unref sub w in
              (EVS_STATUS_OK, client_del client in_progress_callback_quark w)
          end
      end
  | None => (EVS_STATUS_ERR, w)
  end.

Definition _in_progress_on (info : evs_on_info) (w : world) : evs_status * world :=
  (EVS_STATUS_HANDLED,
   client_set (info_client info) in_progress_callback_quark (Some (info_client_cb info)) w).

Definition _on_data_on (info : evs_on_info) (w : world) : evs_status * world :=
  match qev_json_unpack_d (info_json info) with
  | Some i =>
      if i =? 123987 then
        let w := evs_on_cb (A := apps0 L) true info w in
        (EVS_STATUS_HANDLED, evs_send_info info (Some (str "true")) w)
      else (EVS_STATUS_ERR, w)
  | None => (EVS_STATUS_ERR, w)
  end.

Definition _move_handler (client : cid) (ev_extra : bytes) (client_cb : Z) (json : bytes) (w : world) :
    evs_status * world :=
  let w := evs_send_bruteforce client (Some (str "/qio")) (Some (str "/move")) None (Some json) None None None w in
  (EVS_STATUS_OK, qev_close client QIO_CLOSE_MOVED w).

Definition _send_invalid_handler (client : cid) (ev_extra : bytes) (client_cb : Z) (json : bytes)
    (w : world) : evs_status * world :=
  (EVS_STATUS_HANDLED,
   protocols_send client (str "unicorns, ponies, princesses, and magic!:good times") None 0 [] w).

Definition _send_unsubscribed_handler (client : cid) (ev_extra : bytes) (client_cb : Z) (json : bytes)
    (w : world) : evs_status * world :=
  (EVS_STATUS_HANDLED,
   evs_send_bruteforce client (Some (str "/you/didnt/subscribe/to/this")) None None None None None None w).

(** Runs every 10 ms. *)
Definition _broadcast_timer (st : statics) (w : world) : world :=
  match _ev_broadcast st with
  | Some ev => evs_broadcast ev None (Some (quote "broadcast event")) w
  | None => fault w
  end.

(** The functions behind its pointers, by their numbers. *)
Definition clienttest (st : statics) : Apps L := {|
  app_handler_call := λ n, match n with
    | 0 => _close_handler | 1 => _drop_callback_handler | 2 => _echo_handler | 3 => _error_handler
    | 4 => _heartbeat_challenge_handler | 5 => _in_progress_handler st | 6 => _move_handler
    | 7 => _send_invalid_handler | 8 => _send_unsubscribed_handler
    | _ => λ _ _ _ _ w, (EVS_STATUS_ERR, w)
    end%nat;
  app_on_call := λ n, match n with
    | 0 => _in_progress_on | 1 => _on_data_on | _ => λ _ w, (EVS_STATUS_ERR, w)
    end%nat;
  app_off_call := λ _ _ _ w, w;
  app_cb_call := λ n, match n with
    | 0 => _echo_cb | 1 => _heartbeat_challenge_cb | _ => λ _ _ _ _ w, (EVS_STATUS_ERR, w)
    end%nat;
|}.

(** The events of [_app_init], in order. *)
Definition clienttest_regs : list registration :=
  let handler n := Some (app_handler n) in
  let no_on := Some evs_no_on_ptr in
  [mkReg EV_PREFIX (str "/broadcast") None None None false;
   mkReg EV_PREFIX (str "/close") (handler 0%nat) no_on None false;
   mkReg EV_PREFIX (str "/drop-callback") (handler 1%nat) no_on None false;
   mkReg EV_PREFIX (str "/echo") (handler 2%nat) no_on None false;
   mkReg EV_PREFIX (str "/error") (handler 3%nat) no_on None true;
   mkReg EV_PREFIX (str "/heartbeat-challenge") (handler 4%nat) no_on None false;
   mkReg EV_PREFIX (str "/in-progress") (handler 5%nat) (Some (app_on 0)) None true;
   mkReg EV_PREFIX (str "/move") (handler 6%nat) no_on None false;
   mkReg EV_PREFIX (str "/send-invalid") (handler 7%nat) no_on None false;
   mkReg EV_PREFIX (str "/send-unsubscribed") (handler 8%nat) no_on None false;
   mkReg EV_PREFIX (str "/on-data") None (Some (app_on 1)) None false].

(** [qev_timer(10, _broadcast, NULL)] makes [_broadcast_timer] run. *)
Definition _app_init (w : world) : bool * statics * world :=
  let add (r : registration) w :=
    evs_add_handler (reg_prefix r) (reg_path r) (reg_handler r) (reg_on r) (reg_off r) (reg_children r) w in
  let '(evs, w) := foldl (λ '(evs, w) r, let '(ev, w) := add r w in (evs ++ [ev], w)) ([], w) clienttest_regs in
  (true, mkStatics (mjoin (evs !! 0%nat)) (mjoin (evs !! 6%nat)), w).

Definition _app_exit (w : world) : bool * world := (true, w).

(** After start-up its events are there, and its statics name them. *)
Lemma init_registers w : (_app_init w).2 = register clienttest_regs w.
Proof.
  unfold _app_init, register.
  match goal with |- context [foldl ?f ([], w) clienttest_regs] => assert (H : ∀ l evs w,
    (foldl f (evs, w) l).2 = foldl (λ w r, (evs_add_handler (reg_prefix r) (reg_path r) (reg_handler r)
      (reg_on r) (reg_off r) (reg_children r) w).2) w l) end.
  { intros l. induction l as [|r l IH]; intros evs w1; [done|]. cbn [foldl].
    destruct (evs_add_handler _ _ _ _ _ _ w1) as [e w2]. apply IH. }
  rewrite <- (H _ []). by destruct (foldl _ _ _).
Qed.

(** ** Soundness *)

(** An application without its handler [n]. *)
Definition without (n : nat) (A : Apps L) : Apps L := {|
  app_handler_call := λ m c x cb j w,
    if decide (m = n) then (EVS_STATUS_ERR, w) else app_handler_call m c x cb j w;
  app_on_call := app_on_call;
  app_off_call := app_off_call;
  app_cb_call := app_cb_call;
|}.

Lemma keep_client_set (R : world → world → Prop) {F : Frame R} w c k v w1 :
  kept R w w1 → kept R w (client_set c k v w1).
Proof. intros H. unfold client_set. destruct v; [|done]. refine (kept_upd R _ _ _ _ _ H). by intros []. Qed.
Lemma keep_client_del (R : world → world → Prop) {F : Frame R} w c k w1 :
  kept R w w1 → kept R w (client_del c k w1).
Proof. intros H. unfold client_del. refine (kept_upd R _ _ _ _ _ H). by intros []. Qed.
#[local] Hint Resolve keep_client_set keep_client_del : kept.

(** Nothing that it calls leaves what tame steps may change. *)
Lemma clienttest_tame st : AppsSee tame (clienttest st).
Proof.
  assert (He : ∀ c d cb j w, tame w (_echo_cb c d cb j w).2).
  { intros. exact (keep_cb_full tame w c cb CODE_OK None (Some j) _ None None w _ (kept_refl _ w)). }
  split.
  - intros f c x cb j w.
    destruct f as [|[|[|[|[|[|[|[|[|f]]]]]]]]]; cbn [app_handler_call clienttest]; try apply frame_refl.
    + change (kept tame w (qev_close c (CLOSE_OTHER 0) w)). eauto with kept.
    + apply He.
    + unfold _error_handler. destruct (if rd x 0 =? SLASH then _ else _) as [code msg].
      exact (keep_cb_full tame w c _ _ _ _ _ _ _ w _ (kept_refl _ w)).
    + exact (keep_bruteforce tame w c _ _ _ _ _ _ _ _ _ (keep_client_set tame w c _ _ w (kept_refl _ w))).
    + unfold _in_progress_handler. destruct (client_get _ _ _) as [v|]; [|apply frame_refl].
      destruct (_ev_in_progress st) as [ev|]; [|by apply (frame_world (R := tame))].
      pose proof (keep_sub_get tame w ev None true w (kept_refl _ w)) as H.
      destruct (sub_get ev None true w) as [[s|] w1]; cbn [snd] in *; [|exact (kept_fault tame _ _ H)].
      refine (keep_client_del tame _ _ _ _ _). refine (keep_sub_unref tame _ _ _ _).
      exact (keep_on_cb (A := apps0 L) tame w true _ w1 _ H).
    + pose proof (keep_bruteforce tame w c (Some (str "/qio")) (Some (str "/move")) None (Some j) None None None w _ (kept_refl _ w)) as H.
      unfold _move_handler. cbn [snd]. revert H. generalize (evs_send_bruteforce c (Some (str "/qio")) (Some (str "/move")) None (Some j) None None None w).
      intros w1 H. change (kept tame w (qev_close c QIO_CLOSE_MOVED w1)). eauto with kept.
    + exact (keep_protocols_send tame w c _ None 0 [] w _ (kept_refl _ w)).
    + exact (keep_bruteforce tame w c _ _ _ _ _ _ _ w _ (kept_refl _ w)).
  - intros f info w. destruct f as [|[|f]]; cbn [app_on_call clienttest]; [..|apply frame_refl].
    + exact (keep_client_set tame w _ _ _ w (kept_refl _ w)).
    + unfold _on_data_on. destruct (qev_json_unpack_d _) as [i|]; [|apply frame_refl].
      destruct (i =? 123987); [|apply frame_refl].
      exact (keep_send_sub tame w _ _ _ _ _ _ _ _ (keep_on_cb (A := apps0 L) tame w true info w _ (kept_refl _ w))).
  - intros. apply frame_refl.
  - intros f c d cb j w. destruct f as [|[|f]]; cbn [app_cb_call clienttest]; [apply He| |apply frame_refl].
    unfold _heartbeat_challenge_cb. destruct (client_get _ _ _) as [v|]; [|apply frame_refl].
    refine (keep_client_del tame _ _ _ _ _).
    exact (keep_cb_full tame w c v CODE_OK None None None None None w _ (kept_refl _ w)).
Qed.

Section Sound.
Context {LO : LibsOk L}.

Lemma echo_works ext c d cb j w :
  evs_ok ext w → listener c w → works ext w (_echo_cb c d cb j w).2.
Proof. intros Hok Hl. by apply cb_full_works; [|apply listener_addressee]. Qed.

(** It accepts a subscription, then is done with it. *)
Lemma in_progress_works st ext c x cb j w :
  evs_ok ext w → listener c w → roomy 8 ext w → is_Some (_ev_in_progress st) →
  (∀ ev s, _ev_in_progress st = Some ev → ev_sub ev [] w = Some s → status c s w ≠ Active) →
  works ext w (_in_progress_handler st c x cb j w).2.
Proof.
  intros Hok Hl Hr [ev Hev] Hst. unfold _in_progress_handler.
  destruct (client_get _ _ _) as [v|]; [|by apply works_refl]. rewrite Hev. specialize (Hst ev).
  assert (Hr3 : ∀ s, sub_refs s w < 2 ^ 32 - 3) by (intros s; pose proof (roomy_refs 8 ext w s Hok Hr); lia).
  assert (Hr1 : ∀ s, sub_refs s w < 2 ^ 32 - 1) by (intros s; specialize (Hr3 s); lia).
  pose proof (get_works ext ev None true w Hok (roomy_le 8 2 ext w ltac:(lia) Hr)) as Hg.
  pose proof (sub_get_spec ev None true w (cw_subs _ _ (eo_csub _ _ Hok)) Hr1) as Hspec. cbv zeta in Hspec.
  destruct (get_create ext ev None w Hok Hr3) as (s & w0 & sub & E & Hs & _ & _ & _ & Ec & _). rewrite E in *.
  cbn [fst snd] in *. change (default [] None) with (@nil Z) in *.
  assert (Hp : status c s w0 ≠ Active).
  { assert (Ew : status c s w0 = status c s w) by (unfold status, _sub_get; by rewrite Ec). rewrite Ew.
    destruct (ev_sub ev [] w) as [s'|] eqn:Es.
    - destruct Hspec as (sub' & _ & _ & Eg). injection Eg as <- _. by apply Hst.
    - injection Hspec as -> _. unfold status. destruct (_sub_get c _ w) as [cs|] eqn:Eg; [|done].
      destruct (cw_alloc _ _ (eo_csub _ _ Hok) c _ cs Eg) as [y Hy]. by rewrite fresh_sub in Hy. }
  assert (Hr0 : roomy 2 (ext_inc s ext) w0).
  { apply roomy_inc. eapply works_roomy; [exact Hg|]. by eapply roomy_le; [|exact Hr]. }
  assert (H1 : works (ext_inc s ext) w0 (evs_on_cb (A := apps0 L) true (mkInfo None None s c v) w0)).
  { apply on_cb_done_works; [apply Hg|by eapply works_listener|done|apply ext_inc_held|done]. }
  eapply works_trans; [exact Hg|]. eapply works_trans; [exact H1|].
  pose proof (unref_works ext s _ (wk_ok _ _ _ H1)) as H2. eapply works_trans; [exact H2|].
  apply client_del_works; [apply H2|]. apply (listener_some c).
  by eapply works_listener; [exact H2|]; eapply works_listener; [exact H1|]; eapply works_listener.
Qed.

Lemma on_data_works ext info w :
  evs_ok ext w → listener (info_client info) w → roomy 8 ext w → ext (info_sub info) ≠ 0%nat →
  status (info_client info) (info_sub info) w = Pending → works ext w (_on_data_on info w).2.
Proof.
  intros Hok Hl Hr Hext Hst. unfold _on_data_on. destruct (qev_json_unpack_d _) as [i|]; [|by apply works_refl].
  destruct (i =? 123987); [|by apply works_refl]. cbn [snd].
  assert (Hr2 : roomy 2 ext w) by (by eapply roomy_le; [|exact Hr]).
  assert (H1 : works ext w (evs_on_cb (A := apps0 L) true info w)).
  { apply on_cb_done_works; [done..|]. by rewrite Hst. }
  eapply works_trans; [exact H1|]. apply send_sub_works; [apply H1| |].
  - by eapply works_addressee; [exact H1|apply listener_addressee].
  - destruct (held_sub ext (info_sub info) _ (wk_ok _ _ _ H1) (works_roomy _ _ _ _ _ H1 Hr2) Hext) as (sub & H & _).
    by eexists.
Qed.

Lemma see_without (R : world → world → Prop) n (A : Apps L) : (∀ w, R w w) → AppsSee R A → AppsSee R (without n A).
Proof.
  intros Hr [H1 H2 H3 H4]. split; try done. intros f c x cb j w. simpl. by case_decide; [apply Hr|apply H1].
Qed.

#[export] Instance clienttest_most_sound st : AppsSound (without 5 (clienttest st)).
Proof.
  split.
  - by split.
  - apply see_without; [apply frame_refl|apply clienttest_tame].
  - intros ext f c x cb j w Hok Hl Hr. pose proof (listener_addressee c w Hl) as Ha.
    pose proof (listener_some c w Hl) as Hc. cbn [app_handler_call without]. case_decide as Hn; [by apply works_refl|].
    destruct f as [|[|[|[|[|[|[|[|[|f]]]]]]]]]; cbn [app_handler_call clienttest]; try (by destruct Hn); try by apply works_refl.
    + by apply close_works.
    + by apply echo_works.
    + unfold _error_handler. destruct (if rd x 0 =? SLASH then _ else _) as [code msg]. by apply cb_full_works.
    + pose proof (client_set_works ext c heartbeat_challenge_cb_quark (Some cb) w Hok Hc) as H1.
      eapply works_trans; [exact H1|]. apply bruteforce_works; [apply H1|by eapply works_addressee].
    + pose proof (bruteforce_works ext c (Some (str "/qio")) (Some (str "/move")) None (Some j) None None None w Hok Ha) as H1.
      eapply works_trans; [exact H1|]. apply close_works; [apply H1|]. apply listener_some. by eapply works_listener.
    + by apply protocols_send_works.
    + by apply bruteforce_works.
  - intros ext f info w Hok Hl Hr Hext Hst r. subst r. cbn [app_on_call without].
    destruct f as [|[|f]]; cbn [app_on_call clienttest].
    + split; [|done]. by apply client_set_works; [|apply listener_some].
    + split; [by apply on_data_works|]. unfold _on_data_on. destruct (qev_json_unpack_d _) as [i|]; [|done].
      by destruct (i =? 123987).
    + by split; [apply works_refl|].
  - intros ext f c d cb j w Hok Hl Hr. cbn [app_cb_call without].
    destruct f as [|[|f]]; cbn [app_cb_call clienttest]; [by apply echo_works| |by apply works_refl].
    unfold _heartbeat_challenge_cb. destruct (client_get _ _ _) as [v|]; [|by apply works_refl].
    pose proof (cb_full_works ext c v CODE_OK None None None None None w Hok (listener_addressee c w Hl)) as H1.
    eapply works_trans; [exact H1|]. apply client_del_works; [apply H1|].
    apply (listener_some c). by eapply works_listener.
Qed.

(** C14. The test application uses the server as an application may, but for one
    event. Whatever its other functions are asked, in whatever state: they send
    to the client, close it, make callbacks, attach data and accept
    subscriptions without breaking any invariant of the server, and a
    subscription that they accept themselves is not accepted again. The handler
    of its event in-progress does so as long as the client does not have that
    subscription already, which it does not check. *)
Theorem clienttest_sound st :
  AppsSound (without 5 (clienttest st)) ∧
  ∀ ext c x cb j w,
    evs_ok ext w → listener c w → roomy 8 ext w → is_Some (_ev_in_progress st) →
    (∀ ev s, _ev_in_progress st = Some ev → ev_sub ev [] w = Some s → status c s w ≠ Active) →
    works ext w (app_handler_call (Apps := clienttest st) 5 c x cb j w).2.
Proof. split; [apply _|intros; by apply in_progress_works]. Qed.

End Sound.

End ClientTest.

(** ** A client that subscribes below in-progress *)

#[local] Existing Instance config0.

(** One implementation of what it uses. *)
Definition test_libs0 : TestLibs := {|
  g_ascii_strtoll := λ l, match l with 45 :: l => - (Reference.strtoull l).1.1 | _ => (Reference.strtoull l).1.1 end;
  qev_json_unpack_d := λ o, l ← o; if bool_decide (l = str "123987") then Some 123987 else None;
  heartbeat_challenge_cb_quark := 1;
  in_progress_callback_quark := 2;
|}.

#[local] Existing Instance test_libs0.

Definition loaded : bool * statics * world (L := libs0) :=
  _app_init (L := libs0) (served (L := libs0) [] (Reference.mkPool 0 0) 7 0).

(** The server with the application, and one client. *)
Definition test_world : world (L := libs0) := set_w_clients (L := libs0) (λ _, {[1%positive := raw_client]}) loaded.2.
Definition test_apps : Apps libs0 := clienttest (L := libs0) loaded.1.2.

Definition in_progress_path : bytes := str "/clienttest/in-progress".

Definition asks (messages : list (bytes * bytes)) (w : world (L := libs0)) : world (L := libs0) :=
  foldl (λ w '(path, json), evs_route (L := libs0) (A := test_apps) 1 path 1 json w) w messages.

Definition messages : list (bytes * bytes) :=
  [(str "/qio/on", quote "/clienttest/in-progress"); (in_progress_path, str "null");
   (str "/qio/on", quote "/clienttest/in-progress/x"); (in_progress_path, str "null")].

Definition listed (w : world (L := libs0)) : list (bytes * bytes * list cid) :=
  (λ '(_, s), (ev_path (sub_ev (L := libs0) s), sub_ev_extra (L := libs0) s, qev_list_items (Libs := libs0) (subscribers (L := libs0) s))) <$>
    map_to_list (w_subs (L := libs0) w).

(** The test application accepts a subscription twice. A client subscribes to
    in-progress and asks it to be accepted, as intended; then subscribes to a path
    below it, for which the same function is called, and asks again. The
    subscription that is accepted is the first one, which the client has already:
    it is in the list of subscribers twice, and the one that it asked for still
    waits. *)
Example in_progress_twice :
  let w := asks messages test_world in
  loaded.1.1 = true ∧ _ev_in_progress loaded.1.2 =
    Some (event_init in_progress_path (Some (app_handler 5)) (Some (app_on 0)) None true) ∧
  listed w = [(in_progress_path, str "/x", []); (in_progress_path, [], [1%positive; 1%positive])].
Proof. split; [|split]; vm_compute; reflexivity. Qed.

Lemma clienttest_sound_witness :
  works (L := libs0) (λ _, 0%nat) evs_world
    (app_handler_call (Apps := clienttest (L := libs0) (mkStatics None (Some demo_event))) 5 1 [] 7 [] evs_world).2.
Proof.
  destruct (clienttest_sound (L := libs0) (mkStatics None (Some demo_event))) as [_ H]. apply H.
  - apply evs_world_ok.
  - exists raw_client. split; [reflexivity|by split].
  - intros s. change (Z.of_nat (0 + 4) + 8 < 2 ^ 32). lia.
  - by eexists.
  - intros ev s _. unfold ev_sub. simpl. by rewrite lookup_empty.
Defined.
