(* ===== verification/Answers.v ===== *)
(** What a request comes to: [evs_route], [evs_on] and [client_cb_fire] of
    src/evs.c and src/client.c, for applications whose functions use the server
    themselves. What the server does is stated from the state that such a function
    leaves. *)
From Stdlib Require Import ZArith Lia String.
From stdpp Require Import functions base list gmap strings.
From S2P Require Import Prelude Types Libs Path EvsQuery State Callbacks Sub Apps ClientSub Config Raw WebSocket Poll Send Quiet Evs Broadcast Route Receive Http Keep Steady Works Protocols Startup ClientTest.

Section Answers.
Context {L : Libs} {C : Config} {A : Apps L}.

(** Exactly one answer, from the state [w] to [w'], and no subscription changes.
    A client that did not ask for answers gets none ([answer_to]). *)
Record answered (ext : positive → nat) (c : cid) (client_cb code : Z) (err_msg json : option bytes)
    (w w' : world) : Prop := {
  an_spoke : spoke ext (answer_to c client_cb EVS_NO_CALLBACK code err_msg json w) w w';
  an_status d s : status d s w' = status d s w;
}.

(** What [evs_route] adds to a handler's status: one answer, or nothing. *)
Definition finished (ext : positive → nat) (c : cid) (client_cb : Z) (st : evs_status) (w w' : world) : Prop :=
  match st with
  | EVS_STATUS_OK => answered ext c client_cb CODE_OK None None w w'
  | EVS_STATUS_ERR => answered ext c client_cb CODE_UNKNOWN None None w w'
  | EVS_STATUS_HANDLED => w' = w
  end.

Lemma answered_calm {LO : LibsOk L} ext c cb code err json w w1 :
  calm w w1 → (∀ d s, status d s w1 = status d s w) → evs_ok ext w1 → addressee c w →
  answered ext c cb code err json w (evs_err_cb c cb code err json w1).
Proof.
  intros Hc Hst Hok Ha. pose proof (err_cb_said ext c cb code err json w1 Hok (calm_addressee c w w1 Hc Ha)) as Hs.
  split; [by eapply calm_answered|]. intros d s. etrans; [by eapply said_status|apply Hst].
Qed.

Lemma answered_quiet {LO : LibsOk L} ext c cb code err json w w1 :
  quiet w w1 → evs_ok ext w → addressee c w →
  answered ext c cb code err json w (evs_err_cb c cb code err json w1).
Proof.
  intros Hq Hok Ha. apply answered_calm; [apply Hq|intros; by apply quiet_status|by eapply quiet_ok|done].
Qed.

Lemma route_finishes {LO : LibsOk L} ext c cb st w :
  evs_ok ext w → addressee c w → finished ext c cb st w (route_answer st CODE_UNKNOWN c cb w).
Proof. intros Hok Ha. destruct st; [by apply answered_quiet..|done]. Qed.

(** ** Firing callbacks *)

(** Callback [y] is fired under [id], from [w] to [w']: it is taken out of the
    client, which is all that changes before its function is called; afterwards
    its data is released. The result is the function's. *)
Definition fired (c : cid) (id : Z) (y : client_cb) (client_cb : Z) (json : bytes) (w : world)
    (st : evs_status) (w' : world) : Prop :=
  ∃ w1, quiet w w1 ∧ w_freed w1 = w_freed w ∧ cb_view c w1 = delete (u32 id) (cb_view c w) ∧
    (∀ d, d ≠ c → w_clients w1 !! d = w_clients w !! d) ∧
    let r := call_cb (cb_fn y) c (cb_data y) client_cb json w1 in
    st = r.1 ∧ quiet r.2 w' ∧ w_clients w' = w_clients r.2 ∧ w_freed w' = w_freed r.2 ++ owner y.

Lemma fire_spec {LO : LibsOk L} ext c cl id cb json w :
  evs_ok ext w → addressee c w → w_clients w !! c = Some cl →
  let r := client_cb_fire c id cb json w in
  match cb_view c w !! u32 id with
  | None => r.1 = EVS_STATUS_HANDLED ∧
      answered ext c cb CODE_NOT_FOUND (Some (str "callback doesn't exist")) None w r.2
  | Some y => fired c id y cb json w r.1 r.2
  end.
Proof.
  intros Hok Ha Hc r. subst r. unfold client_cb_fire.
  destruct (take_spec c cl id w (eo_cbs _ _ Hok) Hc) as (H1 & H2 & H3 & H4).
  pose proof (cb_take_quiet c cl id w (eo_cbs _ _ Hok) Hc) as Hq. rewrite <- H1.
  destruct (client_cb_take c id w) as [x w1]. cbn [fst snd] in *. destruct x as [y|].
  - exists w1. split; [done|]. split; [done|]. split; [done|]. split; [intros d Hd; by eapply step_other|].
    destruct (call_cb (cb_fn y) c (cb_data y) cb json w1) as [st w2]. cbn [fst snd].
    split; [done|]. split; [|split].
    + etrans; [apply data_free_quiet|]. apply quiet_stat. set_solver.
    + apply data_free_clients.
    + apply data_free_freed.
  - split; [done|]. by apply answered_quiet.
Qed.

(** ** Subscribing *)

Context {LO : LibsOk L} {AS : AppsSound A}.

Lemma calm_listener c w w' : calm w w' → listener c w → listener c w'.
Proof.
  intros H (cl & Hc & H1 & H2). destruct (calm_some c cl w w' H Hc) as (cl' & Hc' & E).
  exists cl'. split; [done|]. apply (f_equal c_prot) in E as E1. apply (f_equal c_surrogate) in E as E2.
  simpl in E1, E2. by rewrite E1, E2.
Qed.

Lemma calm_roomy k ext w w' : calm w w' → roomy k ext w → roomy k ext w'.
Proof.
  intros H Hr s. specialize (Hr s). enough (size (w_clients w') = size (w_clients w)) by congruence.
  rewrite <- !size_dom. f_equal. apply set_eq. intros d. rewrite !elem_of_dom. by apply calm_dom.
Qed.

(** Sound applications leave what [evs_on] needs. *)
Lemma sound_acted ext c s ev info w :
  info_client info = c → info_sub info = s →
  evs_ok (ext_inc s ext) w → listener c w → roomy 8 (ext_inc s ext) w → status c s w = Pending →
  acted (ext_inc s ext) c s (asked ev info w).
Proof.
  intros <- <- Hok Hl Hr Hst.
  destruct (on_call_works (ext_inc (info_sub info) ext) ev info w Hok Hl Hr (ext_inc_held _ _) Hst) as [H1 H2].
  fold (asked ev info w) in H1, H2. split; [apply H1|]. split.
  { by eapply works_addressee; [exact H1|apply listener_addressee]. }
  split; [|done]. pose proof (works_roomy _ _ 8 w _ H1 Hr) as Hr'.
  pose proof (roomy_refs 8 _ _ (info_sub info) (wk_ok _ _ _ H1) Hr'). lia.
Qed.

Lemma on_outcome ext c cl ev ox cb json w :
  evs_ok ext w → listener c w → w_clients w !! c = Some cl → roomy 9 ext w →
  ∃ s w0,
    sub_get ev ox true w = (Some s, w0) ∧
    on_done ext ev c s cb (mkInfo ox json s c cb) cl (client_sub_add c s w0).2 w (evs_on c ev ox cb json w).
Proof.
  intros Hok Hl Hc Hr. apply evs_on_done; [done|by apply listener_addressee|done| |].
  - intros s. pose proof (roomy_refs 9 ext w s Hok Hr). lia.
  - intros s w1 info Hok1 Hc1 _ Hst. apply sound_acted; [done..|by eapply calm_listener| |done].
    apply (calm_roomy _ _ w); [done|]. by apply roomy_inc.
Qed.

(** ** Routing *)

Context (tbl : EventTable.table).

(** The server callback that a path under /qio/callback names. *)
Definition callback_id (ev_extra : bytes) : Z :=
  if rd ev_extra 0 =? SLASH then (g_ascii_strtoull (drop 1 ev_extra)).1.1 else EVS_NO_CALLBACK.

(** What the handler of an event, [x] being what follows its path, and the answer
    to its status make of a request. *)
Inductive handled (ext : positive → nat) (c : cid) (x : bytes) (cb : Z) (json : bytes) (w w' : world) :
    option evs_handler_fn → Prop :=
  | h_none : answered ext c cb CODE_UNKNOWN None None w w' → handled ext c x cb json w w' None
  | h_app n :
      let r := app_handler_call n c x cb json w in
      finished ext c cb r.1 r.2 w' → handled ext c x cb json w w' (Some (app_handler n))
  | h_ping : answered ext c cb CODE_OK None None w w' → handled ext c x cb json w w' (Some qio_ping)
  | h_hostname : answered ext c cb CODE_OK None (Some _json_hostname) w w' →
      handled ext c x cb json w w' (Some qio_hostname)
  | h_callback_bad : callback_id x = EVS_NO_CALLBACK →
      answered ext c cb CODE_BAD (Some (str "invalid server callback id")) None w w' →
      handled ext c x cb json w w' (Some qio_callback)
  | h_callback_gone : callback_id x ≠ EVS_NO_CALLBACK → cb_view c w !! u32 (callback_id x) = None →
      answered ext c cb CODE_NOT_FOUND (Some (str "callback doesn't exist")) None w w' →
      handled ext c x cb json w w' (Some qio_callback)
  | h_callback y st w1 : callback_id x ≠ EVS_NO_CALLBACK → cb_view c w !! u32 (callback_id x) = Some y →
      fired c (callback_id x) y cb json w st w1 → finished ext c cb st w1 w' →
      handled ext c x cb json w w' (Some qio_callback)
  | h_on_bad : on_args json = None →
      answered ext c cb CODE_BAD (Some (str "invalid json ev_path")) None w w' →
      handled ext c x cb json w w' (Some qio_on)
  | h_on_missing path data : on_args json = Some (path, data) →
      EventTable.query tbl (clean_path path) = QNull → answered ext c cb CODE_NOT_FOUND None None w w' →
      handled ext c x cb json w w' (Some qio_on)
  | h_on path data e y s cl w0 : on_args json = Some (path, data) →
      EventTable.query tbl (clean_path path) = QEvent e y →
      w_clients w !! c = Some cl → sub_get e (Some y) true w = (Some s, w0) →
      on_done ext e c s cb (mkInfo (Some y) data s c cb) cl (client_sub_add c s w0).2 w w' →
      handled ext c x cb json w w' (Some qio_on)
  | h_off_bad : rd json 0 ≠ DQUOTE →
      answered ext c cb CODE_BAD (Some (str "invalid json ev_path")) None w w' →
      handled ext c x cb json w w' (Some qio_off)
  | h_off_missing : rd json 0 = DQUOTE → EventTable.query tbl (clean_path (drop 1 json)) = QNull →
      answered ext c cb CODE_NOT_FOUND None None w w' → handled ext c x cb json w w' (Some qio_off)
  | h_off e y : rd json 0 = DQUOTE → EventTable.query tbl (clean_path (drop 1 json)) = QEvent e y →
      spoke ext (answer_to c cb EVS_NO_CALLBACK CODE_OK None None w) w w' →
      (∀ d s, status d s w' =
         if decide (d = c ∧ ev_sub e y w = Some s) then off_status (status d s w) else status d s w) →
      handled ext c x cb json w w' (Some qio_off).

(** A request for [path]. *)
Inductive routed (ext : positive → nat) (c : cid) (path : bytes) (cb : Z) (json : bytes) (w w' : world) : Prop :=
  | routed_missing : EventTable.query tbl (clean_path path) = QNull →
      answered ext c cb CODE_NOT_FOUND None None w w' → routed ext c path cb json w w'
  | routed_event e x : EventTable.query tbl (clean_path path) = QEvent e x →
      handled ext c x cb json (stat_inc evs_received w) w' (handler_fn e) → routed ext c path cb json w w'.

(** What [evs_route] makes of the result of a handler. *)
Abbreviation routes_to ext c cb r P :=
  (P (route_answer (r : evs_status * world).1 CODE_UNKNOWN c cb r.2)).

Lemma callback_outcome ext c x cb json w :
  evs_ok ext w → listener c w → roomy 9 ext w →
  let r := _callback c x cb json w in
  routes_to ext c cb r (λ w', handled ext c x cb json w w' (Some qio_callback)).
Proof.
  intros Hok Hl Hr r. subst r. pose proof Hl as (cl & Hc & _). pose proof (listener_addressee c w Hl) as Ha.
  unfold _callback. set (p := if rd x 0 =? SLASH then _ else _).
  assert (Hp : p.1 = callback_id x ∧ quiet w p.2 ∧ w_clients p.2 = w_clients w ∧ w_freed p.2 = w_freed w).
  { unfold p, callback_id. destruct (rd x 0 =? SLASH); [|done].
    destruct (g_ascii_strtoull (drop 1 x)) as [[n len] e]. done. }
  destruct p as [id w1]. cbn [fst snd] in Hp. destruct Hp as (-> & Hq & Ec & Ef).
  destruct (Z.eqb_spec (callback_id x) EVS_NO_CALLBACK) as [E|E].
  { apply h_callback_bad; [done|]. by apply answered_quiet. }
  assert (Hok1 : evs_ok ext w1) by (by eapply quiet_ok).
  assert (Hl1 : listener c w1) by (eapply calm_listener; [apply Hq|done]).
  assert (Hc1 : w_clients w1 !! c = Some cl) by (by rewrite Ec).
  assert (Ev : ∀ d, cb_view d w1 = cb_view d w) by (intros d; unfold cb_view; by rewrite Ec).
  assert (Hr1 : roomy 8 ext w1).
  { apply (calm_roomy _ _ w); [apply Hq|]. by eapply roomy_le; [|exact Hr]. }
  pose proof (fire_works ext c (callback_id x) cb json w1 Hok1 Hl1 Hr1) as Hw.
  pose proof (fire_spec ext c cl (callback_id x) cb json w1 Hok1 (listener_addressee _ _ Hl1) Hc1) as H.
  cbv zeta in H. rewrite Ev in H. destruct (client_cb_fire c (callback_id x) cb json w1) as [st w2].
  cbn [fst snd] in *. destruct (cb_view c w !! u32 (callback_id x)) as [y|] eqn:Ey.
  - eapply h_callback; [done|exact Ey| |apply route_finishes; [apply Hw|]].
    + destruct H as (w3 & H1 & H2 & H3 & H4 & H5). exists w3. split; [by etrans|]. split; [congruence|].
      split; [by rewrite <- Ev|]. split; [by rewrite <- Ec|done].
    + by eapply works_addressee; [exact Hw|apply listener_addressee].
  - destruct H as [-> H]. cbn [route_answer]. apply h_callback_gone; [done|done|].
    destruct H as [H1 H2]. split.
    + rewrite (answer_to_calm c cb _ _ _ _ w w1) in H1 by apply Hq. eapply calm_then; [apply Hq|exact H1|apply H1].
    + intros d s. by rewrite H2, (quiet_status w w1).
Qed.

Lemma on_event_outcome ext c x cb json w :
  evs_ok ext w → listener c w → roomy 9 ext w → represents tbl (w_events w) → bytes_ok json →
  let r := _on c cb json w in
  routes_to ext c cb r (λ w', handled ext c x cb json w w' (Some qio_on)).
Proof.
  intros Hok Hl Hr Ht Hj r. subst r. pose proof Hl as (cl & Hc & _). pose proof (listener_addressee c w Hl) as Ha.
  unfold _on. destruct (on_args json) as [[path data]|] eqn:Ea.
  2: { apply h_on_bad; [done|by apply answered_quiet]. }
  destruct (query_spec tbl w path Ht) as [-> Hq]; [by eapply on_args_bytes|].
  destruct (EventTable.query tbl (clean_path path)) as [| |e y] eqn:Eq; [done|..].
  { eapply h_on_missing; [done..|by apply answered_quiet]. }
  destruct (on_outcome ext c cl e (Some y) cb data w Hok Hl Hc Hr) as (s & w0 & H1 & H2).
  by eapply h_on.
Qed.

Lemma off_event_outcome ext c x cb json w :
  evs_ok ext w → listener c w → roomy 9 ext w → represents tbl (w_events w) → bytes_ok json →
  let r := _off c cb json w in
  routes_to ext c cb r (λ w', handled ext c x cb json w w' (Some qio_off)).
Proof.
  intros Hok Hl Hr Ht Hj r. subst r. pose proof Hl as (cl & Hc & _). pose proof (listener_addressee c w Hl) as Ha.
  unfold _off. destruct (Z.eqb_spec (rd json 0) DQUOTE) as [E|E]; cbn [negb].
  2: { apply h_off_bad; [done|by apply answered_quiet]. }
  destruct (query_spec tbl w (drop 1 json) Ht) as [-> Hq]; [by apply Forall_drop|].
  destruct (EventTable.query tbl (clean_path (drop 1 json))) as [| |e y] eqn:Eq; [done|..].
  { eapply h_off_missing; [done..|by apply answered_quiet]. }
  destruct (evs_off_done ext c cl e y w Hok Hc) as (H1 & H2 & H3).
  { intros s. pose proof (roomy_refs 9 ext w s Hok Hr). lia. }
  cbn [fst snd route_answer].
  pose proof (err_cb_said ext c cb CODE_OK None None _ H1 (calm_addressee c w _ H2 Ha)) as Hs.
  eapply h_off; [done|done|by eapply calm_answered|].
  intros d s. etrans; [by eapply said_status|apply H3].
Qed.

Lemma handler_outcome ext c x cb json h w :
  evs_ok ext w → listener c w → roomy 9 ext w → represents tbl (w_events w) → bytes_ok json →
  let r := match h with Some h => call_handler h c x cb json w | None => (EVS_STATUS_ERR, w) end in
  routes_to ext c cb r (λ w', handled ext c x cb json w w' h).
Proof.
  intros Hok Hl Hr Ht Hj r. subst r. pose proof (listener_addressee c w Hl) as Ha.
  destruct h as [[| | | | |n]|]; cbn [call_handler].
  - by apply callback_outcome.
  - apply h_hostname. by apply answered_quiet.
  - by apply off_event_outcome.
  - by apply on_event_outcome.
  - apply h_ping. by apply answered_quiet.
  - apply h_app. assert (H : works ext w (app_handler_call n c x cb json w).2).
    { apply sd_handler; [done|done|]. by eapply roomy_le; [|exact Hr]. }
    apply route_finishes; [apply H|]. by eapply works_addressee.
  - apply h_none. by apply answered_quiet.
Qed.

Lemma route_outcome ext c path cb json w :
  evs_ok ext w → listener c w → roomy 9 ext w → represents tbl (w_events w) → bytes_ok path → bytes_ok json →
  routed ext c path cb json w (evs_route c path cb json w).
Proof.
  intros Hok Hl Hr Ht Hp Hj. unfold evs_route.
  destruct (query_spec tbl w path Ht Hp) as [-> Hq].
  destruct (EventTable.query tbl (clean_path path)) as [| |e x] eqn:Eq; [done|..].
  - apply routed_missing; [done|]. apply answered_quiet; [done|done|by apply listener_addressee].
  - assert (Hq1 : quiet w (stat_inc evs_received w)) by (apply quiet_stat; set_solver).
    eapply routed_event; [exact Eq|].
    pose proof (handler_outcome ext c x cb json (handler_fn e) (stat_inc evs_received w)) as H. cbv zeta in H.
    destruct (match handler_fn e with Some h => _ | None => _ end) as [st w2]. apply H.
    + by eapply quiet_ok.
    + eapply calm_listener; [apply Hq1|done].
    + by apply (calm_roomy _ _ w); [apply Hq1|].
    + done.
    + done.
Qed.

(** C3. Every request that names a path is routed as the table of events says,
    whatever the path and the data are, and whatever the applications do.
    Requests in which no function of an application runs are answered by the
    server exactly once, with the codes of [handled], each error included, if the
    client asked for an answer: those for paths without an event, /qio/ping,
    /qio/hostname, /qio/off, and malformed or unknown ones to /qio/on and
    /qio/callback. When an application's handler or callback runs, its status is
    answered once from the state that it leaves, OK with 200 and ERR with the
    code for unknown errors; when it says that it has handled the request, the
    server adds nothing to what it sent itself. /qio/on comes to what [on_done]
    says. The server itself sends to nobody else and changes no subscription but
    those named; no undefined access happens, and the invariants are kept. *)
Theorem evs_route_correct ext c path cb json w :
  evs_ok ext w → listener c w → roomy 9 ext w → represents tbl (w_events w) →
  bytes_ok path → bytes_ok json →
  let w' := evs_route c path cb json w in
  works ext w w' ∧ routed ext c path cb json w w'.
Proof. intros Hok Hl Hr Ht Hp Hj. split; [by eapply route_works|by apply route_outcome]. Qed.

(** C12. [evs_on], whatever the application does when it is asked. A request to
    subscribe is answered by the server itself, once, unless it makes a new
    subscription: a client that is closing, or has no permit for another
    subscription, is told 420; one whose subscription is pending (or cancelled
    and now wanted again) is told 202, one that is already subscribed 200. A new
    subscription is pending when the application is asked, and that is all that
    has changed. If the application says that it handles the request, nothing is
    added to what it did or will do: it may have answered already, with
    [evs_on_cb]. Otherwise the verdict is carried out on the subscription as the
    application left it, with one answer: 200 and the subscription active, 420 if
    the list of subscribers is full, 401 or 404 if it is refused, and in the last
    cases no subscription remains. The server touches no other subscription,
    sends nothing to anybody else, returns the reference taken for the duration
    of the call, and keeps its invariants. *)
Theorem evs_on_correct ext c cl ev ox cb json w :
  evs_ok ext w → listener c w → w_clients w !! c = Some cl → roomy 9 ext w →
  let w' := evs_on c ev ox cb json w in
  works ext w w' ∧
  ∃ s w0,
    sub_get ev ox true w = (Some s, w0) ∧
    on_done ext ev c s cb (mkInfo ox json s c cb) cl (client_sub_add c s w0).2 w w'.
Proof. intros Hok Hl Hc Hr. split; [by apply on_works|by apply on_outcome]. Qed.

(** C30. [client_cb_fire], whatever the callback's function does. An id that
    names no callback of the client, because there never was one, it has fired, or
    it was evicted or pruned, is answered 404, once, and runs nothing. Otherwise
    the callback is taken out of the client, the others stay, and nothing else
    has changed when its function is called with the callback's data; the
    function's status is the result, and the destructor of the data runs once,
    after the call. The invariants of the server are kept. *)
Theorem client_cb_fire_correct ext c cl id cb json w :
  evs_ok ext w → listener c w → w_clients w !! c = Some cl → roomy 8 ext w →
  let r := client_cb_fire c id cb json w in
  works ext w r.2 ∧
  match cb_view c w !! u32 id with
  | None => r.1 = EVS_STATUS_HANDLED ∧
      answered ext c cb CODE_NOT_FOUND (Some (str "callback doesn't exist")) None w r.2
  | Some y => fired c id y cb json w r.1 r.2
  end.
Proof.
  intros Hok Hl Hc Hr. split; [by apply fire_works|]. apply (fire_spec ext c cl id cb json w); [done|by apply listener_addressee|done].
Qed.

End Answers.

(** ** Witnesses

    They run the test application, but for its handler of in-progress. *)

#[local] Existing Instance config0.
#[local] Existing Instance test_libs0.

Definition talk_apps : Apps libs0 := without (L := libs0) 5 (clienttest (L := libs0) (mkStatics None None)).
#[local] Existing Instance talk_apps.

Lemma evs_world_listener : listener (L := libs0) 1 evs_world.
Proof. exists raw_client. split; [reflexivity|by split]. Qed.

Lemma evs_world_roomy k : k ≤ 9 → roomy (L := libs0) k (λ _, 0%nat) evs_world.
Proof. intros Hk s. change (Z.of_nat (0 + 4) + k < 2 ^ 32). lia. Qed.

(** Its event on-data: the function accepts the subscription, sends an event to
    the new subscriber, and says that the request is handled. *)
Definition data_event : event :=
  event_init (str "/clienttest/on-data") None (Some (app_on 1)) None false.

Definition raw_message (path : bytes) (json : bytes) : list output :=
  writes (protocol_raw_frame (L := libs0) path [] 0 json).

Lemma evs_on_correct_witness :
  let w' := evs_on (L := libs0) 1 data_event None 7 (Some (str "123987")) evs_world in
  status (L := libs0) 1 1 w' = Active ∧ w_fault w' = false ∧
  out (L := libs0) 1 w' =
    raw_message (str "/qio/callback/7") (cb_json (L := libs0) CODE_OK None None) ++
    raw_message (str "/clienttest/on-data") (str "true").
Proof.
  destruct (evs_on_correct (L := libs0) (λ _, 0%nat) 1 raw_client data_event None 7 (Some (str "123987"))
    evs_world evs_world_ok evs_world_listener eq_refl (evs_world_roomy 9 ltac:(lia))) as [Hw (s & w0 & E & H)].
  split; [reflexivity|]. split; [exact (wk_fault _ _ _ Hw)|].
  injection E as <- <-. destruct H as [code err H _ _|_ _ _ _ _ _ H].
  - inversion H; discriminate.
  - destruct H as [H _]. rewrite (sp_out _ _ _ _ H 1%positive). reflexivity.
Defined.

(** A callback of client 1, whose function asks for nothing. *)
Definition cb_world : world (L := libs0) :=
  (client_cb_new (L := libs0) (Some 1%positive) (Some (app_cb 1)) (Some 3%nat) (Some 4%nat) evs_world).2.
Definition cb_id : Z :=
  (client_cb_new (L := libs0) (Some 1%positive) (Some (app_cb 1)) (Some 3%nat) (Some 4%nat) evs_world).1.

Lemma cb_world_quiet : quiet (L := libs0) evs_world cb_world.
Proof.
  apply (cb_new_requested (L := libs0) (λ _, 0%nat) 1 raw_client (Some (app_cb 1)) _ _ evs_world evs_world_ok).
  reflexivity.
Qed.

Definition cb_fire (id : Z) : evs_status * world (L := libs0) :=
  client_cb_fire (L := libs0) 1 id 7 (str "1") cb_world.

Lemma client_cb_fire_correct_witness :
  (∃ y, cb_view (L := libs0) 1 cb_world !! cb_id = Some y ∧
    fired (L := libs0) 1 cb_id y 7 (str "1") cb_world (cb_fire cb_id).1 (cb_fire cb_id).2) ∧
  (cb_fire cb_id).1 = EVS_STATUS_OK ∧ cb_view (L := libs0) 1 (cb_fire cb_id).2 !! cb_id = None ∧
  w_freed (cb_fire cb_id).2 = [(4, 3)]%nat ∧
  out (L := libs0) 1 (cb_fire (cb_id + 65536)).2 = raw_message (str "/qio/callback/7")
    (cb_json (L := libs0) CODE_NOT_FOUND (Some (str "callback doesn't exist")) None).
Proof.
  assert (Hok : evs_ok (L := libs0) (λ _, 0%nat) cb_world) by (eapply quiet_ok; [exact cb_world_quiet|exact evs_world_ok]).
  assert (Hl : listener (L := libs0) 1 cb_world) by (eapply calm_listener; [apply cb_world_quiet|exact evs_world_listener]).
  assert (Hr : roomy (L := libs0) 8 (λ _, 0%nat) cb_world)
    by (eapply calm_roomy; [apply cb_world_quiet|apply evs_world_roomy; lia]).
  assert (Hc : ∃ cl, w_clients cb_world !! 1%positive = Some cl) by (by eexists). destruct Hc as [cl Hc].
  split; [|split; [|split; [|split]]]; [|vm_compute; reflexivity..|].
  - destruct (client_cb_fire_correct (L := libs0) (λ _, 0%nat) 1 cl cb_id 7 (str "1") cb_world Hok Hl Hc Hr) as [_ H].
    change (u32 cb_id) with cb_id in H.
    destruct (cb_view (L := libs0) 1 cb_world !! cb_id) as [y|] eqn:Ey; [by exists y|].
    vm_compute in Ey. discriminate.
  - destruct (client_cb_fire_correct (L := libs0) (λ _, 0%nat) 1 cl (cb_id + 65536) 7 (str "1") cb_world Hok Hl Hc Hr)
      as [_ H].
    assert (E : cb_view (L := libs0) 1 cb_world !! u32 (cb_id + 65536) = None) by (vm_compute; reflexivity).
    rewrite E in H. destruct H as [_ [H _]]. unfold cb_fire. rewrite (sp_out _ _ _ _ H 1%positive). reflexivity.
Defined.

(** The events of the server, and the application's event move: its handler
    sends an event, closes the client, and answers OK. *)
Definition move_world : world (L := libs0) :=
  (evs_add_handler (L := libs0) (str "/clienttest") (str "/move") (Some (app_handler 6)) (Some evs_no_on_ptr) None
    false route_world).2.
Definition move_event : event :=
  event_init (str "/clienttest/move") (Some (app_handler 6)) (Some evs_no_on_ptr) None false.
Definition move_table : EventTable.table := (EventTable.insert qio_table (str "/clienttest/move") move_event).1.

Lemma move_world_ok : represents move_table (w_events move_world) ∧ evs_ok (L := libs0) (λ _, 0%nat) move_world.
Proof.
  destruct (add_handler_done (L := libs0) qio_table (str "/clienttest") (str "/move") (Some (app_handler 6))
    (Some evs_no_on_ptr) None false route_world (proj1 route_world_ok) (str_bytes _) (str_bytes _)) as (H1 & _ & H3).
  split; [exact H1|]. unfold move_world. rewrite H3. apply events_ok_set, route_world_ok.
Qed.

Lemma evs_route_correct_witness :
  let routes path := evs_route (L := libs0) 1 (str path) 7 (str "1") move_world in
  out (L := libs0) 1 (routes "/qio//ping/") =
    raw_message (str "/qio/callback/7") (cb_json (L := libs0) CODE_OK None None) ∧
  out (L := libs0) 1 (routes "/clienttest/move") =
    raw_message (str "/qio/move") (str "1") ++ [OClose QIO_CLOSE_MOVED] ++
    raw_message (str "/qio/callback/7") (cb_json (L := libs0) CODE_OK None None) ∧
  w_fault (routes "/clienttest/move") = false.
Proof.
  intros routes.
  assert (H : ∀ path, works (L := libs0) (λ _, 0%nat) move_world (routes path) ∧
    routed (L := libs0) move_table (λ _, 0%nat) 1 (str path) 7 (str "1") move_world (routes path)).
  { intros path. apply evs_route_correct; [apply move_world_ok| | |apply move_world_ok|apply str_bytes..].
    - exists raw_client. split; [reflexivity|by split].
    - intros s. change (Z.of_nat (0 + 4) + 9 < 2 ^ 32). lia. }
  assert (Hq : EventTable.query move_table (clean_path (str "/qio//ping/")) =
    QEvent (event_init (str "/qio/ping") (Some qio_ping) (Some evs_no_on_ptr) None false) []) by (vm_compute; reflexivity).
  assert (Hm : EventTable.query move_table (clean_path (str "/clienttest/move")) = QEvent move_event [])
    by (vm_compute; reflexivity).
  split; [|split; [|exact (wk_fault _ _ _ (proj1 (H "/clienttest/move"%string)))]].
  - destruct (proj2 (H "/qio//ping/"%string)) as [Hn _|e x He Hh]; [congruence|].
    rewrite Hq in He. injection He as <- <-. inversion Hh as [| |[Hs _]| | | | | | | | | |]. subst.
    rewrite (sp_out _ _ _ _ Hs 1%positive). reflexivity.
  - destruct (proj2 (H "/clienttest/move"%string)) as [Hn _|e x He Hh]; [congruence|].
    rewrite Hm in He. injection He as <- <-. inversion Hh as [|n r Hf| | | | | | | | | | |]. subst.
    destruct Hf as [Hs _]. rewrite (sp_out _ _ _ _ Hs 1%positive). reflexivity.
Defined.
