(* ===== verification/Loop.v ===== *)
(** The reading loop ends: whatever the bytes are, each round of [_route]
    consumes some of them, and never more than there are. *)
From Stdlib Require Import ZArith Lia String.
From stdpp Require Import functions base list gmap strings.
From S2P Require Import Prelude Types Libs Path EvsQuery State Callbacks Sub Apps ClientSub Config Raw WebSocket Poll Send Quiet Evs Route Receive Http Keep Protocols.

Section Loop.
Context {L : Libs} {C : Config} {A : Apps L} {LO : LibsOk L} {AK : AppsKeep A}.

(** What has been read is octets; what is still to come has a 64-bit length. *)
Record inbox_ok (c : cid) (w : world) : Prop := {
  io_bytes : bytes_ok (inbox c w).1;
  io_body : 0 ≤ (inbox c w).2 < 2 ^ 64;
  io_small : Z.of_nat (length (inbox c w).1) < 2 ^ 64;
}.

(** A round that began at [used] in a buffer of [n] bytes. *)
Record advanced (c : cid) (n used : nat) (r : protocol_status * nat * world) : Prop := {
  ad_inbox : inbox_ok c r.2;
  ad_length : length (inbox c r.2).1 = n;
  ad_bound : (r.1.2 ≤ n)%nat;
  ad_progress : r.1.1 = PROT_OK → (r.1.2 < n)%nat → (used < r.1.2)%nat;
}.

Lemma rbuff_inbox c w : rbuff c w = (inbox c w).1.
Proof. unfold rbuff, seen. by destruct (w_clients w !! c). Qed.

Lemma rbs_ok c w w' : rbs w w' → inbox_ok c w → inbox_ok c w'.
Proof. intros H [H1 H2 H3]. by split; rewrite (H c). Qed.

Lemma stuck_advanced c n used st w :
  inbox_ok c w → length (inbox c w).1 = n → (used ≤ n)%nat → st ≠ PROT_OK →
  advanced c n used (st, used, w).
Proof. intros H1 H2 H3 H4. by split. Qed.

Lemma set_rbuff_inbox c b w :
  length b = length (inbox c w).1 → inbox c (set_rbuff c b w) = (b, (inbox c w).2).
Proof.
  intros Hl. unfold seen, set_rbuff in *. rewrite upd_client_at, decide_True by done.
  destruct (w_clients w !! c) as [cl|]; [done|]. simpl in Hl. by destruct b.
Qed.

(** A buffer of the same size, and then steps that leave buffers alone. *)
Lemma rewritten c b w w' :
  inbox_ok c w → bytes_ok b → length b = length (inbox c w).1 → rbs (set_rbuff c b w) w' →
  inbox_ok c w' ∧ length (inbox c w').1 = length (inbox c w).1 ∧ (inbox c w').1 = b.
Proof.
  intros [H1 H2 H3] Hb Hl Hr. pose proof (Hr c) as E. rewrite set_rbuff_inbox in E by done.
  rewrite E. split; [|done]. split; rewrite E; cbn [fst snd]; [done|done|by rewrite Hl].
Qed.

Lemma raw_advanced c used w :
  inbox_ok c w → (used ≤ length (inbox c w).1)%nat →
  advanced c (length (inbox c w).1) used (protocol_raw_route c used w).
Proof.
  intros Hok Hu. unfold protocol_raw_route. rewrite rbuff_inbox.
  destruct (raw_extract _ used) as [| |event buf total_len] eqn:E; [by apply stuck_advanced..|].
  apply raw_extract_buffer in E as (E1 & E2 & E3 & E4); [|apply Hok|done].
  pose proof (keep_raw_handle (same inbox_view) (set_rbuff c buf w) c event _ _ (kept_refl _ _)) as Hr.
  destruct (protocol_raw_handle c event _) as [st w1]. cbn [snd] in Hr.
  destruct (rewritten c buf w w1 Hok E4 E3 Hr) as (K1 & K2 & _). split; cbn [fst snd]; try done. lia.
Qed.

Lemma decode_advanced c used w :
  inbox_ok c w → (used ≤ length (inbox c w).1)%nat →
  let '(st, (len, frame_len), w') := rfc6455_decode c used w in
  inbox_ok c w' ∧ length (inbox c w').1 = length (inbox c w).1 ∧
  (st = PROT_OK → (len < frame_len)%nat ∧ (used + frame_len ≤ length (inbox c w).1)%nat).
Proof.
  intros Hok Hu. unfold rfc6455_decode. rewrite rbuff_inbox.
  pose proof (decode_buffer (inbox c w).1 used (io_bytes _ _ Hok) Hu) as [H1 H2].
  pose proof (decode_spec (inbox c w).1 used (io_bytes _ _ Hok) Hu) as Hd. cbv zeta in Hd.
  destruct (_decode (inbox c w).1 used) as [r buf]. cbn [snd] in *.
  destruct (rewritten c buf w (set_rbuff c buf w) Hok H1 H2 (kept_refl _ _)) as (K1 & K2 & _).
  destruct r as [|[reason|]|len frame_len]; try (split; [done|]; by split).
  - assert (Hr : rbs (set_rbuff c buf w) (qev_close c reason (set_rbuff c buf w)))
      by eauto with kept.
    split; [by eapply rbs_ok|]. split; [by rewrite (Hr c)|done].
  - destruct Hd as (f & key & Hp & _ & Hk & -> & -> & _).
    split; [done|]. split; [done|]. intros _. rewrite !Nat2Z.id.
    destruct (parse_size _ f key ltac:(by apply Forall_drop, Hok) Hp Hk) as [P1 P2]. rewrite length_drop in P2. lia.
Qed.

Lemma ws_advanced c used w :
  inbox_ok c w → (used ≤ length (inbox c w).1)%nat →
  advanced c (length (inbox c w).1) used (protocol_rfc6455_route c used w).
Proof.
  intros Hok Hu. unfold protocol_rfc6455_route. pose proof (decode_advanced c used w Hok Hu) as H.
  destruct (rfc6455_decode c used w) as [[st [len frame_len]] w1]. destruct H as (H1 & H2 & H3).
  destruct st; [|by apply stuck_advanced..]. destruct H3 as [H3 H4]; [done|].
  rewrite rbuff_inbox. set (buf := wr _ _ NUL).
  assert (Hb : bytes_ok buf ∧ length buf = length (inbox c w1).1).
  { unfold buf, wr. rewrite length_insert. split; [|done]. apply Forall_insert; [apply H1|done]. }
  pose proof (keep_raw_handle (same inbox_view) (set_rbuff c buf w1) c (cstr (drop used buf)) _ _ (kept_refl _ _)) as Hr.
  destruct (protocol_raw_handle c _ _) as [st w2]. cbn [snd] in Hr.
  destruct (rewritten c buf w1 w2 H1 (proj1 Hb) (proj2 Hb) Hr) as (K1 & K2 & _).
  split; cbn [fst snd]; [done|congruence|lia|lia].
Qed.

(** Steps of HTTP leave the buffer alone, but set the length of the body. *)
Lemma http_body_set c n w :
  inbox_ok c w → 0 ≤ n < 2 ^ 64 → ∀ f, (∀ h, h_body_len (f h) = n) →
  inbox_ok c (upd_http c f w) ∧ (inbox c (upd_http c f w)).1 = (inbox c w).1.
Proof.
  intros [H1 H2 H3] Hn f Hf.
  assert (E : inbox c (upd_http c f w) = ((inbox c w).1, if w_clients w !! c then n else 0)).
  { unfold seen, upd_http. rewrite upd_client_at, decide_True by done.
    destruct (w_clients w !! c) as [cl|]; simpl; [unfold inbox_view; simpl; by rewrite Hf|done]. }
  rewrite E. split; [|done]. split; rewrite E; try done. simpl. by destruct (w_clients w !! c).
Qed.

Lemma headers_body_kept c h p n w :
  inbox_ok c w → 0 ≤ n < 2 ^ 64 →
  inbox_ok c (headers_body c h p n w).2 ∧ (inbox c (headers_body c h p n w).2).1 = (inbox c w).1.
Proof.
  intros Hok Hn. unfold headers_body.
  pose proof (keep_get_surrogate (same inbox_view) w (hr_url h) w (kept_refl _ w)) as G1.
  destruct (_get_surrogate (hr_url h) w) as [s w1]. cbn [snd] in *.
  set (w2 := match s with Some s => _ | None => w1 end).
  assert (G2 : rbs w w2) by (subst w2; keep).
  destruct (http_body_set c n w2 (rbs_ok c w w2 G2 Hok) Hn (λ h0, set_h_body_len (λ _, n)
    (set_h_is_post (λ _, p) (set_h_iframe_requested (λ _, has_prefix (str "/iframe") (url_left (hr_url h))) h0))))
    as [K1 K2]; [done|]. split; [done|]. rewrite K2. by rewrite (G2 c).
Qed.

Lemma do_headers_kept c h w :
  inbox_ok c w →
  inbox_ok c (_do_headers_http c h w).2 ∧ (inbox c (_do_headers_http c h w).2).1 = (inbox c w).1.
Proof.
  intros Hok. unfold _do_headers_http. destruct (hr_header h _) as [v|].
  - destruct (qev_safe_strtoull v) as [n|] eqn:E; [|done]. apply safe_strtoull in E. by apply headers_body_kept.
  - case_bool_decide; [|by apply headers_body_kept]. cbn [snd].
    assert (Hr : rbs w (qev_close c HTTP_LENGTH_REQUIRED w)) by eauto with kept.
    split; [by eapply rbs_ok|]. by rewrite (Hr c).
Qed.

(** The headers are read, or they are not all there. *)
Lemma http_headers_advanced c used w :
  inbox_ok c w → (used ≤ length (inbox c w).1)%nat →
  advanced c (length (inbox c w).1) used (http_headers c used w).
Proof.
  intros Hok Hu. unfold http_headers. rewrite rbuff_inbox. set (buf := (inbox c w).1).
  set (h := qev_http_request_parse (drop used buf)).
  destruct (negb (hr_ok h) && hr_incomplete h) eqn:E; [by apply stuck_advanced|].
  set (w1 := upd_http c _ _).
  assert (H1 : rbs w w1) by (subst w1; pose proof (keep_error (same inbox_view) w (Some c) STATUS_200 w (kept_refl _ w)); eauto with kept).
  pose proof (rbs_ok c w w1 H1 Hok) as Hok1.
  match goal with |- context [let '(_, _) := ?t in _] => set (r := t) end.
  assert (H : inbox_ok c r.2 ∧ (inbox c r.2).1 = buf ∧ (r.1.2 ≤ length buf)%nat ∧
    (r.1.1 = PROT_OK → (r.1.2 < length buf)%nat → (used < r.1.2)%nat)).
  { subst r. destruct (hr_ok h) eqn:Eh.
    - assert (Hb : (0 < hr_body h ≤ length buf - used)%nat)
        by (pose proof (http_body (drop used buf) Eh) as Hb; by rewrite length_drop in Hb).
      destruct (hr_header h HTTP_CHALLENGE_KEY) as [key|].
      + pose proof (keep_headers_websocket (same inbox_view) w c h (hr_header h HTTP_CONNECTION) (Some key) w1 H1) as H2.
        destruct (_do_headers_websocket c h _ _ w1) as [st w2]. cbn [fst snd] in *.
        split; [by eapply rbs_ok|]. split; [by rewrite (H2 c)|]. split; [done|lia].
      + destruct (do_headers_kept c h w1 Hok1) as [K1 K2].
        destruct (_do_headers_http c h w1) as [st w2]. cbn [fst snd] in *.
        split; [done|]. split; [by rewrite K2, (H1 c)|]. split; lia.
    - cbn [fst snd]. split; [done|]. split; [by rewrite (H1 c)|]. split; [done|]. done. }
  destruct r as [[st used'] w2]. cbn [fst snd] in H. destruct H as (K1 & K2 & K3 & K4).
  destruct st; try (split; cbn [fst snd]; [done|by rewrite K2|done|done]).
  assert (Hc : rbs w2 (qev_close c HTTP_BAD_REQUEST w2)) by eauto with kept.
  split; cbn [fst snd]; [by eapply rbs_ok|by rewrite (Hc c), K2|done|done].
Qed.


Lemma http_body_advanced c used w :
  inbox_ok c w → (used ≤ length (inbox c w).1)%nat →
  let r := http_body_part c used w in
  inbox_ok c r.2 ∧ length (inbox c r.2).1 = length (inbox c w).1 ∧
  (r.1.2 ≤ length (inbox c w).1)%nat ∧
  (r.1.1 = PROT_OK → r.1.2 = used + Z.to_nat (inbox c w).2)%nat.
Proof.
  intros Hok Hu r. subst r. unfold http_body_part. destruct (w_clients w !! c) as [cl|] eqn:Hc.
  2: { split; [by eapply (rbs_ok c w (fault w))|done]. }
  assert (Ei : inbox c w = (c_rbuff cl, h_body_len (c_http cl))) by (unfold seen; by rewrite Hc).
  pose proof Hok as [H1 H2 H3]. rewrite Ei in H1, H2, H3, Hu |- *. cbn [fst snd] in *.
  destruct (qev_safe_uadd _ _) as [len|] eqn:E; [|split; [done|]; cbn [fst snd]; by rewrite Ei].
  destruct (Z.ltb_spec (Z.of_nat (length (c_rbuff cl))) len) as [|Hle]; cbn [fst snd].
  { split; [done|]. by rewrite Ei. }
  set (w1 := _do_body c _ w). assert (Hr : rbs w w1) by (exact (keep_do_body (same inbox_view) _ _ _ _ (kept_refl _ _))).
  destruct (http_body_set c 0 w1 (rbs_ok c w w1 Hr Hok) ltac:(lia) (set_h_body_len (λ _, 0))) as [K1 K2]; [done|].
  split; [done|]. rewrite K2, (Hr c), Ei. split; [done|]. split; [|done]. cbn [fst].
  rewrite safe_uadd in E by lia.
  destruct (Z.ltb_spec (h_body_len (c_http cl) + Z.of_nat used) (2 ^ 64)); [|done].
  injection E as <-. lia.
Qed.

Lemma http_advanced c used w :
  inbox_ok c w → (used ≤ length (inbox c w).1)%nat →
  c_prot <$> w_clients w !! c = Some (Some protocol_http) →
  advanced c (length (inbox c w).1) used (protocol_http_route c used w).
Proof.
  intros Hok Hu Hp. unfold protocol_http_route. destruct (w_clients w !! c) as [cl|] eqn:Hc.
  2: by apply stuck_advanced.
  assert (H1 : rbs w (touch_send c w)) by eauto with kept.
  set (w1 := touch_send c w) in *. pose proof (rbs_ok c w w1 H1 Hok) as Hok1.
  assert (Hu1 : (used ≤ length (inbox c w1).1)%nat) by (by rewrite (H1 c)).
  assert (Eb : (inbox c w).2 = h_body_len (c_http cl)) by (unfold seen; by rewrite Hc).
  set (r := if h_body_len (c_http cl) =? 0 then _ else _).
  assert (Hr : inbox_ok c r.2 ∧ length (inbox c r.2).1 = length (inbox c w).1 ∧
    (r.1.2 ≤ length (inbox c w).1)%nat ∧
    (r.1.1 = PROT_OK → (r.1.2 < length (inbox c w).1)%nat →
       (used < r.1.2)%nat ∨ r.1.2 = used ∧ (inbox c r.2).2 ≠ 0 ∧ r.2 = w1)).
  { subst r. destruct (Z.eqb_spec (h_body_len (c_http cl)) 0) as [E|E].
    - destruct (http_headers_advanced c used w1 Hok1 Hu1) as [K1 K2 K3 K4]. rewrite (H1 c) in *.
      split; [done|]. split; [done|]. split; [done|]. auto.
    - cbn [fst snd]. split; [done|]. split; [by rewrite (H1 c)|]. split; [done|]. intros _ _. right.
      split; [done|]. split; [|done].
      by rewrite (H1 c), Eb. }
  destruct r as [[st used1] w2]. cbn [fst snd] in Hr. destruct Hr as (K1 & K2 & K3 & K4).
  destruct (w_clients w2 !! c) as [cl2|] eqn:Hc2.
  2: { split; cbn [fst snd]; try done. by destruct K1. }
  destruct (bool_decide (c_prot cl2 = _) && bool_decide (st = PROT_OK)) eqn:Eb2.
  - apply andb_prop in Eb2 as [_ Eb2]. apply bool_decide_eq_true_1 in Eb2. subst st.
    rewrite <- K2 in K3. destruct (http_body_advanced c used1 w2 K1 K3) as (J1 & J2 & J3 & J4).
    split; [done|by rewrite J2|by rewrite <- K2|]. intros Hst Hlt. rewrite J4 in * by done.
    pose proof (io_body _ _ K1). destruct K4 as [|(-> & Hne & _)]; [done|lia|lia|lia].
  - split; cbn [fst snd]; try done. intros -> Hlt. destruct K4 as [|(_ & _ & ->)]; [done|done|done|].
    exfalso. unfold w1, touch_send in Hc2. rewrite upd_client_at, decide_True, Hc in Hc2 by done.
    injection Hp as Hp. injection Hc2 as <-. simpl in Eb2. by rewrite Hp in Eb2.
Qed.

Lemma step_advanced c used w :
  inbox_ok c w → (used ≤ length (inbox c w).1)%nat →
  advanced c (length (inbox c w).1) used (prot_step c used w).
Proof.
  intros Hok Hu. unfold prot_step. destruct (w_clients w !! c) as [cl|] eqn:Hc; [|apply stuck_advanced; try done; by destruct Hok].
  destruct (c_prot cl) as [p|] eqn:Hp; [|apply stuck_advanced; try done; by destruct Hok].
  destruct p; cbn [prot_route]; [|by apply stuck_advanced|by apply raw_advanced|by apply ws_advanced].
  apply http_advanced; [done..|]. by rewrite Hc; simpl; rewrite Hp.
Qed.

Lemma route_loop_ends fuel c used w :
  inbox_ok c w → (used ≤ length (inbox c w).1)%nat → (length (inbox c w).1 - used < fuel)%nat →
  ∃ used' w', route_loop fuel c used w = Some (used', w') ∧ (used' ≤ length (inbox c w').1)%nat ∧
    inbox_ok c w' ∧ length (inbox c w').1 = length (inbox c w).1.
Proof.
  revert used w. induction fuel as [|fuel IH]; intros used w Hok Hu Hf; [lia|]. cbn [route_loop].
  destruct (step_advanced c used w Hok Hu) as [K1 K2 K3 K4].
  destruct (prot_step c used w) as [[st used1] w1]. cbn [fst snd] in *.
  assert (Hdone : ∀ w2, rbs w1 w2 → inbox_ok c w2 ∧ length (inbox c w2).1 = length (inbox c w).1).
  { intros w2 H. split; [by eapply rbs_ok|by rewrite (H c)]. }
  destruct st.
  - set (w2 := qev_timeout_clear c (touch_recv c w1)).
    destruct (Hdone w2) as [H1 H2]; [subst w2; eauto with kept|].
    rewrite rbuff_inbox, H2. destruct (Nat.ltb_spec used1 (length (inbox c w).1)) as [Hlt|Hge].
    + specialize (K4 eq_refl Hlt).
      destruct (IH used1 w2) as (u & w' & E & J1 & J2 & J3); [done|by rewrite H2|rewrite H2; lia|].
      exists u, w'. rewrite <- H2. done.
    + exists used1, w2. rewrite H2. done.
  - destruct (Hdone (qev_timeout c w1)) as [H1 H2]; [eauto with kept|].
    exists used1, (qev_timeout c w1). rewrite H2. done.
  - destruct (Hdone (qev_close c QIO_CLOSE_UNKNOWN_ERROR w1)) as [H1 H2]; [eauto with kept|].
    exists used1, (qev_close c QIO_CLOSE_UNKNOWN_ERROR w1). rewrite H2. done.
Qed.

Lemma emptied c w : inbox_ok c w → inbox_ok c (set_rbuff c [] w).
Proof.
  intros [H1 H2 H3].
  assert (E : (inbox c (set_rbuff c [] w)).1 = [] ∧ 0 ≤ (inbox c (set_rbuff c [] w)).2 < 2 ^ 64).
  { unfold seen, set_rbuff in *. rewrite upd_client_at, decide_True by done.
    by destruct (w_clients w !! c). }
  destruct E as [E1 E2]. split; rewrite ?E1; [constructor|done|done].
Qed.

Lemma handshake_ends c p handshake w :
  inbox_ok c w → prot_handshake p = Some handshake → inbox_ok c (_handshake c handshake w).
Proof.
  intros Hok Hp.
  assert (Hk : ∀ w1 w2, inbox_ok c w1 → rbs w1 w2 → inbox_ok c w2) by (intros; by eapply rbs_ok).
  assert (H : inbox_ok c (handshake c w).2).
  { destruct p; simplify_eq/=.
    - apply (Hk (set_rbuff c [] w)); [by apply emptied|eauto 10 with kept].
    - apply (Hk (set_rbuff c [] (qev_write c HANDSHAKE w))); [|eauto 10 with kept].
      apply emptied, (Hk w); [done|eauto 10 with kept].
    - unfold protocol_rfc6455_handshake. pose proof (decode_advanced c 0 w Hok ltac:(lia)) as Hd.
      destruct (rfc6455_decode c 0 w) as [[st [len flen]] w1]. destruct Hd as (H1 & _ & _).
      destruct st; [|done..]. unfold protocol_raw_check_handshake.
      destruct (bool_decide _); cbn [snd]; apply (Hk (set_rbuff c [] w1)); by (apply emptied || eauto 10 with kept). }
  unfold _handshake. destruct (handshake c w) as [st w1]. cbn [snd] in H.
  destruct st; [|done|]; apply (Hk w1); by (done || eauto 10 with kept).
Qed.

Lemma erase_ok c used w : inbox_ok c w → (used ≤ length (inbox c w).1)%nat → inbox_ok c (erase c used w).
Proof.
  intros [H1 H2 H3] Hu. unfold erase. rewrite rbuff_inbox, (proj2 (Nat.leb_le _ _)) by done.
  assert (E : inbox c (set_rbuff c (drop used (inbox c w).1) w) = (drop used (inbox c w).1, (inbox c w).2)).
  { unfold seen, set_rbuff. rewrite upd_client_at, decide_True by done.
    destruct (w_clients w !! c); [done|]. simpl. by rewrite drop_nil. }
  split; rewrite E; cbn [fst snd]; [by apply Forall_drop|done|rewrite length_drop; lia].
Qed.

Lemma route_ends c w : inbox_ok c w → ∃ w', _route c w = Some w' ∧ inbox_ok c w'.
Proof.
  intros Hok. destruct (route_loop_ends (S (length (inbox c w).1)) c 0 w Hok) as (used & w1 & E & H1 & H2 & H3);
    [lia..|].
  exists (erase c used w1). unfold _route. rewrite rbuff_inbox, E. split; [done|]. by apply erase_ok.
Qed.

Lemma protocols_route_ends c w : inbox_ok c w → ∃ w', protocols_route c w = Some w' ∧ inbox_ok c w'.
Proof.
  intros Hok. unfold protocols_route.
  assert (Hk : ∀ w1 w2, inbox_ok c w1 → rbs w1 w2 → inbox_ok c w2) by (intros; by eapply rbs_ok).
  assert (H1 : inbox_ok c (touch_recv c w)) by (apply (Hk w); [done|eauto 10 with kept]).
  set (w1 := touch_recv c w) in *.
  destruct (w_clients w1 !! c) as [cl|] eqn:Hc; [|by exists w1].
  match goal with |- context [let '(_, _) := ?t in _] => set (r := t) end.
  assert (H2 : inbox_ok c r.2).
  { subst r. destruct (c_prot cl); [done|]. unfold _find_handler.
    destruct (find_loop _ _ _) as [p|[]]; cbn [snd]; apply (Hk w1); by (done || eauto 10 with kept). }
  destruct r as [found w2]. cbn [snd] in H2. destruct found; [|by exists w2]. cbn [negb].
  destruct (c_handshaked cl); cbn [negb]; [by apply route_ends|].
  destruct (w_clients w2 !! c) as [cl2|]; [|by exists w2].
  destruct (c_prot cl2) as [p|]; simpl.
  - destruct (prot_handshake p) as [h|] eqn:Hp; [eexists; split; [done|by eapply handshake_ends]|].
    apply route_ends, (Hk w2); [done|eauto 10 with kept].
  - apply route_ends, (Hk w2); [done|eauto 10 with kept].
Qed.

(** C7. Reading ends. Whatever bytes a client has sent, for any protocol and
    any state of the server, the loop of [_route] comes to its end within one
    round more than there are bytes: each round that goes on has consumed at
    least one. Never more is erased from the buffer than it holds, so that the
    bytes that stay are exactly a suffix of those that were there, as many as
    the rounds have left. *)
Theorem route_terminates c w :
  inbox_ok c w →
  ∃ used w1,
    route_loop (S (length (rbuff c w))) c 0 w = Some (used, w1) ∧
    (used ≤ length (rbuff c w))%nat ∧ length (rbuff c w1) = length (rbuff c w) ∧
    _route c w = Some (set_rbuff c (drop used (rbuff c w1)) w1) ∧
    ∃ w', protocols_route c w = Some w' ∧ inbox_ok c w'.
Proof.
  intros Hok. rewrite !rbuff_inbox.
  destruct (route_loop_ends (S (length (inbox c w).1)) c 0 w Hok) as (used & w1 & E & H1 & H2 & H3); [lia..|].
  exists used, w1. rewrite rbuff_inbox. split; [done|]. split; [lia|]. split; [done|].
  split; [|by apply protocols_route_ends]. unfold _route. rewrite rbuff_inbox, E. simpl. unfold erase.
  by rewrite rbuff_inbox, (proj2 (Nat.leb_le _ _)).
Qed.

End Loop.

(** ** Witnesses *)

#[local] Existing Instance config0.

(** Two requests and the start of a third. *)
Definition ping_frame : bytes := be_split 8 12 ++ str "/qio/ping:7=".
Definition read_world : world (L := libs0) :=
  set_rbuff (L := libs0) 1 (ping_frame ++ ping_frame ++ [0; 0]) route_world.

Lemma read_world_ok : inbox_ok (L := libs0) 1 read_world.
Proof.
  split.
  - apply (bool_decide_eq_true_1 (bytes_ok (seen (L := libs0) inbox_view 1 read_world).1)). reflexivity.
  - split; reflexivity || discriminate.
  - reflexivity.
Qed.

Lemma route_terminates_witness :
  ∃ w', protocols_route (L := libs0) (A := apps0 libs0) 1 read_world = Some w' ∧
    rbuff (L := libs0) 1 w' = [0; 0] ∧ length (out (L := libs0) 1 w') = 2%nat.
Proof.
  destruct (route_terminates (L := libs0) (A := apps0 libs0) 1 read_world read_world_ok)
    as (_ & _ & _ & _ & _ & _ & w' & E & _).
  exists w'. split; [exact E|].
  enough (H : (λ w, (rbuff (L := libs0) 1 w, length (out (L := libs0) 1 w))) <$>
    protocols_route (L := libs0) (A := apps0 libs0) 1 read_world = Some ([0; 0], 2%nat)).
  { rewrite E in H. injection H as H1 H2. by split. }
  reflexivity.
Defined.
