(* ===== verification/Handshake.v ===== *)
(** The first words of a connection: which protocol it gets, and what the
    handshakes of src/protocols.c, src/protocols_raw.c, src/protocols_flash.c and
    src/protocols_rfc6455.c make of it. *)
From Stdlib Require Import ZArith Lia String.
From stdpp Require Import functions base list gmap strings.
From S2P Require Import Prelude Types Libs Path EvsQuery State Callbacks Sub Apps ClientSub Config Raw WebSocket Poll Send Quiet Evs Route Receive Http Protocols.

Section Handshake.
Context {L : Libs} {C : Config} {A : Apps L}.

(** ** What the bytes are *)

Inductive greeting :=
  | Requests    (** the header of an HTTP request *)
  | Policy      (** flash's policy request *)
  | Hello       (** the raw handshake *)
  | Unfinished  (** it may become one of them *)
  | Unknown.

Definition greets (b : bytes) : greeting :=
  let complete := _has_complete_header b in
  if complete && existsb (λ m, has_prefix (str m) b) HTTP_METHODS then Requests
  else if bool_decide (cstr b = FLASH_POLICY_REQUEST) then Policy
  else if bool_decide (cstr b = HANDSHAKE) then Hello
  else if complete && negb (rd b 0 =? 60) && negb (has_prefix (cstr b) HANDSHAKE) then Unknown
  else Unfinished.

Lemma find_loop_greets b :
  find_loop _protocols b false =
    match greets b with
    | Requests => inl protocol_http
    | Policy => inl protocol_flash
    | Hello => inl protocol_raw
    | Unfinished => inr true
    | Unknown => inr false
    end.
Proof.
  unfold find_loop, _protocols, greets. cbn [prot_handles].
  unfold protocol_http_handles, protocol_flash_handles, protocol_raw_handles, protocol_rfc6455_handles.
  destruct (_has_complete_header b), (existsb _ _); cbn [negb andb]; try done;
    repeat case_bool_decide; try done; destruct (rd b 0 =? 60), (has_prefix (cstr b) HANDSHAKE); done.
Qed.

(** ** What becomes of the client *)

Definition heard (now : Z) (cl : client) : client := set_c_last_recv (λ _, now) cl.
Definition shaken (now : Z) (p : protocol) (cl : client) : client :=
  set_c_timeout (λ _, false) (set_c_handshaked (λ _, true) (set_c_last_send (λ _, now)
    (set_c_prot (λ _, Some p) cl))).
Definition said_out (o : list output) : client → client := set_c_out (λ l, l ++ o).
Definition shut : client → client := set_c_closing (λ _, true).
Definition read_up : client → client := set_c_rbuff (λ _, []).

(** After a greeting at time [now]. *)
Definition greeted (g : greeting) (now : Z) (cl : client) : client :=
  let cl := heard now cl in
  match g with
  | Requests => shaken now protocol_http cl
  | Policy => shut (read_up (set_c_prot (λ _, Some protocol_flash)
      (said_out [OWrite FLASH_POLICY_RESPONSE; OClose QIO_CLOSE_DONE; OClose QIO_CLOSE_NOT_SUPPORTED] cl)))
  | Hello => shaken now protocol_raw (read_up (said_out [OWrite HANDSHAKE] cl))
  | Unfinished => cl
  | Unknown => shut (said_out [OClose QIO_CLOSE_NOT_SUPPORTED] cl)
  end.

Definition greeting_stat (g : greeting) : world → world :=
  match g with
  | Policy => stat_inc flash_handshakes
  | Hello => stat_inc raw_handshakes
  | _ => λ w, w
  end.

(** After the first frame of a WebSocket. *)
Definition upgraded (r : decoded * bytes) (now : Z) (cl : client) : client :=
  let cl := heard now cl in
  match r with
  | (DAgain, buf) => set_c_rbuff (λ _, buf) cl
  | (DFatal None, buf) =>
      shut (said_out [OClose QIO_CLOSE_NOT_SUPPORTED] (set_c_rbuff (λ _, buf) cl))
  | (DFatal (Some reason), buf) =>
      shut (said_out [OClose reason; OClose QIO_CLOSE_NOT_SUPPORTED] (set_c_rbuff (λ _, buf) cl))
  | (DOk _ _, buf) =>
      if bool_decide (cstr buf = HANDSHAKE)
      then shaken now protocol_rfc6455 (read_up (said_out [OWrite QIO_HANDSHAKE] cl))
      else shut (said_out [OClose QIO_CLOSE_INVALID_HANDSHAKE; OClose QIO_CLOSE_NOT_SUPPORTED] (read_up cl))
  end.

Definition upgrade_stat (r : decoded * bytes) : world → world :=
  match r with
  | (DOk _ _, buf) =>
      if bool_decide (cstr buf = HANDSHAKE) then stat_inc rfc6455_handshakes_good
      else stat_inc rfc6455_handshakes_bad
  | _ => λ w, w
  end.

(** ** One client's updates, put together *)

Lemma upd_upd c f g w : upd_client c f (upd_client c g w) = upd_client c (λ cl, f (g cl)) w.
Proof.
  unfold upd_client. destruct (w_clients w !! c) as [cl|] eqn:E; simpl.
  - rewrite lookup_insert_eq. unfold set_w_clients. simpl. by rewrite insert_insert_eq.
  - by rewrite E.
Qed.

Lemma upd_stat c f k n w : upd_client c f (stat_add k n w) = stat_add k n (upd_client c f w).
Proof. unfold upd_client. simpl. by destruct (w_clients w !! c). Qed.

Lemma upd_ext c f g cl w : w_clients w !! c = Some cl → f cl = g cl → upd_client c f w = upd_client c g w.
Proof. intros E H. unfold upd_client. rewrite E. unfold set_w_clients. simpl. by rewrite H. Qed.

Lemma upd_now c f w : w_now (upd_client c f w) = w_now w.
Proof. apply upd_client_now. Qed.
Lemma stat_now k n w : w_now (stat_add k n w) = w_now w.
Proof. done. Qed.

Lemma rbuff_upd c f cl w : w_clients w !! c = Some cl → rbuff c (upd_client c f w) = c_rbuff (f cl).
Proof. intros E. unfold rbuff. by rewrite upd_client_at, decide_True, E. Qed.



(** Collects what is written to one client into one update. *)
#[local] Ltac gather :=
  unfold qev_write, qev_close, set_rbuff, touch_send, touch_recv, qev_timeout_clear, _set_handshaked,
    stat_inc in *;
  unfold touch_send, qev_timeout_clear in *;
  repeat (rewrite upd_stat || rewrite upd_now || rewrite stat_now || rewrite upd_upd).

Lemma client_ext a b :
  c_surrogate a = c_surrogate b → c_closing a = c_closing b → c_refs a = c_refs b → c_rbuff a = c_rbuff b →
  c_out a = c_out b → c_handshaked a = c_handshaked b → c_prot a = c_prot b →
  c_last_send a = c_last_send b → c_last_recv a = c_last_recv b → c_timeout a = c_timeout b →
  c_subs a = c_subs b → c_data a = c_data b → c_http a = c_http b → c_cbs a = c_cbs b →
  c_cbs_id a = c_cbs_id b → a = b.
Proof. destruct a, b; simpl. by intros -> -> -> -> -> -> -> -> -> -> -> -> -> -> ->. Qed.

#[local] Ltac same_client Hc :=
  eapply upd_ext; [exact Hc|]; unfold greeted, upgraded, shaken, said_out, shut, read_up, heard;
  generalize FLASH_POLICY_RESPONSE HANDSHAKE QIO_HANDSHAKE; intros;
  apply client_ext; cbn; try done; rewrite <- ?app_assoc; first [done|congruence].

Lemma greeting_done c cl w :
  w_clients w !! c = Some cl → c_prot cl = None → c_handshaked cl = false →
  let g := greets (c_rbuff cl) in
  let w' := greeting_stat g (upd_client c (greeted g (w_now w)) w) in
  protocols_route c w = match g with Requests => _route c w' | _ => Some w' end.
Proof.
  intros Hc Hp Hh g w'. subst w'. unfold protocols_route.
  assert (H1 : w_clients (touch_recv c w) !! c = Some (heard (w_now w) cl)).
  { unfold touch_recv. by rewrite upd_client_at, decide_True, Hc. }
  rewrite H1. change (c_prot (heard (w_now w) cl)) with (c_prot cl). rewrite Hp.
  change (c_handshaked (heard (w_now w) cl)) with (c_handshaked cl). rewrite Hh. cbn [negb].
  unfold _find_handler. assert (Hb : rbuff c (touch_recv c w) = c_rbuff cl).
  { unfold rbuff. by rewrite H1. }
  rewrite Hb, find_loop_greets. fold g.
  assert (Hp2 : ∀ p, ∃ cl2, w_clients (upd_client c (set_c_prot (λ _, Some p)) (touch_recv c w)) !! c = Some cl2 ∧
    c_prot cl2 = Some p).
  { intros p. eexists. by rewrite upd_client_at, decide_True, H1. }
  destruct g; cbn [negb greeting_stat greeted].
  - destruct (Hp2 protocol_http) as (cl2 & -> & E). rewrite E. cbn [mbind option_bind prot_handshake].
    f_equal. gather. same_client Hc.
  - destruct (Hp2 protocol_flash) as (cl2 & -> & E). rewrite E. cbn [mbind option_bind prot_handshake].
    unfold _handshake, protocol_flash_handshake. f_equal. gather. f_equal; try same_client Hc.
  - destruct (Hp2 protocol_raw) as (cl2 & -> & E). rewrite E. cbn [mbind option_bind prot_handshake].
    unfold _handshake, protocol_raw_handshake. f_equal. gather. f_equal; try same_client Hc.
  - done.
  - f_equal. gather. same_client Hc.
Qed.

Lemma upgrade_done c cl w :
  w_clients w !! c = Some cl → c_prot cl = Some protocol_rfc6455 → c_handshaked cl = false →
  let r := _decode (c_rbuff cl) 0 in
  protocols_route c w = Some (upgrade_stat r (upd_client c (upgraded r (w_now w)) w)).
Proof.
  intros Hc Hp Hh r. unfold protocols_route.
  assert (H1 : w_clients (touch_recv c w) !! c = Some (heard (w_now w) cl)).
  { unfold touch_recv. by rewrite upd_client_at, decide_True, Hc. }
  rewrite H1. change (c_prot (heard (w_now w) cl)) with (c_prot cl). rewrite Hp.
  change (c_handshaked (heard (w_now w) cl)) with (c_handshaked cl). rewrite Hh. cbn [negb].
  rewrite H1. change (c_prot (heard (w_now w) cl)) with (c_prot cl). rewrite Hp.
  cbn [mbind option_bind prot_handshake]. f_equal. unfold _handshake, protocol_rfc6455_handshake, rfc6455_decode.
  assert (Hb : rbuff c (touch_recv c w) = c_rbuff cl) by (unfold rbuff; by rewrite H1).
  rewrite Hb. fold r. destruct r as [[|[reason|]|len frame_len] buf]; cbn [upgrade_stat upgraded].
  - gather. same_client Hc.
  - gather. same_client Hc.
  - gather. same_client Hc.
  - unfold protocol_raw_check_handshake.
    assert (Hr : rbuff c (set_rbuff c buf (touch_recv c w)) = buf).
    { unfold set_rbuff. by rewrite (rbuff_upd c _ _ _ H1). }
    rewrite Hr. unfold upgraded. case_bool_decide; gather; f_equal; try same_client Hc.
Qed.

(** Part of a handshake is waited for. *)
Lemma greets_part s t : s ++ t ∈ [HANDSHAKE; FLASH_POLICY_REQUEST] → t ≠ [] → greets s = Unfinished.
Proof.
  intros Hin Ht.
  assert (H : ∀ x, Forall (λ n, greets (take n x) = Unfinished) (seq 0 (length x)) → s ++ t = x →
    greets s = Unfinished).
  { intros x H <-. rewrite Forall_forall in H. specialize (H (length s)). rewrite take_app_length in H.
    apply H, elem_of_seq. rewrite length_app. destruct t; [done|simpl; lia]. }
  apply elem_of_cons in Hin as [Hin|Hin]; [|apply list_elem_of_singleton in Hin];
    (eapply H; [|exact Hin]); vm_compute; repeat constructor.
Qed.

(** C9. No event reaches the server before a handshake. The first bytes of a
    connection, in however many pieces they come, select the protocol: an
    HTTP request is routed; flash's policy request and the raw handshake are
    answered, the one with a close, the other with the handshake after which
    events are read; what may still become one of them waits in the buffer,
    each proper part of a handshake in particular; all else is closed, as are
    WebSockets whose first message is not the handshake. The client itself,
    and a statistic, are all that changes. *)
Theorem handshake_correct c cl w :
  w_clients w !! c = Some cl → c_handshaked cl = false →
  (∀ s t, s ++ t ∈ [HANDSHAKE; FLASH_POLICY_REQUEST] → t ≠ [] → greets s = Unfinished) ∧
  (c_prot cl = None →
    let g := greets (c_rbuff cl) in
    let w' := greeting_stat g (upd_client c (greeted g (w_now w)) w) in
    protocols_route c w = match g with Requests => _route c w' | _ => Some w' end) ∧
  (c_prot cl = Some protocol_rfc6455 →
    let r := _decode (c_rbuff cl) 0 in
    protocols_route c w = Some (upgrade_stat r (upd_client c (upgraded r (w_now w)) w))).
Proof.
  intros Hc Hh. split; [exact greets_part|].
  split; intros Hp; [by apply greeting_done|by apply upgrade_done].
Qed.

End Handshake.

(** ** Witnesses *)

#[local] Existing Instance config0.

(** The first says hello over TCP, the second as its first WebSocket frame. *)
Definition hello_client : client := set_c_rbuff (λ _, HANDSHAKE) (qev_client_new false).
Definition hello_frame : bytes := client_frame [1; 2; 3; 4] HANDSHAKE.
Definition upgraded_client : client :=
  set_c_prot (λ _, Some protocol_rfc6455) (set_c_rbuff (λ _, hello_frame) (qev_client_new false)).
Definition hello_world : world (L := libs0) :=
  set_w_clients (λ _, {[1%positive := hello_client; 2%positive := upgraded_client]})
    (world0 (Reference.mkPool 10 0)).

Lemma handshake_correct_witness :
  greets HANDSHAKE = Hello ∧
  protocols_route (L := libs0) (A := apps0 libs0) 1 hello_world =
    Some (greeting_stat (L := libs0) Hello (upd_client (L := libs0) 1 (greeted Hello 0) hello_world)) ∧
  c_handshaked <$> w_clients (L := libs0) (upd_client (L := libs0) 2
    (upgraded (_decode (L := libs0) hello_frame 0) 0) hello_world) !! 2%positive = Some true.
Proof.
  assert (Hg : greets HANDSHAKE = Hello) by (vm_compute; reflexivity).
  destruct (handshake_correct (L := libs0) (A := apps0 libs0) 1 hello_client hello_world eq_refl eq_refl)
    as (_ & H & _).
  split; [exact Hg|]. split; [|reflexivity].
  specialize (H eq_refl). change (c_rbuff hello_client) with HANDSHAKE in H. rewrite Hg in H. exact H.
Defined.
