(* ===== verification/Stream.v ===== *)
(** The raw protocol over a connection that delivers its bytes in pieces: the
    messages that are handled are those of the whole stream. *)
From Stdlib Require Import ZArith Lia String.
From stdpp Require Import functions base list gmap strings.
From S2P Require Import Prelude Types Libs Path EvsQuery State Callbacks Sub Apps ClientSub Config Raw WebSocket Poll Send Quiet Evs Route Receive Http Keep Protocols Loop Handshake.

(** ** The messages of a stream *)

(** No whole frame is there. *)
Definition waits (b : bytes) : bool :=
  (length b <? 8)%nat || (Z.of_nat (length b) <? be_join (take 8 b) + 8).

Definition frame_len (b : bytes) : nat := 8 + Z.to_nat (be_join (take 8 b)).
Definition frame_event (b : bytes) : bytes := cstr (take (Z.to_nat (be_join (take 8 b))) (drop 8 b)).

Fixpoint raw_split (fuel : nat) (b : bytes) : list bytes * bytes :=
  match fuel with
  | O => ([], b)
  | S fuel =>
      if waits b then ([], b)
      else let '(es, rest) := raw_split fuel (drop (frame_len b) b) in (frame_event b :: es, rest)
  end.

(** The messages of the frames at the start of [b], and what remains. *)
Definition raw_events (b : bytes) : list bytes * bytes := raw_split (S (length b)) b.

(** No frame can be that long. *)
Definition oversized (b : bytes) : bool :=
  (8 <=? length b)%nat && (2 ^ 64 <=? be_join (take 8 b) + 8).

Lemma waits_false b :
  waits b = false ↔ (8 ≤ length b)%nat ∧ be_join (take 8 b) + 8 ≤ Z.of_nat (length b).
Proof. unfold waits. rewrite orb_false_iff, Nat.ltb_ge, Z.ltb_ge. done. Qed.

Lemma frame_drop b : waits b = false → (length (drop (frame_len b) b) < length b)%nat.
Proof. rewrite waits_false. unfold frame_len. rewrite length_drop. lia. Qed.

Lemma split_fuel f g b : (length b < f)%nat → (length b < g)%nat → raw_split f b = raw_split g b.
Proof.
  revert g b. induction f as [|f IH]; intros [|g] b Hf Hg; try lia. simpl.
  destruct (waits b) eqn:E; [done|]. apply frame_drop in E. by rewrite (IH g) by lia.
Qed.

Lemma raw_events_eq b :
  raw_events b = if waits b then ([], b)
    else ((λ es, frame_event b :: es) (raw_events (drop (frame_len b) b)).1,
          (raw_events (drop (frame_len b) b)).2).
Proof.
  unfold raw_events at 1. cbn [raw_split]. destruct (waits b) eqn:E; [done|]. apply frame_drop in E.
  rewrite (split_fuel _ (S (length (drop (frame_len b) b)))) by lia. fold (raw_events (drop (frame_len b) b)).
  by destruct (raw_events _).
Qed.

Lemma frame_app a b :
  waits a = false → bytes_ok a →
  waits (a ++ b) = false ∧ frame_len (a ++ b) = frame_len a ∧ frame_event (a ++ b) = frame_event a ∧
  drop (frame_len a) (a ++ b) = drop (frame_len a) a ++ b.
Proof.
  rewrite !waits_false. unfold frame_len, frame_event. intros H Hok.
  pose proof (be_join_bound (take 8 a) (Forall_take _ _ _ Hok)) as [Hb _].
  assert (E : take 8 (a ++ b) = take 8 a) by (by rewrite take_app_le by lia).
  rewrite E, length_app. split; [lia|]. split; [done|].
  rewrite !drop_app_le by lia. split; [|done]. by rewrite take_app_le by (rewrite length_drop; lia).
Qed.

(** Reading in pieces gives the messages of the whole. *)
Lemma raw_events_app a b :
  bytes_ok a →
  raw_events (a ++ b) =
    ((raw_events a).1 ++ (raw_events ((raw_events a).2 ++ b)).1, (raw_events ((raw_events a).2 ++ b)).2).
Proof.
  induction a as [a IH] using (induction_ltof1 _ length). unfold ltof in IH. intros Hok.
  rewrite (raw_events_eq a). destruct (waits a) eqn:E; [cbn [fst snd app]; by destruct (raw_events (a ++ b))|].
  destruct (frame_app a b E Hok) as (E1 & E2 & E3 & E4).
  rewrite (raw_events_eq (a ++ b)), E1, E2, E3, E4. simpl.
  rewrite IH; [done|by apply frame_drop|by apply Forall_drop].
Qed.

Section Stream.
Context {L : Libs} {C : Config} {A : Apps L} {LO : LibsOk L}.

Lemma extract_next buf used :
  bytes_ok buf → (used ≤ length buf)%nat → Z.of_nat (length buf) < 2 ^ 64 →
  let b := drop used buf in
  match raw_extract buf used with
  | XAgain => waits b = true ∧ oversized b = false
  | XFatal => waits b = true ∧ oversized b = true
  | XEvent event buf' total_len => waits b = false ∧ event = frame_event b ∧
      Z.to_nat total_len = frame_len b ∧ (used + frame_len b ≤ length buf)%nat ∧
      length buf' = length buf ∧ bytes_ok buf' ∧ drop (used + frame_len b) buf' = drop (frame_len b) b
  end.
Proof.
  intros Hok Hu Hs b. pose proof (raw_extract_spec buf used Hok Hu Hs) as H. cbv zeta in H. fold b in H.
  assert (Hlen : length b = (length buf - used)%nat) by apply length_drop.
  assert (Hb : bytes_ok (take 8 b)) by (by apply Forall_take, Forall_drop).
  pose proof (be_join_bound _ Hb) as [Hj _]. unfold waits, oversized.
  destruct (raw_extract buf used) as [| |event buf' total_len] eqn:E.
  - destruct (Nat.ltb_spec (length b) 8), (Nat.leb_spec 8 (length b)), (Z.ltb_spec (Z.of_nat (length b)) (be_join (take 8 b) + 8)),
      (Z.leb_spec (2 ^ 64) (be_join (take 8 b) + 8)); cbn [orb andb]; try done; lia.
  - destruct (Nat.ltb_spec (length b) 8), (Nat.leb_spec 8 (length b)), (Z.ltb_spec (Z.of_nat (length b)) (be_join (take 8 b) + 8)),
      (Z.leb_spec (2 ^ 64) (be_join (take 8 b) + 8)); cbn [orb andb]; try done; lia.
  - apply raw_extract_buffer in E as (E1 & E2 & E3 & E4); [|done..].
    destruct H as (-> & H2 & H3 & H4 & H5 & H6). unfold frame_len, frame_event.
    assert (Et : Z.to_nat (be_join (take 8 b) + 8) = (8 + Z.to_nat (be_join (take 8 b)))%nat) by lia.
    rewrite Et in *. split; [|split; [done|split; [done|split; [done|split; [done|split; [done|]]]]]].
    + apply orb_false_iff. rewrite Nat.ltb_ge, Z.ltb_ge. lia.
    + by rewrite H6, <- drop_drop.
Qed.

(** ** Serving a stream *)

(** Only what reading itself changes of [c] has changed. *)
Definition reading_mask (cl : client) : client :=
  set_c_rbuff (λ _, []) (set_c_timeout (λ _, false) (set_c_last_recv (λ _, 0) cl)).
Definition tended (c : cid) (w w' : world) : Prop :=
  ∃ f, (∀ cl, reading_mask (f cl) = reading_mask cl) ∧ w' = upd_client c f w.

(** The messages [es] of [c] are handled in turn, each with success. *)
Inductive serves (c : cid) : list bytes → world → world → Prop :=
  | serves_end w w' : tended c w w' → serves c [] w w'
  | serves_event e es w w0 w1 w' :
      tended c w w0 → protocol_raw_handle c e w0 = (PROT_OK, w1) → serves c es w1 w' →
      serves c (e :: es) w w'.

(** The connection is hung up: nothing else happens to the server. *)
Definition hung_up (c : cid) (w w' : world) : Prop :=
  ∃ w0, tended c w w0 ∧ tended c (qev_close c QIO_CLOSE_UNKNOWN_ERROR w0) w'.

(** What handling the messages [es] that one read completes comes to, where
    [rest] is what follows them. All are handled, and [left] holds; or a message
    fails: those before it are handled, then it is, and the connection is hung
    up; or all are handled, and it is hung up because the length in [rest] is too
    great. *)
Inductive read_once (c : cid) (es : list bytes) (rest : bytes) (left : world → Prop) (w w' : world) : Prop :=
  | once_all : serves c es w w' → oversized rest = false → left w' → read_once c es rest left w w'
  | once_failed n e w0 w1 : es !! n = Some e → serves c (take n es) w w0 →
      (protocol_raw_handle c e w0).1 ≠ PROT_OK → w1 = (protocol_raw_handle c e w0).2 → hung_up c w1 w' →
      read_once c es rest left w w'
  | once_oversized w1 : serves c es w w1 → oversized rest = true → hung_up c w1 w' →
      read_once c es rest left w w'.

(** The messages that each read completes, when [b] waits in the buffer. *)
Fixpoint groups (b : bytes) (pieces : list bytes) : list (list bytes) :=
  match pieces with
  | [] => []
  | p :: pieces => (raw_events (b ++ p)).1 :: groups (raw_events (b ++ p)).2 pieces
  end.

(** Reads that all succeed; the client is open before each. *)
Inductive reads (c : cid) : list (list bytes) → world → world → Prop :=
  | reads_none w w' : tended c w w' → reads c [] w w'
  | reads_next es gs w w1 w' :
      closing c w = false → serves c es w w1 → reads c gs w1 w' → reads c (es :: gs) w w'.

(** What the bytes after [k] reads come to: the rest of the whole so far. *)
Definition rest_after (b : bytes) (pieces : list bytes) (k : nat) : bytes :=
  (raw_events (b ++ concat (take k pieces))).2.

(** What reading the pieces comes to. All are read; or [k] of them are read, and
    the client has been closed; or [k] of them are read, and the next ends the
    connection. *)
Inductive outcome (c : cid) (b : bytes) (pieces : list bytes) (w w' : world) : Prop :=
  | all_read : reads c (groups b pieces) w w' → rbuff c w' = rest_after b pieces (length pieces) →
      oversized (rbuff c w') = false → outcome c b pieces w w'
  | closed_early k : (k < length pieces)%nat → reads c (take k (groups b pieces)) w w' →
      closing c w' = true → outcome c b pieces w w'
  | cut_off k es w1 : groups b pieces !! k = Some es → reads c (take k (groups b pieces)) w w1 →
      closing c w1 = false → read_once c es (rest_after b pieces (S k)) (λ _, False) w1 w' →
      outcome c b pieces w w'.

(** Pieces of the stream arrive; quick-event reads no more from a client that is
    to be closed. *)
Fixpoint feed (c : cid) (pieces : list bytes) (w : world) : option world :=
  match pieces with
  | [] => Some w
  | b :: pieces =>
      if closing c w then Some w
      else protocols_route c (set_rbuff c (rbuff c w ++ b) w) ≫= feed c pieces
  end.

Lemma tended_trans c w1 w2 w3 : tended c w1 w2 → tended c w2 w3 → tended c w1 w3.
Proof.
  intros (f & Hf & ->) (g & Hg & ->). exists (λ cl, g (f cl)). split; [intros cl; by rewrite Hg|apply upd_upd].
Qed.

Lemma tended_upd c f w : (∀ cl, reading_mask (f cl) = reading_mask cl) → tended c w (upd_client c f w).
Proof. intros H. by exists f. Qed.

Lemma tended_refl c w : is_Some (w_clients w !! c) → tended c w w.
Proof.
  intros [cl Hc]. exists id. split; [done|]. rewrite (upd_client_Some c id cl w Hc). unfold set_w_clients, id.
  rewrite insert_id by done. by destruct w.
Qed.

Lemma tended_field {Y} (proj : client → Y) (z : Y) c d w w' :
  tended c w w' → (∀ cl, proj (reading_mask cl) = proj cl) →
  match w_clients w' !! d with Some cl => proj cl | None => z end =
  match w_clients w !! d with Some cl => proj cl | None => z end.
Proof.
  intros (f & Hf & ->) Hp. rewrite upd_client_at. destruct (w_clients w !! d) as [cl|]; case_decide; try done.
  simpl. by rewrite <- (Hp (f cl)), Hf, Hp.
Qed.

Lemma tended_closing c d w w' : tended c w w' → closing d w' = closing d w.
Proof. intros H. by apply (tended_field c_closing false c d w w' H). Qed.

Lemma serves_tended c es w0 w w' : tended c w0 w → serves c es w w' → serves c es w0 w'.
Proof.
  intros H Hs. revert H. destruct Hs as [w1 w2 H1|e es1 w1 w2 w3 w4 H1 H2 H3]; intros H.
  - apply serves_end. exact (tended_trans _ _ _ _ H H1).
  - exact (serves_event _ _ _ _ _ _ _ (tended_trans _ _ _ _ H H1) H2 H3).
Qed.

Lemma serves_tended_r c es w w1 w' : serves c es w w1 → tended c w1 w' → serves c es w w'.
Proof.
  induction 1 as [|? ? ? ? ? ? ? ? ? IH]; intros Ht; [apply serves_end; by eapply tended_trans|].
  eapply serves_event; [done|done|auto].
Qed.

Lemma serves_app c es es' w w1 w' : serves c es w w1 → serves c es' w1 w' → serves c (es ++ es') w w'.
Proof.
  induction 1 as [|? ? ? ? ? ? ? ? ? IH]; intros H2; simpl; [by eapply serves_tended|].
  eapply serves_event; [done|done|auto].
Qed.

Lemma hung_up_tended c w w1 w' : hung_up c w w1 → tended c w1 w' → hung_up c w w'.
Proof. intros (w0 & H1 & H2) H. exists w0. split; [done|by eapply tended_trans]. Qed.

Lemma read_once_tended c es rest (left left' : world → Prop) w w1 w2 w' :
  tended c w w1 → read_once c es rest left w1 w2 → tended c w2 w' → (left w2 → left' w') →
  read_once c es rest left' w w'.
Proof.
  intros Ht H Ht' Hl. destruct H as [H1 H2 H3|n e w3 w4 H1 H2 H3 H4 H5|w3 H1 H2 H3].
  - apply once_all; [|done|auto]. by eapply serves_tended_r; [eapply serves_tended|].
  - eapply once_failed; [done|by eapply serves_tended|done|done|by eapply hung_up_tended].
  - eapply once_oversized; [by eapply serves_tended|done|by eapply hung_up_tended].
Qed.

(** ** One read *)

Context {AK : AppsKeep A} {AP : AppsSee (same prot_view) A}.

Definition talks_raw (c : cid) (w : world) : Prop :=
  (seen prot_view c w).1 = (Some protocol_raw, true).

Lemma talks_raw_client c w :
  talks_raw c w → ∃ cl, w_clients w !! c = Some cl ∧ c_prot cl = Some protocol_raw ∧ c_handshaked cl = true.
Proof.
  unfold talks_raw, seen. destruct (w_clients w !! c) as [cl|]; [|done]. intros [= H1 H2]. by exists cl.
Qed.

Lemma talks_raw_kept c w w' : kept (same prot_view) w w' → talks_raw c w → talks_raw c w'.
Proof. intros H. unfold talks_raw. by rewrite (H c). Qed.

Lemma kept_tended c w f :
  (∀ cl, reading_mask (f cl) = reading_mask cl) → kept (same prot_view) w (upd_client c f w).
Proof.
  intros Hf. apply same_upd. intros cl.
  exact (f_equal prot_view (Hf cl)).
Qed.

Lemma tended_rbuff c b w : tended c w (set_rbuff c b w).
Proof. by apply tended_upd; intros []. Qed.

(** The rest of a read after its first messages. *)
Lemma read_once_app c es es' rest left w w1 w' :
  serves c es w w1 → read_once c es' rest left w1 w' → read_once c (es ++ es') rest left w w'.
Proof.
  intros He [H1 H2 H3|n e w3 w4 H1 H2 H3 H4 H5|w3 H1 H2 H3].
  - apply once_all; [by eapply serves_app|done..].
  - apply (once_failed c _ rest left w w' (length es + n) e w3 w4); [| |done..].
    + by rewrite lookup_app_r, Nat.add_comm, Nat.add_sub by lia.
    + rewrite take_app_add. by eapply serves_app.
  - eapply once_oversized; [by eapply serves_app|done..].
Qed.

Lemma close_closing c r w : is_Some (w_clients w !! c) → closing c (qev_close c r w) = true.
Proof. intros [cl Hc]. unfold closing, qev_close. by rewrite upd_client_at, decide_True, Hc. Qed.

Lemma hung_up_closing c w w' : is_Some (w_clients w' !! c) → hung_up c w w' → closing c w' = true.
Proof.
  intros [cl' Hc'] (w0 & _ & H2). rewrite (tended_closing c c _ w' H2). apply close_closing.
  destruct H2 as (f & _ & ->). unfold qev_close in Hc'. rewrite !upd_client_at, !decide_True in Hc' by done.
  destruct (w_clients w0 !! c); [by eexists|done].
Qed.

(** Where a round of the loop stands. *)
Record reading (c : cid) (used : nat) (w : world) : Prop := {
  rd_talks : talks_raw c w;
  rd_inbox : inbox_ok c w;
  rd_used : (used ≤ length (rbuff c w))%nat;
}.

(** One round. *)
Lemma raw_round c used w :
  reading c used w →
  let b := drop used (rbuff c w) in
  let r := prot_step c used w in
  reading c r.1.2 r.2 ∧ is_Some (w_clients r.2 !! c) ∧
  match r.1.1 with
  | PROT_AGAIN => r = (PROT_AGAIN, used, w) ∧ waits b = true ∧ oversized b = false
  | PROT_FATAL =>
      waits b = true ∧ oversized b = true ∧ r.2 = w ∨
      waits b = false ∧ ∃ w0, tended c w w0 ∧ (protocol_raw_handle c (frame_event b) w0).1 ≠ PROT_OK ∧
        r.2 = (protocol_raw_handle c (frame_event b) w0).2
  | PROT_OK => waits b = false ∧ serves c [frame_event b] w r.2 ∧
      r.1.2 = (used + frame_len b)%nat ∧ drop r.1.2 (rbuff c r.2) = drop (frame_len b) b ∧
      length (rbuff c r.2) = length (rbuff c w)
  end.
Proof.
  intros Hr b r. pose proof Hr as [Ht Hi Hu]. destruct (talks_raw_client c w Ht) as (cl & Hc & Hp & Hh).
  assert (Er : r = protocol_raw_route c used w) by (subst r; unfold prot_step; by rewrite Hc, Hp).
  rewrite Er. clear Er r. unfold protocol_raw_route.
  pose proof Hi as [Hi1 _ Hi3]. rewrite <- rbuff_inbox in Hi1, Hi3.
  pose proof (extract_next (rbuff c w) used Hi1 Hu Hi3) as Hx. fold b in Hx. cbv zeta in Hx.
  destruct (raw_extract (rbuff c w) used) as [| |event buf total_len]; cbn [fst snd].
  - by rewrite Hc.
  - rewrite Hc. split; [done|]. split; [done|]. left. by destruct Hx.
  - destruct Hx as (H1 & -> & H3 & H4 & H5 & H6 & H7). rewrite H3.
    set (w0 := set_rbuff c buf w). assert (Ht0 : tended c w w0) by apply tended_rbuff.
    assert (Hk0 : kept (same prot_view) w w0) by (apply kept_tended; by intros []).
    pose proof (keep_raw_handle (same inbox_view) w0 c (frame_event b) w0 _ (same_refl _ _)) as Hk.
    pose proof (keep_raw_handle (same prot_view) w0 c (frame_event b) w0 _ (same_refl _ _)) as Hkp.
    destruct (protocol_raw_handle c (frame_event b) w0) as [st w1] eqn:Eh. cbn [fst snd] in *.
    assert (H5' : length buf = length (inbox c w).1) by (rewrite <- rbuff_inbox; exact H5).
    destruct (rewritten c buf w w1 Hi H6 H5' Hk) as (K1 & K2 & K3).
    assert (Ht1 : talks_raw c w1) by (by apply (talks_raw_kept c w0), (talks_raw_kept c w)).
    assert (Hc1 : is_Some (w_clients w1 !! c)) by (destruct (talks_raw_client c w1 Ht1) as (cl1 & -> & _); eauto).
    assert (Hl : length (rbuff c w1) = length (rbuff c w)) by (by rewrite !rbuff_inbox).
    split; [by split; [done|done|rewrite Hl]|]. split; [done|].
    assert (Hb : rbuff c w1 = buf) by (by rewrite rbuff_inbox).
    destruct st.
    + split; [done|]. split; [|by rewrite Hb].
      eapply serves_event; [exact Ht0|exact Eh|]. by apply serves_end, tended_refl.
    + exfalso. unfold protocol_raw_handle in Eh. destruct (raw_parse _ _) as [[[[? ?] ?]|] ?]; done.
    + right. split; [done|]. exists w0. by rewrite Eh.
Qed.


Lemma raw_events_waits b : waits b = true → raw_events b = ([], b).
Proof. intros H. by rewrite raw_events_eq, H. Qed.

Lemma reading_tended c f used w :
  (∀ cl, reading_mask (f cl) = reading_mask cl ∧ inbox_view (f cl) = inbox_view cl) →
  reading c used w → reading c used (upd_client c f w) ∧ rbuff c (upd_client c f w) = rbuff c w.
Proof.
  intros Hf [H1 H2 H3]. assert (Hk : rbs w (upd_client c f w)).
  { apply same_upd. intros cl. apply Hf. }
  assert (Eb : rbuff c (upd_client c f w) = rbuff c w) by (rewrite !rbuff_inbox; by rewrite (Hk c)).
  split; [|done]. split; [|by eapply rbs_ok|by rewrite Eb].
  apply (talks_raw_kept c w); [apply kept_tended; apply Hf|done].
Qed.

Lemma reading_close c r used w : reading c used w → reading c used (qev_close c r w).
Proof.
  intros [H1 H2 H3]. assert (Hi : rbs w (qev_close c r w)) by eauto with kept.
  assert (Hp : kept (same prot_view) w (qev_close c r w)) by eauto with kept.
  split; [by apply (talks_raw_kept c w)|by eapply rbs_ok|]. rewrite rbuff_inbox, (Hi c), <- rbuff_inbox. done.
Qed.

Lemma raw_loop fuel c used w :
  reading c used w → (length (rbuff c w) - used < fuel)%nat →
  let '(es, rest) := raw_events (drop used (rbuff c w)) in
  ∃ used' w', route_loop fuel c used w = Some (used', w') ∧ reading c used' w' ∧
    read_once c es rest (λ w', drop used' (rbuff c w') = rest) w w'.
Proof.
  revert used w. induction fuel as [|fuel IH]; intros used w Hr Hf; [lia|]. cbn [route_loop].
  pose proof (raw_round c used w Hr) as Hround. set (b := drop used (rbuff c w)) in *. cbv zeta in Hround.
  destruct (prot_step c used w) as [[st used1] w1]. cbn [fst snd] in Hround.
  destruct Hround as (Hr1 & Hc1 & Hst).
  assert (Hown : ∀ f, (∀ cl, reading_mask (f cl) = reading_mask cl ∧ inbox_view (f cl) = inbox_view cl) →
    reading c used1 (upd_client c f w1) ∧ rbuff c (upd_client c f w1) = rbuff c w1 ∧
    tended c w1 (upd_client c f w1)).
  { intros f Hf1. destruct (reading_tended c f used1 w1 Hf1 Hr1) as [K1 K2]. split; [done|]. split; [done|].
    apply tended_upd, Hf1. }
  destruct st.
  - destruct Hst as (Hw & Hs & Hu & Hd & Hlen). rewrite (raw_events_eq b), Hw.
    set (w2 := qev_timeout_clear c (touch_recv c w1)).
    assert (H2 : reading c used1 w2 ∧ rbuff c w2 = rbuff c w1 ∧ tended c w1 w2).
    { assert (E : w2 = upd_client c (λ cl, set_c_timeout (λ _, false) (set_c_last_recv (λ _, w_now w1) cl)) w1)
        by (unfold w2, qev_timeout_clear, touch_recv; by rewrite upd_upd).
      rewrite E. apply Hown. by intros []. }
    destruct H2 as (H2 & Eb & Ht). assert (Hs2 : serves c [frame_event b] w w2) by (by eapply serves_tended_r).
    destruct (Nat.ltb_spec used1 (length (rbuff c w2))) as [Hlt|Hge].
    + specialize (IH used1 w2 H2). rewrite Eb in IH. rewrite Hd in IH.
      destruct (raw_events (drop (frame_len b) b)) as [es rest]. cbn [fst snd].
      destruct IH as (used' & w' & E1 & E2 & E3).
      { rewrite Hu, Hlen. rewrite Eb, Hlen, Hu in Hlt. unfold frame_len. lia. }
      exists used', w'. split; [done|]. split; [done|]. by apply (read_once_app c [frame_event b] es rest _ w w2).
    + assert (E0 : drop (frame_len b) b = []) by (rewrite <- Hd, <- Eb; by apply drop_ge).
      rewrite E0. change (raw_events []) with (@nil bytes, @nil Z). cbn [fst snd].
      exists used1, w2. split; [done|]. split; [done|]. apply once_all; [done|done|]. by rewrite Eb, Hd.
  - destruct Hst as (E & Hw & Ho). injection E as -> ->. rewrite (raw_events_waits b Hw).
    destruct (Hown (set_c_timeout (λ _, true))) as (K1 & K2 & K3); [by intros []|].
    exists used, (qev_timeout c w). split; [done|]. split; [exact K1|].
    apply once_all; [by apply serves_end|done|]. unfold qev_timeout. by rewrite K2.
  - destruct (raw_events b) as [es rest] eqn:Ee. exists used1, (qev_close c QIO_CLOSE_UNKNOWN_ERROR w1).
    split; [done|]. split; [by apply reading_close|].
    assert (Hc : is_Some (w_clients w !! c)) by (destruct (talks_raw_client c w (rd_talks _ _ _ Hr)) as (cl & -> & _); eauto).
    assert (Hup : hung_up c w1 (qev_close c QIO_CLOSE_UNKNOWN_ERROR w1)).
    { exists w1. split; apply tended_refl; [done|]. unfold qev_close. rewrite upd_client_at, decide_True by done.
      destruct Hc1 as [cl1 ->]. by eexists. }
    destruct Hst as [(Hw & Ho & E1)|(Hw & w0 & H1 & H2 & E1)].
    + rewrite (raw_events_waits b Hw) in Ee. injection Ee as <- <-. rewrite E1 in Hup |- *.
      eapply once_oversized; [by apply serves_end, tended_refl|done|done].
    + rewrite (raw_events_eq b), Hw in Ee. injection Ee as <- _. rewrite E1 in Hup |- *.
      apply (once_failed c _ _ _ _ _ 0 (frame_event b) w0 (protocol_raw_handle c (frame_event b) w0).2);
        [done|by apply serves_end|done..].
Qed.


(** One read of what is in the buffer. *)
Lemma raw_read c w :
  talks_raw c w → inbox_ok c w →
  ∃ w', protocols_route c w = Some w' ∧ talks_raw c w' ∧ inbox_ok c w' ∧
    read_once c (raw_events (rbuff c w)).1 (raw_events (rbuff c w)).2
      (λ w', rbuff c w' = (raw_events (rbuff c w)).2) w w'.
Proof.
  intros Ht Hi. destruct (reading_tended c (set_c_last_recv (λ _, w_now w)) 0 w) as [Hr Eb];
    [by intros []|by split; [..|lia]|].
  assert (Et : tended c w (touch_recv c w)) by (by apply tended_upd; intros []).
  change (upd_client c (set_c_last_recv (λ _, w_now w)) w) with (touch_recv c w) in *.
  unfold protocols_route. set (w0 := touch_recv c w) in *.
  destruct (talks_raw_client c w0 (rd_talks _ _ _ Hr)) as (cl & Hc & Hp & Hh). rewrite Hc, Hp, Hh. cbn [negb].
  unfold _route. pose proof (raw_loop (S (length (rbuff c w0))) c 0 w0 Hr ltac:(lia)) as Hl.
  rewrite drop_0, Eb in Hl. destruct (raw_events (rbuff c w)) as [es rest].
  destruct Hl as (used & w1 & E & [R1 R2 R3] & Ho). rewrite Eb, E. cbn [mbind option_bind].
  unfold erase. rewrite (proj2 (Nat.leb_le _ _)) by done. exists (set_rbuff c (drop used (rbuff c w1)) w1).
  assert (Et1 : tended c w1 (set_rbuff c (drop used (rbuff c w1)) w1)) by apply tended_rbuff.
  split; [done|]. split.
  { apply (talks_raw_kept c w1); [apply kept_tended; by intros []|done]. }
  split.
  { rewrite rbuff_inbox in *. pose proof (erase_ok c used w1 R2 R3) as H. unfold erase in H.
    by rewrite rbuff_inbox, (proj2 (Nat.leb_le _ _)) in H. }
  destruct (talks_raw_client c w1 R1) as (cl1 & Hc1 & _).
  eapply read_once_tended; [exact Et|exact Ho|exact Et1|]. cbn [snd].
  intros Hd. unfold set_rbuff. by rewrite (rbuff_upd c _ _ _ Hc1).
Qed.

Lemma raw_events_rest b : waits (raw_events b).2 = true.
Proof.
  induction b as [b IH] using (induction_ltof1 _ length). unfold ltof in IH.
  rewrite raw_events_eq. destruct (waits b) eqn:E; [done|]. apply IH. by apply frame_drop.
Qed.

Lemma raw_events_suffix b : (raw_events b).2 `suffix_of` b.
Proof.
  induction b as [b IH] using (induction_ltof1 _ length). unfold ltof in IH.
  rewrite raw_events_eq. destruct (waits b) eqn:E; [done|]. cbn [snd].
  etrans; [apply IH; by apply frame_drop|]. exists (take (frame_len b) b). by rewrite take_drop.
Qed.

(** The reads complete the messages of the whole stream. *)
Lemma groups_concat b pieces :
  waits b = true → bytes_ok b → Forall bytes_ok pieces →
  concat (groups b pieces) = (raw_events (b ++ concat pieces)).1.
Proof.
  revert b. induction pieces as [|p ps IH]; intros b Hw Hb Hp; simpl.
  { by rewrite app_nil_r, raw_events_waits. }
  apply Forall_cons in Hp as [Hp Hps]. assert (Hbp : bytes_ok (b ++ p)) by (by apply Forall_app).
  pose proof (raw_events_suffix (b ++ p)) as [pre Hsuf]. pose proof (raw_events_rest (b ++ p)) as Hwait.
  rewrite IH; [|done| |done].
  - by rewrite app_assoc, (raw_events_app (b ++ p)).
  - rewrite Hsuf in Hbp. by apply Forall_app in Hbp as [_ ?].
Qed.

Lemma rest_after_cons b p ps k :
  bytes_ok (b ++ p) → rest_after b (p :: ps) (S k) = rest_after (raw_events (b ++ p)).2 ps k.
Proof. intros H. unfold rest_after. cbn [take concat]. by rewrite app_assoc, (raw_events_app (b ++ p)). Qed.

(** The pieces after one that was read. *)
Lemma outcome_next c b p ps w w1 w' :
  bytes_ok (b ++ p) → closing c w = false → serves c (raw_events (b ++ p)).1 w w1 →
  outcome c (raw_events (b ++ p)).2 ps w1 w' → outcome c b (p :: ps) w w'.
Proof.
  intros Hb Hc Hs [H1 H2 H3|k H1 H2 H3|k es w2 H1 H2 H3 H4].
  - apply all_read; [by eapply reads_next|by cbn [length]; rewrite rest_after_cons|done].
  - apply (closed_early _ _ _ _ _ (S k)); [cbn [length]; lia|by eapply reads_next|done].
  - apply (cut_off _ _ _ _ _ (S k) es w2); [done|by eapply reads_next|done|by rewrite rest_after_cons].
Qed.

Lemma feed_done c pieces w :
  talks_raw c w → inbox_ok c w → waits (rbuff c w) = true → oversized (rbuff c w) = false →
  Forall bytes_ok pieces → Z.of_nat (length (rbuff c w ++ concat pieces)) < 2 ^ 64 →
  ∃ w', feed c pieces w = Some w' ∧ outcome c (rbuff c w) pieces w w'.
Proof.
  revert w. induction pieces as [|b pieces IH]; intros w Ht Hi Hw Ho Hb Hl;
    destruct (talks_raw_client c w Ht) as (cl & Hc & _);
    assert (Hnone : reads c [] w w) by (by apply reads_none, tended_refl; eauto).
  { exists w. split; [done|]. apply all_read; [done| |done]. unfold rest_after. simpl.
    by rewrite app_nil_r, raw_events_waits. }
  simpl. destruct (closing c w) eqn:Hcl.
  { exists w. split; [done|]. apply (closed_early _ _ _ _ _ 0); [simpl; lia|done|done]. }
  set (w0 := set_rbuff c (rbuff c w ++ b) w).
  assert (Eb : rbuff c w0 = rbuff c w ++ b) by (unfold w0, set_rbuff; by rewrite (rbuff_upd c _ _ _ Hc)).
  pose proof Hi as [I1 I2 I3]. rewrite <- rbuff_inbox in I1, I3. apply Forall_cons in Hb as [Hb1 Hb2].
  simpl in Hl. rewrite app_assoc in Hl.
  assert (Hab : bytes_ok (rbuff c w ++ b)) by (by apply Forall_app).
  destruct (raw_read c w0) as (w1 & -> & Ht1 & Hi1 & Hr1).
  { apply (talks_raw_kept c w); [apply kept_tended; by intros []|done]. }
  { assert (E : inbox c w0 = (rbuff c w ++ b, (inbox c w).2)).
    { unfold seen, w0, set_rbuff. by rewrite upd_client_at, decide_True, Hc. }
    split; rewrite E; [done|done|]. cbn [fst]. rewrite !length_app in Hl. rewrite length_app. lia. }
  rewrite Eb in Hr1. cbn [mbind option_bind].
  pose proof (raw_events_suffix (rbuff c w ++ b)) as [pre Hsuf].
  pose proof (raw_events_rest (rbuff c w ++ b)) as Hwait.
  assert (Hlen : Z.of_nat (length ((raw_events (rbuff c w ++ b)).2 ++ concat pieces)) < 2 ^ 64).
  { rewrite Hsuf, !length_app in Hl. rewrite length_app. lia. }
  assert (Hstart : tended c w w0) by apply tended_rbuff.
  assert (Hcut : read_once c (raw_events (rbuff c w ++ b)).1 (raw_events (rbuff c w ++ b)).2 (λ _, False) w w1 →
    closing c w1 = true → ∃ w', feed c pieces w1 = Some w' ∧ outcome c (rbuff c w) (b :: pieces) w w').
  { intros H Hc1. exists w1. split; [by destruct pieces; simpl; rewrite ?Hc1|].
    eapply (cut_off _ _ _ _ _ 0); [done|done|done|]. unfold rest_after. cbn [take concat]. by rewrite app_nil_r. }
  assert (Hc1 : is_Some (w_clients w1 !! c)) by (destruct (talks_raw_client c w1 Ht1) as (cl1 & -> & _); eauto).
  destruct Hr1 as [K1 K2 K3|n e w3 w4 K1 K2 K3 K4 K5|w3 K1 K2 K3].
  - destruct (IH w1) as (w' & -> & Hrd); rewrite ?K3; [done..|]. exists w'. split; [done|].
    rewrite K3 in Hrd. eapply outcome_next; [done|done|by eapply serves_tended|done].
  - apply Hcut; [eapply once_failed; [done|by eapply serves_tended|done..]|by apply (hung_up_closing c w4)].
  - apply Hcut; [eapply once_oversized; [by eapply serves_tended|done..]|by apply (hung_up_closing c w3)].
Qed.

(** C8. A raw connection delivers its bytes in pieces, cut anywhere, also inside a
    length or a message. The messages that the reads complete are together those
    of the whole stream, whatever the pieces. They are handled in order, each
    exactly once, and bytes that are no frame yet stay in the buffer. There are
    two other ends. The client was closed while a message was served: then the
    messages of that read are still handled, and nothing that comes later is. Or
    a message has no valid form, or a length overflows: then everything before it
    was handled, nothing after it is, and all that follows is that the connection
    is hung up. *)
Theorem raw_stream_correct c pieces w :
  talks_raw c w → inbox_ok c w → waits (rbuff c w) = true → oversized (rbuff c w) = false →
  Forall bytes_ok pieces → Z.of_nat (length (rbuff c w ++ concat pieces)) < 2 ^ 64 →
  concat (groups (rbuff c w) pieces) = (raw_events (rbuff c w ++ concat pieces)).1 ∧
  ∃ w', feed c pieces w = Some w' ∧ outcome c (rbuff c w) pieces w w'.
Proof.
  intros Ht Hi Hw Ho Hb Hl. split; [|by apply feed_done]. apply groups_concat; [done| |done].
  rewrite rbuff_inbox. apply Hi.
Qed.

End Stream.

(** ** Witnesses *)

#[local] Existing Instance config0.

(** Two requests and the start of a third, in three pieces. *)
Definition ping_pieces : list bytes :=
  [take 3 ping_frame; drop 3 ping_frame ++ take 9 ping_frame; drop 9 ping_frame ++ [0]].

Lemma raw_stream_correct_witness :
  ∃ w', feed (L := libs0) (A := apps0 libs0) 1 ping_pieces route_world = Some w' ∧
    outcome (L := libs0) (A := apps0 libs0) 1 [] ping_pieces route_world w' ∧
    raw_events (ping_frame ++ ping_frame ++ [0]) = ([str "/qio/ping:7="; str "/qio/ping:7="], [0]) ∧
    rbuff (L := libs0) 1 w' = [0] ∧ length (out (L := libs0) 1 w') = 2%nat.
Proof.
  destruct (raw_stream_correct (L := libs0) (A := apps0 libs0) 1 ping_pieces route_world) as (_ & w' & E & H).
  - reflexivity.
  - split; [constructor|split; reflexivity || discriminate|reflexivity].
  - reflexivity.
  - reflexivity.
  - apply (bool_decide_eq_true_1 _). vm_compute. reflexivity.
  - reflexivity.
  - exists w'. split; [exact E|]. split; [exact H|]. split; [vm_compute; reflexivity|].
    enough (H2 : (λ w, (rbuff (L := libs0) 1 w, length (out (L := libs0) 1 w))) <$>
      feed (L := libs0) (A := apps0 libs0) 1 ping_pieces route_world = Some ([0], 2%nat)).
    { rewrite E in H2. injection H2 as H2 H3. by split. }
    reflexivity.
Defined.
