(* ===== verification/Invariant.v ===== *)
(** The invariant of the server between the calls of quick-event, and in the
    middle of reading a request: what each client may look like, what the
    session tables hold, that every reference is some link's. It is kept by the
    few kinds of steps that the operations are made of. *)
From Stdlib Require Import ZArith Lia String.
From stdpp Require Import functions base list gmap strings relations.
From S2P Require Import Prelude Types Libs Path EvsQuery State Callbacks Sub Apps ClientSub Config Raw WebSocket Poll Send Quiet Evs Broadcast Route Receive Http Keep Steady Works Protocols Loop Handshake.

Section Invariant.
Context {L : Libs} {C : Config} {A : Apps L}.

(** ** The invariant *)

(** Surrogates are made for HTTP, only connections of HTTP are linked, and who
    has not shaken hands has said nothing, or has asked for a WebSocket. *)
Record client_ok (cl : client) : Prop := {
  co_surrogate : c_surrogate cl = true → c_prot cl = Some protocol_http ∧ c_handshaked cl = true;
  co_link : h_client (c_http cl) ≠ None → c_prot cl = Some protocol_http;
  co_phase : c_handshaked cl = false → c_closing cl = false → c_prot cl ∈ [None; Some protocol_rfc6455];
}.

(** A session is the surrogate that its table has it for. *)
Definition session (i : nat) (sid : Z) (s : cid) (X : gset cid) (w : world) : Prop :=
  s ∉ X ∧ ∃ sl, w_clients w !! s = Some sl ∧ c_surrogate sl = true ∧
    h_sid (c_http sl) = sid ∧ Z.to_nat (h_tbl (c_http sl)) = i.

(** The body of the last request has been read. *)
Definition idle (c : cid) (w : world) : Prop :=
  match w_clients w !! c with Some cl => h_body_len (c_http cl) = 0 | None => True end.

(** [qev_on_close] has run for [c]. *)
Definition ended (c : cid) (w : world) : Prop :=
  closing c w = true ∧ link c w = None ∧ ∀ s, status c s w = Absent.

(** The references that applications hold: copies of [evs_on_info], and clients. *)
Record holds := mkHolds { h_subs : positive → nat; h_clients : cid → nat }.

(** [X] are the clients that are closed and not yet freed; [b] is in the middle
    of a request. *)
Record server_ok (h : holds) (tbl : gmap bytes event) (X : gset cid) (b : option cid) (w : world) : Prop := {
  so_ok : queue_ok (h_subs h) (w_broadcasts w) w;
  so_events : represents tbl (w_events w);
  so_fault : w_fault w = false;
  so_spare d : spare d w = Z.of_nat (h_clients h d);
  so_client c cl : w_clients w !! c = Some cl → client_ok cl;
  so_listener c s : status c s w ≠ Absent → listener c w;
  so_session i t sid s : w_tables w !! i = Some t → t !! sid = Some s → session i sid s X w;
  so_idle s p : is_surrogate s w = true → link s w = Some p → link p w = Some s → Some p ≠ b → idle p w;
  so_closed c : c ∈ X → ended c w;
  so_reader c : b = Some c → requesting c w;
  so_held d : h_clients h d ≠ 0%nat → listener d w;
}.

Context (h : holds) (tbl : gmap bytes event).

(** Steady steps that keep the invariants of Quiet.v, and after which the
    applications hold [h']. *)
Lemma steady_ok h' X b w w' :
  server_ok h tbl X b w → steady b w w' → w_fault w' = w_fault w →
  queue_ok (h_subs h') (w_broadcasts w') w' → (∀ d, spare d w' = Z.of_nat (h_clients h' d)) →
  (∀ d s, status d s w' ≠ Absent → status d s w ≠ Absent ∨ listener d w ∧ closing d w = false) →
  (∀ d, h_clients h' d ≠ 0%nat → h_clients h d ≠ 0%nat ∨ listener d w) →
  server_ok h' tbl X b w'.
Proof.
  intros [O E F P K Li S I D R T] H Hf Hok Hsp Hst Hh.
  assert (Hpeer : ∀ d e, link d w' = Some e → is_surrogate e w = negb (is_surrogate d w)).
  { intros d e Hl. rewrite <- !(steady_surrogate b w w') by done. by apply (pw_peer _ (eo_poll _ _ Hok)). }
  assert (Hb : ∀ c, b = Some c → is_surrogate c w = false).
  { intros c Hc. destruct (R c Hc) as (cl & Hcl & Hs & _). unfold is_surrogate. by rewrite Hcl. }
  split.
  - done.
  - by rewrite (st_events _ _ _ H).
  - by rewrite Hf.
  - done.
  - intros c cl' Hc'. pose proof (st_station _ _ _ H c) as Es. rewrite Hc' in Es.
    destruct (w_clients w !! c) as [cl|] eqn:Hc; [|done]. apply (inj Some) in Es.
    injection Es as E1 E2 E3 _ _ _. destruct (K c cl Hc) as [K1 K2 K3]. split; rewrite ?E1, ?E2, ?E3; [done|..].
    + destruct (h_client (c_http cl')) as [e|] eqn:He; [|done]. intros _.
      assert (Hl : link c w' = Some e) by (unfold link; by rewrite Hc').
      destruct (st_link _ _ _ H c e Hl) as [Hl0|[_ [Hl0|Hl0]]].
      * unfold link in Hl0. rewrite Hc in Hl0. apply K2. simpl in Hl0. congruence.
      * apply K1. apply Hpeer in Hl. rewrite (Hb e) in Hl by done. unfold is_surrogate in Hl.
        rewrite Hc in Hl. by destruct (c_surrogate cl).
      * destruct (R c) as (cl2 & Hc2 & _ & Hp); [done|]. congruence.
    + intros H1 H2. apply K3; [done|]. pose proof (st_closing _ _ _ H c) as Hcl. unfold closing in Hcl.
      rewrite Hc, Hc', H2 in Hcl. destruct (c_closing cl); [by discriminate Hcl|done].
  - intros c s Hs. eapply steady_listener; [exact H|]. destruct (Hst c s Hs) as [|[]]; [by eapply Li|done].
  - intros i t sid s. rewrite (st_tables _ _ _ H). intros H1 H2.
    destruct (S i t sid s H1 H2) as (Hx & sl & Hs & S1 & S2 & S3). split; [done|].
    destruct (steady_some b w w' s sl H Hs) as (sl' & Hs' & Es). exists sl'. injection Es as E1 _ _ E4 E5 _.
    by rewrite E1, E4, E5.
  - intros s p. rewrite (steady_surrogate b w w') by done. intros Hs H1 H2 Hp.
    assert (H3 : idle p w); cycle 1.
    { unfold idle in *. pose proof (st_station _ _ _ H p) as Es.
      destruct (w_clients w' !! p), (w_clients w !! p); try done. apply (inj Some) in Es. by injection Es as _ _ _ _ _ ->. }
    assert (Hn : Some s ≠ b) by (intros E0; by rewrite (Hb s) in Hs).
    destruct (st_link _ _ _ H s p H1) as [|[_ [Hl|Hl]]]; [|done..].
    destruct (st_link _ _ _ H p s H2) as [|[_ [Hl|Hl]]]; [by eapply I|done..].
  - intros c Hc. destruct (D c Hc) as (D1 & D2 & D3). split; [by apply (st_closing _ _ _ H)|]. split.
    + destruct (link c w') as [e|] eqn:He; [|done].
      destruct (st_link _ _ _ H c e He) as [Hl|[Hl _]]; congruence.
    + intros s. destruct (decide (status c s w' = Absent)) as [|Hs]; [done|].
      destruct (Hst c s Hs) as [Hn|[_ Hn]]; [by rewrite D3 in Hn|congruence].
  - intros c Hc. destruct (R c Hc) as (cl & Hcl & R1 & R2).
    destruct (steady_some b w w' c cl H Hcl) as (cl' & Hcl' & Es). exists cl'. injection Es as E1 E2 _ _ _ _.
    by rewrite E1, E2.
  - intros d Hd. eapply steady_listener; [exact H|]. destruct (Hh d Hd); [by apply T|done].
Qed.

Lemma steady_kept X b w w' :
  server_ok h tbl X b w → steady b w w' → w_fault w' = w_fault w →
  queue_ok (h_subs h) (w_broadcasts w') w' → (∀ d, spare d w' = spare d w) →
  (∀ d s, status d s w' ≠ Absent → status d s w ≠ Absent ∨ listener d w ∧ closing d w = false) →
  server_ok h tbl X b w'.
Proof.
  intros H Hs Hf Hok Hsp Hst. apply (steady_ok h X b w); try done; [|by left]. intros d. rewrite Hsp. apply H.
Qed.

(** Calm steps of the clients' own tables. *)
Lemma quiet_server X b w w' : quiet w w' → local w w' → server_ok h tbl X b w → server_ok h tbl X b w'.
Proof.
  intros Hq Hl H. assert (Hc : calm w w') by apply Hq.
  assert (Hb : w_broadcasts w' = w_broadcasts w) by (by injection Hl).
  apply (steady_kept X b w); [done|by apply steady_calm|by apply calm_fault|..].
  - rewrite Hb. eapply quiet_ok; [done|apply H].
  - intros d. by apply calm_spare.
  - intros d s. rewrite (quiet_status w w') by done. by left.
Qed.

Lemma stat_server X b k n w : k ∉ sub_stats → server_ok h tbl X b w → server_ok h tbl X b (stat_add k n w).
Proof. intros Hk. apply quiet_server; [by apply quiet_stat|done]. Qed.

Lemma errno_server X b f w : server_ok h tbl X b w → server_ok h tbl X b (set_w_errno f w).
Proof. apply quiet_server; [|done]. split; [by split|by split|done]. Qed.

(** Responses and what else Poll.v is about. *)
Lemma polled_server X b w w' :
  polled w w' → steady b w w' → server_ok h tbl X b w → server_ok h tbl X b w'.
Proof.
  intros Hp Hs H. pose proof (polled_ok _ w w' Hp (so_ok _ _ _ _ _ H)) as Hok.
  apply (steady_kept X b w); [done|done|by apply io_fault, Hp|..].
  - pose proof (f_equal w_broadcasts (io_masks _ _ (po_io _ _ Hp))) as E. simpl in E. by rewrite E.
  - apply Hp.
  - intros d s. unfold status. rewrite (io_get w w') by apply Hp. by left.
Qed.

(** ** Room

    While there are fewer clients and broadcasts than 2^32, counters of
    references do not overflow. *)

Definition room (w : world) : Prop :=
  ∀ s, Z.of_nat (h_subs h s + size (w_clients w) + length (w_broadcasts w)) < 2 ^ 32 - 16.

Lemma room_roomy w : room w → roomy 9 (λ s, (h_subs h s + queued (w_broadcasts w) s)%nat) w.
Proof.
  intros Hr s. specialize (Hr s).
  assert (H : (queued (w_broadcasts w) s ≤ length (w_broadcasts w))%nat).
  { unfold queued, uses. rewrite <- (length_fmap fst). apply length_filter. }
  lia.
Qed.

Lemma room_refs X b w : server_ok h tbl X b w → room w → ∀ s, sub_refs s w < 2 ^ 32 - 3.
Proof.
  intros H Hr s. pose proof (roomy_refs 9 _ w s (so_ok _ _ _ _ _ H) (room_roomy w Hr)). lia.
Qed.

Lemma room_reader c w w' : reader c w w' → room w' → room w.
Proof.
  intros [_ D Q] H s. specialize (H s). rewrite Q in H.
  assert (Hd : dom (w_clients w) ⊆ dom (w_clients w')) by (intros d; rewrite !elem_of_dom; apply D).
  apply subseteq_size in Hd. rewrite !size_dom in Hd. lia.
Qed.

(** ** One event *)

(** What applications do, and hold when it is done. *)
Lemma works_holds h' X b w w' :
  works (λ s, (h_subs h' s + queued (w_broadcasts w) s)%nat) w w' →
  (∀ d, h_clients h' d = h_clients h d) → server_ok h tbl X b w → server_ok h' tbl X b w'.
Proof.
  intros [[St Lo _] _ Hok F Sp N] Hh H. assert (Hq : w_broadcasts w' = w_broadcasts w) by (by injection Lo).
  apply (steady_ok h' X b w); [done|by apply steady_none|done|by rewrite Hq| |done|].
  - intros d. rewrite Sp, Hh. apply H.
  - intros d. rewrite Hh. by left.
Qed.

Lemma works_server X b w w' :
  works (λ s, (h_subs h s + queued (w_broadcasts w) s)%nat) w w' → server_ok h tbl X b w → server_ok h tbl X b w'.
Proof. intros Hw. by apply works_holds. Qed.

(** References to one client come and go. *)
Lemma refs_server h' X b c cl f w :
  w_clients w !! c = Some cl → (∀ s, h_subs h' s = h_subs h s) →
  (∀ d, Z.of_nat (h_clients h' d) =
    Z.of_nat (h_clients h d) + if decide (d = c) then f (c_refs cl) - c_refs cl else 0) →
  (∀ d, h_clients h' d ≠ 0%nat → h_clients h d ≠ 0%nat ∨ listener d w) →
  server_ok h tbl X b w → server_ok h' tbl X b (upd_client c (set_c_refs f) w).
Proof.
  intros Hc H1 H2 H3 H. set (w' := upd_client c (set_c_refs f) w).
  assert (Hio : io_same w w') by (by apply (io_upd c cl)).
  assert (Hq : w_broadcasts w' = w_broadcasts w) by (by injection (io_masks _ _ Hio)).
  apply (steady_ok h' X b w); [done|apply steady_upd; auto|by apply io_fault|..].
  - rewrite Hq. unfold queue_ok. eapply evs_ok_eq; [|eapply io_ok; [exact Hio| |apply H]].
    + intros s. simpl. by rewrite H1.
    + apply (poll_wf_upd c cl); auto. apply H.
  - intros d. unfold w'. rewrite (spare_upd c cl), H2, (so_spare _ _ _ _ _ H) by done. simpl.
    repeat case_decide; lia.
  - intros d s. unfold status. rewrite (io_get w w') by done. by left.
  - exact H3.
Qed.

Lemma route_server {LO : LibsOk L} {AS : AppsSound A} X b c path cb json w :
  server_ok h tbl X b w → listener c w → bytes_ok path → bytes_ok json → room w →
  server_ok h tbl X b (evs_route c path cb json w).
Proof.
  intros H Hl Hp Hj Hr. apply (works_server X b w); [|done].
  apply (route_works tbl); [apply H|done|by apply room_roomy|apply H|done|done].
Qed.


(** ** Updates of one client *)

(** What the sources may do to a client at any time. *)
Record harmless (b : option cid) (c : cid) (cl cl' : client) : Prop := {
  ha_surrogate : c_surrogate cl' = c_surrogate cl;
  ha_closing : c_closing cl = true → c_closing cl' = true;
  ha_refs : c_refs cl' = c_refs cl;
  ha_link : h_client (c_http cl') = h_client (c_http cl);
  ha_request : h_in_request (c_http cl) = true → h_in_request (c_http cl') = true;
  ha_subs : c_subs cl' = c_subs cl;
  ha_cbs : c_cbs cl' = c_cbs cl ∧ c_cbs_id cl' = c_cbs_id cl;
  ha_session : c_surrogate cl = true →
    h_sid (c_http cl') = h_sid (c_http cl) ∧ h_tbl (c_http cl') = h_tbl (c_http cl);
  ha_prot : c_handshaked cl' = true → ∃ p, c_prot cl' = Some p ∧ p ≠ protocol_flash;
  ha_listens : c_prot cl ≠ None → (c_prot cl = Some protocol_http → c_surrogate cl = true) →
    c_prot cl' ≠ None ∧ (c_prot cl' = Some protocol_http → c_surrogate cl = true);
  ha_body : Some c = b ∨ h_body_len (c_http cl') = h_body_len (c_http cl) ∨ h_body_len (c_http cl') = 0;
  ha_reader : Some c = b → c_prot cl' = c_prot cl;
  ha_client : client_ok cl';
}.

Lemma evs_ok_upd ext b c cl f w :
  evs_ok ext w → w_clients w !! c = Some cl → harmless b c cl (f cl) → evs_ok ext (upd_client c f w).
Proof.
  intros [P R B S T N] Hc H.
  assert (Hg : ∀ d s, _sub_get d s (upd_client c f w) = _sub_get d s w).
  { intros d s. unfold _sub_get. rewrite (upd_at c cl) by done. case_decide; [|done]. subst. rewrite Hc. simpl. by rewrite (ha_subs _ _ _ _ H). }
  split.
  - by apply (poll_wf_upd c cl); [| |apply H..].
  - intros d dl. rewrite (upd_at c cl) by done. case_decide; [|apply R]. intros [= <-]. apply H.
  - intros d dl. rewrite (upd_at c cl) by done. case_decide; [|apply B]. intros [= <-].
    destruct (B c cl Hc) as [B1 B2 B3], (ha_cbs _ _ _ _ H) as [E1 E2]. split; by rewrite ?E1, ?E2.
  - rewrite (upd_client_Some c f cl) by done. apply (csub_wf_ext ext w); try done. intros d. simpl.
    rewrite lookup_insert. case_decide; [|done]. subst. rewrite Hc. simpl. unfold subs_of. by rewrite (ha_subs _ _ _ _ H).
  - intros d s. by rewrite Hg.
  - intros d dl. rewrite (upd_at c cl) by done. case_decide; [|apply N]. intros [= <-].
    rewrite (ha_subs _ _ _ _ H). by apply (N c).
Qed.

Lemma upd_server X b c cl f w :
  w_clients w !! c = Some cl → harmless b c cl (f cl) →
  server_ok h tbl X b w → server_ok h tbl X b (upd_client c f w).
Proof.
  intros Hc H [O E F P K Li S I D R T]. set (w' := upd_client c f w).
  assert (Hat : ∀ d, w_clients w' !! d = if decide (d = c) then Some (f cl) else w_clients w !! d)
    by (intros d; by apply upd_at).
  assert (Hl : ∀ d, link d w' = link d w)
    by (intros d; by apply (upd_field (λ x, h_client (c_http x)) None c cl); [|apply H]).
  assert (Hst : ∀ d s, status d s w' = status d s w).
  { intros d s. unfold status, _sub_get. rewrite Hat. case_decide; [|done]. subst. rewrite Hc. simpl. by rewrite (ha_subs _ _ _ _ H). }
  assert (Hli : ∀ d, listener d w → listener d w').
  { intros d (dl & Hdl & L1 & L2). unfold listener. rewrite Hat.
    case_decide; [|by exists dl]. subst. rewrite Hc in Hdl. injection Hdl as <-. exists (f cl). split; [done|].
    rewrite (ha_surrogate _ _ _ _ H). by apply (ha_listens _ _ _ _ H). }
  assert (Hgl : w_broadcasts w' = w_broadcasts w ∧ w_events w' = w_events w ∧ w_tables w' = w_tables w ∧ w_fault w' = w_fault w)
    by (unfold w'; by rewrite (upd_client_Some c f cl)).
  destruct Hgl as (G1 & G2 & G3 & G4). split.
  - rewrite G1. by eapply evs_ok_upd.
  - by rewrite G2.
  - by rewrite G4.
  - intros d. unfold w'. rewrite (spare_upd c cl) by done.
    rewrite (ha_refs _ _ _ _ H), (ha_link _ _ _ _ H), P. repeat case_decide; lia.
  - intros d dl. rewrite Hat. case_decide; [|apply K]. intros [= <-]. apply H.
  - intros d s. rewrite Hst. intros Hd. by eapply Hli, Li.
  - intros i t sid s. rewrite G3. intros H1 H2. destruct (S i t sid s H1 H2) as (Hx & sl & Hs & S1 & S2 & S3).
    split; [done|]. rewrite Hat. case_decide; [|by exists sl]. subst. rewrite Hc in Hs. injection Hs as <-.
    exists (f cl). destruct (ha_session _ _ _ _ H S1) as [-> ->]. by rewrite (ha_surrogate _ _ _ _ H).
  - intros s p. rewrite !Hl. intros Hs H1 H2 Hp.
    assert (Hi : idle p w).
    { apply (I s p); try done. rewrite <- Hs. symmetry. apply (upd_field c_surrogate false c cl); [done|apply H]. }
    unfold idle in *. rewrite Hat. case_decide; [|done]. subst p. rewrite Hc in Hi.
    destruct (ha_body _ _ _ _ H) as [Hb|[Hb|Hb]]; [congruence..|done].
  - intros d Hd. destruct (D d Hd) as (D1 & D2 & D3). split; [|split; [by rewrite Hl|intros s; by rewrite Hst]].
    unfold closing in *. rewrite Hat. case_decide; [|done]. subst. rewrite Hc in D1. by apply H.
  - intros d Hd. destruct (R d Hd) as (dl & Hdl & R1 & R2). unfold requesting. rewrite Hat.
    case_decide; [|by exists dl]. subst. rewrite Hc in Hdl. injection Hdl as <-. exists (f cl).
    rewrite (ha_surrogate _ _ _ _ H), (ha_reader _ _ _ _ H) by done. done.
  - intros d Hd. by apply Hli, T.
Qed.

(** Updates of what the invariant is not about. *)
Definition plain_mask (cl : client) : client :=
  set_c_rbuff (λ _, []) (set_c_out (λ _, []) (set_c_last_send (λ _, 0) (set_c_last_recv (λ _, 0)
    (set_c_timeout (λ _, false) (set_c_closing (λ _, false)
      (set_c_http (λ h, set_h_incoming (λ _, false) (set_h_keep_alive (λ _, false)
        (set_h_is_post (λ _, false) (set_h_iframe_requested (λ _, false) h)))) cl)))))).

Lemma plain_upd X b c f w :
  is_Some (w_clients w !! c) →
  (∀ cl, plain_mask (f cl) = plain_mask cl ∧ (c_closing cl = true → c_closing (f cl) = true)) →
  server_ok h tbl X b w → server_ok h tbl X b (upd_client c f w).
Proof.
  intros [cl Hc] Hf Hok. destruct (Hf cl) as [H1 H2]. pose proof (so_client _ _ _ _ _ Hok c cl Hc) as [K1 K2 K3].
  apply (upd_server X b c cl); [done| |done].
  assert (E : ∀ {Y} (proj : client → Y), (∀ x, proj (plain_mask x) = proj x) → proj (f cl) = proj cl).
  { intros Y proj Hp. by rewrite <- Hp, H1, Hp. }
  pose proof (E _ c_prot (λ _, eq_refl)) as E1. pose proof (E _ c_handshaked (λ _, eq_refl)) as E2.
  pose proof (E _ c_surrogate (λ _, eq_refl)) as E3. pose proof (E _ (λ x, h_client (c_http x)) (λ _, eq_refl)) as E4.
  simpl in E4. split; try (by apply E); try done.
  - by rewrite (E _ (λ x, h_in_request (c_http x))).
  - split; by apply E.
  - intros _. split; [by apply (E _ (λ x, h_sid (c_http x)))|by apply (E _ (λ x, h_tbl (c_http x)))].
  - rewrite E1, E2. intros Hh. by apply (eo_prot _ _ (so_ok _ _ _ _ _ Hok) c).
  - by rewrite E1.
  - right. left. by apply (E _ (λ x, h_body_len (c_http x))).
  - split; rewrite ?E1, ?E2, ?E3, ?E4; [done..|]. intros H3 H4. apply K3; [done|].
    destruct (c_closing cl); [by rewrite H2 in H4|done].
Qed.


(** ** Clients come *)

(** A client that nothing refers to yet. *)
Record newcomer (cl : client) : Prop := {
  nc_refs : c_refs cl = 0;
  nc_link : h_client (c_http cl) = None;
  nc_subs : c_subs cl = None;
  nc_cbs : cbs_ok cl;
  nc_prot : c_handshaked cl = true → ∃ p, c_prot cl = Some p ∧ p ≠ protocol_flash;
  nc_client : client_ok cl;
}.

Lemma newcomer_upd c cl f w :
  upd_client c f (set_w_clients <[c := cl]> w) = set_w_clients <[c := f cl]> w.
Proof.
  unfold upd_client. simpl. rewrite lookup_insert_eq. unfold set_w_clients. simpl. by rewrite insert_insert_eq.
Qed.

(** Who is absent is not linked to. *)
Lemma spare_absent X b c d w : server_ok h tbl X b w → w_clients w !! c = None → link d w ≠ Some c.
Proof.
  intros H Hc Hl. destruct (pw_peer _ (eo_poll _ _ (so_ok _ _ _ _ _ H)) d c Hl) as [[cl E] _]. congruence.
Qed.

Lemma links_insert c cl d w :
  w_clients w !! c = None → h_client (c_http cl) = None →
  links d (set_w_clients <[c := cl]> w) = links d w.
Proof.
  intros Hc Hl. unfold links. simpl.
  assert (E : map_items linked (<[c := cl]> (w_clients w)) ≡ₚ map_items linked (w_clients w)).
  { rewrite map_items_fresh by done. unfold linked at 1. by rewrite Hl. }
  by rewrite E.
Qed.

Lemma fresh_server X b c cl w :
  w_clients w !! c = None → newcomer cl → server_ok h tbl X b w →
  server_ok h tbl X b (set_w_clients <[c := cl]> w).
Proof.
  intros Hc [N1 N2 N3 N4 N5 N6] Hok. pose proof Hok as [O E F P K Li S I D R T].
  set (w' := set_w_clients <[c := cl]> w).
  assert (Hat : ∀ d, w_clients w' !! d = if decide (d = c) then Some cl else w_clients w !! d).
  { intros d. simpl. rewrite lookup_insert. repeat case_decide; congruence. }
  assert (Hl : ∀ d, link d w' = link d w).
  { intros d. unfold link. rewrite Hat. case_decide; [|done]. subst. by rewrite Hc. }
  assert (Hg : ∀ d s, _sub_get d s w' = _sub_get d s w).
  { intros d s. unfold _sub_get. rewrite Hat. case_decide; [|done]. subst. rewrite Hc. simpl. by rewrite N3. }
  assert (Hst : ∀ d s, status d s w' = status d s w) by (intros d s; unfold status; by rewrite Hg).
  assert (Hne : ∀ d, is_Some (w_clients w !! d) → w_clients w' !! d = w_clients w !! d).
  { intros d [dl Hd]. rewrite Hat, decide_False; [done|]. congruence. }
  destruct O as [O1 O2 O3 O4 O5 O6]. split; try done.
  - split.
    + destruct O1 as [P1 P2 P3]. split.
      * intros d e. rewrite Hl. intros He. destruct (P1 d e He) as [H1 H2].
        unfold is_surrogate in *. rewrite !Hne by (done || by eapply link_some). done.
      * intros d e. rewrite Hl. intros H1 He. unfold is_surrogate, waiting in *.
        rewrite Hne in * by (by eapply link_some). by eapply P2.
      * intros s p. rewrite !Hl. intros H1 H2 He. destruct (P1 s p He) as [H3 _].
        unfold is_surrogate, closing, waiting in *. rewrite !Hne in * by (done || by eapply link_some). by apply P3.
    + intros d dl. rewrite Hat. case_decide; [|apply O2]. intros [= <-]. done.
    + intros d dl. rewrite Hat. case_decide; [|apply O3]. intros [= <-]. done.
    + apply (csub_wf_same _ w); try done. unfold all_subs. simpl.
      rewrite map_items_fresh by done. unfold held_subs at 1, subs_of. rewrite N3. simpl.
      by rewrite map_to_list_empty.
    + intros d s. by rewrite Hg.
    + intros d dl. rewrite Hat. case_decide; [|apply O6]. intros [= <-]. by rewrite N3.
  - intros d. pose proof (P d) as Hd. unfold spare in Hd |- *. rewrite Hat. unfold w'. rewrite links_insert by done.
    case_decide; [|done]. subst. rewrite Hc in Hd. by rewrite N1.
  - intros d dl. rewrite Hat. case_decide; [|apply K]. by intros [= <-].
  - intros d s. rewrite Hst. intros Hd. destruct (Li d s Hd) as (dl & Hdl & Hx). exists dl. by rewrite Hne.
  - intros i t sid s H1 H2. destruct (S i t sid s H1 H2) as (Hx & sl & Hs & Hy). split; [done|]. exists sl.
    by rewrite Hne.
  - intros s p. rewrite !Hl. intros Hs H1 H2 Hp. unfold is_surrogate, idle in *.
    rewrite Hne in * by (by eapply link_some). by apply (I s p).
  - intros d Hd. destruct (D d Hd) as (D1 & D2 & D3). split; [|split; [by rewrite Hl|intros s; by rewrite Hst]].
    unfold closing in *. rewrite Hat. case_decide; [|done]. subst. by rewrite Hc in D1.
  - intros d Hd. destruct (R d Hd) as (dl & Hdl & Hx). exists dl. by rewrite Hne.
  - intros d Hd. destruct (T d Hd) as (dl & Hdl & Hx). exists dl. by rewrite Hne.
Qed.

(** A surrogate that is new gets into its table. *)
Lemma table_server X b s sid w :
  server_ok h tbl X b w → session (Z.to_nat (sid mod Z.of_nat N_TABLES)) sid s X w →
  server_ok h tbl X b (set_w_tables (alter <[sid := s]> (Z.to_nat (sid mod Z.of_nat N_TABLES))) w).
Proof.
  intros Hok Hs. pose proof Hok as [O E F P K Li S I D R T]. destruct O as [O1 O2 O3 O4 O5 O6]. split; try done.
  - split; try done; [by destruct O1|by apply (csub_wf_same _ w)].
  - intros i t x y. simpl. intros Ht Hy. set (k := Z.to_nat (sid mod Z.of_nat N_TABLES)) in *.
    destruct (decide (i = k)) as [->|Hi].
    + rewrite list_lookup_alter_eq in Ht. destruct (w_tables w !! k) as [t0|] eqn:E0; [|done].
      injection Ht as <-. rewrite lookup_insert in Hy. case_decide; [|by eapply S]. subst. by injection Hy as <-.
    + rewrite list_lookup_alter_ne in Ht by done. by eapply S.
Qed.

End Invariant.
