(* ===== verification/Requests.v ===== *)
(** Reading keeps the invariant: one event of a raw connection or a WebSocket,
    one HTTP request with all the messages in its body, and the loop over what
    is in the buffer. *)
From Stdlib Require Import ZArith Lia String.
From stdpp Require Import functions base list gmap strings.
From S2P Require Import Prelude Types Libs Path EvsQuery State Callbacks Sub Apps ClientSub Config Raw WebSocket Poll Send Quiet Evs Broadcast Route Receive Http Keep Protocols Loop Handshake Steady Works Invariant.

Section Requests.
Context {L : Libs} {C : Config} {A : Apps L} {LO : LibsOk L} {AS : AppsSound A}.
Context (held : holds) (tbl : gmap bytes event) (X : gset cid).

Abbreviation ok := (server_ok held tbl X).

(** ** Bytes *)

Lemma cstr_bytes l : bytes_ok l → bytes_ok (cstr l).
Proof. induction 1 as [|b l Hb Hl IH]; simpl; [constructor|]. case_match; by constructor. Qed.

Lemma raw_parse_bytes errno event p cb json :
  bytes_ok event → (raw_parse errno event).1 = Some (p, cb, json) → bytes_ok p ∧ bytes_ok json.
Proof.
  intros He. unfold raw_parse. destruct (cut COLON event) as [[x y]|] eqn:E; [|done].
  apply cut_Some in E as [-> _]. apply Forall_app in He as [Hx Hy]. apply Forall_cons in Hy as [_ Hy].
  destruct (g_ascii_strtoull y) as [[n len] erange]. destruct (_ || _); [done|].
  simpl. intros [= <- <- <-]. split; [done|]. by apply Forall_drop.
Qed.

Lemma raw_extract_event buf used event buf' n :
  raw_extract buf used = XEvent event buf' n → event = cstr (drop used buf').
Proof.
  unfold raw_extract. repeat case_match; try done. by intros [= <- <- _].
Qed.

Lemma tokens_bytes delim cur l :
  bytes_ok cur → bytes_ok l → Forall bytes_ok (tokens delim cur l).
Proof.
  intros Hc Hl. assert (He : ∀ c, bytes_ok c → Forall bytes_ok (match c with [] => [] | _ => [c] end)).
  { intros [|x c] H; [apply Forall_nil_2|by apply Forall_singleton]. }
  revert cur Hc. induction Hl as [|b l Hb Hl IH]; intros cur Hc; simpl; [by apply He|].
  case_match; [apply Forall_app; split; [by apply He|by apply IH, Forall_nil_2]|].
  apply IH, Forall_app. by rewrite Forall_singleton.
Qed.

(** ** One message *)

Lemma close_ok b c r w : is_Some (w_clients w !! c) → ok b w → ok b (qev_close c r w).
Proof. intros Hc. apply plain_upd; [done|by intros []]. Qed.

Lemma rbuff_ok b c l w : is_Some (w_clients w !! c) → ok b w → ok b (set_rbuff c l w).
Proof. intros Hc. apply plain_upd; [done|by intros []]. Qed.

(** One message, and the messages of a request. *)
Lemma raw_handle_works ext c event w :
  evs_ok ext w → listener c w → roomy 9 ext w → represents tbl (w_events w) → bytes_ok event →
  works ext w (protocol_raw_handle c event w).2.
Proof.
  intros Hok Hl Hr Ht He. unfold protocol_raw_handle. pose proof (raw_parse_bytes (w_errno w) event) as Hb.
  destruct (raw_parse (w_errno w) event) as [parsed errno]. cbn [fst] in Hb.
  assert (H1 : works ext w (set_w_errno (λ _, errno) w)).
  { apply works_quiet; [split; [by split|by split|done]|done|done]. }
  eapply works_trans; [exact H1|]. destruct parsed as [[[p cb] json]|]; cbn [snd].
  - destruct (Hb p cb json He eq_refl) as [Hp Hj]. by apply (route_works tbl); [apply H1|..].
  - apply close_works; [apply H1|by apply listener_some].
Qed.

Lemma messages_works ext s msgs w :
  evs_ok ext w → listener s w → roomy 9 ext w → represents tbl (w_events w) → Forall bytes_ok msgs →
  works ext w (surr_messages s msgs w).2.
Proof.
  revert w. induction msgs as [|m msgs IH]; intros w Hok Hl Hr Ht Hm; [by apply works_refl|].
  apply Forall_cons in Hm as [Hm Hms]. cbn [surr_messages].
  pose proof (raw_handle_works ext s m w Hok Hl Hr Ht Hm) as H1.
  destruct (protocol_raw_handle s m w) as [st w1]. cbn [snd] in *. destruct st; [|done..].
  eapply works_trans; [exact H1|]. apply IH; [apply H1|by eapply works_listener|by eapply works_roomy| |done].
  by rewrite (st_events _ _ _ (ta_steady _ _ (wk_tame _ _ _ H1))).
Qed.

Lemma raw_handle_ok b c event w :
  ok b w → listener c w → bytes_ok event → room held w → ok b (protocol_raw_handle c event w).2.
Proof.
  intros H Hl He Hr. apply (works_server held tbl X b w); [|done].
  by apply raw_handle_works; [apply H| |apply room_roomy|apply H|].
Qed.

(** What is asked of the client that a raw or a WebSocket round is about. *)
Lemma listener_set c f w :
  (∀ cl, plain_mask (f cl) = plain_mask cl) → listener c w → listener c (upd_client c f w).
Proof.
  intros Hf (cl & Hc & Hp & Hs). exists (f cl). rewrite (upd_at c cl), decide_True by done.
  assert (E : c_prot (f cl) = c_prot cl ∧ c_surrogate (f cl) = c_surrogate cl).
  { split; [exact (f_equal c_prot (Hf cl))|exact (f_equal c_surrogate (Hf cl))]. }
  destruct E as [-> ->]. done.
Qed.

Lemma room_set c f w : room held w → room held (upd_client c f w).
Proof.
  unfold room, upd_client. destruct (w_clients w !! c) as [cl|] eqn:E; [|done].
  simpl. rewrite map_size_insert_Some by eauto. done.
Qed.

Lemma raw_route_ok b c used w :
  ok b w → listener c w → room held w → bytes_ok (rbuff c w) → (used ≤ length (rbuff c w))%nat →
  ok b (protocol_raw_route c used w).2.
Proof.
  intros H Hl Hr Hb Hu. unfold protocol_raw_route.
  destruct (raw_extract (rbuff c w) used) as [| |event buf n] eqn:E; [done..|].
  destruct (raw_extract_buffer _ used event buf n Hb Hu E) as (_ & _ & _ & Hbuf).
  pose proof (raw_handle_ok b c event (set_rbuff c buf w)) as Hh.
  destruct (protocol_raw_handle c event (set_rbuff c buf w)) as [st w1]. apply Hh.
  - by apply rbuff_ok; [by apply listener_some|].
  - by apply listener_set.
  - rewrite (raw_extract_event _ _ _ _ _ E). by apply cstr_bytes, Forall_drop.
  - by apply room_set.
Qed.

Lemma ws_route_ok b c used w :
  ok b w → listener c w → room held w → bytes_ok (rbuff c w) → (used ≤ length (rbuff c w))%nat →
  ok b (protocol_rfc6455_route c used w).2.
Proof.
  intros H Hl Hr Hb Hu. unfold protocol_rfc6455_route, rfc6455_decode.
  destruct (decode_buffer (rbuff c w) used Hb Hu) as [Hbuf _].
  destruct (_decode (rbuff c w) used) as [r buf]. cbn [snd] in Hbuf.
  assert (H1 : ok b (set_rbuff c buf w)) by (by apply rbuff_ok; [by apply listener_some|]).
  assert (Hl1 : listener c (set_rbuff c buf w)) by (by apply listener_set).
  destruct r as [|[reason|]|len frame_len]; [done|apply close_ok; [by apply listener_some|done]|done|].
  set (w1 := set_rbuff c buf w) in *.
  assert (Hb1 : rbuff c w1 = buf).
  { destruct Hl as (cl & Hc & _). unfold rbuff, w1, set_rbuff. by rewrite (upd_at c cl), decide_True. }
  rewrite Hb1. set (buf2 := wr buf _ NUL).
  assert (Hb2 : bytes_ok buf2) by (by apply Forall_insert).
  pose proof (raw_handle_ok b c (cstr (drop used buf2)) (set_rbuff c buf2 w1)) as Hh.
  destruct (protocol_raw_handle c _ (set_rbuff c buf2 w1)) as [st w2]. apply Hh.
  - by apply rbuff_ok; [by apply listener_some|].
  - by apply listener_set.
  - by apply cstr_bytes, Forall_drop.
  - by apply room_set, room_set.
Qed.

(** ** Surrogates *)

(** What finding a surrogate leaves of the clients that were there. *)
Definition joined (w w' : world) : Prop :=
  ∀ d, is_Some (w_clients w !! d) → w_clients w' !! d = w_clients w !! d.

Lemma surr_find_ok b sid or_create w :
  ok b w →
  let r := _surr_find sid or_create w in
  ok b r.2 ∧ joined w r.2 ∧ ∀ s, r.1 = Some s → is_surrogate s r.2 = true.
Proof.
  intros H r. subst r. unfold _surr_find. set (k := sid mod Z.of_nat N_TABLES).
  destruct (surr_lookup sid w) as [s|] eqn:E.
  { split; [done|]. split; [done|]. intros x [= <-]. unfold surr_lookup in E. fold k in E.
    destruct (w_tables w !! Z.to_nat k) as [t|] eqn:Et; [|done].
    destruct (so_session _ _ _ _ _ H _ _ _ _ Et E) as (_ & sl & Hs & Hsurr & _).
    cbn [snd]. unfold is_surrogate. by rewrite Hs. }
  destruct or_create; [|done]. unfold protocols_new_surrogate.
  destruct (qev_surrogate_new (dom (w_clients w))) as [s|] eqn:Es; [|done].
  apply surrogate_fresh, not_elem_of_dom in Es. cbv zeta iota beta.
  unfold _set_handshaked, touch_send, qev_timeout_clear, upd_http. rewrite !newcomer_upd. cbn [w_now set_w_clients].
  match goal with |- context [set_w_clients <[s := ?x]> w] => set (cl := x) end.
  assert (H1 : ok b (set_w_clients <[s := cl]> w)).
  { apply fresh_server; [done| |done]. split; [done|done|done| |by eexists|by split].
    destruct (client_new_cbs_ok true) as [B1 B2 B3]. by split. }
  assert (Hx : s ∉ X).
  { intros Hin. destruct (so_closed _ _ _ _ _ H s Hin) as [Hc _]. unfold closing in Hc. by rewrite Es in Hc. }
  cbn [fst snd]. split; [|split].
  - apply stat_server; [set_solver|]. apply table_server; [done|]. split; [done|]. exists cl. simpl.
    by rewrite lookup_insert_eq.
  - intros d [dl Hd]. simpl. rewrite lookup_insert_ne; [done|congruence].
  - intros x [= <-]. unfold is_surrogate. simpl. by rewrite lookup_insert_eq.
Qed.

Lemma get_surrogate_ok b url w :
  ok b w →
  let r := _get_surrogate url w in
  ok b r.2 ∧ joined w r.2 ∧ ∀ s, r.1 = Some s → is_surrogate s r.2 = true.
Proof.
  intros H r. subst r. unfold _get_surrogate. destruct (url_sid url) as [[uuid new_client]|]; [|done].
  by apply surr_find_ok.
Qed.

(** ** The connection whose request is read *)

(** It is linked to a surrogate, and nobody polls with it. *)
Definition unpaired (c : cid) (w : world) : Prop := ∀ s, link c w = Some s → ∀ x, link x w ≠ Some c.

Lemma begin_ok c w : ok None w → requesting c w → ok (Some c) w.
Proof. intros [O E F P K Li S I D R] Hc. split; try done; [|by intros d [= <-]]. intros; by apply (I s p). Qed.

Lemma end_ok c w : ok (Some c) w → unpaired c w ∨ idle c w → ok None w.
Proof.
  intros [O E F P K Li S I D R] Hc. split; try done. intros s p H1 H2 H3 _.
  destruct (decide (p = c)) as [->|]; [|apply (I s p); congruence].
  destruct Hc as [Hc|Hc]; [by destruct (Hc s H3 s)|done].
Qed.

Lemma start_unpaired c w :
  ok None w → requesting c w → closing c w = false → ¬ idle c w → unpaired c w.
Proof.
  intros H (cl & Hc & Hs & _) Hcl Hi s Hl x Hx. destruct (eo_poll _ _ (so_ok _ _ _ _ _ H)) as [P1 _ P3].
  assert (Hsc : is_surrogate c w = false) by (unfold is_surrogate; by rewrite Hc).
  assert (Hxs : is_surrogate x w = true).
  { destruct (P1 x c Hx) as [_ E]. rewrite Hsc in E. by destruct (is_surrogate x w). }
  destruct (P3 x c Hxs) as [E _]; [by rewrite Hcl, andb_false_r|done|].
  by apply Hi, (so_idle _ _ _ _ _ H x c).
Qed.

(** A response goes out, or would if one were asked for. *)
Lemma error_ok b c st w :
  ok b w → is_Some (w_clients w !! c) →
  let w' := (_send_error (Some c) st w).2 in
  ok b w' ∧ link c w' = None ∧ steady b w w' ∧ ∀ d, closing d w = true → closing d w' = true.
Proof.
  intros H [cl Hc] w'.
  destruct (responded_done c cl st (_status_responses st) w (eo_poll _ _ (so_ok _ _ _ _ _ H)) Hc) as (_ & R & Rwf).
  fold (_send_error (Some c) st w) in R, Rwf. fold w' in R, Rwf.
  assert (Hs : steady b w w') by exact (keep_error (steady b) w (Some c) st w (kept_refl _ w)).
  split; [|split; [|split; [done|apply Hs]]].
  - apply (polled_server _ _ X b w); [|done|done]. by split; [apply R|apply R|].
  - rewrite (rp_link _ _ _ _ R). by rewrite decide_True.
Qed.


(** ** Bodies *)

Lemma room_steady b w w' : steady b w w' → local w w' → room held w → room held w'.
Proof.
  intros Hs Hl. injection Hl as _ Hq _ _. unfold room. rewrite Hq.
  assert (E : dom (w_clients w') = dom (w_clients w)).
  { apply set_eq. intros d. rewrite !elem_of_dom. pose proof (st_station _ _ _ Hs d) as E.
    by rewrite <- (fmap_is_Some station), E, fmap_is_Some. }
  by rewrite <- !size_dom, E.
Qed.

(** [c] asks through [s], awaits its response, and nobody polls with it. *)
Record engaged (c s : cid) (w : world) : Prop := {
  en_surrogate : is_surrogate s w = true;
  en_link : link c w = Some s;
  en_waiting : waiting c w = true;
  en_other x : link x w ≠ Some c;
}.

Lemma engaged_upd c s d f w :
  (∀ cl, plain_mask (f cl) = plain_mask cl) → engaged c s w → engaged c s (upd_client d f w).
Proof.
  intros Hf [E1 E2 E3 E4].
  assert (Hl : ∀ e, link e (upd_client d f w) = link e w).
  { intros e. apply (upd_client_proj (λ cl, h_client (c_http cl))). intros cl.
    exact (f_equal (λ x, h_client (c_http x)) (Hf cl)). }
  split; [rewrite <- E1|by rewrite Hl|rewrite <- E3|intros x; by rewrite Hl].
  - apply upd_client_proj. intros cl. exact (f_equal c_surrogate (Hf cl)).
  - apply upd_client_proj. intros cl. exact (f_equal (λ x, h_in_request (c_http x)) (Hf cl)).
Qed.

Lemma engaged_settled c s w w' :
  settled w w' → requesting c w → is_surrogate s w' = is_surrogate s w → engaged c s w → engaged c s w'.
Proof.
  intros H Hq Hs [E1 E2 E3 E4]. destruct (H c Hq E4) as [A1 A2 A3].
  split; [by rewrite Hs|by rewrite A1|by rewrite A2|]. intros x Hx. by apply (E4 x), A3.
Qed.

Lemma surrogate_some s w : is_surrogate s w = true → is_Some (w_clients w !! s).
Proof. unfold is_surrogate. destruct (w_clients w !! s); [by eexists|done]. Qed.

Lemma surrogate_listener b s w : ok b w → is_surrogate s w = true → listener s w.
Proof.
  intros H Hs. destruct (surrogate_some s w Hs) as [sl E]. exists sl. split; [done|].
  unfold is_surrogate in Hs. rewrite E in Hs.
  destruct (co_surrogate _ (so_client _ _ _ _ _ H s sl E) Hs) as [-> _]. done.
Qed.

Lemma surr_route_ok s c body w :
  ok (Some c) w → engaged c s w → room held w → bytes_ok body → ok (Some c) (_surr_route s c body w).
Proof.
  intros H He Hr Hb. unfold _surr_route.
  assert (Hin : ∀ f, (∀ cl, plain_mask (f cl) = plain_mask cl ∧ (c_closing cl = true → c_closing (f cl) = true)) →
    ∀ w1, ok (Some c) w1 → engaged c s w1 → ok (Some c) (upd_client s f w1) ∧ engaged c s (upd_client s f w1)).
  { intros f Hf w1 H1 He1. split; [apply plain_upd; [apply surrogate_some, He1|done|done]|].
    apply engaged_upd; [apply Hf|done]. }
  destruct (Hin (set_c_http (set_h_incoming (λ _, true))) ltac:(by intros []) w H He) as [H1 He1].
  fold (upd_http s (set_h_incoming (λ _, true)) w) in H1, He1.
  set (w1 := upd_http s (set_h_incoming (λ _, true)) w) in *.
  assert (Hr1 : room held w1) by (by apply room_set).
  set (msgs := tokens NEWLINE [] (cstr body)).
  assert (Hm : Forall bytes_ok msgs) by (apply tokens_bytes; [constructor|by apply cstr_bytes]).
  pose proof (messages_works _ s msgs w1 (so_ok _ _ _ _ _ H1) (surrogate_listener _ s w1 H1 (en_surrogate _ _ _ He1))
    (room_roomy held w1 Hr1) (so_events _ _ _ _ _ H1) Hm) as Hw.
  pose proof (works_server held tbl X _ _ _ Hw H1) as H2.
  destruct (surr_messages s msgs w1) as [done_ w2]. cbn [snd] in *.
  assert (He2 : engaged c s w2).
  { apply (engaged_settled c s w1); [apply Hw|by apply (so_reader _ _ _ _ _ H1)| |done].
    eapply (steady_surrogate None), Hw. }
  destruct done_; cbn [negb].
  2: { apply error_ok; [done|]. eapply link_some, He2. }
  destruct (Hin (set_c_http (set_h_incoming (λ _, false))) ltac:(by intros []) w2 H2 He2) as [H3 He3].
  fold (upd_http s (set_h_incoming (λ _, false)) w2) in H3, He3.
  set (w3 := upd_http s (set_h_incoming (λ _, false)) w2) in *.
  destruct (surrogate_some s w3 (en_surrogate _ _ _ He3)) as [sl E]. rewrite E.
  destruct (qev_surrogate_flush (c_out sl)) as [out rest].
  destruct (Hin (set_c_out (λ _, rest)) ltac:(by intros []) w3 H3 He3) as [H4 [F1 F2 F3 F4]].
  set (w4 := upd_client s (set_c_out (λ _, rest)) w3) in *.
  pose proof (eo_poll _ _ (so_ok _ _ _ _ _ H4)) as Hwf.
  destruct out as [m|].
  - apply stat_server; [set_solver|]. apply (polled_server _ _ X _ w4); [by apply surr_send_spec| |done].
    exact (keep_surr_send (steady (Some c)) w4 s c m w4 (kept_refl _ w4)).
  - apply stat_server; [set_solver|]. apply (polled_server _ _ X _ w4); [by apply surr_replace_spec| |done].
    exact (keep_replace (steady (Some c)) w4 s c w4 (kept_refl _ w4)).
Qed.

Lemma response_ok b c st resp w :
  ok b w → is_Some (w_clients w !! c) → ok b (_send_response (Some c) st resp w).2.
Proof.
  intros H [cl Hc].
  destruct (responded_done c cl st resp w (eo_poll _ _ (so_ok _ _ _ _ _ H)) Hc) as (_ & R & Rwf).
  apply (polled_server _ _ X b w); [by split; [apply R|apply R|]| |done].
  exact (keep_response (steady b) w (Some c) st resp w (kept_refl _ w)).
Qed.

Lemma requesting_some c w : requesting c w → is_Some (w_clients w !! c).
Proof. intros (cl & -> & _). eauto. Qed.

Lemma do_body_ok c start w :
  ok (Some c) w → unpaired c w → room held w → bytes_ok start → ok (Some c) (_do_body c start w).
Proof.
  intros H Hu Hr Hb. pose proof (so_reader _ _ _ _ _ H c eq_refl) as Hq.
  assert (Hsome : is_Some (w_clients w !! c)) by (by apply requesting_some).
  unfold _do_body. destruct Hq as (cl & Hc & Hs & _). rewrite Hc.
  destruct _iframe_source as [page|]; [|by apply error_ok].
  destruct (h_iframe_requested (c_http cl)); [apply stat_server; [set_solver|by apply response_ok]|].
  destruct (negb (h_is_post (c_http cl))); [apply stat_server; [set_solver|by apply error_ok]|].
  destruct (h_client (c_http cl)) as [s|] eqn:Hl; [|by apply error_ok].
  assert (Hlink : link c w = Some s) by (unfold link; by rewrite Hc).
  pose proof (eo_poll _ _ (so_ok _ _ _ _ _ H)) as [P1 P2 _].
  assert (Hcs : is_surrogate c w = false) by (unfold is_surrogate; by rewrite Hc).
  apply surr_route_ok; try done. destruct (P1 c s Hlink) as [_ E]. rewrite Hcs in E.
  split; [done|done|by eapply P2|by apply (Hu s)].
Qed.


(** ** Headers *)

(** An update of [c] alone, by what it does to what the invariant is about. *)
Lemma upd_ok b c cl f w :
  ok b w → w_clients w !! c = Some cl → harmless b c cl (f cl) → ok b (upd_client c f w).
Proof. intros H Hc Hf. by apply (upd_server _ _ X b c cl). Qed.

(** New flags of the request. *)
Lemma flags_harmless b c cl f w :
  ok b w → w_clients w !! c = Some cl → c_surrogate cl = false →
  h_client (f (c_http cl)) = h_client (c_http cl) →
  (h_in_request (c_http cl) = true → h_in_request (f (c_http cl)) = true) →
  (Some c = b ∨ h_body_len (f (c_http cl)) = h_body_len (c_http cl) ∨ h_body_len (f (c_http cl)) = 0) →
  harmless b c cl (set_c_http f cl).
Proof.
  intros H Hc Hs H1 H2 H3. destruct (so_client _ _ _ _ _ H c cl Hc) as [K1 K2 K3].
  split; try done; [by rewrite Hs| |].
  - exact (eo_prot _ _ (so_ok _ _ _ _ _ H) c cl Hc).
  - split; [done| |done]. simpl. by rewrite H1.
Qed.

Lemma flags_ok b c f w :
  ok b w → requesting c w →
  (∀ h, h_client (f h) = h_client h ∧ (h_in_request h = true → h_in_request (f h) = true) ∧
    (Some c = b ∨ h_body_len (f h) = h_body_len h ∨ h_body_len (f h) = 0)) →
  ok b (upd_http c f w) ∧ requesting c (upd_http c f w) ∧ (∀ d, link d (upd_http c f w) = link d w) ∧
  (∀ d, closing d (upd_http c f w) = closing d w).
Proof.
  intros H (cl & Hc & Hs & Hp) Hf. destruct (Hf (c_http cl)) as (F1 & F2 & F3). split; [|split; [|split]].
  - apply (upd_ok b c cl); [done..|]. by eapply flags_harmless.
  - exists (set_c_http f cl). unfold upd_http. by rewrite (upd_at c cl), decide_True.
  - intros d. by apply (upd_field (λ x, h_client (c_http x)) None c cl).
  - intros d. by apply (upd_field c_closing false c cl).
Qed.

(** The connection is linked to the surrogate of its URL. *)
Lemma link_ok c s w :
  ok (Some c) w → link c w = None → waiting c w = true → closing c w = false → is_surrogate s w = true →
  let w' := upd_http c (set_h_client (λ _, Some s)) (qev_ref s w) in
  ok (Some c) w' ∧ unpaired c w' ∧ requesting c w'.
Proof.
  intros H Hl Hw Hcl Hs w'. pose proof (so_reader _ _ _ _ _ H c eq_refl) as Hq.
  pose proof Hq as (cl & Hc & Hcs & Hp). destruct (surrogate_some s w Hs) as [sl Hsl].
  assert (Hsc : s ≠ c) by (intros ->; unfold is_surrogate in Hs; rewrite Hc in Hs; congruence).
  assert (Hat : ∀ d, w_clients w' !! d =
    if decide (d = c) then Some (set_c_http (set_h_client (λ _, Some s)) cl)
    else if decide (d = s) then Some (set_c_refs (λ n, n + 1) sl) else w_clients w !! d).
  { intros d. unfold w', upd_http. assert (E : w_clients (qev_ref s w) !! c = Some cl).
    { unfold qev_ref. rewrite (upd_at s sl) by done. by rewrite decide_False. }
    rewrite (upd_at c cl) by done. case_decide; [done|]. unfold qev_ref. by rewrite (upd_at s sl). }
  assert (Hlink : ∀ d, link d w' = if decide (d = c) then Some s else link d w).
  { intros d. unfold link. rewrite Hat. repeat case_decide; try done. subst. by rewrite Hsl. }
  assert (Hclose : ∀ d, closing d w' = closing d w).
  { intros d. unfold closing. rewrite Hat. repeat case_decide; try done; subst; by rewrite ?Hc, ?Hsl. }
  assert (Hsurr : ∀ d, is_surrogate d w' = is_surrogate d w).
  { intros d. unfold is_surrogate. rewrite Hat. repeat case_decide; try done; subst; by rewrite ?Hc, ?Hsl. }
  assert (Hwait : ∀ d, waiting d w' = waiting d w).
  { intros d. unfold waiting. rewrite Hat. repeat case_decide; try done; subst; by rewrite ?Hc, ?Hsl. }
  pose proof (eo_poll _ _ (so_ok _ _ _ _ _ H)) as [P1 P2 P3].
  assert (Hun : ∀ t, is_surrogate t w = true → link t w ≠ Some c).
  { intros t Ht E. destruct (P3 t c Ht) as [E2 _]; [by rewrite Hcl, andb_false_r|done|]. congruence. }
  assert (Hio : io_same w w').
  { unfold w', upd_http, qev_ref. etrans; apply io_upd_some; try (by intros []); [by eexists|].
    rewrite upd_client_dom. by eexists. }
  assert (Hpo : polled w w').
  { split; [done| |split].
    - intros d. unfold w', upd_http, qev_ref. rewrite (spare_upd c cl), (spare_upd s sl) by
        (rewrite ?(upd_at s sl), ?decide_False by done; done).
      unfold link in Hl. rewrite Hc in Hl. simpl in Hl. simpl. rewrite Hl. repeat case_decide; simplify_eq; lia.
    - intros d e. rewrite Hlink, !Hsurr, (io_dom w) by done. case_decide; [|apply P1]. subst.
      intros [= <-]. split; [by eexists|]. rewrite Hs. unfold is_surrogate. by rewrite Hc, Hcs.
    - intros d e. rewrite Hlink, Hsurr, Hwait. case_decide; [by subst|apply P2].
    - intros t p. rewrite Hsurr, !Hclose, !Hlink, Hwait. intros Ht Hct.
      case_decide; [subst; unfold is_surrogate in Ht; rewrite Hc in Ht; congruence|]. intros E.
      rewrite decide_False; [by apply P3|]. intros ->. by apply (Hun t). }
  split; [|split].
  - apply (polled_server _ _ X _ w); [done| |done]. split;
      [| | |exact (f_equal w_events (io_masks _ _ Hio))|exact (f_equal w_tables (io_masks _ _ Hio))].
    + intros d. rewrite Hat. repeat case_decide; subst; by rewrite ?Hc, ?Hsl.
    + intros d. by rewrite Hclose.
    + intros d e. rewrite Hlink. case_decide; [|by left]. subst. auto.
  - intros x. rewrite Hlink, decide_True by done. intros [= <-] t. rewrite Hlink. case_decide; [by intros [= ->]|].
    intros E. destruct (P1 t c E) as [_ Et]. apply (Hun t); [|done]. unfold is_surrogate in Et at 1.
    rewrite Hc, Hcs in Et. by destruct (is_surrogate t w).
  - exists (set_c_http (set_h_client (λ _, Some s)) cl). by rewrite Hat, decide_True.
Qed.


Lemma none_unpaired c w : link c w = None → unpaired c w.
Proof. intros H s E. congruence. Qed.

Lemma headers_body_ok c h is_post n w :
  ok (Some c) w → link c w = None → waiting c w = true →
  let r := headers_body c h is_post n w in
  r.1 = PROT_OK ∧ ok (Some c) r.2 ∧ unpaired c r.2.
Proof.
  intros H Hl Hw. unfold headers_body. cbv zeta.
  pose proof (requesting_some c w (so_reader _ _ _ _ _ H c eq_refl)) as Hsome.
  destruct (get_surrogate_ok (Some c) (hr_url h) w H) as (H1 & Hj & Hs).
  destruct (_get_surrogate (hr_url h) w) as [o w1]. cbn [fst snd] in *.
  assert (Hc : w_clients w1 !! c = w_clients w !! c) by (by apply Hj).
  assert (Hl1 : link c w1 = None) by (rewrite <- Hl; unfold link; by rewrite Hc).
  assert (Hw1 : waiting c w1 = true) by (rewrite <- Hw; unfold waiting; by rewrite Hc).
  set (w2 := match o with Some s => _ | None => w1 end).
  assert (H2 : ok (Some c) w2 ∧ unpaired c w2).
  { subst w2. destruct o as [s|]; [|by split; [|apply none_unpaired]]. specialize (Hs s eq_refl).
    destruct (surrogate_some s w1 Hs) as [sl E]. rewrite E. rewrite <- Hc in Hsome. destruct Hsome as [cl Ec]. rewrite Ec.
    destruct (negb (c_closing sl) && negb (c_closing cl)) eqn:Eo; [|by split; [|apply none_unpaired]].
    apply andb_prop in Eo as [Eo1 Eo2]. apply negb_true_iff in Eo1, Eo2.
    destruct (link_ok c s w1) as (K1 & K2 & _); [done..| |done|done]. unfold closing. by rewrite Ec. }
  destruct H2 as [H2 Hu2].
  destruct (flags_ok (Some c) c (λ h0, set_h_body_len (λ _, n) (set_h_is_post (λ _, is_post)
    (set_h_iframe_requested (λ _, has_prefix (str "/iframe") (url_left (hr_url h))) h0))) w2 H2) as (K1 & _ & K3 & _).
  { by apply (so_reader _ _ _ _ _ H2). }
  { intros h0. split; [done|]. split; [done|]. by left. }
  cbn [fst snd]. split; [done|]. split; [exact K1|]. intros s. rewrite K3. intros Hs2 x. rewrite K3. by apply (Hu2 s).
Qed.

Lemma close_link c r d w : link d (qev_close c r w) = link d w.
Proof. by apply (upd_client_proj (λ cl, h_client (c_http cl))). Qed.

(** What is left when the headers have been read, or cannot be. *)
Definition headers_left (c : cid) (st : protocol_status) (w : world) : Prop :=
  match st with
  | PROT_OK => ok (Some c) w ∧ unpaired c w
  | _ => ok None w
  end.

Lemma close_ended c r w : ok (Some c) w → unpaired c w → ok None (qev_close c r w).
Proof.
  intros H Hu. pose proof (requesting_some c w (so_reader _ _ _ _ _ H c eq_refl)) as Hc.
  apply (end_ok c); [by apply close_ok|]. left. intros s. rewrite close_link. intros Hs x. rewrite close_link. by apply (Hu s).
Qed.

Lemma do_headers_http_ok c h w :
  ok (Some c) w → link c w = None → waiting c w = true →
  let r := _do_headers_http c h w in
  ok (Some c) r.2 ∧ unpaired c r.2 ∧ r.1 ≠ PROT_AGAIN.
Proof.
  intros H Hl Hw. unfold _do_headers_http. cbv zeta.
  assert (Hb : ∀ p n, let r := headers_body c h p n w in ok (Some c) r.2 ∧ unpaired c r.2 ∧ r.1 ≠ PROT_AGAIN).
  { intros p n. destruct (headers_body_ok c h p n w H Hl Hw) as (K1 & K2 & K3). cbv zeta. rewrite K1. done. }
  pose proof (requesting_some c w (so_reader _ _ _ _ _ H c eq_refl)) as Hc.
  destruct (hr_header h _) as [v|].
  - destruct (qev_safe_strtoull v); [apply Hb|]. split; [done|]. split; [by apply none_unpaired|done].
  - case_bool_decide; [|apply Hb]. cbn [fst snd]. split; [by apply close_ok|].
    split; [|done]. apply none_unpaired. by rewrite close_link.
Qed.

Lemma upgrade_ok c key w :
  ok None w → requesting c w → link c w = None → ok None (protocol_rfc6455_upgrade c key w).
Proof.
  intros H (cl & Hc & Hs & Hp) Hl. unfold protocol_rfc6455_upgrade, protocols_switch.
  apply stat_server; [set_solver|]. set (w1 := qev_write c (upgrade_response key) w).
  assert (H1 : ok None w1) by (apply plain_upd; [by eexists|by intros []|done]).
  set (cl1 := set_c_out (λ o, o ++ [OWrite (upgrade_response key)]) cl).
  assert (Hc1 : w_clients w1 !! c = Some cl1).
  { unfold w1, qev_write. by rewrite (upd_at c cl), decide_True. }
  assert (Hl1 : h_client (c_http cl) = None) by (unfold link in Hl; by rewrite Hc in Hl).
  set (f := set_c_prot (λ _, Some protocol_rfc6455)).
  assert (H2 : ok None (upd_client c f w1)).
  { apply (upd_ok None c cl1); [done..|].
    split; [done..|by exists protocol_rfc6455|done|by right; left|done|].
    split; simpl; [by rewrite Hs|by rewrite Hl1|]. intros _ _. set_solver. }
  apply (upd_ok None c (f cl1)); [done|by rewrite (upd_at c cl1), decide_True|].
  split; [done..|by right; left|done|].
  split; simpl; [by rewrite Hs|by rewrite Hl1|]. intros _ _. set_solver.
Qed.

Lemma headers_websocket_ok c h connection key w :
  ok (Some c) w → link c w = None → idle c w →
  let r := _do_headers_websocket c h connection key w in headers_left c r.1 r.2 ∧ r.1 ≠ PROT_FATAL.
Proof.
  intros H Hl Hi. unfold _do_headers_websocket. cbv zeta.
  pose proof (so_reader _ _ _ _ _ H c eq_refl) as Hq.
  pose proof (requesting_some c w Hq) as Hc.
  assert (Hrefuse : ∀ k st, k ∉ sub_stats →
    headers_left c PROT_OK (_send_error (Some c) st (stat_inc k w)).2 ∧ PROT_OK ≠ PROT_FATAL).
  { intros k st Hk. destruct (error_ok (Some c) c st (stat_inc k w)) as (K1 & K2 & _); [by apply stat_server|done|].
    split; [|done]. split; [done|by apply none_unpaired]. }
  destruct (_ || _); [apply Hrefuse; set_solver|]. destruct key as [key|]; [|apply Hrefuse; set_solver].
  destruct (_ || _); [apply Hrefuse; set_solver|]. cbn [fst snd headers_left].
  split; [|done]. apply upgrade_ok; [|done|done]. apply (end_ok c); [done|by right].
Qed.


Lemma http_headers_ok c used w :
  ok None w → requesting c w → idle c w →
  let r := http_headers c used w in headers_left c r.1.1 r.2.
Proof.
  intros H Hq Hi. unfold http_headers. cbv zeta. set (h := qev_http_request_parse _).
  destruct (_ && _); [done|]. pose proof (begin_ok c w H Hq) as H0.
  destruct (error_ok (Some c) c STATUS_200 w H0 (requesting_some c w Hq)) as (H1 & Hl1 & Hs1 & _).
  set (w1 := (_send_error (Some c) STATUS_200 w).2) in *.
  set (f := λ h0, set_h_keep_alive (λ _, stays_open h) (set_h_in_request (λ _, true) h0)).
  pose proof (requesting_steady (Some c) c w w1 Hs1 Hq) as Hq1.
  destruct (flags_ok (Some c) c f w1 H1 Hq1) as (H2 & Hq2 & Hl2 & _); [by intros h0; split; [|auto]|].
  set (w2 := upd_http c f w1) in *. rewrite <- (Hl2 c) in Hl1.
  assert (Hi2 : idle c w2 ∧ waiting c w2 = true).
  { destruct Hq1 as (cl1 & Hc1 & _). assert (Hc2 : w_clients w2 !! c = Some (set_c_http f cl1))
      by (unfold w2, upd_http; by rewrite (upd_at c cl1), decide_True).
    unfold idle, waiting. rewrite Hc2. split; [|done]. destruct Hq as (cl & Hc & _).
    destruct (steady_some _ w w1 c cl Hs1 Hc) as (cl1' & Hc1' & Es). rewrite Hc1 in Hc1'. injection Hc1' as <-.
    injection Es as _ _ _ _ _ Es. simpl. rewrite Es. unfold idle in Hi. by rewrite Hc in Hi. }
  destruct Hi2 as [Hi2 Hw2].
  match goal with |- context [let '(_, _) := ?t in _] => set (r := t) end.
  assert (Hr : headers_left c r.1.1 r.2 ∧ r.1.1 ≠ PROT_FATAL ∨ r.1.1 = PROT_FATAL ∧ ok (Some c) r.2 ∧ unpaired c r.2).
  { subst r. destruct (hr_ok h).
    - destruct (hr_header h HTTP_CHALLENGE_KEY) as [key|].
      + left. pose proof (headers_websocket_ok c h (hr_header h HTTP_CONNECTION) (Some key) w2 H2 Hl1 Hi2) as K.
        by destruct (_do_headers_websocket c h _ _ w2).
      + destruct (do_headers_http_ok c h w2 H2 Hl1 Hw2) as (K1 & K2 & K3).
        destruct (_do_headers_http c h w2) as [st w3]. cbn [fst snd] in *.
        destruct st; [by left|done|by right; split].
    - right. split; [done|]. split; [done|by apply none_unpaired]. }
  destruct r as [[st used'] w3]. cbn [fst snd] in Hr.
  destruct st; cbn [fst snd]; (destruct Hr as [[Hr Hn]|(Hn & Hr1 & Hr2)]; [|try done]); try done.
  by apply close_ended.
Qed.

(** The body, and what is done with it. *)
Lemma body_part_ok c used w :
  ok (Some c) w → unpaired c w → bytes_ok (rbuff c w) →
  let r := http_body_part c used w in room held r.2 → ok None r.2 ∧ (r.1.1 = PROT_OK → requesting c r.2 ∧ idle c r.2).
Proof.
  intros H Hu Hb. cbv zeta. intros Hroom.
  assert (Hr : room held w) by (eapply (room_reader held c); [exact (keep_http_body (reader c) c w used w (kept_refl _ w))|done]).
  clear Hroom. unfold http_body_part, rbuff in *.
  pose proof (so_reader _ _ _ _ _ H c eq_refl) as (cl & Hc & _). rewrite Hc in *.
  assert (He : ok None w) by (apply (end_ok c); [done|by left]).
  destruct (qev_safe_uadd _ _) as [len|]; [|done]. destruct (_ <? len); [done|]. cbn [fst snd].
  set (start := take _ _). assert (Hbs : bytes_ok start) by (by apply Forall_take, Forall_drop).
  pose proof (do_body_ok c start w H Hu Hr Hbs) as H1. set (w1 := _do_body c start w) in *.
  pose proof (so_reader _ _ _ _ _ H1 c eq_refl) as Hq1.
  destruct (flags_ok (Some c) c (set_h_body_len (λ _, 0)) w1 H1 Hq1) as (H2 & Hq2 & _).
  { intros h0. split; [done|]. split; [done|]. by left. }
  assert (Hi : idle c (upd_http c (set_h_body_len (λ _, 0)) w1)).
  { destruct Hq1 as (cl1 & Hc1 & _). unfold idle, upd_http. by rewrite (upd_at c cl1), decide_True. }
  split; [|done]. apply (end_ok c); [done|]. by right.
Qed.

Lemma inbox_rbuff c w : inbox_ok c w → bytes_ok (rbuff c w).
Proof. rewrite rbuff_inbox. by intros []. Qed.

Lemma touch_ok b c w : is_Some (w_clients w !! c) → ok b w → ok b (touch_send c w).
Proof. intros Hc. apply plain_upd; [done|by intros []]. Qed.

(** One round of HTTP. *)
Lemma http_route_ok c used w :
  ok None w → requesting c w → closing c w = false ∨ idle c w → inbox_ok c w → (used ≤ length (rbuff c w))%nat →
  let r := protocol_http_route c used w in room held r.2 → ok None r.2 ∧ (r.1.1 = PROT_OK → requesting c r.2 ∧ idle c r.2).
Proof.
  intros H Hq Hcl Hin Hu. cbv zeta. unfold protocol_http_route. pose proof Hq as (cl & Hc & Hs & Hp). rewrite Hc.
  set (w1 := touch_send c w). assert (H1 : ok None w1) by (by apply touch_ok; [by eexists|]).
  assert (Hk : rbs w w1) by (unfold w1; eauto with kept).
  assert (Hc1 : w_clients w1 !! c = Some (set_c_last_send (λ _, w_now w) cl))
    by (unfold w1, touch_send; by rewrite (upd_at c cl), decide_True).
  assert (Hq1 : requesting c w1) by (eexists; split; [exact Hc1|done]).
  pose proof (rbs_ok c w w1 Hk Hin) as Hin1. rewrite rbuff_inbox in Hu.
  assert (Hu1 : (used ≤ length (inbox c w1).1)%nat) by (by rewrite (Hk c)).
  set (r := if h_body_len (c_http cl) =? 0 then _ else _).
  assert (Hr : headers_left c r.1.1 r.2 ∧ inbox_ok c r.2).
  { subst r. destruct (Z.eqb_spec (h_body_len (c_http cl)) 0) as [E|E].
    - split; [|apply (http_headers_advanced c used w1 Hin1 Hu1)]. apply http_headers_ok; [done..|].
      unfold idle. rewrite Hc1. exact E.
    - split; [|done]. split; [by apply begin_ok|]. cbn [snd].
      assert (Hi : ¬ idle c w1) by (unfold idle; by rewrite Hc1).
      apply start_unpaired; [done..| |done]. destruct Hcl as [Hcl|Hcl]; cycle 1.
      { destruct Hi. unfold idle in *. rewrite Hc1. by rewrite Hc in Hcl. }
      rewrite <- Hcl. unfold closing. by rewrite Hc1, Hc. }
  assert (Hsome : is_Some (w_clients r.2 !! c)).
  { assert (Hk2 : reader c w1 r.2); [|apply (re_dom _ _ _ Hk2); by eexists].
    subst r. destruct (_ =? 0); [|by apply (frame_refl (R := reader c))].
    exact (keep_http_headers (reader c) c w1 used w1 (kept_refl _ w1)). }
  destruct r as [[st used'] w2]. cbn [fst snd] in *. destruct Hr as [Hr Hin2]. destruct Hsome as [cl2 Hc2].
  rewrite Hc2. destruct st; cbn [headers_left] in Hr; [|rewrite andb_false_r; done..].
  destruct Hr as [H2 Hu2]. pose proof (so_reader _ _ _ _ _ H2 c eq_refl) as (cl2' & Hc2' & _ & Hp2).
  rewrite Hc2 in Hc2'. injection Hc2' as <-. rewrite Hp2, !bool_decide_eq_true_2 by done. cbn [andb].
  intros Hroom. by apply body_part_ok; [| |by apply inbox_rbuff|].
Qed.

End Requests.
