(* ===== verification/Reading.v ===== *)
(** Reading keeps the invariant, from the first bytes of a connection to the
    last request in its buffer. *)
From Stdlib Require Import ZArith Lia String.
From stdpp Require Import functions base list gmap strings.
From S2P Require Import Prelude Types Libs Path EvsQuery State Callbacks Sub Apps ClientSub Config Raw WebSocket Poll Send Quiet Evs Broadcast Route Receive Http Keep Protocols Loop Handshake Steady Works Invariant Requests.

Section Reading.
Context {L : Libs} {C : Config} {A : Apps L} {LO : LibsOk L} {AS : AppsSound A}.
Context (held : holds) (tbl : gmap bytes event) (X : gset cid).

Abbreviation ok := (server_ok held tbl X).

(** ** One round *)

Lemma same_rbuff c b w : same prot_view w (set_rbuff c b w).
Proof. apply same_upd. by intros []. Qed.

(** Who speaks which protocol is none of the raw protocol's business. *)
Lemma raw_route_prot c used w : same prot_view w (protocol_raw_route c used w).2.
Proof.
  unfold protocol_raw_route. destruct (raw_extract _ _) as [| |event buf n]; [done..|].
  pose proof (keep_raw_handle (same prot_view) w c event (set_rbuff c buf w) _ (same_rbuff _ _ _)) as H.
  by destruct (protocol_raw_handle c event (set_rbuff c buf w)).
Qed.

Lemma ws_route_prot c used w : same prot_view w (protocol_rfc6455_route c used w).2.
Proof.
  unfold protocol_rfc6455_route, rfc6455_decode. destruct (_decode (rbuff c w) used) as [r buf].
  pose proof (same_rbuff c buf w) as H1. set (w1 := set_rbuff c buf w) in *.
  destruct r as [|[reason|]|len flen]; [exact H1| |exact H1|].
  - refine (frame_trans (R := same prot_view) _ _ _ H1 _). apply same_upd. by intros [].
  - set (buf2 := wr _ _ NUL). assert (H2 : same prot_view w (set_rbuff c buf2 w1))
      by exact (frame_trans (R := same prot_view) _ _ _ H1 (same_rbuff _ _ _)).
    pose proof (keep_raw_handle (same prot_view) w c (cstr (drop used buf2)) _ _ H2) as H.
    by destruct (protocol_raw_handle c _ (set_rbuff c buf2 w1)).
Qed.

(** A connection whose protocol is known; one that was told to close is not in
    the middle of a request. *)
Definition conversing (c : cid) (w : world) : Prop :=
  ∃ cl, w_clients w !! c = Some cl ∧ c_surrogate cl = false ∧ c_prot cl ≠ None ∧
    (c_prot cl = Some protocol_http → c_closing cl = false ∨ h_body_len (c_http cl) = 0).

Lemma conversing_same c w w' p cl :
  same prot_view w w' → w_clients w !! c = Some cl → c_surrogate cl = false → c_prot cl = Some p →
  p ≠ protocol_http → conversing c w'.
Proof.
  intros H Hc Hs Hp Hn. pose proof (H c) as E. unfold seen in E. rewrite Hc in E. simpl in E.
  destruct (w_clients w' !! c) as [cl'|] eqn:Hc'; simpl in E; injection E as E1 _ E3; [|by rewrite <- E1 in Hp].
  exists cl'. rewrite E1, E3, Hp. split; [done|]. split; [done|]. split; [done|]. by intros [= ->].
Qed.

Lemma conversing_upd c f w :
  (∀ cl, (c_surrogate (f cl), c_prot (f cl), c_closing (f cl), c_http (f cl)) =
    (c_surrogate cl, c_prot cl, c_closing cl, c_http cl)) →
  conversing c w → conversing c (upd_client c f w).
Proof.
  intros Hf (cl & Hc & H). exists (f cl). rewrite (upd_at c cl), decide_True by done. split; [done|].
  pose proof (Hf cl) as E. by injection E as -> -> -> ->.
Qed.

Lemma requesting_conversing c w : requesting c w → idle c w → conversing c w.
Proof. intros (cl & Hc & Hs & Hp) Hi. exists cl. rewrite Hp. unfold idle in Hi. rewrite Hc in Hi. auto. Qed.

Lemma prot_step_ok c used w :
  ok None w → conversing c w → inbox_ok c w → (used ≤ length (rbuff c w))%nat →
  let r := prot_step c used w in
  room held r.2 → ok None r.2 ∧ (r.1.1 = PROT_OK → conversing c r.2).
Proof.
  intros H Hq Hin Hu. cbv zeta. unfold prot_step. pose proof Hq as (cl & Hc & Hs & Hp & Hi). rewrite Hc.
  destruct (c_prot cl) as [p|] eqn:Ep; [|done].
  assert (Hl : p ≠ protocol_http → listener c w) by (intros Hn; exists cl; split; [done|]; by rewrite Ep, Hs; split; [|intros [= ->]]).
  pose proof (inbox_rbuff c w Hin) as Hb.
  destruct p; cbn [prot_route].
  - intros Hr. destruct (http_route_ok held tbl X c used w H) as [K1 K2]; [by exists cl| |done..|].
    { unfold closing, idle. rewrite Hc. by apply Hi. }
    split; [done|]. intros Hst. by apply requesting_conversing; apply K2.
  - done.
  - intros Hr. split.
    + apply raw_route_ok; [done|by apply Hl| |done..].
      eapply (room_reader held c); [exact (keep_raw_route (reader c) c w used w (kept_refl _ w))|done].
    + intros _. by eapply conversing_same; [apply raw_route_prot|done..].
  - intros Hr. split.
    + apply ws_route_ok; [done|by apply Hl| |done..].
      eapply (room_reader held c); [exact (keep_ws_route (reader c) c w used w (kept_refl _ w))|done].
    + intros _. by eapply conversing_same; [apply ws_route_prot|done..].
Qed.

Lemma step_reader c used w : reader c w (prot_step c used w).2.
Proof.
  unfold prot_step. change (kept (reader c) w (match w_clients w !! c with
    | None => (PROT_FATAL, used, fault w) | Some cl => match c_prot cl with
      | None => (PROT_FATAL, used, fault w) | Some p => match prot_route p with
         | Some route => route c used w | None => (PROT_FATAL, used, w) end end end).2).
  destruct (w_clients w !! c) as [cl|]; [|eauto with kept]. destruct (c_prot cl) as [[]|]; cbn [prot_route]; [|eauto with kept| | |eauto with kept].
  - exact (keep_http_route (reader c) c w used w (kept_refl _ w)).
  - exact (keep_raw_route (reader c) c w used w (kept_refl _ w)).
  - exact (keep_ws_route (reader c) c w used w (kept_refl _ w)).
Qed.

(** ** The loop *)

Lemma loop_reader fuel c used w used' w' : route_loop fuel c used w = Some (used', w') → reader c w w'.
Proof.
  revert used w. induction fuel as [|fuel IH]; intros used w; [done|]. cbn [route_loop].
  pose proof (step_reader c used w) as Hs. destruct (prot_step c used w) as [[st used1] w1]. cbn [snd] in Hs.
  assert (Hk : ∀ w2, kept (reader c) w1 w2 → reader c w w2) by (intros w2; by apply (frame_trans (R := reader c))).
  destruct st.
  - case_match.
    + intros E. apply IH in E. refine (frame_trans (R := reader c) _ _ _ _ E). apply Hk. eauto with kept.
    + intros [= _ <-]. apply Hk. eauto with kept.
  - intros [= _ <-]. apply Hk. eauto with kept.
  - intros [= _ <-]. apply Hk. eauto with kept.
Qed.

(** Times and outputs are free. *)
Lemma recv_ok b c w : is_Some (w_clients w !! c) → ok b w → ok b (touch_recv c w).
Proof. intros Hc. apply plain_upd; [done|by intros []]. Qed.
Lemma clear_ok b c w : is_Some (w_clients w !! c) → ok b w → ok b (qev_timeout_clear c w).
Proof. intros Hc. apply plain_upd; [done|by intros []]. Qed.
Lemma timeout_ok b c w : is_Some (w_clients w !! c) → ok b w → ok b (qev_timeout c w).
Proof. intros Hc. apply plain_upd; [done|by intros []]. Qed.

Lemma route_loop_ok fuel c used w used' w' :
  ok None w → conversing c w → inbox_ok c w → (used ≤ length (rbuff c w))%nat →
  route_loop fuel c used w = Some (used', w') → room held w' → ok None w'.
Proof.
  revert used w. induction fuel as [|fuel IH]; intros used w H Hq Hin Hu; [done|]. cbn [route_loop].
  pose proof (step_reader c used w) as Hs. pose proof (prot_step_ok c used w H Hq Hin Hu) as Hok.
  assert (Hc : is_Some (w_clients w !! c)) by (destruct Hq as (cl & -> & _); eauto).
  rewrite rbuff_inbox in Hu. destruct (step_advanced c used w Hin Hu) as [A1 A2 A3 A4].
  destruct (prot_step c used w) as [[st used1] w1]. cbn [fst snd] in *.
  pose proof (re_dom _ _ _ Hs c Hc) as Hc1.
  destruct st.
  - set (w2 := qev_timeout_clear c (touch_recv c w1)). assert (Hk : reader c w1 w2).
    { change (kept (reader c) w1 w2). subst w2. eauto with kept. }
    assert (Hrb : rbs w1 w2) by (subst w2; eauto with kept).
    assert (H2 : room held w1 → ok None w2 ∧ conversing c w2).
    { intros Hr. destruct (Hok Hr) as [K1 K2]. split.
      - apply clear_ok, recv_ok; [|done..]. apply (re_dom c w1); [|done].
        change (kept (reader c) w1 (touch_recv c w1)). eauto with kept.
      - subst w2. by do 2 (apply conversing_upd; [by intros []|]); apply K2. }
    destruct (Nat.ltb_spec used1 (length (rbuff c w2))) as [Hlt|Hge].
    + intros E Hr. pose proof (loop_reader _ _ _ _ _ _ E) as Hlr.
      destruct H2 as [K1 K2]; [by eapply room_reader, room_reader|].
      apply (IH used1 w2); try done; [by eapply rbs_ok|]. lia.
    + intros [= _ <-] Hr. by apply H2; eapply room_reader.
  - intros [= _ <-] Hr. assert (Hk : reader c w1 (qev_timeout c w1)).
    { change (kept (reader c) w1 (qev_timeout c w1)). eauto with kept. }
    apply timeout_ok; [done|]. by apply Hok; eapply room_reader.
  - intros [= _ <-] Hr. assert (Hk : reader c w1 (qev_close c QIO_CLOSE_UNKNOWN_ERROR w1)).
    { change (kept (reader c) w1 (qev_close c QIO_CLOSE_UNKNOWN_ERROR w1)). eauto with kept. }
    apply close_ok; [done|]. by apply Hok; eapply room_reader.
Qed.


Lemma conversing_some c w : conversing c w → is_Some (w_clients w !! c).
Proof. intros (cl & -> & _). eauto. Qed.

Lemma erase_reader c used w : reader c w (erase c used w).
Proof.
  unfold erase. case_match; [|by apply (frame_world (R := reader c))]. apply reader_upd. by left.
Qed.

Lemma route_reader c w w' : _route c w = Some w' → reader c w w'.
Proof.
  unfold _route. destruct (route_loop _ _ _ _) as [[used w1]|] eqn:E; [|done]. intros [= <-].
  apply loop_reader in E. exact (frame_trans (R := reader c) _ _ _ E (erase_reader c used w1)).
Qed.

Lemma route_ok c w w' :
  ok None w → conversing c w → inbox_ok c w → _route c w = Some w' → room held w' → ok None w'.
Proof.
  intros H Hq Hin. unfold _route.
  destruct (route_loop_ends (S (length (rbuff c w))) c 0 w Hin) as (used & w1 & E & Hu & _); [lia|rewrite rbuff_inbox; lia|].
  rewrite E. intros [= <-] Hr. pose proof (loop_reader _ _ _ _ _ _ E) as Hk.
  assert (Hr1 : room held w1) by (eapply room_reader; [apply (erase_reader c used)|done]).
  pose proof (route_loop_ok _ c 0 w used w1 H Hq Hin ltac:(lia) E Hr1) as H1.
  unfold erase. rewrite rbuff_inbox, (proj2 (Nat.leb_le _ _)) by done.
  apply rbuff_ok; [|done]. eapply re_dom; [exact Hk|]. by apply conversing_some.
Qed.

(** ** Everything that is read *)

Lemma protocols_route_reader c w w' : protocols_route c w = Some w' → reader c w w'.
Proof.
  unfold protocols_route.
  assert (H1 : reader c w (touch_recv c w)) by (apply reader_upd; by left).
  set (w1 := touch_recv c w) in *. destruct (w_clients w1 !! c) as [cl|]; [|by intros [= <-]].
  match goal with |- context [let '(_, _) := ?t in _] => set (r := t) end.
  assert (H2 : reader c w r.2).
  { subst r. destruct (c_prot cl); [done|]. unfold _find_handler.
    refine (frame_trans (R := reader c) _ _ _ H1 _).
    destruct (find_loop _ _ _) as [p|[]]; cbn [snd]; try (apply reader_upd; by left).
    apply (frame_refl (R := reader c)). }
  destruct r as [found w2]. cbn [snd] in H2.
  assert (Hr : ∀ w3, reader c w2 w3 → ∀ w', _route c w3 = Some w' → reader c w w').
  { intros w3 H3 w4 E. apply route_reader in E. refine (frame_trans (R := reader c) _ _ _ H2 _).
    exact (frame_trans (R := reader c) _ _ _ H3 E). }
  assert (Hown : ∀ f w3, reader c w2 w3 → reader c w2 (upd_client c f w3)).
  { intros f w3 H3. refine (frame_trans (R := reader c) _ _ _ H3 _). apply reader_upd. by left. }
  assert (Hself : reader c w2 w2) by apply (frame_refl (R := reader c)).
  assert (Hst : ∀ k w3, reader c w2 w3 → reader c w2 (stat_inc k w3)).
  { intros k w3 H3. refine (frame_trans (R := reader c) _ _ _ H3 _). by apply (frame_world (R := reader c)). }
  destruct found; [|by intros [= <-]]. cbn [negb]. destruct (negb (c_handshaked cl)); [|by apply Hr].
  destruct (w_clients w2 !! c) as [cl2|]; [|by intros [= <-]].
  destruct (c_prot cl2 ≫= prot_handshake) as [h|] eqn:Eh; [|apply Hr; unfold _set_handshaked, touch_send, qev_timeout_clear; auto].
  intros [= <-]. refine (frame_trans (R := reader c) _ _ _ H2 _).
  assert (Hh : reader c w2 (h c w2).2).
  { destruct (c_prot cl2) as [[]|]; simplify_eq/=.
    - unfold protocol_flash_handshake, qev_write, qev_close, set_rbuff. cbn [snd]. auto 10.
    - unfold protocol_raw_handshake, qev_write, set_rbuff. cbn [snd]. auto 10.
    - unfold protocol_rfc6455_handshake, rfc6455_decode, protocol_raw_check_handshake, qev_close, set_rbuff, qev_write.
      repeat case_match; simplify_eq/=; auto 10. }
  unfold _handshake. destruct (h c w2) as [st w3]. cbn [snd] in Hh.
  unfold _set_handshaked, touch_send, qev_timeout_clear, qev_close. destruct st; auto 10.
Qed.

(** Greetings and handshakes change the client in ways that are harmless. *)
Lemma greeted_harmless c cl now g w :
  ok None w → w_clients w !! c = Some cl → c_surrogate cl = false → c_prot cl = None → c_handshaked cl = false →
  harmless None c cl (greeted g now cl).
Proof.
  intros H Hc Hs Hp Hh. destruct (so_client _ _ _ _ _ H c cl Hc) as [K1 K2 K3].
  assert (Hl : h_client (c_http cl) = None) by (destruct (h_client (c_http cl)); [by rewrite K2 in Hp|done]).
  destruct g; (split; simpl; rewrite ?Hs, ?Hp, ?Hh; try done; eauto; split; simpl; rewrite ?Hs, ?Hp, ?Hh, ?Hl; try done;
    intros _ ?; first [done|set_solver]).
Qed.

Lemma upgraded_harmless c cl now r w :
  ok None w → w_clients w !! c = Some cl → c_surrogate cl = false → c_prot cl = Some protocol_rfc6455 →
  c_handshaked cl = false → harmless None c cl (upgraded r now cl).
Proof.
  intros H Hc Hs Hp Hh. destruct (so_client _ _ _ _ _ H c cl Hc) as [K1 K2 K3].
  assert (Hl : h_client (c_http cl) = None) by (destruct (h_client (c_http cl)); [by rewrite K2 in Hp|done]).
  unfold upgraded. destruct r as [[|[reason|]|len flen] buf]; [| | |case_bool_decide];
    (split; simpl; rewrite ?Hs, ?Hp, ?Hh; try done; eauto; split; simpl; rewrite ?Hs, ?Hp, ?Hh, ?Hl; try done;
      intros _ ?; first [done|set_solver]).
Qed.

Lemma greeting_stat_ok g b w : ok b w → ok b (greeting_stat g w).
Proof. intros H. destruct g; simpl; try done; apply stat_server; set_solver. Qed.

Lemma upgrade_stat_ok r b w : ok b w → ok b (upgrade_stat r w).
Proof.
  intros H. unfold upgrade_stat. destruct r as [[] buf]; try done.
  case_bool_decide; apply stat_server; set_solver.
Qed.

Lemma protocols_route_ok c w w' :
  ok None w → is_Some (w_clients w !! c) → inbox_ok c w → is_surrogate c w = false → closing c w = false →
  protocols_route c w = Some w' → room held w' → ok None w'.
Proof.
  intros H [cl Hc] Hin Hs Hcl. unfold is_surrogate, closing in Hs, Hcl. rewrite Hc in Hs, Hcl.
  pose proof (so_client _ _ _ _ _ H c cl Hc) as [_ _ K3].
  destruct (c_handshaked cl) eqn:Hh.
  - destruct (eo_prot _ _ (so_ok _ _ _ _ _ H) c cl Hc Hh) as (p & Hp & _).
    unfold protocols_route. assert (E : w_clients (touch_recv c w) !! c = Some (heard (w_now w) cl)).
    { unfold touch_recv. by rewrite (upd_at c cl), decide_True. }
    rewrite E. change (c_prot (heard (w_now w) cl)) with (c_prot cl). rewrite Hp.
    change (c_handshaked (heard (w_now w) cl)) with (c_handshaked cl). rewrite Hh. cbn [negb].
    apply route_ok; [apply recv_ok; [by eexists|done]| |].
    + exists (heard (w_now w) cl). split; [done|]. split; [done|]. simpl. rewrite Hp. auto.
    + apply (rbs_ok c w); [eauto with kept|done].
  - specialize (K3 eq_refl Hcl). apply elem_of_cons in K3 as [Hp|Hp].
    + rewrite (greeting_done c cl w Hc Hp Hh). set (g := greets (c_rbuff cl)).
      set (w1 := greeting_stat g (upd_client c (greeted g (w_now w)) w)).
      assert (H1 : ok None w1).
      { apply greeting_stat_ok, (upd_ok held tbl X None c cl); [done..|]. by eapply greeted_harmless. }
      destruct g eqn:Eg; try by intros [= <-].
      apply route_ok; [done|..].
      * exists (greeted Requests (w_now w) cl). unfold w1. simpl. rewrite (upd_at c cl), decide_True by done. auto.
      * apply (rbs_ok c w); [|done]. unfold w1. simpl. apply (same_upd inbox_view). by intros [].
    + apply list_elem_of_singleton in Hp. rewrite (upgrade_done c cl w Hc Hp Hh).
      intros [= <-] _. apply upgrade_stat_ok, (upd_ok held tbl X None c cl); [done..|]. by eapply upgraded_harmless.
Qed.

End Reading.
