(* ===== verification/Upkeep.v ===== *)
(** What quick-event calls besides reading keeps the invariant: the tick, the
    periodic tasks, closing and freeing; and so do the messages of
    applications. *)
From Stdlib Require Import ZArith Lia String.
From stdpp Require Import functions base list gmap strings.
From S2P Require Import Prelude Types Libs Path EvsQuery State Callbacks Sub Apps ClientSub Config Raw WebSocket Poll Send Quiet Evs Broadcast Route Receive Http Keep Protocols Loop Handshake Steady Works Invariant Requests Reading.

Section Upkeep.
Context {L : Libs} {C : Config} {A : Apps L} {LO : LibsOk L} {AS : AppsSound A}.
Context (held : holds) (tbl : gmap bytes event) (X : gset cid).

Abbreviation ok := (server_ok held tbl X).

(** ** Messages of the server's own *)

Lemma write_ok b c m w : is_Some (w_clients w !! c) → ok b w → ok b (qev_write c m w).
Proof. intros Hc. apply plain_upd; [done|by intros []]. Qed.
Lemma sent_ok b c w : is_Some (w_clients w !! c) → ok b w → ok b (touch_send c w).
Proof. intros Hc. apply plain_upd; [done|by intros []]. Qed.

Lemma cb_new_ok b c f d fr w :
  is_Some (w_clients w !! c) → ok b w → ok b (client_cb_new (Some c) f d fr w).2.
Proof.
  intros [cl Hc] H. apply (quiet_server held tbl X b w); [| |done].
  - destruct f as [f|]; [by eapply cb_new_quiet; [apply H|]|]. unfold client_cb_new. apply data_free_quiet.
  - exact (keep_cb_new local w (Some c) f d fr w (kept_refl _ w)).
Qed.

Lemma addressee_kept b c w w' :
  same prot_view w w' → steady b w w' → addressee c w → addressee c w'.
Proof.
  intros Hp Hs (cl & Hc & Ha). destruct (steady_some b w w' c cl Hs Hc) as (cl' & Hc' & E).
  exists cl'. split; [done|]. by injection E as -> -> _ _ _ _.
Qed.

Lemma bruteforce_ok b c p x y j f d fr w :
  ok b w → addressee c w → ok b (evs_send_bruteforce c p x y j f d fr w).
Proof.
  intros H Ha. unfold evs_send_bruteforce. pose proof Ha as (cl & Hc & _).
  pose proof (cb_new_ok b c f d fr w ltac:(by eexists) H) as H1.
  pose proof (keep_cb_new (steady b) w (Some c) f d fr w (kept_refl _ w)) as Hs.
  pose proof (keep_cb_new (same prot_view) w (Some c) f d fr w (kept_refl _ w)) as Hp.
  destruct (client_cb_new (Some c) f d fr w) as [server_cb w1]. cbn [snd] in *.
  assert (Ha1 : addressee c w1) by (by eapply addressee_kept).
  apply stat_server; [set_solver|]. set (path := evs_make_path p x y).
  pose proof (protocols_send_spec c path (Some []) server_cb (JSON_OR_NULL j) w1
    (eo_poll _ _ (so_ok _ _ _ _ _ H1)) (eo_prot _ _ (so_ok _ _ _ _ _ H1)) Ha1) as He.
  apply (polled_server held tbl X b w1); [by eapply em_polled| |done].
  exact (keep_protocols_send (steady b) w1 c path (Some []) server_cb (JSON_OR_NULL j) w1 _ (kept_refl _ w1)).
Qed.

(** ** Periodic tasks *)

Lemma sweep_quiet p c cl w l : w_clients w !! c = Some cl → quiet w (foldl (sweep p c) w l).
Proof.
  intros Hc. pose proof (sweep_all p c cl w l Hc) as [S _]. eapply quiet_cb; [exact S|].
  clear S Hc. revert w. induction l as [|i l IH]; intros w k Hk; [done|]. cbn [foldl]. rewrite IH by done.
  unfold sweep. destruct (cb_slot c i w); [|done]. case_match; [|done]. by apply cb_free_stats.
Qed.

Lemma prune_ok b c before w : is_Some (w_clients w !! c) → ok b w → ok b (client_cb_prune c before w).
Proof.
  intros [cl Hc] H. apply (quiet_server held tbl X b w); [| |done].
  - unfold client_cb_prune. rewrite Hc, prune_sweep. by eapply sweep_quiet.
  - exact (keep_prune local w c before w (kept_refl _ w)).
Qed.

Lemma raw_heartbeat_ok b c cl hb m w :
  ok b w → w_clients w !! c = Some cl → c_prot cl ≠ Some protocol_http → ok b (protocol_raw_do_heartbeat c hb m w).
Proof.
  intros H Hc Hp. unfold protocol_raw_do_heartbeat. rewrite Hc.
  destruct (_ <? _); [apply close_ok; [by eexists|done]|].
  destruct (_ <? _); [apply bruteforce_ok; [done|by exists cl]|].
  destruct (_ <? _); [|done]. assert (Hs : is_Some (w_clients w !! c)) by (by eexists).
  apply sent_ok; [|by apply write_ok]. unfold qev_write. by rewrite upd_client_dom.
Qed.

Lemma heartbeat_ok b c hb w : ok b w → is_Some (w_clients w !! c) → ok b (protocols_heartbeat c hb w).
Proof.
  intros H [cl Hc]. unfold protocols_heartbeat. rewrite Hc. destruct (c_handshaked cl) eqn:Hh; [|done].
  destruct (eo_prot _ _ (so_ok _ _ _ _ _ H) c cl Hc Hh) as (p & Hp & Hf). rewrite Hp.
  destruct p; cbn [prot_heartbeat]; [|done|..].
  - destruct (http_heartbeat_spec c cl hb w (eo_poll _ _ (so_ok _ _ _ _ _ H)) Hc) as [Hpo _].
    apply (polled_server held tbl X b w); [done| |done].
    exact (keep_http_heartbeat (steady b) w c hb w (kept_refl _ w)).
  - apply (raw_heartbeat_ok b c cl); [done..|by rewrite Hp].
  - apply (raw_heartbeat_ok b c cl); [done..|by rewrite Hp].
Qed.


(** ** Frames of the calls of quick-event *)

Section Frames.
Context (R : world → world → Prop) {F : Frame R} {U : Unlinks R} {AV : AppsSee R A}
  {S : ∀ w c, SendOk R w c}.

Lemma keep_heartbeat w c hb w1 : kept R w w1 → kept R w (protocols_heartbeat c hb w1).
Proof.
  intros H. unfold protocols_heartbeat. destruct (w_clients w1 !! c) as [cl|]; [|by apply kept_fault].
  destruct (c_handshaked cl); [|done]. destruct (c_prot cl) as [[]|]; cbn [prot_heartbeat]; [|done|..|by apply kept_fault].
  - exact (keep_http_heartbeat R w c hb w1 H).
  - exact (keep_raw_heartbeat R w c hb _ w1 (S _ _) H).
  - exact (keep_raw_heartbeat R w c hb _ w1 (S _ _) H).
Qed.

Lemma keep_periodic w order w1 : kept R w w1 → kept R w (periodic_run order w1).
Proof.
  unfold periodic_run. generalize (protocols_heartbeat_get_intervals w1), (client_cb_prune_get_before cfg_clients_cb_max_age w1).
  intros hb cb. revert w1. induction order as [|c order IH]; intros w1 H; cbn [foldl]; [done|].
  apply IH. unfold _foreach_cb. exact (keep_prune R w c cb _ (keep_heartbeat w c hb w1 H)).
Qed.

Lemma keep_close_surrogate w c cl reason w1 :
  w_clients w1 !! c = Some cl → c_surrogate cl = true →
  kept R w (set_w_tables (alter (delete (h_sid (c_http cl))) (Z.to_nat (h_tbl (c_http cl)))) w1) →
  kept R w (protocol_http_close c reason w1).
Proof.
  intros Hc Hs H. unfold protocol_http_close. rewrite Hc, Hs. set (w2 := set_w_tables _ w1) in *.
  pose proof (keep_steal R w c w2 H) as H3. destruct (_steal_client c w2) as [client w3]. cbn [snd] in H3.
  refine (kept_stat R _ _ _ _ _). exact (keep_unref_opt R w client _ (keep_error R w client STATUS_403 w3 H3)).
Qed.

Lemma keep_close_poller w c cl reason w1 :
  w_clients w1 !! c = Some cl → c_surrogate cl = false → kept R w w1 → kept R w (protocol_http_close c reason w1).
Proof.
  intros Hc Hs H. unfold protocol_http_close. rewrite Hc, Hs.
  pose proof (keep_steal R w c w1 H) as H3. destruct (_steal_client c w1) as [client w3]. cbn [snd] in H3.
  set (w4 := match reason with HTTP_BAD_REQUEST => _ | _ => _ end).
  assert (H4 : kept R w w4) by (subst w4; destruct reason; first [exact H3|by apply keep_error]).
  destruct client as [s|]; [|done]. unfold qev_unref, qev_close. eauto with kept.
Qed.

Context (HB : ∀ f w, R w (set_w_broadcasts f w)).

Lemma keep_broadcast_one w bc w1 : kept R w w1 → kept R w (broadcast_one bc w1).
Proof.
  intros H. unfold broadcast_one. destruct (w_subs w1 !! bc.1) as [sub|]; [|by apply kept_fault].
  set (fs := protocols_bcast _ _). refine (kept_stat R _ _ _ _ _). refine (keep_sub_unref R _ _ _ _).
  generalize (qev_list_items (subscribers sub)). intros l. revert w1 H.
  induction l as [|c l IH]; intros w1 H; cbn [foldl]; [done|]. apply IH. refine (kept_stat R _ _ _ _ _).
  exact (keep_bcast_write R w c fs w1 (S _ _) H).
Qed.

Lemma keep_tick w w' : evs_broadcast_tick w = Some w' → kept R w w'.
Proof.
  unfold evs_broadcast_tick. generalize (length (w_broadcasts w)) as n. intros n.
  pose proof (kept_refl R w) as H. revert H. generalize w at 2 3. induction n as [|n IH]; intros w1 H; cbn [broadcast_loop].
  - destruct (w_broadcasts w1); [|done]. by intros [= <-].
  - destruct (w_broadcasts w1) as [|bc q]; [by intros [= <-]|]. apply IH, keep_broadcast_one.
    exact (kept_then R _ _ _ (HB _ _) H).
Qed.

Lemma keep_broadcast w ev ox j w1 : kept R w w1 → kept R w (evs_broadcast ev ox j w1).
Proof.
  intros H. unfold evs_broadcast. pose proof (keep_sub_get R w ev ox false w1 H) as H1.
  destruct (sub_get ev ox false w1) as [[s|] w2]; cbn [snd] in H1; [|done]. exact (kept_then R _ _ _ (HB _ _) H1).
Qed.

End Frames.

Lemma steady_queue b f w : steady b w (set_w_broadcasts f w).
Proof. by split; [| |left|..]. Qed.

Lemma steady_dom b w w' c : steady b w w' → is_Some (w_clients w !! c) → is_Some (w_clients w' !! c).
Proof. intros H [cl Hc]. destruct (steady_some b w w' c cl H Hc) as (cl' & -> & _). by eexists. Qed.

Lemma now_ok b f w : ok b w → ok b (set_w_now f w).
Proof. intros [O E Fa P K Li S I D R]. destruct O as [O1 O2 O3 O4 O5 O6]. split; try done. split; try done; [by destruct O1|by apply (csub_wf_same _ w)]. Qed.

Lemma periodic_ok b order w :
  ok b w → Forall (λ c, is_Some (w_clients w !! c)) order → ok b (periodic_run order w).
Proof.
  unfold periodic_run. generalize (protocols_heartbeat_get_intervals w), (client_cb_prune_get_before cfg_clients_cb_max_age w).
  intros hb cb. revert w. induction order as [|c order IH]; intros w H Ho; cbn [foldl]; [done|].
  apply Forall_cons in Ho as [Hc Ho]. unfold _foreach_cb at 2.
  pose proof (keep_heartbeat (steady b) w c hb w (kept_refl _ w)) as Hs.
  pose proof (heartbeat_ok b c hb w H Hc) as H1. set (w1 := protocols_heartbeat c hb w) in *.
  assert (Hc1 : is_Some (w_clients w1 !! c)) by (by eapply steady_dom).
  pose proof (keep_prune (steady b) w c cb w1 Hs) as Hs2. apply IH; [by apply prune_ok|].
  eapply Forall_impl; [exact Ho|]. intros d Hd. by eapply steady_dom.
Qed.

(** ** The tick and broadcasts *)

Lemma tick_ok w : ok None w → ∃ w', evs_broadcast_tick w = Some w' ∧ ok None w'.
Proof.
  intros H. destruct (broadcast_loop_done (h_subs held) (w_broadcasts w) w eq_refl (so_ok _ _ _ _ _ H))
    as (w' & E & _ & Hq & Hok & _ & Hf & Hst & Hsp).
  { intros c s Hs. apply (so_listener _ _ _ _ _ H c s). by rewrite Hs. }
  exists w'. split; [exact E|].
  pose proof (keep_tick (steady None) (steady_queue None) w w' E) as Hk.
  apply (steady_kept held tbl X None w); try done.
  - rewrite Hq. eapply evs_ok_eq; [|exact Hok]. done.
  - intros d s. rewrite Hst. by left.
Qed.

Lemma broadcast_ok ev ox j w : ok None w → room held w → ok None (evs_broadcast ev ox j w).
Proof.
  intros H Hr. destruct (evs_broadcast_done (h_subs held) ev ox j w (so_ok _ _ _ _ _ H)) as (H1 & H2 & H3 & _).
  { intros s. pose proof (room_refs held tbl X None w H Hr s). lia. }
  apply (steady_kept held tbl X None w); [done| |by apply calm_fault|done|by intros d; apply calm_spare|].
  - exact (keep_broadcast (steady None) (steady_queue None) w ev ox j w (kept_refl _ w)).
  - intros d s. rewrite H3. by left.
Qed.

(** ** Closing *)

Lemma close_sub_mild c s cs w ext :
  csub_wf ext w → _sub_get c s w = Some cs → mild w (close_sub c w s).
Proof.
  intros Hwf Hcs. destruct (cw_alloc ext w Hwf c s cs Hcs) as [sub Hs].
  destruct (sub_get_client c s cs w Hcs) as (cl & m & Hc & _). unfold close_sub.
  assert (M : mild w (upd_client c (set_c_subs (fmap (delete s))) w)).
  { apply mild_upd; [by eexists|by intros []]. }
  etrans; [exact M|]. apply cleanup_mild; [rewrite upd_client_dom; by eexists|].
  rewrite (upd_client_Some c _ cl) by done. by eexists.
Qed.

Lemma close_subs_mild c order w ext :
  csub_wf ext w → NoDup order → (∀ s, s ∈ order → is_Some (_sub_get c s w)) →
  mild w (foldl (close_sub c) w order).
Proof.
  revert w. induction order as [|s order IH]; intros w Hwf Hnd Hin; cbn [foldl]; [done|].
  apply NoDup_cons in Hnd as [Hs Hnd]. destruct (Hin s) as [cs Hcs]; [by left|].
  etrans; [by eapply close_sub_mild|].
  destruct (close_sub_done ext c s cs w Hwf Hcs) as (H1 & H2 & _). apply IH; [done..|].
  intros x Hx. rewrite H2, decide_False by (intros [_ ->]; done). apply Hin. by right.
Qed.

(** [client_closed] keeps the invariant and ends all the subscriptions of [c]. *)
Lemma client_closed_ok c w :
  ok None w → is_Some (w_clients w !! c) →
  let w' := client_closed c w in
  ok None w' ∧ calm w w' ∧ ∀ s, status c s w' = Absent.
Proof.
  intros H [cl Hc] w'. pose proof (so_ok _ _ _ _ _ H) as [O1 O2 O3 O4 O5 O6].
  assert (Ew : w' = client_closed_in (held_subs cl) c w) by (unfold w', client_closed; by rewrite Hc).
  destruct (closed_in_done _ c cl (held_subs cl) w O4 Hc (Permutation_refl _)) as (H1 & H2 & H3 & H4 & H5).
  rewrite <- Ew in H1, H2, H3, H4, H5.
  assert (M : mild w w').
  { rewrite Ew. unfold client_closed_in. rewrite Hc. destruct (c_subs cl) eqn:Es; [|done].
    assert (M1 : mild w (foldl (close_sub c) w (held_subs cl))).
    { eapply close_subs_mild; [exact O4|apply NoDup_fst_map_to_list|]. intros s Hs. rewrite sub_get_eq, Hc. simpl.
      unfold held_subs in Hs. apply list_elem_of_fmap in Hs as ([k cs] & -> & Hs). apply elem_of_map_to_list in Hs.
      by eexists. }
    etrans; [exact M1|]. apply mild_upd; [|by intros []]. apply (calm_dom c w); [apply M1|by eexists]. }
  assert (Hg : ∀ d s, d ≠ c → _sub_get d s w' = _sub_get d s w).
  { intros d s Hd. rewrite !sub_get_eq. specialize (H5 d Hd).
    destruct (w_clients w' !! d), (w_clients w !! d); try done. simpl in *. unfold subs_of. by injection H5 as ->. }
  assert (Hs : steady None w w') by exact (keep_client_closed (steady None) w c w (kept_refl _ w)).
  assert (Hlo : local w w') by exact (keep_client_closed local w c w (kept_refl _ w)).
  assert (Hq : w_broadcasts w' = w_broadcasts w) by (by injection Hlo).
  assert (Hst : ∀ s, status c s w' = Absent) by (intros s; unfold status; by rewrite H4).
  split; [|split; [apply M|done]]. apply (steady_kept held tbl X None w); [done|done|done| |intros d; apply calm_spare, M|].
  - rewrite Hq. split; [eapply calm_poll; [apply M|done]|eapply calm_prot; [apply M|done]|by eapply mild_cbs_wf|done|..].
    + intros d s. destruct (decide (d = c)) as [->|Hd]; [by rewrite H4|]. by rewrite Hg.
    + intros d dl Hd. destruct (decide (d = c)) as [->|Hne]; [by rewrite Hd in H3; injection H3 as ->|].
      specialize (H5 d Hne). rewrite Hd in H5. destruct (w_clients w !! d) as [dl0|] eqn:E; [|done].
      injection H5 as -> _. by apply (O6 d).
  - intros d s Hd. left. destruct (decide (d = c)) as [->|Hne]; [by rewrite Hst in Hd|].
    unfold status in *. by rewrite <- Hg.
Qed.

Lemma untable_ok b sid i w : ok b w → ok b (set_w_tables (alter (delete sid) i) w).
Proof.
  intros Hok. pose proof Hok as [O E F P K Li S I D R]. destruct O as [O1 O2 O3 O4 O5 O6]. split; try done.
  - split; try done; [by destruct O1|by apply (csub_wf_same _ w)].
  - intros j t x y. simpl. intros Ht Hy. destruct (decide (j = i)) as [->|Hi].
    + rewrite list_lookup_alter_eq in Ht. destruct (w_tables w !! i) as [t0|] eqn:E0; [|done].
      injection Ht as <-. apply lookup_delete_Some in Hy as [_ Hy]. by eapply S.
    + rewrite list_lookup_alter_ne in Ht by done. by eapply S.
Qed.

Definition untabled (c : cid) (w : world) : Prop :=
  ∀ i t sid, w_tables w !! i = Some t → t !! sid ≠ Some c.

Lemma client_untabled b c w : ok b w → is_surrogate c w = false → untabled c w.
Proof.
  intros H Hs i t sid Ht E. destruct (so_session _ _ _ _ _ H i t sid c Ht E) as (_ & sl & Hc & Hsl & _).
  unfold is_surrogate in Hs. rewrite Hc in Hs. congruence.
Qed.

(** The close function of [c]'s protocol. *)
Lemma protocols_closed_ok c r w :
  ok None w → closing c w = true →
  let w' := protocols_closed c r w in
  ok None w' ∧ closing c w' = true ∧ link c w' = None ∧ untabled c w'.
Proof.
  intros H Hcl. unfold protocols_closed. destruct (w_clients w !! c) as [cl|] eqn:Hc; cycle 1.
  { unfold closing in Hcl. by rewrite Hc in Hcl. }
  pose proof (so_client _ _ _ _ _ H c cl Hc) as [K1 K2 _].
  assert (Hsome : is_Some (w_clients w !! c)) by (by eexists).
  assert (Hcl2 : c_closing cl = true) by (unfold closing in Hcl; by rewrite Hc in Hcl).
  assert (Hother : c_prot cl ≠ Some protocol_http → ok None w ∧ closing c w = true ∧ link c w = None ∧ untabled c w).
  { intros Hp. split; [done|]. split; [done|]. unfold link. rewrite Hc. simpl. split.
    - destruct (h_client (c_http cl)); [by destruct Hp, K2|done].
    - apply (client_untabled None); [done|]. unfold is_surrogate. rewrite Hc.
      destruct (c_surrogate cl); [by destruct Hp, K1|done]. }
  pose proof (eo_poll _ _ (so_ok _ _ _ _ _ H)) as Hwf.
  destruct (c_prot cl) as [[]|]; cbn [mbind option_bind prot_close]; try (by apply Hother).
  - assert (HT : ∀ f w1, is_surrogate c (set_w_tables f w1) = is_surrogate c w1) by done.
    destruct (c_surrogate cl) eqn:Hsurr.
    + set (w0 := set_w_tables (alter (delete (h_sid (c_http cl))) (Z.to_nat (h_tbl (c_http cl)))) w).
      assert (H0 : ok None w0) by (by apply untable_ok).
      destruct (surrogate_close_spec c cl r w Hwf Hc Hsurr) as [(w1 & Ew & Hpo) [Hl _]]. fold w0 in Hpo.
      assert (Hs : steady None w0 w1).
      { pose proof (keep_close_surrogate (steady None) w0 c cl r w Hc Hsurr (kept_refl _ w0)) as Hs.
        rewrite Ew in Hs. destruct Hs as [S1 S2 S3 S4 S5]. by split. }
      assert (H1 : ok None w1) by (by apply (polled_server held tbl X None w0)).
      rewrite Ew in Hl |- *. split; [by apply stat_server; [set_solver|]|].
      split; [by apply (st_closing _ _ _ Hs)|]. split; [done|].
      intros i t sid. change (w_tables (stat_inc http_surrogates_closed w1)) with (w_tables w1).
      rewrite (st_tables _ _ _ Hs). simpl. intros Ht E.
      assert (Hold : ∃ t0, w_tables w !! i = Some t0 ∧ t0 !! sid = Some c ∧
        (i = Z.to_nat (h_tbl (c_http cl)) → sid ≠ h_sid (c_http cl))).
      { destruct (decide (i = Z.to_nat (h_tbl (c_http cl)))) as [->|Hi].
        - rewrite list_lookup_alter_eq in Ht. destruct (w_tables w !! _) as [t0|]; [|done].
          injection Ht as <-. apply lookup_delete_Some in E as [E1 E2]. exists t0. auto.
        - rewrite list_lookup_alter_ne in Ht by done. exists t. done. }
      destruct Hold as (t0 & T1 & T2 & T3). destruct (so_session _ _ _ _ _ H i t0 sid c T1 T2) as (_ & sl & Hsl & _ & S1 & S2).
      rewrite Hc in Hsl. injection Hsl as <-. by apply T3.
    + destruct (poller_close_spec c cl r w Hwf Hc Hsurr Hcl2) as (Hpo & Hl & _).
      assert (Hs : steady None w (protocol_http_close c r w))
        by exact (keep_close_poller (steady None) w c cl r w Hc Hsurr (kept_refl _ w)).
      assert (H1 : ok None (protocol_http_close c r w)) by (by apply (polled_server held tbl X None w)).
      split; [done|]. split; [by apply (st_closing _ _ _ Hs)|]. split; [done|].
      apply (client_untabled None); [done|]. rewrite (steady_surrogate None w) by done.
      unfold is_surrogate. by rewrite Hc.
  - unfold protocol_rfc6455_close. destruct Hother as (O1 & O2 & O3 & O4); [done|].
    assert (Hf : ∀ {Y} (proj : client → Y) z, (∀ x o, proj (set_c_out o x) = proj x) →
      match w_clients (qev_write c (close_frame r) w) !! c with Some x => proj x | None => z end =
      match w_clients w !! c with Some x => proj x | None => z end).
    { intros Y proj z Hp. by apply (upd_field proj z c cl). }
    split; [by apply write_ok|]. split; [by rewrite <- O2; apply (Hf _ c_closing)|].
    split; [by rewrite <- O3; apply (Hf _ (λ x, h_client (c_http x)))|].
    intros i t sid. unfold qev_write. rewrite (upd_client_Some c _ cl) by done. apply O4.
Qed.

End Upkeep.

Section Leaving.
Context {L : Libs} {C : Config} {A : Apps L} {LO : LibsOk L} {AS : AppsSound A}.
Context (held : holds) (tbl : gmap bytes event).

(** [qev_on_close]: the client is closed, and waits for its last reference. *)
Lemma on_close_ok X c r w :
  server_ok held tbl X None w → closing c w = true → server_ok held tbl ({[c]} ∪ X) None (qev_on_close c r w).
Proof.
  intros H Hcl. unfold qev_on_close.
  assert (Hc : is_Some (w_clients w !! c)) by (unfold closing in Hcl; destruct (w_clients w !! c); [by eexists|done]).
  pose proof (clear_ok held tbl X None c w Hc H) as H0.
  assert (Hcl0 : closing c (qev_timeout_clear c w) = true).
  { rewrite <- Hcl. apply (upd_client_proj c_closing). by intros []. }
  set (w0 := qev_timeout_clear c w) in *.
  destruct (protocols_closed_ok held tbl X c r w0 H0 Hcl0) as (H1 & Hcl1 & Hl1 & Hu1).
  set (w1 := protocols_closed c r w0) in *.
  assert (Hc1 : is_Some (w_clients w1 !! c)) by (unfold closing in Hcl1; destruct (w_clients w1 !! c); [by eexists|done]).
  destruct (client_closed_ok held tbl X c w1 H1 Hc1) as (H2 & Hcalm & Hst).
  pose proof (keep_client_closed local w1 c w1 (kept_refl _ w1)) as Hlo. set (w2 := client_closed c w1) in *.
  assert (Ht : w_tables w2 = w_tables w1) by (by injection Hlo).
  destruct H2 as [O E F P K Li S I D R]. split; try done.
  - intros i t sid s T1 T2. destruct (S i t sid s T1 T2) as [Hx Hs]. split; [|done].
    rewrite Ht in T1. intros Hin. apply elem_of_union in Hin as [->%elem_of_singleton|]; [|done].
    by eapply Hu1.
  - intros d Hd. apply elem_of_union in Hd as [->%elem_of_singleton|Hd]; [|by apply D].
    split; [by rewrite (calm_closing c w1)|]. split; [by rewrite (calm_link c w1)|done].
Qed.

(** Who is linked has the reference of the link. *)
Lemma link_counted X c d w : server_ok held tbl X None w → link d w = Some c → c_refs <$> w_clients w !! c ≠ Some 0.
Proof.
  intros H Hl Hr. pose proof (so_spare _ _ _ _ _ H c) as Hs. unfold spare in Hs.
  destruct (w_clients w !! c) as [cl|]; [|done]. injection Hr as Hr. rewrite Hr in Hs.
  assert (Hn : links c w = 0%nat) by lia. unfold links in Hn. apply nil_length_inv in Hn.
  assert (Hin : c ∈ filter (.= c) (map_items linked (w_clients w))).
  { apply list_elem_of_filter. split; [done|]. apply map_items_elem. unfold link in Hl.
    destruct (w_clients w !! d) as [dl|] eqn:E; [|done]. exists d, dl. split; [done|]. simpl in Hl.
    unfold linked. rewrite Hl. by left. }
  rewrite Hn in Hin. by apply elem_of_nil in Hin.
Qed.

(** A client that is closed leaves when no reference is left. *)
Lemma drop_ok X c w :
  server_ok held tbl X None w → c ∈ X → c_refs <$> w_clients w !! c = Some 0 →
  server_ok held tbl (X ∖ {[c]}) None (set_w_clients (delete c) w).
Proof.
  intros H HX Hrefs. set (w' := set_w_clients (delete c) w).
  assert (Hno : ∀ d, link d w ≠ Some c) by (intros d Hl; by apply (link_counted X c d w H Hl)).
  destruct (so_closed _ _ _ _ _ H c HX) as (Hcl & Hlc & Hst).
  pose proof H as [O E F P K Li S I D R T]. destruct (w_clients w !! c) as [cl|] eqn:Hc; [|done].
  injection Hrefs as Hrefs.
  assert (Hat : ∀ d, w_clients w' !! d = if decide (d = c) then None else w_clients w !! d).
  { intros d. simpl. rewrite lookup_delete. repeat case_decide; congruence. }
  assert (Hne : ∀ d, d ≠ c → w_clients w' !! d = w_clients w !! d) by (intros d Hd; by rewrite Hat, decide_False).
  assert (Hl : ∀ d, link d w' = link d w).
  { intros d. unfold link. rewrite Hat. case_decide; [|done]. subst. unfold link in Hlc. by rewrite Hlc. }
  assert (Hpeer : ∀ d e, link d w = Some e → d ≠ c ∧ e ≠ c).
  { intros d e He. split; intros ->; [congruence|by apply (Hno d)]. }
  assert (Hnone : ∀ s, _sub_get c s w = None).
  { intros s. specialize (Hst s). unfold status in Hst. destruct (_sub_get c s w) as [cs|]; [|done].
    simpl in Hst. by destruct (pending cs), (tombstone cs). }
  assert (Hsubs : subs_of cl = ∅).
  { apply map_empty. intros s. specialize (Hnone s). rewrite sub_get_eq, Hc in Hnone. done. }
  assert (Hg : ∀ d s, _sub_get d s w' = _sub_get d s w).
  { intros d s. destruct (decide (d = c)) as [->|Hd]; [|by unfold _sub_get; rewrite Hne].
    rewrite Hnone. unfold _sub_get. by rewrite Hat, decide_True. }
  assert (Hst' : ∀ d s, status d s w' = status d s w) by (intros d s; unfold status; by rewrite Hg).
  assert (Hlinks : ∀ d, links d w' = links d w).
  { intros d. unfold links. pose proof (map_items_delete linked (w_clients w) c cl Hc) as Hm.
    unfold linked at 1 in Hm. unfold link in Hlc. rewrite Hc in Hlc. simpl in Hlc. rewrite Hlc in Hm. simpl in Hm.
    unfold w'. simpl. by rewrite Hm. }
  destruct O as [[P1 P2 P3] O2 O3 O4 O5 O6].
  assert (Hsd : ∀ d, d ≠ c → is_surrogate d w' = is_surrogate d w) by (intros d Hd; unfold is_surrogate; by rewrite Hne).
  split; try done.
  - split.
    + split.
      * intros d e. rewrite Hl. intros He. destruct (Hpeer d e He) as [D1 D2]. rewrite !Hsd, Hne by done. by apply P1.
      * intros d e. rewrite Hl. intros He H1. destruct (Hpeer d e H1) as [D1 D2]. rewrite Hsd in He by done.
        unfold waiting. rewrite Hne by done. by eapply P2.
      * intros s p. rewrite !Hl. intros Hs Hcs He. destruct (Hpeer s p He) as [D1 D2].
        rewrite Hsd in Hs by done. unfold closing, waiting in *. rewrite !Hne in * by done. by apply P3.
    + intros d dl. rewrite Hat. case_decide; [done|]. apply O2.
    + intros d dl. rewrite Hat. case_decide; [done|]. apply O3.
    + apply (csub_wf_same _ w); try done. unfold all_subs. simpl.
      rewrite <- (map_items_delete held_subs (w_clients w) c cl Hc). unfold held_subs at 2.
      by rewrite Hsubs, map_to_list_empty.
    + intros d s. by rewrite Hg.
    + intros d dl. rewrite Hat. case_decide; [done|]. apply O6.
  - intros d. pose proof (P d) as Hd. unfold spare in Hd |- *. rewrite Hlinks, Hat. case_decide; [|done]. subst.
    rewrite Hc, Hrefs in Hd. done.
  - intros d dl. rewrite Hat. case_decide; [done|]. apply K.
  - intros d s. rewrite Hst'. intros Hd. destruct (decide (d = c)) as [->|Hne']; [by rewrite Hst in Hd|].
    destruct (Li d s Hd) as (dl & Hdl & Hx). exists dl. by rewrite Hne.
  - intros i t sid s T1 T2. destruct (S i t sid s T1 T2) as (Hx & sl & Hs & Hy). split; [set_solver|].
    exists sl. rewrite Hne; [done|]. by intros ->.
  - intros s p. rewrite !Hl. intros Hs H1 H2 Hp. destruct (Hpeer s p H1) as [D1 D2]. rewrite Hsd in Hs by done.
    unfold idle. rewrite Hne by done. by apply (I s p).
  - intros d Hd. apply elem_of_difference in Hd as [Hd Hdc]. rewrite elem_of_singleton in Hdc.
    destruct (D d Hd) as (D1 & D2 & D3). split; [|split; [by rewrite Hl|intros s; by rewrite Hst']].
    unfold closing. by rewrite Hne.
  - intros d Hd. destruct (decide (d = c)) as [->|Hdc].
    + exfalso. pose proof (P c) as Hp. unfold spare in Hp. rewrite Hc, Hrefs in Hp. lia.
    + destruct (T d Hd) as (dl & Hdl & Hx). exists dl. by rewrite Hne.
Qed.

Lemma data_quiet c f w : is_Some (w_clients w !! c) → quiet w (upd_client c (set_c_data f) w).
Proof.
  intros [cl Hc]. assert (M : mild w (upd_client c (set_c_data f) w)) by (apply mild_upd; [by eexists|by intros []]).
  split; [apply M| |by apply mild_cbs_wf]. rewrite (upd_client_Some c _ cl) by done. split; try done.
  intros d. simpl. rewrite lookup_insert. case_decide; [|done]. subst. by rewrite Hc.
Qed.

(** [qev_client_free], when nobody refers to the client. *)
Lemma free_ok X c w :
  server_ok held tbl X None w → c ∈ X → c_refs <$> w_clients w !! c = Some 0 →
  server_ok held tbl (X ∖ {[c]}) None (qev_client_free c w).
Proof.
  intros H HX Hrefs. destruct (w_clients w !! c) as [cl|] eqn:Hc; [|done].
  unfold qev_client_free.
  assert (Hq : quiet w (client_free_all c w)).
  { unfold client_free_all. rewrite free_sweep.
    pose proof (sweep_quiet (λ _, true) c cl w (seq 0 N_CBS) Hc) as Hq. etrans; [exact Hq|].
    apply data_quiet. apply (calm_dom c w); [apply Hq|by eexists]. }
  apply drop_ok; [|done|].
  - apply (quiet_server held tbl X None w); [done| |done]. exact (keep_free_all local w c w (kept_refl _ w)).
  - pose proof (calm_at c w _ (qu_calm _ _ Hq)) as E. rewrite Hc in E.
    destruct (w_clients (client_free_all c w) !! c) as [cl'|]; [|done]. apply (inj Some) in E.
    apply (f_equal c_refs) in E. simpl in *. congruence.
Qed.

End Leaving.
