(* ===== verification/Server.v ===== *)
(** The whole server: the calls that quick-event and the applications make, in
    any order, and what holds after all of them. *)
From Stdlib Require Import ZArith Lia String.
From stdpp Require Import functions base list gmap strings relations.
From S2P Require Import Prelude Types Libs Path EvsQuery State Callbacks Sub Apps ClientSub Config Raw WebSocket Poll Send Quiet Evs Broadcast Route Receive Http Keep Protocols Startup ClientTest Loop Handshake Steady Works Invariant Requests Reading Upkeep.

Section Server.
Context {L : Libs} {C : Config} {A : Apps L} {LO : LibsOk L} {AS : AppsSound A}.

(** ** The steps *)

(** A connection that quick-event reads from. *)
Definition live (c : cid) (w : world) : Prop :=
  is_Some (w_clients w !! c) ∧ is_surrogate c w = false ∧ closing c w = false.

(** [data] arrives, after what is in the buffer. *)
Definition received (c : cid) (data : bytes) (w : world) : world := set_rbuff c (rbuff c w ++ data) w.

Definition fits (c : cid) (data : bytes) (w : world) : Prop :=
  bytes_ok data ∧ Z.of_nat (length (rbuff c w ++ data)) < 2 ^ 64.

(** What applications call about a client at any time: from timers, threads of
    their own, or other applications. *)
Inductive app_call (c : cid) (w : world) : world → Prop :=
  | ac_send ev_prefix ev_path ev_extra json fn data free_fn :
      app_call c w (evs_send_bruteforce c ev_prefix ev_path ev_extra json fn data free_fn w)
  | ac_send_event ev ev_extra json fn data free_fn :
      app_call c w (evs_send_full c ev ev_extra json fn data free_fn w)
  | ac_cb client_cb code err_msg json fn data free_fn :
      app_call c w (evs_cb_full c client_cb code err_msg json fn data free_fn w)
  | ac_off ev ev_extra : listener c w → app_call c w (evs_off c ev (Some ev_extra) w)
  | ac_set key val : app_call c w (client_set c key val w)
  | ac_del key : app_call c w (client_del c key w).

Lemma app_call_works ext c w w' :
  evs_ok ext w → addressee c w → roomy 9 ext w → app_call c w w' → works ext w w'.
Proof.
  intros Hok Ha Hr H. assert (Hc : is_Some (w_clients w !! c)) by (destruct Ha as (cl & -> & _); eauto).
  destruct H.
  - by apply bruteforce_works.
  - apply send_full_works; [done|done|]. by eapply roomy_le; [|exact Hr].
  - by apply cb_full_works.
  - by apply off_works.
  - by apply client_set_works.
  - by apply client_del_works.
Qed.

(** The state: the clients that are closed, but not yet freed; what the
    applications hold, which is copies of [evs_on_info] and clients; and the
    world. *)
Record server := mkServer {
  closed : gset cid;
  copies : list evs_on_info;
  pins : list cid;
  core : world;
}.

Definition holding (I : list evs_on_info) (H : list cid) : holds :=
  mkHolds (λ s, uses s (info_sub <$> I)) (λ c, (uses c (info_client <$> I) + uses c H)%nat).

(** A client is opened at a free address, closed once, after it was told to,
    and freed when no reference is left; it is read from until it is told to
    close. An application that has been asked whether a client may subscribe
    may keep a copy of what it was asked, answer later, and send to who
    subscribed, until it lets go of the copy. *)
Inductive step : server → server → Prop :=
  | step_open c X I H w :
      w_clients w !! c = None →
      step (mkServer X I H w)
        (mkServer X I H (qev_on_open c (set_w_clients <[c := qev_client_new false]> w)))
  | step_read c data X I H w w' :
      live c w → fits c data w → qev_on_read c (received c data w) = Some w' → room (holding I H) w' →
      step (mkServer X I H w) (mkServer X I H w')
  | step_tick X I H w w' : qev_on_tick w = Some w' → step (mkServer X I H w) (mkServer X I H w')
  | step_periodic now order X I H w :
      Forall (λ c, is_Some (w_clients w !! c)) order →
      step (mkServer X I H w) (mkServer X I H (periodic_run order (set_w_now (λ _, now) w)))
  | step_shut c reason X I H w :
      is_Some (w_clients w !! c) → step (mkServer X I H w) (mkServer X I H (qev_close c reason w))
  | step_close c reason X I H w :
      closing c w = true → c ∉ X →
      step (mkServer X I H w) (mkServer ({[c]} ∪ X) I H (qev_on_close c reason w))
  | step_free c X I H w :
      c ∈ X → c_refs <$> w_clients w !! c = Some 0 →
      step (mkServer X I H w) (mkServer (X ∖ {[c]}) I H (qev_client_free c w))
  | step_broadcast ev ev_extra json X I H w :
      room (holding I H) w → step (mkServer X I H w) (mkServer X I H (evs_broadcast ev ev_extra json w))
  | step_call c X I H w w' :
      addressee c w → room (holding I H) w → app_call c w w' →
      step (mkServer X I H w) (mkServer X I H w')
  | step_copy info with_ev_extra with_json X I H w :
      listener (info_client info) w → is_Some (w_subs w !! info_sub info) →
      room (holding I H) w →
      let r := evs_on_info_copy info with_ev_extra with_json w in
      step (mkServer X I H w) (mkServer X (r.1 :: I) H r.2)
  | step_answer success info X I H w :
      info ∈ I → room (holding I H) w →
      (success = true → status (info_client info) (info_sub info) w ≠ Active) →
      step (mkServer X I H w) (mkServer X I H (evs_on_cb success info w))
  | step_send info json fn data free_fn X I H w :
      info ∈ I → step (mkServer X I H w) (mkServer X I H (evs_send_info_full info json fn data free_fn w))
  | step_let_go info X I I' H w :
      I ≡ₚ info :: I' → step (mkServer X I H w) (mkServer X I' H (evs_on_info_free info w))
  | step_ref c X I H H' w :
      listener c w → H' ≡ₚ c :: H → step (mkServer X I H w) (mkServer X I H' (qev_ref c w))
  | step_unref c X I H H' w :
      H ≡ₚ c :: H' → step (mkServer X I H w) (mkServer X I H' (qev_unref c w)).

(** ** The invariant *)

Context (tbl : gmap bytes event).

Definition inboxes_ok (w : world) : Prop := ∀ c, inbox_ok c w.

Record sound (s : server) : Prop := {
  sn_server : server_ok (holding (copies s) (pins s)) tbl (closed s) None (core s);
  sn_inboxes : inboxes_ok (core s);
}.

Lemma fresh_inbox c w : w_clients w !! c = None → inbox_ok c w.
Proof. intros Hc. split; unfold seen; rewrite Hc; simpl; [constructor|lia|lia]. Qed.

Lemma started_sound events f seed now :
  represents tbl events → qev_fair_used f = 0 → sound (mkServer ∅ [] [] (started events f seed now)).
Proof.
  intros He Hf. set (w := started events f seed now).
  assert (Hn : ∀ c, w_clients w !! c = None) by (intros c; apply lookup_empty).
  split; [|intros c; by apply fresh_inbox]. split; try done.
  - intros i t sid s Ht. apply lookup_replicate in Ht as [-> _]. by rewrite lookup_empty.
Qed.

(** ** The invariant is kept *)

Lemma rbs_all w w' : rbs w w' → inboxes_ok w → inboxes_ok w'.
Proof. intros H Hi c. by apply (rbs_ok c w). Qed.

Lemma open_sound c X I H w :
  w_clients w !! c = None → sound (mkServer X I H w) →
  sound (mkServer X I H (qev_on_open c (set_w_clients <[c := qev_client_new false]> w))).
Proof.
  intros Hc [Hok Hi]. simpl in *. set (w1 := set_w_clients <[c := qev_client_new false]> w).
  assert (H1 : server_ok (holding I H) tbl X None w1).
  { apply fresh_server; [done| |done]. split; try done; [apply client_new_cbs_ok|]. split; try done.
    intros _ _. set_solver. }
  assert (Hi1 : inboxes_ok w1).
  { intros d. destruct (Hi d) as [I1 I2 I3]. unfold w1.
    assert (E : inbox d (set_w_clients <[c := qev_client_new false]> w) = inbox d w).
    { unfold seen. simpl. rewrite lookup_insert. case_decide; [|done]. subst. by rewrite Hc. }
    split; by rewrite E. }
  unfold qev_on_open. assert (Hc1 : w_clients w1 !! c = Some (qev_client_new false)) by apply lookup_insert_eq.
  rewrite Hc1. simpl. split; simpl.
  - apply timeout_ok; [by eexists|done].
  - apply (rbs_all w1); [|done]. unfold qev_timeout. eauto with kept.
Qed.

Lemma received_ok c data w : inboxes_ok w → fits c data w → inboxes_ok (received c data w).
Proof.
  intros Hi [Hb Hl] d. destruct (Hi d) as [I1 I2 I3]. unfold received. rewrite rbuff_inbox in *.
  assert (E : ∃ b, inbox d (set_rbuff c ((inbox c w).1 ++ data) w) = (b, (inbox d w).2) ∧
    bytes_ok b ∧ Z.of_nat (length b) < 2 ^ 64).
  { unfold set_rbuff, seen in *. rewrite upd_client_at. case_decide; [subst|].
    - destruct (w_clients w !! c) as [cl|]; eexists; (split; [done|]); [|done].
      split; [|done]. by apply Forall_app.
    - eexists. done. }
  destruct E as (b & E & E1 & E2). split; rewrite E; done.
Qed.

Lemma read_sound c data X I H w w' :
  live c w → fits c data w → qev_on_read c (received c data w) = Some w' → room (holding I H) w' →
  sound (mkServer X I H w) → sound (mkServer X I H w').
Proof.
  intros (Hc & Hs & Hcl) Hf E Hr [Hok Hi]. simpl in *. pose proof (received_ok c data w Hi Hf) as Hi1.
  assert (H1 : server_ok (holding I H) tbl X None (received c data w)) by (by apply rbuff_ok).
  assert (Hp : ∀ {Y} (proj : client → Y) z, (∀ x o, proj (set_c_rbuff o x) = proj x) →
    match w_clients (received c data w) !! c with Some x => proj x | None => z end =
    match w_clients w !! c with Some x => proj x | None => z end).
  { intros Y proj z Hpr. destruct Hc as [cl Hc]. by apply (upd_field proj z c cl). }
  unfold qev_on_read in E. split; simpl.
  - apply (protocols_route_ok (holding I H) tbl X c (received c data w)); try done.
    + unfold received, set_rbuff. by rewrite upd_client_dom.
    + rewrite <- Hs. by apply (Hp _ c_surrogate).
    + rewrite <- Hcl. by apply (Hp _ c_closing).
  - destruct (protocols_route_ends c (received c data w) (Hi1 c)) as (w2 & E2 & Hc2).
    rewrite E in E2. injection E2 as <-. intros d. destruct (decide (d = c)) as [->|Hd]; [done|].
    pose proof (re_inbox _ _ _ (protocols_route_reader c _ _ E) d Hd) as Ed.
    destruct (Hi1 d) as [I1 I2 I3]. by split; rewrite Ed.
Qed.

Lemma same_queue f w : same inbox_view w (set_w_broadcasts f w).
Proof. by apply same_clients. Qed.

Lemma closed_same c r w : same inbox_view w (qev_on_close c r w).
Proof.
  unfold qev_on_close. set (w0 := qev_timeout_clear c w).
  assert (H0 : kept (same inbox_view) w w0) by (subst w0; eauto with kept).
  assert (H1 : kept (same inbox_view) w (protocols_closed c r w0)).
  { unfold protocols_closed. destruct (w_clients w0 !! c) as [cl|] eqn:Hc; [|exact (kept_fault (same inbox_view) _ _ H0)].
    destruct (c_prot cl) as [[]|]; cbn [mbind option_bind prot_close]; try done.
    - destruct (c_surrogate cl) eqn:Hs.
      + refine (keep_close_surrogate (same inbox_view) w c cl r w0 Hc Hs _).
        refine (kept_then (same inbox_view) w w0 _ _ H0). by apply same_clients.
      + exact (keep_close_poller (same inbox_view) w c cl r w0 Hc Hs H0).
    - unfold protocol_rfc6455_close. eauto with kept. }
  exact (keep_client_closed (same inbox_view) w c _ H1).
Qed.

Lemma free_inboxes c w : inboxes_ok w → inboxes_ok (qev_client_free c w).
Proof.
  intros Hi. unfold qev_client_free. pose proof (keep_free_all (same inbox_view) w c w (kept_refl _ w)) as H.
  apply (rbs_all _ _ H) in Hi. intros d. destruct (Hi d) as [I1 I2 I3].
  destruct (decide (d = c)) as [->|Hd]; [apply fresh_inbox; apply lookup_delete_eq|].
  assert (E : inbox d (set_w_clients (delete c) (client_free_all c w)) = inbox d (client_free_all c w)).
  { unfold seen. simpl. by rewrite lookup_delete_ne. }
  by split; rewrite E.
Qed.

(** ** What applications hold *)

Lemma uses_in s l : s ∈ l → uses s l ≠ 0%nat.
Proof.
  intros Hs E. unfold uses in E. apply nil_length_inv in E.
  assert (H : s ∈ filter (λ x, x = s) l) by (by apply list_elem_of_filter). rewrite E in H. by apply not_elem_of_nil in H.
Qed.

Lemma uses_perm s l l' : l ≡ₚ l' → uses s l = uses s l'.
Proof. intros E. unfold uses. by rewrite E. Qed.

Lemma worked_sound X I H w w' :
  works (λ s, (h_subs (holding I H) s + queued (w_broadcasts w) s)%nat) w w' →
  sound (mkServer X I H w) → sound (mkServer X I H w').
Proof.
  intros Hw [Hok Hi]. split; simpl; [by apply (works_server (holding I H) tbl X None w)|].
  apply (rbs_all w); [|done]. apply (ta_inbox _ _ (wk_tame _ _ _ Hw)).
Qed.

(** One copy more. *)
Lemma holding_sub i I I' H s :
  I' ≡ₚ i :: I →
  h_subs (holding I' H) s = ((if decide (info_sub i = s) then 1 else 0) + h_subs (holding I H) s)%nat.
Proof. intros E. simpl. by rewrite (uses_perm s (_ <$> I') (info_sub <$> i :: I)), fmap_cons, uses_cons by (by rewrite E). Qed.

Lemma holding_client i I I' H d :
  I' ≡ₚ i :: I →
  h_clients (holding I' H) d = ((if decide (info_client i = d) then 1 else 0) + h_clients (holding I H) d)%nat.
Proof.
  intros E. simpl. rewrite (uses_perm d (_ <$> I') (info_client <$> i :: I)), fmap_cons, uses_cons by (by rewrite E). lia.
Qed.

(** Who is held is there. *)
Lemma copied_sub X I H w info :
  sound (mkServer X I H w) → info ∈ I → is_Some (w_subs w !! info_sub info).
Proof.
  intros [Hok _] Hin. apply (cw_ext _ _ (eo_csub _ _ (so_ok _ _ _ _ _ Hok))). simpl.
  assert (uses (info_sub info) (info_sub <$> I) ≠ 0%nat) by (by apply uses_in, list_elem_of_fmap_2). lia.
Qed.

Lemma held_listens X I H w c :
  sound (mkServer X I H w) → h_clients (holding I H) c ≠ 0%nat → listener c w.
Proof. intros [Hok _]. apply (so_held _ _ _ _ _ Hok). Qed.

Lemma held_client X I H w c :
  sound (mkServer X I H w) → h_clients (holding I H) c ≠ 0%nat → is_Some (w_clients w !! c).
Proof. intros S Hn. apply listener_some. by eapply held_listens. Qed.

Lemma copied_held I H info : info ∈ I → h_clients (holding I H) (info_client info) ≠ 0%nat.
Proof.
  intros Hin. simpl.
  assert (uses (info_client info) (info_client <$> I) ≠ 0%nat) by (by apply uses_in, list_elem_of_fmap_2). lia.
Qed.

Lemma copied_client X I H w info :
  sound (mkServer X I H w) → info ∈ I → is_Some (w_clients w !! info_client info).
Proof. intros S Hin. by apply (held_client X I H w _ S), copied_held. Qed.

Lemma copied_addressee X I H w info :
  sound (mkServer X I H w) → info ∈ I → addressee (info_client info) w.
Proof. intros S Hin. by apply listener_addressee, (held_listens X I H w _ S), copied_held. Qed.

Lemma copy_sound info we wj X I H w :
  listener (info_client info) w → is_Some (w_subs w !! info_sub info) → room (holding I H) w →
  sound (mkServer X I H w) →
  sound (mkServer X ((evs_on_info_copy info we wj w).1 :: I) H (evs_on_info_copy info we wj w).2).
Proof.
  intros Hlis Hs Hr [Hok Hi]. cbn [core] in *. pose proof Hlis as (cl & Hc & _). unfold evs_on_info_copy. cbn [fst snd].
  set (w1 := qev_ref (info_client info) w). set (i := mkInfo _ _ _ _ _).
  set (h1 := mkHolds (h_subs (holding I H)) (h_clients (holding (i :: I) H))).
  assert (H1 : server_ok h1 tbl X None w1).
  { apply (refs_server (holding I H) tbl h1 X None _ cl); [done|done| | |done].
    2: { intros d. cbn [h1 h_clients]. rewrite (holding_client i I (i :: I)) by done. case_decide as Hd; [|by left].
         subst d. by right. }
    intros d. cbn [h1 h_clients]. rewrite (holding_client i I (i :: I)) by done. simpl. repeat case_decide; subst; lia. }
  assert (Hq : w_broadcasts w1 = w_broadcasts w ∧ w_subs w1 = w_subs w ∧ size (w_clients w1) = size (w_clients w)).
  { unfold w1, qev_ref. rewrite (upd_client_Some _ _ cl) by done. simpl.
    split; [done|]. split; [done|]. by apply map_size_insert_Some. }
  destruct Hq as (Hq & Hs1 & Hz).
  assert (Hr1 : room h1 w1) by (intros s; rewrite Hz, Hq; apply Hr).
  pose proof (ref_works _ (info_sub info) w1 (so_ok _ _ _ _ _ H1) (roomy_le 9 2 _ w1 ltac:(lia) (room_roomy _ w1 Hr1))
    ltac:(by rewrite Hs1)) as Hw.
  apply (works_eq _ (λ s, (h_subs (holding (i :: I) H) s + queued (w_broadcasts w1) s)%nat)) in Hw; cycle 1.
  { intros s. rewrite ext_inc_at, (holding_sub i I (i :: I)) by done. simpl. case_decide; lia. }
  split; cbn [core closed copies pins].
  - apply (works_holds h1 tbl _ X None w1); [exact Hw|done|exact H1].
  - apply (rbs_all w1); [apply (ta_inbox _ _ (wk_tame _ _ _ Hw))|].
    apply (rbs_all w); [unfold w1, qev_ref; eauto with kept|done].
Qed.

Lemma answer_works success info X I H w :
  info ∈ I → room (holding I H) w →
  (success = true → status (info_client info) (info_sub info) w ≠ Active) → sound (mkServer X I H w) →
  works (λ s, (h_subs (holding I H) s + queued (w_broadcasts w) s)%nat) w (evs_on_cb success info w).
Proof.
  intros Hin Hr Hst S. pose proof (copied_addressee X I H w info S Hin) as Ha. destruct (copied_sub X I H w info S Hin) as [sub Hsub].
  eapply (on_cb_works _ success info sub w); [apply S|done|done| | |done].
  - simpl. assert (uses (info_sub info) (info_sub <$> I) ≠ 0%nat) by (by apply uses_in, list_elem_of_fmap_2). lia.
  - pose proof (room_refs _ _ _ _ w (sn_server _ S) Hr (info_sub info)) as H1. unfold sub_refs in H1.
    cbn [core] in H1. rewrite Hsub in H1. lia.
Qed.

Lemma info_works info j fn d fr X I H w :
  info ∈ I → sound (mkServer X I H w) →
  works (λ s, (h_subs (holding I H) s + queued (w_broadcasts w) s)%nat) w (evs_send_info_full info j fn d fr w).
Proof.
  intros Hin S. apply send_sub_works; [apply S|by apply (copied_addressee X I H w info)|]. by apply (copied_sub X I H w info S).
Qed.

Lemma unref_sound c X I H H' w :
  H ≡ₚ c :: H' → sound (mkServer X I H w) → sound (mkServer X I H' (qev_unref c w)).
Proof.
  intros HH S. pose proof S as [Hok Hi]. cbn [core] in *.
  assert (E : ∀ d, uses d H = ((if decide (c = d) then 1 else 0) + uses d H')%nat).
  { intros d. rewrite (uses_perm d _ _ HH). by apply uses_cons. }
  destruct (held_client X I H w c S) as [cl Hc].
  { simpl. rewrite E. case_decide; [lia|done]. }
  split; cbn [core]; [|apply (rbs_all w); [unfold qev_unref; eauto with kept|done]].
  eapply (refs_server (holding I H)); [exact Hc|done| | |exact Hok].
  2: { intros d Hd. left. simpl in *. rewrite E. lia. }
  intros d. simpl. rewrite E. repeat case_decide; subst; lia.
Qed.

Lemma let_go_sound info X I I' H w :
  I ≡ₚ info :: I' → sound (mkServer X I H w) → sound (mkServer X I' H (evs_on_info_free info w)).
Proof.
  intros HI S. pose proof S as [Hok Hi]. cbn [core] in *. unfold evs_on_info_free.
  set (w1 := qev_unref (info_client info) w).
  destruct (copied_client X I H w info S) as [cl Hc]; [rewrite HI; by left|].
  set (h1 := mkHolds (h_subs (holding I H)) (h_clients (holding I' H))).
  assert (H1 : server_ok h1 tbl X None w1).
  { apply (refs_server (holding I H) tbl h1 X None _ cl); [done|done| | |done].
    2: { intros d Hd. left. rewrite (holding_client info I' I) by done. cbn [h1 h_clients] in Hd. lia. }
    intros d. cbn [h1 h_clients]. rewrite (holding_client info I' I) by done. repeat case_decide; subst; lia. }
  assert (Hw : works (λ s, (h_subs (holding I' H) s + queued (w_broadcasts w1) s)%nat) w1 (sub_unref (info_sub info) w1)).
  { apply unref_works. eapply evs_ok_eq; [|apply H1]. intros s. rewrite ext_inc_at. cbn [h1 h_subs].
    rewrite (holding_sub info I' I) by done. lia. }
  split; cbn [core closed copies pins].
  - apply (works_holds h1 tbl _ X None w1); [exact Hw|done|exact H1].
  - apply (rbs_all w1); [apply (ta_inbox _ _ (wk_tame _ _ _ Hw))|].
    apply (rbs_all w); [unfold w1, qev_unref; eauto with kept|done].
Qed.

(** ** Every step *)

Lemma kept_sound X I H w w' :
  server_ok (holding I H) tbl X None w' → kept (same inbox_view) w w' →
  sound (mkServer X I H w) → sound (mkServer X I H w').
Proof. intros H1 H2 [_ Hi]. split; [done|]. by apply (rbs_all w). Qed.

Lemma step_sound s s' : step s s' → sound s → sound s'.
Proof.
  intros Hst. destruct Hst as [c X I H w Hc|c data X I H w w' Hl Hf E Hr|X I H w w' E|now order X I H w Ho|
    c r X I H w Hc|c r X I H w Hcl HX|c X I H w HX Hr|ev x j X I H w Hr|c X I H w w' Ha Hr Hc|
    info we wj X I H w Hc Hs Hr r|success info X I H w Hin Hr Hp|info j fn d fr X I H w Hin|
    info X I I' H w HI|c X I H H' w Hc HH|c X I H H' w HH].
  - by apply open_sound.
  - by eapply read_sound.
  - intros S. pose proof S as [Hok _]. cbn [core] in *. destruct (tick_ok _ tbl X w Hok) as (w1 & E1 & H1).
    pose proof E as E2. unfold qev_on_tick in E2. rewrite E2 in E1. injection E1 as <-.
    apply (kept_sound X I H w); [done| |done]. exact (keep_tick (same inbox_view) same_queue w w' E).
  - intros [Hok Hi]. cbn [core] in *. split; cbn [core].
    + apply periodic_ok; [by apply now_ok|done].
    + apply (rbs_all (set_w_now (λ _, now) w)); [|by apply (rbs_all w); [apply same_clients|]].
      exact (keep_periodic (same inbox_view) _ order _ (kept_refl _ _)).
  - intros S. apply (kept_sound X I H w); [by apply close_ok; [done|apply S]| |done]. unfold qev_close. eauto with kept.
  - intros [Hok Hi]. split; cbn; [by apply on_close_ok|]. by apply (rbs_all w); [apply closed_same|].
  - intros [Hok Hi]. split; cbn; [by apply free_ok|by apply free_inboxes].
  - intros S. apply (kept_sound X I H w); [by apply broadcast_ok; [apply S|]| |done].
    exact (keep_broadcast (same inbox_view) same_queue w ev x j w (kept_refl _ w)).
  - intros S. eapply worked_sound; [|exact S]. eapply app_call_works; [apply S|done|by apply room_roomy|done].
  - by apply copy_sound.
  - intros S. eapply worked_sound; [|exact S]. by apply (answer_works success info X I H w).
  - intros S. eapply worked_sound; [|exact S]. by apply (info_works info j fn d fr X I H w).
  - by apply let_go_sound.
  - intros [Hok Hi]. pose proof Hc as (cl & Hcl & _). split; cbn [core]; [|apply (rbs_all w); [unfold qev_ref; eauto with kept|done]].
    eapply (refs_server (holding I H)); [exact Hcl|done| | |exact Hok].
    2: { intros d. simpl. rewrite (uses_perm d _ _ HH), uses_cons. case_decide; [subst; by right|by left]. }
    intros d. simpl. rewrite (uses_perm d _ _ HH), uses_cons. repeat case_decide; subst; lia.
  - intros S. by eapply unref_sound.
Qed.

Lemma steps_sound s s' : rtc step s s' → sound s → sound s'.
Proof. induction 1; eauto using step_sound. Qed.


End Server.

Section Sound.
Context {L : Libs} {C : Config} {A : Apps L} {LO : LibsOk L} {AS : AppsSound A}.

(** C1. From start-up on, whatever events the applications have registered,
    whatever clients send, in whatever pieces, and in whatever order
    quick-event and the applications make their calls, the server stays sound.
    It never reads or writes through a pointer to something that is gone, nor
    leaves a buffer. The references to a client are exactly the links to it and
    what applications hold, so that it is freed when the last poller, surrogate
    or application has let go of it and never before; the references to a
    subscription are those of its subscribers, of the queued broadcasts and of
    the copies that applications keep. What they hold is there, and who they
    hold can still be sent to. Links join a
    connection and a surrogate that both exist, the session tables hold open
    surrogates under their own ids, and only clients that have found a protocol
    subscribe. What has been closed subscribes to nothing and polls for nobody.
    Reading whatever comes next ends, and so does the next tick. *)
Theorem server_sound rs f seed now X I H w :
  Forall reg_ok rs →
  rtc step (mkServer ∅ [] [] (served rs f seed now)) (mkServer X I H w) →
  w_fault w = false ∧
  represents (served_events rs) (w_events w) ∧
  (∀ c cl, w_clients w !! c = Some cl →
     c_refs cl = Z.of_nat (links c w + uses c (info_client <$> I) + uses c H)) ∧
  (∀ s sub, w_subs w !! s = Some sub →
     refs sub = Z.of_nat (uses s (all_subs w) + queued (w_broadcasts w) s + uses s (info_sub <$> I))) ∧
  (∀ info, info ∈ I → listener (info_client info) w ∧ is_Some (w_subs w !! info_sub info)) ∧
  (∀ c, c ∈ H → listener c w) ∧
  (∀ c d, link c w = Some d →
     is_Some (w_clients w !! d) ∧ is_surrogate d w = negb (is_surrogate c w)) ∧
  (∀ i t sid s, w_tables w !! i = Some t → t !! sid = Some s → session i sid s X w) ∧
  (∀ c s, status c s w ≠ Absent → listener c w) ∧
  (∀ c, c ∈ X → ended c w) ∧
  (∀ c data, live c w → fits c data w → ∃ w', qev_on_read c (received c data w) = Some w') ∧
  (∃ w', qev_on_tick w = Some w').
Proof.
  intros Hrs Hst. destruct (served_done rs f seed now Hrs) as [He Es]. rewrite Es in Hst.
  apply (steps_sound (served_events rs)) in Hst; [|apply started_sound; [exact He|apply fair_new]].
  pose proof Hst as [Hok Hi]. cbn [core closed copies pins] in *.
  pose proof Hok as [O E F P K Li S D0 D _].
  split; [done|]. split; [done|]. split.
  { intros c cl Hc. specialize (P c). unfold spare in P. rewrite Hc in P. simpl in P. lia. }
  split; [intros s sub Hs; rewrite (cw_refs _ _ (eo_csub _ _ O) s sub Hs); simpl; lia|].
  split; [intros info Hin; split; [by eapply held_listens, copied_held|by eapply copied_sub]|].
  split.
  { intros c Hc. apply (held_listens _ X I H w c Hst). simpl. pose proof (uses_in c H Hc). lia. }
  split; [apply (pw_peer _ (eo_poll _ _ O))|]. split; [done|]. split; [done|]. split; [done|]. split.
  - intros c data _ Hfit. pose proof (received_ok c data w Hi Hfit c) as Hc.
    destruct (protocols_route_ends c _ Hc) as (w' & E' & _). by exists w'.
  - destruct (tick_ok _ _ X w Hok) as (w' & E' & _). by exists w'.
Qed.

End Sound.

(** ** Witnesses *)

#[local] Existing Instance config0.

(** The test application. *)
Abbreviation app0 := (without (L := libs0) 5 test_apps).

(** A client comes, shakes hands, has something echoed, subscribes, is told yes
    some time later, is looked after, and leaves. *)
Abbreviation run0 := (served (L := libs0) clienttest_regs (Reference.mkPool 0 0) 0 0).
Definition run1 : world (L := libs0) :=
  qev_on_open (L := libs0) 1 (set_w_clients <[1%positive := qev_client_new false]> run0).
Definition read_run (data : bytes) (w : world (L := libs0)) : world (L := libs0) :=
  default w (qev_on_read (L := libs0) (A := app0) 1 (received (L := libs0) 1 data w)).
Lemma read_run_eq data w :
  (if qev_on_read (L := libs0) (A := app0) 1 (received (L := libs0) 1 data w) then true else false) = true →
  qev_on_read (L := libs0) (A := app0) 1 (received (L := libs0) 1 data w) = Some (read_run data w).
Proof. unfold read_run. by destruct (qev_on_read _ _). Qed.

Definition echo_frame : bytes := be_split 8 21 ++ str "/clienttest/echo:7=hi".
Definition run2 : world (L := libs0) := read_run HANDSHAKE run1.
Definition run3 : world (L := libs0) := read_run echo_frame run2.
Definition on_data : bytes := str "/qio/on:9=" ++ quote "/clienttest/in-progress".
Definition on_frame : bytes := be_split 8 (Z.of_nat (length on_data)) ++ on_data.
Definition run4 : world (L := libs0) := read_run on_frame run3.
Definition asked : evs_on_info := mkInfo None None 1 1 9.
Definition run5 : world (L := libs0) := (evs_on_info_copy (L := libs0) asked true true run4).2.
Definition run6 : world (L := libs0) := evs_on_cb (L := libs0) (A := app0) true asked run5.
Definition run7 : world (L := libs0) := evs_on_info_free (L := libs0) asked run6.
Definition run8 : world (L := libs0) := qev_ref (L := libs0) 1 run7.
Definition run9 : world (L := libs0) :=
  periodic_run (L := libs0) [1%positive] (set_w_now (λ _, 70000000) run8).
Definition run10 : world (L := libs0) := qev_close (L := libs0) 1 HTTP_DONE run9.
Definition run11 : world (L := libs0) := qev_on_close (L := libs0) (A := app0) 1 HTTP_DONE run10.
Definition run12 : world (L := libs0) := qev_unref (L := libs0) 1 run11.
Definition run13 : world (L := libs0) := qev_client_free (L := libs0) 1 run12.

Lemma live_b c w :
  (match w_clients (L := libs0) w !! c with
   | Some cl => negb (c_surrogate cl) && negb (c_closing cl) | None => false end) = true → live (L := libs0) c w.
Proof.
  unfold live, is_surrogate, closing. destruct (w_clients w !! c) as [cl|]; [|done].
  intros H. apply andb_prop in H as [H1 H2]. apply negb_true_iff in H1, H2. split; [by eexists|done].
Qed.

Lemma present_b c w :
  (if w_clients (L := libs0) w !! c then true else false) = true → is_Some (w_clients (L := libs0) w !! c).
Proof. destruct (w_clients w !! c); [by eexists|done]. Qed.

Lemma subbed_b s w :
  (if w_subs (L := libs0) w !! s then true else false) = true → is_Some (w_subs (L := libs0) w !! s).
Proof. destruct (w_subs w !! s); [by eexists|done]. Qed.

Lemma status_b c s w :
  (match status (L := libs0) c s w with Active => false | _ => true end) = true → status (L := libs0) c s w ≠ Active.
Proof. by destruct (status c s w). Qed.

Lemma room_b I H w :
  (Z.of_nat (length I + size (w_clients (L := libs0) w) + length (w_broadcasts (L := libs0) w)) <? 2 ^ 32 - 16) = true →
  room (L := libs0) (holding I H) w.
Proof.
  intros Hb s. apply Z.ltb_lt in Hb. simpl. unfold uses.
  pose proof (length_filter (λ x, x = s) (info_sub <$> I)) as Hl. rewrite length_fmap in Hl. lia.
Qed.

Lemma listens_b c w :
  (match w_clients (L := libs0) w !! c with
   | Some cl => bool_decide (c_prot cl = Some protocol_raw) | None => false end) = true →
  listener (L := libs0) c w.
Proof.
  unfold listener. destruct (w_clients w !! c) as [cl|]; [|done]. intros H%bool_decide_eq_true_1.
  exists cl. split; [done|]. rewrite H. done.
Qed.

Abbreviation srv X I H w := (mkServer (L := libs0) X I H w).

Lemma run_steps :
  rtc (step (L := libs0) (A := app0)) (srv ∅ [] [] run0) (srv (({[1%positive]} ∪ ∅) ∖ {[1%positive]}) [] [] run13).
Proof.
  assert (Hb : ∀ d, forallb (λ b, (0 <=? b) && (b <? 256)) d = true → bytes_ok d).
  { intros d Hd. apply Forall_forall. intros b Hin. rewrite forallb_forall in Hd.
    apply list_elem_of_In, Hd in Hin. unfold byte_ok. lia. }
  assert (Hread : ∀ d w,
    (match w_clients (L := libs0) w !! 1%positive with
     | Some cl => negb (c_surrogate cl) && negb (c_closing cl) | None => false end) = true →
    forallb (λ b, (0 <=? b) && (b <? 256)) d = true →
    (Z.of_nat (length (rbuff (L := libs0) 1 w ++ d)) <? 2 ^ 64) = true →
    (if qev_on_read (L := libs0) (A := app0) 1 (received (L := libs0) 1 d w) then true else false) = true →
    (Z.of_nat (0 + size (w_clients (L := libs0) (read_run d w)) + length (w_broadcasts (L := libs0) (read_run d w)))
      <? 2 ^ 32 - 16) = true →
    step (L := libs0) (A := app0) (srv ∅ [] [] w) (srv ∅ [] [] (read_run d w))).
  { intros d w H1 H2 H3 H4 H5. apply (step_read (L := libs0) 1 d).
    - by apply live_b.
    - split; [by apply Hb|by apply Z.ltb_lt].
    - by apply read_run_eq.
    - by apply room_b. }
  apply (rtc_l _ _ (srv ∅ [] [] run1)); [unfold run1; by apply step_open|].
  apply (rtc_l _ _ (srv ∅ [] [] run2)); [unfold run2; apply Hread; reflexivity|].
  apply (rtc_l _ _ (srv ∅ [] [] run3)); [unfold run3; apply Hread; reflexivity|].
  apply (rtc_l _ _ (srv ∅ [] [] run4)); [unfold run4; apply Hread; reflexivity|].
  apply (rtc_l _ _ (srv ∅ [asked] [] run5)).
  { unfold run5. change asked with (evs_on_info_copy (L := libs0) asked true true run4).1 at 1.
    apply step_copy; [apply listens_b; reflexivity|apply subbed_b; reflexivity|apply room_b; reflexivity]. }
  apply (rtc_l _ _ (srv ∅ [asked] [] run6)).
  { unfold run6. apply step_answer; [by left|apply room_b; reflexivity|].
    intros _. apply status_b. reflexivity. }
  apply (rtc_l _ _ (srv ∅ [] [] run7)); [unfold run7; by apply step_let_go|].
  apply (rtc_l _ _ (srv ∅ [] [1%positive] run8)); [unfold run8; apply step_ref; [apply listens_b; reflexivity|done]|].
  apply (rtc_l _ _ (srv ∅ [] [1%positive] run9)).
  { unfold run9. apply step_periodic. constructor; [apply present_b; reflexivity|constructor]. }
  apply (rtc_l _ _ (srv ∅ [] [1%positive] run10)); [unfold run10; apply step_shut, present_b; reflexivity|].
  apply (rtc_l _ _ (srv ({[1%positive]} ∪ ∅) [] [1%positive] run11)); [unfold run11; apply step_close; [reflexivity|set_solver]|].
  apply (rtc_l _ _ (srv ({[1%positive]} ∪ ∅) [] [] run12)); [unfold run12; by apply step_unref|].
  apply (rtc_l _ _ (srv (({[1%positive]} ∪ ∅) ∖ {[1%positive]}) [] [] run13)); [unfold run13; apply step_free; [set_solver|reflexivity]|].
  apply rtc_refl.
Qed.

Lemma server_sound_witness :
  w_fault (L := libs0) run13 = false ∧ w_clients (L := libs0) run13 = ∅ ∧ w_subs (L := libs0) run13 = ∅ ∧
  out (L := libs0) 1 run3 =
    [OWrite HANDSHAKE] ++ writes (protocol_raw_frame (L := libs0) (str "/qio/callback/7") [] 1
      (cb_json (L := libs0) CODE_OK None (Some (str "hi")))) ∧
  (status (L := libs0) 1 1 run4, status (L := libs0) 1 1 run6) = (Pending, Active).
Proof.
  destruct (server_sound (L := libs0) (A := app0) clienttest_regs (Reference.mkPool 0 0) 0 0
    (({[1%positive]} ∪ ∅) ∖ {[1%positive]}) [] [] run13) as [H _].
  - repeat (constructor; [split; apply str_bytes|]). constructor.
  - exact run_steps.
  - split; [exact H|]. do 3 (split; [reflexivity|]). reflexivity.
Defined.
