(* ===== verification/Skeleton.v ===== *)
(** The sample application of the documentation, with its queue and its thread:
    src/docs/overview/app_skeleton.c. It keeps clients while their requests
    wait, and so shows how an application works with Server.v. *)
From Stdlib Require Import ZArith Lia String.
From stdpp Require Import functions base list gmap strings relations.
From S2P Require Import Prelude Types Libs Path EvsQuery State Callbacks Sub Apps ClientSub Config Raw WebSocket Poll Send Quiet Evs Broadcast Route Receive Http Keep Steady Works Protocols Startup ClientTest Loop Handshake Invariant Requests Reading Upkeep Server.

(** The JSON of quick-event, for integers. *)
Class JsonInt := {
  (** [qev_json_unpack(json, NULL, "%d", &i)], when it is QEV_JSON_OK *)
  qev_json_unpack_int : bytes → option Z;
  (** the text of [qev_json_pack(buff, "%d", i)] *)
  qev_json_pack_int : Z → bytes;
}.

(** A [gint64]. Overflow is not defined in C; here it wraps. *)
Definition i64 (z : Z) : Z := (z + 2 ^ 63) mod 2 ^ 64 - 2 ^ 63.

Section Skeleton.
Context {L : Libs} {C : Config} {J : JsonInt}.

Definition SK_PREFIX : bytes := str "/skeleton".

(** [struct pending] *)
Record pending := mkPending { babies_born : Z; p_client : cid; p_client_cb : Z }.

(** The statics. NULL in the queue tells the thread to exit. *)
Record skeleton := mkSkeleton {
  _thread : bool;
  _events : option (list (option pending));
  _ev_population : option event;
  _population : Z;
}.

Definition set_events (q : option (list (option pending))) (s : skeleton) : skeleton :=
  mkSkeleton (_thread s) q (_ev_population s) (_population s).
Definition set_population (n : Z) (s : skeleton) : skeleton :=
  mkSkeleton (_thread s) (_events s) (_ev_population s) n.
Definition set_thread (b : bool) (s : skeleton) : skeleton :=
  mkSkeleton b (_events s) (_ev_population s) (_population s).

(** [g_async_queue_push] *)
Definition push (p : option pending) (s : skeleton) (w : world) : skeleton * world :=
  match _events s with
  | None => (s, fault w)
  | Some q => (set_events (Some (q ++ [p])) s, w)
  end.

Definition _ev_baby_born_handler (client : cid) (ev_extra : bytes) (client_cb : Z) (json : bytes)
    (s : skeleton) (w : world) : evs_status * skeleton * world :=
  match qev_json_unpack_int json with
  | None =>
      (EVS_STATUS_HANDLED, s, evs_err_cb client client_cb CODE_BAD (Some (str "could not parse JSON")) None w)
  | Some n =>
      if n <=? 0 then
        (EVS_STATUS_HANDLED, s,
         evs_err_cb client client_cb CODE_BAD (Some (str "invalid number of babies born")) None w)
      else
        let '(s, w) := push (Some (mkPending n client client_cb)) s (qev_ref client w) in
        (EVS_STATUS_HANDLED, s, w)
  end.

(** One round of the loop of [_run]: [None] while it waits for the queue, and
    otherwise whether it goes on. *)
Definition _run_one (s : skeleton) (w : world) : option (bool * skeleton * world) :=
  match _events s with
  | None => Some (false, s, fault w)
  | Some [] => None
  | Some (None :: q) => Some (false, set_events (Some q) s, w)
  | Some (Some p :: q) =>
      let s := set_events (Some q) s in
      let s := set_population (i64 (_population s + babies_born p)) s in
      let w := evs_cb (p_client p) (p_client_cb p) None w in
      let w := qev_unref (p_client p) w in
      let w := match _ev_population s with
               | None => fault w
               | Some ev => evs_broadcast ev None (Some (qev_json_pack_int (_population s))) w
               end in
      Some (true, s, w)
  end.

Fixpoint _run (fuel : nat) (s : skeleton) (w : world) : option (skeleton * world) :=
  match fuel with
  | O => None
  | S fuel =>
      match _run_one s w with
      | None => None
      | Some (true, s, w) => _run fuel s w
      | Some (false, s, w) => Some (s, w)
      end
  end.

(** Its events, in order; its handler has the number 0. *)
Definition skeleton_regs : list registration :=
  [mkReg SK_PREFIX (str "/baby-born") (Some (app_handler 0)) (Some evs_no_on_ptr) None false;
   mkReg SK_PREFIX (str "/population") None None None false].

(** [population] is what the configuration says, or its default. *)
Definition DEFAULT_POPULATION : Z := 7000000000.
Definition skeleton_init (population : option Z) (w : world) : bool * skeleton * world :=
  let add (r : registration) w :=
    evs_add_handler (reg_prefix r) (reg_path r) (reg_handler r) (reg_on r) (reg_off r) (reg_children r) w in
  let '(evs, w) := foldl (λ '(evs, w) r, let '(ev, w) := add r w in (evs ++ [ev], w)) ([], w) skeleton_regs in
  (true, mkSkeleton true (Some []) (mjoin (evs !! 1%nat)) (default DEFAULT_POPULATION population), w).

(** [g_thread_join] returns when [_run] does. *)
Definition skeleton_exit (s : skeleton) (w : world) : option (bool * skeleton * world) :=
  let '(s, w) := push None s w in
  let fuel := S (length (default [] (_events s))) in
  '(s, w) ← _run fuel s w;
  Some (true, set_events None (set_thread false s), w).

Definition skeleton_test (w : world) : bool * world := (true, w).

(** Its handler as the server sees it: what it keeps comes after the call. *)
Definition skeleton_app : Apps L := {|
  app_handler_call := λ n c x cb j w,
    match n, qev_json_unpack_int j with
    | 0%nat, None => (EVS_STATUS_HANDLED, evs_err_cb c cb CODE_BAD (Some (str "could not parse JSON")) None w)
    | 0%nat, Some i =>
        (EVS_STATUS_HANDLED,
         if i <=? 0 then evs_err_cb c cb CODE_BAD (Some (str "invalid number of babies born")) None w else w)
    | _, _ => (EVS_STATUS_ERR, w)
    end;
  app_on_call := λ _ _ w, (EVS_STATUS_ERR, w);
  app_off_call := λ _ _ _ w, w;
  app_cb_call := λ _ _ _ _ _ w, (EVS_STATUS_ERR, w);
|}.

Lemma handler_split c x cb j s w q :
  _events s = Some q →
  _ev_baby_born_handler c x cb j s w =
    let r := app_handler_call (Apps := skeleton_app) 0 c x cb j w in
    match qev_json_unpack_int j with
    | Some n =>
        if n <=? 0 then (r.1, s, r.2)
        else (r.1, set_events (Some (q ++ [Some (mkPending n c cb)])) s, qev_ref c r.2)
    | None => (r.1, s, r.2)
    end.
Proof.
  intros Hq. unfold _ev_baby_born_handler. cbn. destruct (qev_json_unpack_int j) as [n|]; [|done].
  destruct (n <=? 0); [done|]. unfold push. by rewrite Hq.
Qed.

Lemma init_serves pop w :
  let r := skeleton_init pop w in
  r.1.1 = true ∧ r.2 = register skeleton_regs w ∧ _events r.1.2 = Some [] ∧
  _population r.1.2 = default DEFAULT_POPULATION pop.
Proof.
  unfold skeleton_init, register, skeleton_regs. cbn -[evs_add_handler str].
  destruct (evs_add_handler _ (str "/baby-born") _ _ _ _ w) as [e1 w1]. cbn -[evs_add_handler str].
  destruct (evs_add_handler _ (str "/population") _ _ _ _ w1) as [e2 w2].
  done.
Qed.

Lemma init_eq pop w :
  skeleton_init pop w = (true, (skeleton_init pop w).1.2, (skeleton_init pop w).2).
Proof.
  destruct (init_serves pop w) as [H _]. destruct (skeleton_init pop w) as [[b s] w']. cbn [fst snd] in *. by subst.
Qed.

End Skeleton.

(** ** With the server *)

Section System.
Context {L : Libs} {C : Config} {A : Apps L} {LO : LibsOk L} {AS : AppsSound A} {J : JsonInt}.

(** The requests that wait for the thread, the clients that they keep, and the
    babies not counted yet. *)
Definition waiting_births (s : skeleton) : list pending := omap id (default [] (_events s)).
Definition kept_clients (s : skeleton) : list cid := p_client <$> waiting_births s.
Definition sum (l : list Z) : Z := foldr Z.add 0 l.
Definition uncounted (s : skeleton) : Z := sum (babies_born <$> waiting_births s).

(** The application's functions among all other steps of the server, with what
    they accept. What else is kept of clients is [pins]. The handler's clients
    are those that it is called for. *)
Inductive skeleton_step : list Z → skeleton * server → skeleton * server → Prop :=
  | sk_server s X I H w X' I' H' w' :
      step (mkServer X I (kept_clients s ++ H) w) (mkServer X' I' (kept_clients s ++ H') w') →
      skeleton_step [] (s, mkServer X I H w) (s, mkServer X' I' H' w')
  | sk_born c x cb json n st s s' X I H w w' :
      listener c w → qev_json_unpack_int json = Some n → 0 < n →
      _ev_baby_born_handler c x cb json s w = (st, s', w') →
      skeleton_step [n] (s, mkServer X I H w) (s', mkServer X I H w')
  | sk_run go s s' X I H w w' :
      room (holding I (kept_clients s ++ H)) w →
      _run_one s w = Some (go, s', w') →
      skeleton_step [] (s, mkServer X I H w) (s', mkServer X I H w').

Inductive skeleton_steps : list Z → skeleton * server → skeleton * server → Prop :=
  | sks_refl x : skeleton_steps [] x x
  | sks_step l k x y z : skeleton_step l x y → skeleton_steps k y z → skeleton_steps (l ++ k) x z.

(** The server that they are part of. *)
Definition whole (x : skeleton * server) : server :=
  mkServer (closed x.2) (copies x.2) (kept_clients x.1 ++ pins x.2) (core x.2).

(** Nothing has told the thread to exit. *)
Record serving (s : skeleton) : Prop := {
  sv_queue : ∃ ps, _events s = Some (Some <$> ps);
  sv_event : is_Some (_ev_population s);
  sv_range : - 2 ^ 63 ≤ _population s < 2 ^ 63;
}.

Lemma omap_some {X} (l : list X) : omap id (Some <$> l) = l.
Proof. induction l as [|x l IH]; [done|]. simpl. f_equal. exact IH. Qed.

Lemma waiting_of s ps : _events s = Some (Some <$> ps) → waiting_births s = ps.
Proof.
  intros E. unfold waiting_births. rewrite E. apply omap_some.
Qed.

Lemma i64_range z : - 2 ^ 63 ≤ i64 z < 2 ^ 63.
Proof. unfold i64. pose proof (Z.mod_pos_bound (z + 2 ^ 63) (2 ^ 64)). lia. Qed.

Lemma i64_add a b : i64 (i64 a + b) = i64 (a + b).
Proof.
  unfold i64. f_equal. replace ((a + 2 ^ 63) mod 2 ^ 64 - 2 ^ 63 + b + 2 ^ 63) with ((a + 2 ^ 63) mod 2 ^ 64 + b) by lia.
  rewrite Zplus_mod_idemp_l. f_equal. lia.
Qed.

Lemma i64_small z : - 2 ^ 63 ≤ z < 2 ^ 63 → i64 z = z.
Proof. intros H. unfold i64. rewrite Z.mod_small by lia. lia. Qed.

Lemma sum_app l k : sum (l ++ k) = sum l + sum k.
Proof. induction l as [|n l IH]; simpl; lia. Qed.

Lemma room_same I H I' H' w w' :
  I' = I → size (w_clients w') = size (w_clients w) → w_broadcasts w' = w_broadcasts w →
  room (holding I H) w → room (holding I' H') w'.
Proof. intros -> E1 E2 Hr s. specialize (Hr s). simpl in *. by rewrite E1, E2. Qed.

(** What the application does is something that applications may do. *)
Lemma skeleton_refines tbl l x y :
  skeleton_step l x y → serving x.1 → sound tbl (whole x) →
  rtc step (whole x) (whole y) ∧ serving y.1 ∧
  i64 (_population y.1 + uncounted y.1) = i64 (_population x.1 + uncounted x.1 + sum l).
Proof.
  intros Hst [[ps Hq] [ev Hev] Hp] Hsd. destruct Hst as [s X I H w X' I' H' w' Hs|c x cb json n st s s' X I H w w' Hc Hj Hn E|
    go s s' X I H w w' Hr E]; cbn [fst] in *.
  - split; [by apply rtc_once|]. split; [by split; [exists ps|exists ev|]|]. f_equal. simpl. lia.
  - unfold _ev_baby_born_handler in E. rewrite Hj in E. assert (Hf : (n <=? 0) = false) by lia. rewrite Hf in E.
    unfold push in E. rewrite Hq in E. injection E as <- <- <-.
    set (s' := set_events _ s).
    assert (Hq' : _events s' = Some (Some <$> (ps ++ [mkPending n c cb]))) by (unfold s'; cbn [_events set_events]; by rewrite fmap_app).
    assert (Ew : waiting_births s' = waiting_births s ++ [mkPending n c cb])
      by (by rewrite (waiting_of _ _ Hq'), (waiting_of _ _ Hq)).
    split; [|split; [split; [|by exists ev|done]|]].
    + apply rtc_once. unfold whole. cbn [fst snd closed copies pins core]. apply step_ref; [done|]. unfold kept_clients.
      rewrite Ew, fmap_app. simpl.
      rewrite <- app_assoc. simpl. by rewrite Permutation_middle.
    + by exists (ps ++ [mkPending n c cb]).
    + unfold uncounted. cbn [fst]. rewrite Ew, fmap_app, sum_app. simpl. f_equal. lia.
  - unfold _run_one in E. rewrite Hq in E. destruct ps as [|p ps]; [done|].
    unfold set_population, set_events in E. cbn in E. rewrite Hev in E. injection E as <- <- <-.
    set (s' := mkSkeleton _ _ _ _). set (c := p_client p).
    assert (Ew : waiting_births s = p :: waiting_births s') by (rewrite (waiting_of s _ Hq); by rewrite (waiting_of s' ps)).
    assert (Ek : kept_clients s = c :: kept_clients s') by (unfold kept_clients; by rewrite Ew).
    split; [|split; [split; [by exists ps|by exists ev|apply i64_range]|]].
    + unfold whole. cbn [fst snd closed copies pins core]. rewrite Ek in *.
      set (w1 := evs_cb c (p_client_cb p) None w). set (w2 := qev_unref c w1).
      pose proof (keep_cb_full tame w c (p_client_cb p) CODE_OK None None None None None w _ (kept_refl _ w)) as T1.
      pose proof (keep_cb_full local w c (p_client_cb p) CODE_OK None None None None None w _ (kept_refl _ w)) as T2.
      assert (Z1 : size (w_clients w1) = size (w_clients w)) by (by apply tame_size).
      assert (B1 : w_broadcasts w1 = w_broadcasts w) by (by injection T2).
      assert (E2 : size (w_clients w2) = size (w_clients w1) ∧ w_broadcasts w2 = w_broadcasts w1).
      { unfold w2, qev_unref, upd_client. destruct (w_clients w1 !! c) as [cl|] eqn:Hcl; [|done]. simpl.
        split; [by apply map_size_insert_Some; eexists|done]. }
      destruct E2 as [Z2 B2].
      apply (rtc_l _ _ (mkServer X I (c :: kept_clients s' ++ H) w1)).
      { apply (step_call c); [|done|apply ac_cb]. unfold whole in Hsd. cbn [fst snd closed copies pins core] in Hsd.
        rewrite Ek in Hsd. apply listener_addressee, (held_listens tbl _ _ _ _ _ Hsd). simpl. rewrite uses_cons.
        rewrite decide_True by done. lia. }
      apply (rtc_l _ _ (mkServer X I (kept_clients s' ++ H) w2)); [by apply step_unref|].
      apply rtc_once, step_broadcast. eapply room_same; [done|by rewrite Z2|by rewrite B2|exact Hr].
    + unfold uncounted. cbn [fst]. rewrite Ew, fmap_cons.
      change (_population s') with (i64 (_population s + babies_born p)). rewrite i64_add. f_equal.
      unfold sum. cbn [foldr]. lia.
Qed.

Lemma skeletons_refine tbl l x y :
  skeleton_steps l x y → serving x.1 → sound tbl (whole x) →
  rtc step (whole x) (whole y) ∧ serving y.1 ∧
  i64 (_population y.1 + uncounted y.1) = i64 (_population x.1 + uncounted x.1 + sum l).
Proof.
  induction 1 as [x|l k x y z H1 _ IH]; intros Hs Hsd.
  - split; [apply rtc_refl|]. split; [done|]. f_equal. simpl. lia.
  - destruct (skeleton_refines tbl l x y H1 Hs Hsd) as (R1 & Hs1 & E1).
    destruct (IH Hs1 (steps_sound tbl _ _ R1 Hsd)) as (R2 & Hs2 & E2).
    split; [by etrans|]. split; [done|]. rewrite E2, sum_app, Z.add_assoc.
    rewrite <- (i64_add (_ + _) (sum k)), E1, i64_add. done.
Qed.

(** The thread counts what is in the queue, and ends. *)
Lemma run_drains ps s w :
  _events s = Some ((Some <$> ps) ++ [None]) → ∃ s' w', _run (S (length ps + 1)) s w = Some (s', w') ∧
    _population s' = foldl (λ n p, i64 (n + babies_born p)) (_population s) ps.
Proof.
  revert s w. induction ps as [|p ps IH]; intros s w Hs.
  - cbn [length Nat.add _run]. unfold _run_one. rewrite Hs. simpl. by eexists _, _.
  - cbn [length Nat.add]. remember (S (length ps + 1)) as fuel eqn:Hf. cbn [_run]. unfold _run_one. rewrite Hs.
    cbn [fmap list_fmap app]. apply IH. done.
Qed.

Lemma counted ps n : - 2 ^ 63 ≤ n < 2 ^ 63 →
  foldl (λ n p, i64 (n + babies_born p)) n ps = i64 (n + sum (babies_born <$> ps)).
Proof.
  revert n. induction ps as [|p ps IH]; intros n Hn; cbn [foldl].
  - rewrite i64_small; simpl; lia.
  - rewrite IH by apply i64_range. rewrite i64_add, fmap_cons. f_equal. unfold sum. cbn [foldr]. lia.
Qed.

Lemma exit_drains s w :
  serving s → ∃ s' w', skeleton_exit s w = Some (true, s', w') ∧ _thread s' = false ∧ _events s' = None ∧
    _population s' = i64 (_population s + uncounted s).
Proof.
  intros [[ps Hq] _ Hr]. unfold skeleton_exit, push. rewrite Hq. cbn [_events set_events default].
  match goal with |- context [_run _ ?S0 w] => destruct (run_drains ps S0 w eq_refl) as (s' & w' & E & Hp) end.
  change (length (id ((Some <$> ps) ++ [None]))) with (length ((Some <$> ps) ++ [@None pending])).
  rewrite length_app, length_fmap. simpl in E |- *. rewrite E. eexists _, w'.
  split; [reflexivity|]. split; [done|]. split; [done|]. simpl. rewrite Hp. simpl. rewrite counted by done.
  f_equal. f_equal. unfold uncounted. by rewrite (waiting_of _ _ Hq).
Qed.

End System.

(** ** Its functions are sound *)

Section App.
Context {L : Libs} {C : Config} {LO : LibsOk L} {J : JsonInt}.

#[export] Instance skeleton_app_sound : AppsSound skeleton_app.
Proof.
  split.
  - by split.
  - split; try (intros; apply frame_refl). intros f c x cb j w. cbn [app_handler_call skeleton_app].
    destruct f as [|f]; [|apply frame_refl].
    destruct (qev_json_unpack_int j) as [i|]; [destruct (i <=? 0); [|apply frame_refl]|];
      exact (keep_cb_full tame w c cb CODE_BAD _ None None None None w _ (kept_refl _ w)).
  - intros ext f c x cb j w Hok Hl Hr. cbn [app_handler_call skeleton_app].
    pose proof (λ e, cb_full_works ext c cb CODE_BAD e None None None None w Hok (listener_addressee c w Hl)) as H.
    destruct f as [|f]; [|by apply works_refl].
    destruct (qev_json_unpack_int j) as [i|]; [destruct (i <=? 0); [|by apply works_refl]|]; apply H.
  - intros ext f info w Hok _ _ _ _. by split; [apply works_refl|].
  - intros. by apply works_refl.
Qed.

End App.

Section Sound.
Context {L : Libs} {C : Config} {A : Apps L} {LO : LibsOk L} {AS : AppsSound A} {J : JsonInt}.

(** C15. The sample application is one that the server is sound with: whatever
    requests it accepts, whenever its thread answers them, and whatever else
    happens, nothing undefined is accessed, a client whose request waits is
    there and can be answered, and references to clients are the links to them, those of other
    applications, and one for each request that waits. No birth is lost or
    counted twice: the population and the births that wait are what there was
    and what was accepted, in 64 bits; and at exit the thread counts the rest
    and ends. *)
Theorem skeleton_sound rs f seed now pop s0 w0 l s X I H w :
  Forall reg_ok rs →
  skeleton_init pop (served rs f seed now) = (true, s0, w0) →
  _ev_population s0 ≠ None →
  - 2 ^ 63 ≤ default DEFAULT_POPULATION pop < 2 ^ 63 →
  skeleton_steps l (s0, mkServer ∅ [] [] w0) (s, mkServer X I H w) →
  w_fault w = false ∧
  (∀ p, p ∈ waiting_births s → listener (p_client p) w) ∧
  (∀ c cl, w_clients w !! c = Some cl →
     c_refs cl = Z.of_nat (links c w + uses c (info_client <$> I) + uses c H + uses c (kept_clients s))) ∧
  i64 (_population s + uncounted s) = i64 (default DEFAULT_POPULATION pop + sum l) ∧
  (∃ s' w', skeleton_exit s w = Some (true, s', w') ∧ _events s' = None ∧
     _population s' = i64 (default DEFAULT_POPULATION pop + sum l)).
Proof.
  intros Hrs Hi Hev Hp Hst. pose proof (init_serves pop (served rs f seed now)) as Hinit. rewrite Hi in Hinit.
  cbn [fst snd] in Hinit. destruct Hinit as (_ & Hw & Hq & Hp0).
  assert (Hs0 : serving s0).
  { split; [by exists []|by destruct (_ev_population s0); [eexists|]|by rewrite Hp0]. }
  assert (Hu : uncounted s0 = 0) by (unfold uncounted; by rewrite (waiting_of s0 [])).
  assert (Hw0 : w0 = served (rs ++ skeleton_regs) f seed now) by (rewrite served_app; exact Hw).
  assert (Hrs' : Forall reg_ok (rs ++ skeleton_regs)).
  { apply Forall_app. split; [done|]. repeat (constructor; [split; apply str_bytes|]). constructor. }
  destruct (served_done _ f seed now Hrs') as [He Es]. rewrite Es in Hw0.
  assert (Hk0 : kept_clients s0 = []) by (unfold kept_clients; by rewrite (waiting_of s0 [])).
  assert (Hsd : sound (served_events (rs ++ skeleton_regs)) (whole (s0, mkServer ∅ [] [] w0))).
  { unfold whole. cbn [fst snd closed copies pins core]. rewrite Hk0, Hw0. apply started_sound; [exact He|apply fair_new]. }
  destruct (skeletons_refine _ l _ _ Hst Hs0 Hsd) as (Hrtc & Hs & Hc). cbn [fst] in *.
  apply (steps_sound (served_events (rs ++ skeleton_regs))) in Hrtc; [|exact Hsd]. clear Hsd.
  unfold whole in Hrtc. cbn [fst snd closed copies pins core] in Hrtc.
  pose proof Hrtc as [Hok _]. cbn [core closed copies pins] in Hok.
  split; [apply Hok|]. split; [|split; [|split]].
  - intros p Hin. apply (held_listens _ X I (kept_clients s ++ H) w _ Hrtc). simpl.
    assert (Hn : uses (p_client p) (kept_clients s ++ H) ≠ 0%nat); [|lia].
    apply uses_in, elem_of_app. left. by apply list_elem_of_fmap_2.
  - intros c cl Hcl. pose proof (so_spare _ _ _ _ _ Hok c) as Hsp. unfold spare in Hsp. rewrite Hcl in Hsp.
    simpl in Hsp. unfold uses in *. rewrite filter_app, length_app in Hsp. lia.
  - rewrite Hc, Hp0, Hu. f_equal. lia.
  - destruct (exit_drains s w Hs) as (s' & w' & E & _ & E1 & E2). exists s', w'. split; [done|]. split; [done|].
    rewrite E2, Hc, Hp0, Hu. f_equal. lia.
Qed.

End Sound.

(** ** Witness *)

#[local] Existing Instance config0.

#[local] Instance json_int0 : JsonInt := {|
  qev_json_unpack_int l := if bool_decide (l = []) then None else if forallb is_digit l then Some (undec l) else None;
  qev_json_pack_int := dec;
|}.

Abbreviation sk_app := (skeleton_app (L := libs0)).

(** A client tells of three births, and is answered. *)
Abbreviation sk_boot := (skeleton_init (L := libs0) None (served (L := libs0) [] (Reference.mkPool 0 0) 0 0)).
Definition sk_w1 : world (L := libs0) :=
  qev_on_open (L := libs0) 1 (set_w_clients <[1%positive := qev_client_new false]> sk_boot.2).
Definition sk_w2 : world (L := libs0) :=
  default sk_w1 (qev_on_read (L := libs0) (A := sk_app) 1 (received (L := libs0) 1 HANDSHAKE sk_w1)).
Definition sk_born3 := _ev_baby_born_handler (L := libs0) 1 [] 7 (str "3") sk_boot.1.2 sk_w2.
Definition sk_last := default (false, sk_born3.1.2, sk_born3.2) (_run_one (L := libs0) sk_born3.1.2 sk_born3.2).

Abbreviation sk_state s w := (s, mkServer (L := libs0) ∅ [] [] w).

Lemma sk_run_steps :
  skeleton_steps (L := libs0) (A := sk_app) ([] ++ [] ++ [3] ++ [] ++ []) (sk_state sk_boot.1.2 sk_boot.2)
    (sk_state sk_last.1.2 sk_last.2).
Proof.
  apply (sks_step _ _ _ (sk_state sk_boot.1.2 sk_w1)).
  { apply sk_server. unfold sk_w1. by apply step_open. }
  apply (sks_step _ _ _ (sk_state sk_boot.1.2 sk_w2)).
  { apply sk_server. apply (step_read (L := libs0) 1 HANDSHAKE).
    - apply live_b. reflexivity.
    - split; [apply str_bytes|reflexivity].
    - unfold sk_w2. assert (E : (if qev_on_read (L := libs0) (A := sk_app) 1 (received (L := libs0) 1 HANDSHAKE sk_w1)
        then true else false) = true) by reflexivity.
      by destruct (qev_on_read _ _).
    - apply room_b. reflexivity. }
  apply (sks_step _ _ _ (sk_state sk_born3.1.2 sk_born3.2)).
  { apply (sk_born (L := libs0) 1 [] 7 (str "3") 3 sk_born3.1.1); [apply listens_b; reflexivity|reflexivity|lia|].
    unfold sk_born3. by destruct (_ev_baby_born_handler _ _ _ _ _ _) as [[? ?] ?]. }
  apply (sks_step _ _ _ (sk_state sk_last.1.2 sk_last.2)); [|apply sks_refl].
  apply (sk_run (L := libs0) sk_last.1.1).
  - apply room_b. reflexivity.
  - unfold sk_last. assert (E : (if _run_one (L := libs0) sk_born3.1.2 sk_born3.2 then true else false) = true) by reflexivity.
    destruct (_run_one _ _) as [[[? ?] ?]|]; done.
Qed.

Lemma skeleton_sound_witness :
  w_fault (L := libs0) sk_last.2 = false ∧ _population sk_last.1.2 = 7000000003 ∧
  (c_refs <$> w_clients (L := libs0) sk_born3.2 !! 1%positive) = Some 1 ∧
  (c_refs <$> w_clients (L := libs0) sk_last.2 !! 1%positive) = Some 0.
Proof.
  destruct (skeleton_sound (L := libs0) (A := sk_app) [] (Reference.mkPool 0 0) 0 0 None
    sk_boot.1.2 sk_boot.2 ([] ++ [] ++ [3] ++ [] ++ []) sk_last.1.2 ∅ [] [] sk_last.2) as [H _].
  - constructor.
  - apply init_eq.
  - assert (E : (if _ev_population sk_boot.1.2 then true else false) = true) by reflexivity.
    by destruct (_ev_population _).
  - simpl. unfold DEFAULT_POPULATION. lia.
  - exact sk_run_steps.
  - split; [exact H|]. split; [reflexivity|]. split; reflexivity.
Defined.
